(* ===== verification/_CoqProject ===== *)
-Q . S2P
Prelude.v
Async.v
JsNumber.v
JsString.v
Expect.v
TlvType.v
TlvCodec.v
TlvWriter.v
TlvReader.v
TlvParser.v
TlvElement.v
TlvFacts.v
TlvWriterFacts.v
TlvReaderFacts.v
TlvTheorems.v
Aead.v
MsgCodec.v
Message.v
MessageTheorems.v
Privacy.v
Runtime.v
SessionCryptoContext.v
Session.v
SessionManager.v
Exchange.v
ExchangeManager.v
MessagingFacts.v
MessagingTheorems.v
SecureMessage.v
JsValue.v
TlvWire.v
Spake.v
Pase.v
PaseFacts.v
PaseInvariant.v
PaseTheorems.v
PaseSessions.v
ImConst.v
ImCommand.v
Clusters.v
ExampleCerts.v
Ecdsa.v
Keys.v
Certificate.v
ClusterServers.v
InteractionModel.v
ImSpec.v
ImFacts.v
CommandFacts.v
ImTheorems.v
ClusterTypes.v
Store.v
Shell.v
StoreTheorems.v
Utilities.v
Discovery.v
Node.v
NodeTheorems.v
Tools.v
ToolsTheorems.v
Cli.v
CliTheorems.v
EndToEnd.v
CertificateTheorems.v
NocTheorems.v
Strangers.v
App.v
AppTheorems.v
