(* ===== verification/Prelude.v ===== *)
(** * matternode: a verification library

    matternode is a node of the Matter smart-home protocol in JavaScript.  A datagram
    that arrives on a UDP socket is parsed and deciphered by the message layer, handed
    to an exchange and from there to a protocol: the secure channel, which sets up
    sessions from a passcode (PASE), or the Interaction Model, which reads attributes
    and runs the commands of the clusters.  Payloads are TLV.  Beside this path there
    are a store of settings that survives a restart, the mDNS discovery of the node
    and a shell.

    This library translates that program, definition by definition, and proves what
    makes its parts correct, or where they are not, exactly what they do.  Numbers
    C1 to C40 below are those in front of the theorems.

    ** Language and conventions

    - This file: exceptions ([js_error], [outcome]); the monad [js S] of code that
      changes a state [S] and may throw, in which what was done before the exception
      stays done; [zoom], for code on a part of a state; buffers (lists of bytes) with
      the bounds of Node's [Buffer]; [keeps P m], "the code [m] preserves [P] whether
      it returns or throws", with the hint database [keeps]; the tactics and
      general lemmas.
    - JsNumber.v: numbers as IEEE-754 doubles given by their 64 bits, BigInts, conversion to
      32-bit floats.  JsString.v: strings as lists of UTF-16 units, UTF-8, hex.
    - Asynchronous functions are cut at every [await]: the rest is a job in a list
      of the state, which resumes in any order; timers are a list likewise.  Objects that
      the code shares are indices into lists of the state (sessions, exchanges, PASE
      sessions, promises, the arrays a TLV reader fills), so that an update through one
      reference is seen through all.
    - The random numbers that Node draws are a tape in the state ([runtime]), the clock
      is a number there, and the datagrams sent are recorded.

    ** Files

    TLV (src/tlv/).  TlvType.v, TlvCodec.v, TlvWriter.v, TlvReader.v, TlvParser.v:
    the code.  TlvElement.v: the abstract elements of the TLV format with their octets
    and their JSON, the specification.  TlvFacts.v, TlvWriterFacts.v,
    TlvReaderFacts.v, TlvTheorems.v: C5 the writer and C6 the reader refine it; C7, C8 round
    trips; C9 the reader's loop ends; C10 what it makes of input that is not whole, and what
    the reader holds after an exception; C11 what the length that is written in front of a
    string does to it; [small_bigint_refused] BigInts that are refused.

    Messages (src/message/).  MsgCodec.v, Message.v: headers and ciphers.
    MessageTheorems.v: C12 the header that is encoded is read back, and so are the protocol
    header and the flags ([protocol_header_roundtrip], [flags_roundtrip]);
    [set_field_frame] the setters; C13 the cipher's round trip, and that it succeeds on every
    message within the cipher's limit ([ccm_limit], 65535 octets); C14 nonces differ;
    [header_size_offset] the two computations of the header's size.  Privacy.v: the ciphers
    of src/crypto/Crypto.js and C15, the round trip of a message with the privacy flag.

    Sessions and exchanges (src/message/).  Runtime.v, SessionCryptoContext.v,
    Session.v, SessionManager.v, Exchange.v, ExchangeManager.v.  MessagingFacts.v,
    MessagingTheorems.v: C16 counters never repeat; C17 the two ends understand each
    other; C18 the tables stay well formed; C19, C20 dispatch;
    [unauthenticated_message_accepted] what happens to messages that do not authenticate,
    [short_datagram_throws] to short datagrams.

    PASE (src/protocols/session/).  Pase.v: the handlers, the state timer, the jobs.
    JsValue.v, TlvWire.v: what protocols do with received JSON.  PaseFacts.v,
    PaseInvariant.v, PaseTheorems.v: C25 two nodes that run the handshake agree
    on keys; C26 no session without confirmation; C27 every waiting session times out; C28
    the client does not look at the responder's confirmation.  PaseSessions.v: C24 the
    session that the responder sets up is not found by the messages of the client, unless
    both have chosen the same id ([pase_session_found]).

    Interaction Model (src/protocols/interaction_model/, src/clusters/).  ImConst.v,
    InteractionModel.v: paths, reading, dispatch of commands.  Clusters.v: attribute
    tables and command templates; ImCommand.v, ClusterServers.v: the command handlers;
    ExampleCerts.v, Ecdsa.v: example credentials and signatures.  ImSpec.v: the abstract
    reports and command effects.  ImFacts.v, CommandFacts.v, ImTheorems.v: [read_refines]
    reads and C29 commands refine it; [bad_path_loses_report] one bad path loses the whole
    report; C30
    every certificate request of a message gets the first one's answer;
    [attestation_response] and [csr_answered_later] the other handlers.
    ClusterTypes.v: C40 what a read attribute is reported with: a value of its declared type
    where the table has a value, null for the 38 of 48 attributes where it has none.

    Certificates (src/crypto/).  Certificate.v: Module Certificate (Certificate.js: times,
    PEM text, the generated test chain), Module CertificateTlv (CertificateTlv.js: from the
    TLV form to the parameters of the X.509 package), Module ChipCert (the tables of
    ChipCert.js).  CertificateTheorems.v: the certificates of the TLV format as an abstract
    type; C33 what they are decoded to; [pem_roundtrip] the PEM text is read back;
    [declaration_as_listed] the certification declaration.  NocTheorems.v: C34 a peer's
    encrypted AddNoc command is answered with success whatever its certificate is, and the
    certificate is looked at after the answer, or not at all when the answer cannot be sent.

    Node (src/Node.js, app.ts).  Store.v (src/platform/PersistantStore.js and the
    commands of src/shell/cmd_config.js), Shell.v (src/shell/Shell.js),
    StoreTheorems.v: C36 what a restart restores.  Discovery.v (src/net/Discovery.js): C37
    queries are answered, and an observer that hears the answers finds the node.  Node.v,
    NodeTheorems.v: all components in one state with the events of the process as a
    step relation; [node_invariant] its invariant, from the invariants of the parts.
    SecureMessage.v, EndToEnd.v: the layers composed; C1 an encrypted read request, C2
    an encrypted commissioning command and C31 an encrypted attestation request that reach
    the node are answered with one datagram, which the peer can read and which holds what
    the request asks for; C32 an encrypted CSR request is answered likewise when its job
    resumes.  An answer whose size the requester or the storage decides has to be within the
    cipher's limit ([one_message]); for the others the limit is proved.
    Tools.v: the shell's other commands (src/shell/cmd_msg.js, cmd_crypto.js, cmd_tlv.js,
    cmd_session.js, cmd_exchange.js, cmd_log.js, cmd_trace.js, cmd_x509.js, cli.js), their
    output and [UdpClient.send].  ToolsTheorems.v: C23 what [msg] sends is read back.
    Strangers.v: peers without a handshake; C21 a request that nobody has enciphered, and C22 one
    under the constant test keys and an id the node does not know, are served like a peer's;
    [handshake_open] the peer of a handshake with equal ids on both sides is one of C1.
    Cli.v (src/shell/cli.js, Shell.js): the command list, what a line prints, the listener on
    messages, and the process with the shell as a step relation.  CliTheorems.v:
    [process_invariant] the invariant in every state that process reaches; what blank lines,
    unknown words and commands do.
    App.v (app.ts, src/net/UdpServer.js, src/net/UdpClient.js): the whole process as an
    executable run over a list of events (what the sockets tell their listeners, messages of
    a parent process, exceptions in the callbacks of packages, and the events of Cli.v), with
    what ends it: an exit, an exception that
    leaves a callback, or a promise that is rejected.  AppTheorems.v: C3 the invariant of every
    state it reaches; C4 the datagrams with which anyone ends it; C35 the certificate that
    does.

    Others.  Async.v (src/async/): C38 the queue is first-in first-out.  Expect.v
    (src/expect/): a child process, the queue of its lines and the searches in it; C39 an
    expectation finds the first line that matches; [search_keeps_its_line] a search that
    timed out still takes a line.  Keys.v (src/crypto/GroupKey.js, CaseSession.js): derived
    keys and their sizes.  Utilities.v: Module Const (src/Const.js), Tracer
    (src/util/Tracer.js; [closed_file] the trace is one JSON array), Random
    (src/util/Random.js; [getRandomInt_range]), Mixin (src/util/Mixin.js), Netif
    (src/net/Netif.js), Echo (src/protocols/echo/), ClusterOnOff (src/clusters/onoff/), Udp
    (errors of the sockets, src/net/).

    ** Interfaces

    What Node's crypto, the SPAKE2+, elliptic, X.509 and multicast-dns packages,
    node-localstorage and pino do is not under src/; each is a class of operations, with a class of the laws that their
    documentation states where a theorem needs them: [Aead] and [Kdf] in Aead.v, [Spake],
    [Ecdsa], [X509], [LocalStorage], [Pino], [Yargs]; [StreamLaws] (Aead.v) is what the stream
    cipher of the privacy flag does, and [Mdns] (Discovery.v) what is heard of a response:
    what DNS records can hold arrives ([carriable]); of other responses, and of exceptions in
    the package, nothing is assumed.  The outbox of discovery is what it hands to the package.  [RegExp] (Expect.v) stands for regular expressions,
    whose sources are the tests'.  Each has a toy instance that satisfies its laws, at which
    the theorems are tried.  [KeptByMessaging] (PaseInvariant.v) is what the message
    layer promises to its clients: a property of its state that each of its operations
    keeps is kept by every protocol handler, since handlers change that state only
    through those operations.

    ** Fuel

    [decode_loop] of TlvReader.v has as much fuel as the buffer has octets; every
    iteration consumes an octet (C9), and more fuel changes nothing
    ([decode_of_run]).  [json_of] there has the size of the store, in which
    every array refers to later ones only.  [pad_hex] of Store.v adds at most the
    length asked for ([formatHex_spec]), and [match_lines] of Certificate.v has the length of
    the text ([match_lines_text]).  Everything else is structural.

    ** Not modelled

    - What the operating system does with a socket: the port the server's socket is bound to is
      in the state of App.v, and whether binding or sending fails is an event there.  Starting
      child processes.  What [process.version] and the list of interfaces hold are arguments.
    - What yargs makes of a command line ([Yargs] in Cli.v) is the argument of a command; what [JSON.parse]
      makes of the text of [tlv --encode] is given with the text; the text that
      [util.inspect] prints of an object is kept as the object.
    - Of the texts that the store makes numbers of, those of fractions, of numbers with an
      exponent or more than 15 digits, and of infinities ([js_Number] in Store.v).
    - src/crypto/Attestation.js holds a brace and nothing else; src/util/Logger.js is a
      configuration of pino.
    - The calls of logger and tracer inside the other components, so the trace file holds
      the entries of the shell alone.  Where one can throw, as the JSON text of a BigInt
      does, the model has the exception.
    - tools/ and zzz_generated/Clusters.js are generated; zzz_generated/Endpoints.json
      is modelled, as the data it is. *)
From stdpp Require Export base list gmap strings numbers relations.
From Stdlib Require Export ZArith Lia.
From Stdlib Require Strings.Byte.

#[global] Open Scope Z_scope.

(** ** Exceptions and the state-and-exception monad

    A JavaScript statement either completes or throws.  What a handler did
    before it threw stays done, so the monad of the stateful code returns the
    new state next to the outcome. *)

(** The exceptions the modelled code can meet.  [RangeError] and [TypeError]
    are those of the language and of [Buffer]; [ReferenceError] is the use of an
    unbound name; [Thrown s] is [throw(s)] with a string or an [Error] carrying
    it; [OutOfModel] marks an argument that the typed interface of the code
    does not admit and that the model does not follow. *)
Inductive js_error : Type :=
  | RangeError
  | TypeError
  | ReferenceError
  | Thrown (msg : string)
  | OutOfModel.

Inductive outcome (A : Type) : Type :=
  | Ret (a : A)
  | Throw (e : js_error).
Arguments Ret {A} a.
Arguments Throw {A} e.

#[export] Instance js_error_eq_dec : EqDecision js_error.
Proof. solve_decision. Defined.

#[export] Instance outcome_eq_dec {A} `{EqDecision A} : EqDecision (outcome A).
Proof. solve_decision. Defined.

#[export] Instance outcome_ret : MRet outcome := @Ret.

#[export] Instance outcome_bind : MBind outcome := λ A B f m,
  match m with Ret a => f a | Throw e => Throw e end.

#[export] Instance outcome_fmap : FMap outcome := λ A B f m,
  match m with Ret a => Ret (f a) | Throw e => Throw e end.

Definition is_ret {A} (o : outcome A) : bool :=
  match o with Ret _ => true | Throw _ => false end.

(** [js S A]: a computation over a state [S]. *)
Definition js (S A : Type) : Type := S → S * outcome A.

#[export] Instance js_ret {S} : MRet (js S) := λ A a s, (s, Ret a).

#[export] Instance js_bind {S} : MBind (js S) := λ A B f m s,
  match m s with
  | (s', Ret a) => f a s'
  | (s', Throw e) => (s', Throw e)
  end.

Definition js_get {S} : js S S := λ s, (s, Ret s).
Definition js_put {S} (s' : S) : js S unit := λ _, (s', Ret tt).
Definition js_modify {S} (f : S → S) : js S unit := λ s, (f s, Ret tt).
Definition js_throw {S A} (e : js_error) : js S A := λ s, (s, Throw e).
Definition js_lift {S A} (o : outcome A) : js S A := λ s, (s, o).

(** Runs a computation on a part of a larger state. *)
Definition zoom {S T A} (view : S → T) (put : T → S → S) (m : js T A) : js S A := λ s,
  let '(t, o) := m (view s) in (put t s, o).

(** [array.forEach(f)]: the first exception ends the iteration. *)
Section for_each.
Context {S A : Type} (f : A → js S unit).

Fixpoint js_forEach (l : list A) : js S unit :=
  match l with
  | [] => mret tt
  | a :: l' => f a ;; js_forEach l'
  end.
End for_each.

(** ** Bytes and little-endian integers *)

Abbreviation buffer := (list Byte.byte).

#[export] Instance byte_eq_dec : EqDecision Byte.byte := Byte.byte_eq_dec.

Definition byte_Z (b : Byte.byte) : Z := Z.of_N (Byte.to_N b).

(** The byte a number is stored as: its value modulo 256. *)
Definition Z_byte (z : Z) : Byte.byte :=
  match Byte.of_N (Z.to_N (z `mod` 256)) with
  | Some b => b
  | None => Byte.x00
  end.

Fixpoint le_bytes (n : nat) (z : Z) : buffer :=
  match n with
  | O => []
  | S n' => Z_byte z :: le_bytes n' (z `div` 256)
  end.

Fixpoint le_Z (b : buffer) : Z :=
  match b with
  | [] => 0
  | x :: b' => byte_Z x + 256 * le_Z b'
  end.

(** Two's complement reading of an unsigned value of [w] bits. *)
Definition signed_of (w : Z) (z : Z) : Z :=
  if z <? 2 ^ (w - 1) then z else z - 2 ^ w.

(** ** Node's [Buffer], as far as the code uses it *)

(** A relative index as [subarray] takes it: negative counts from the end,
    and both ends are clamped to the buffer. *)
Definition rel_index (len i : Z) : nat :=
  Z.to_nat (if i <? 0 then Z.max 0 (len + i) else Z.min i len).

Definition blen (b : buffer) : Z := Z.of_nat (length b).

Definition subarray (b : buffer) (i j : Z) : buffer :=
  take (rel_index (blen b) j - rel_index (blen b) i)%nat
       (drop (rel_index (blen b) i) b).

Definition subarray_from (b : buffer) (i : Z) : buffer :=
  subarray b i (blen b).

(** [Buffer.alloc(n)] *)
Definition alloc (n : nat) : buffer := replicate n Byte.x00.

(** [readUIntLE], [readUInt8], ...: out of bounds is a RangeError. *)
Definition read_uint_le (n : nat) (b : buffer) (off : Z) : outcome Z :=
  if (0 <=? off) && (off + Z.of_nat n <=? blen b)
  then Ret (le_Z (take n (drop (Z.to_nat off) b)))
  else Throw RangeError.

Definition read_int_le (n : nat) (b : buffer) (off : Z) : outcome Z :=
  signed_of (8 * Z.of_nat n) <$> read_uint_le n b off.

(** Overwrites the bytes from [off] on; only used within bounds. *)
Definition splice (b : buffer) (off : nat) (w : buffer) : buffer :=
  take off b ++ w ++ drop (off + length w) b.

(** Raw store of the low [n] bytes of [v], bounds checked. *)
Definition store_le (n : nat) (v : Z) (b : buffer) (off : Z) : outcome buffer :=
  if (0 <=? off) && (off + Z.of_nat n <=? blen b)
  then Ret (splice b (Z.to_nat off) (le_bytes n v))
  else Throw RangeError.

(** [writeUInt8], [writeUInt16LE], ...: a value out of the width is a RangeError. *)
Definition write_uint_le (n : nat) (v : Z) (b : buffer) (off : Z) : outcome buffer :=
  if (0 <=? v) && (v <? 256 ^ Z.of_nat n) then store_le n v b off
  else Throw RangeError.

Definition write_int_le (n : nat) (v : Z) (b : buffer) (off : Z) : outcome buffer :=
  if (- (256 ^ Z.of_nat n `div` 2) <=? v) && (v <? 256 ^ Z.of_nat n `div` 2)
  then store_le n v b off
  else Throw RangeError.

(** Big-endian reads and writes are the little-endian ones, reversed. *)
Definition be_bytes (n : nat) (z : Z) : buffer := reverse (le_bytes n z).
Definition be_Z (b : buffer) : Z := le_Z (reverse b).

(** ** Lemmas: the monads *)

Create HintDb js discriminated.
Create Rewrite HintDb js.

Section monad_laws.
Context {S A B : Type}.

Lemma js_bind_ret (a : A) (f : A → js S B) : (mret a ≫= f) = f a.
Proof. reflexivity. Qed.

Lemma js_bind_lift (a : A) (f : A → js S B) s : (js_lift (Ret a) ≫= f) s = f a s.
Proof. reflexivity. Qed.

Lemma js_bind_eq (m : js S A) (f : A → js S B) s s' a :
  m s = (s', Ret a) → (m ≫= f) s = f a s'.
Proof. intros H. unfold mbind, js_bind. by rewrite H. Qed.

Lemma js_bind_throw (m : js S A) (f : A → js S B) s s' e :
  m s = (s', Throw e) → (m ≫= f) s = (s', Throw e).
Proof. intros H. unfold mbind, js_bind. by rewrite H. Qed.

Lemma Ret_inj (a b : A) : Ret a = Ret b → a = b.
Proof. congruence. Qed.

Lemma outcome_bind_Ret (m : outcome A) (f : A → outcome B) b :
  m ≫= f = Ret b ↔ ∃ a, m = Ret a ∧ f a = Ret b.
Proof.
  destruct m as [a|e]; cbn; split.
  - intros H. by exists a.
  - intros (a' & H & Hf). apply Ret_inj in H. by subst.
  - done.
  - by intros (? & ? & ?).
Qed.

Lemma js_forEach_app (f : A → js S unit) l1 l2 s :
  js_forEach f (l1 ++ l2) s = (js_forEach f l1 ;; js_forEach f l2) s.
Proof.
  revert s. induction l1 as [|a l1 IH]; intros s; [done|].
  cbn. unfold mbind, js_bind in *. destruct (f a s) as [s1 [?|?]]; [|done].
  rewrite IH. done.
Qed.

(** An invariant kept by every iteration, exceptions included, is kept by the
    whole loop. *)
Lemma js_forEach_inv (P : S → Prop) (f : A → js S unit) l s :
  (∀ a s, P s → P (f a s).1) → P s → P (js_forEach f l s).1.
Proof.
  intros Hf. revert s. induction l as [|a l IH]; intros s Hs; [done|].
  cbn. unfold mbind, js_bind. pose proof (Hf a s Hs) as H.
  destruct (f a s) as [s1 [?|?]]; [|done]. by apply IH.
Qed.
End monad_laws.

(** Inverts the success of a chain of [outcome] binds. *)
Ltac inv_ret :=
  repeat match goal with
  | H : Ret _ = Ret _ |- _ => apply Ret_inj in H; subst
  | H : Throw _ = Ret _ |- _ => discriminate H
  | H : Ret _ = Throw _ |- _ => discriminate H
  | H : _ ≫= _ = Ret _ |- _ => apply outcome_bind_Ret in H as (? & ? & ?)
  end.

(** Case split on the tests a definition makes, arithmetic facts exposed. *)
Ltac zbool :=
  repeat match goal with
  | H : context [_ && _ = true] |- _ => rewrite andb_true_iff in H
  | H : context [_ && _ = false] |- _ => rewrite andb_false_iff in H
  | H : context [_ || _ = true] |- _ => rewrite orb_true_iff in H
  | H : context [_ || _ = false] |- _ => rewrite orb_false_iff in H
  | H : context [(_ <? _) = true] |- _ => rewrite Z.ltb_lt in H
  | H : context [(_ <? _) = false] |- _ => rewrite Z.ltb_ge in H
  | H : context [(_ <=? _) = true] |- _ => rewrite Z.leb_le in H
  | H : context [(_ <=? _) = false] |- _ => rewrite Z.leb_gt in H
  | H : context [(_ =? _) = true] |- _ => rewrite Z.eqb_eq in H
  | H : context [(_ =? _) = false] |- _ => rewrite Z.eqb_neq in H
  end.

Ltac zcases :=
  repeat match goal with
  | |- context [if ?b then _ else _] =>
      lazymatch b with
      | context [if _ then _ else _] => fail
      | _ => let E := fresh "E" in destruct b eqn:E
      end
  end; zbool.

(** ** Lemmas: bytes *)

Lemma byte_Z_range b : 0 <= byte_Z b < 256.
Proof.
  unfold byte_Z. pose proof (Byte.to_N_bounded b). lia.
Qed.

Lemma byte_Z_Z_byte z : byte_Z (Z_byte z) = z `mod` 256.
Proof.
  unfold Z_byte, byte_Z.
  pose proof (Z.mod_pos_bound z 256 eq_refl) as Hb.
  destruct (Byte.of_N _) as [b|] eqn:E.
  - apply Byte.to_of_N in E. rewrite E. lia.
  - apply Byte.of_N_None_iff in E. lia.
Qed.

Lemma byte_Z_inj b1 b2 : byte_Z b1 = byte_Z b2 → b1 = b2.
Proof.
  unfold byte_Z. intros H.
  assert (Byte.to_N b1 = Byte.to_N b2) as H' by lia.
  pose proof (Byte.of_to_N b1) as E1. pose proof (Byte.of_to_N b2) as E2.
  congruence.
Qed.

Lemma Z_byte_byte_Z b : Z_byte (byte_Z b) = b.
Proof.
  apply byte_Z_inj. rewrite byte_Z_Z_byte. apply Z.mod_small, byte_Z_range.
Qed.

Lemma byte_Z_small z : 0 <= z < 256 → byte_Z (Z_byte z) = z.
Proof. intros ?. rewrite byte_Z_Z_byte. by apply Z.mod_small. Qed.

Lemma length_le_bytes n z : length (le_bytes n z) = n.
Proof. revert z. induction n as [|n IH]; intros z; cbn; [done|by rewrite IH]. Qed.

Lemma pow256_S n : 256 ^ Z.of_nat (S n) = 256 * 256 ^ Z.of_nat n.
Proof. rewrite Nat2Z.inj_succ, Z.pow_succ_r; lia. Qed.

Lemma pow256_pos n : 0 < 256 ^ Z.of_nat n.
Proof. apply Z.pow_pos_nonneg; lia. Qed.

(** Writing then reading a little-endian integer keeps it modulo the width. *)
Lemma le_Z_le_bytes n z : le_Z (le_bytes n z) = z `mod` 256 ^ Z.of_nat n.
Proof.
  revert z. induction n as [|n IH]; intros z.
  - cbn. by rewrite Z.mod_1_r.
  - cbn [le_bytes le_Z]. rewrite IH, byte_Z_Z_byte, pow256_S.
    pose proof (pow256_pos n). rewrite Z.rem_mul_r by lia. lia.
Qed.

Lemma le_Z_le_bytes_small n z :
  0 <= z < 256 ^ Z.of_nat n → le_Z (le_bytes n z) = z.
Proof. intros ?. rewrite le_Z_le_bytes. by apply Z.mod_small. Qed.

Lemma le_Z_bound b : 0 <= le_Z b < 256 ^ blen b.
Proof.
  unfold blen. induction b as [|x b IH]; [done|].
  cbn [le_Z length]. rewrite pow256_S. pose proof (byte_Z_range x). lia.
Qed.

Lemma le_bytes_le_Z b : le_bytes (length b) (le_Z b) = b.
Proof.
  induction b as [|x b IH]; [done|]. cbn.
  pose proof (byte_Z_range x). f_equal.
  - apply byte_Z_inj. rewrite byte_Z_Z_byte, Z.mul_comm, Z_mod_plus_full.
    by apply Z.mod_small.
  - rewrite Z.mul_comm, Z_div_plus_full, Z.div_small by lia. done.
Qed.

Lemma le_bytes_mod n z : le_bytes n z = le_bytes n (z `mod` 256 ^ Z.of_nat n).
Proof.
  rewrite <- (le_bytes_le_Z (le_bytes n z)) at 1.
  by rewrite length_le_bytes, le_Z_le_bytes.
Qed.

(** Reading back a two's complement value that was stored modulo the width. *)
Lemma signed_of_mod w z :
  0 < w → - 2 ^ (w - 1) <= z < 2 ^ (w - 1) → signed_of w (z `mod` 2 ^ w) = z.
Proof.
  intros Hw Hz. unfold signed_of.
  assert (2 ^ w = 2 * 2 ^ (w - 1)) as Hp.
  { rewrite <- Z.pow_succ_r by lia. f_equal. lia. }
  destruct (decide (0 <= z)).
  - rewrite Z.mod_small by lia. zcases; lia.
  - rewrite <- (Z_mod_plus_full z 1 (2 ^ w)), Z.mod_small by lia. zcases; lia.
Qed.

Lemma blen_app b1 b2 : blen (b1 ++ b2) = blen b1 + blen b2.
Proof. unfold blen. rewrite length_app. lia. Qed.

Lemma blen_nonneg b : 0 <= blen b.
Proof. unfold blen. lia. Qed.

Lemma blen_le_bytes n z : blen (le_bytes n z) = Z.of_nat n.
Proof. unfold blen. by rewrite length_le_bytes. Qed.

Lemma blen_alloc n : blen (alloc n) = Z.of_nat n.
Proof. unfold blen, alloc. by rewrite length_replicate. Qed.

Lemma blen_cons x b : blen (x :: b) = 1 + blen b.
Proof. unfold blen. cbn [length]. lia. Qed.

Lemma blen_nil : blen [] = 0.
Proof. done. Qed.

(** ** Lemmas: slices of a buffer *)

Lemma subarray_nonneg b i j :
  0 <= i → 0 <= j →
  subarray b i j = take (Z.to_nat j - Z.to_nat i) (drop (Z.to_nat i) b).
Proof.
  intros Hi Hj. unfold subarray, rel_index.
  destruct (Z.ltb_spec j 0), (Z.ltb_spec i 0); try lia.
  destruct (decide (i <= blen b)).
  - rewrite (Z.min_l i) by lia. destruct (decide (j <= blen b)).
    + by rewrite Z.min_l by lia.
    + rewrite Z.min_r by lia. unfold blen in *.
      rewrite !take_ge; [done| |]; rewrite length_drop; lia.
  - rewrite (Z.min_r i) by lia. unfold blen in *.
    rewrite !drop_ge by lia. by rewrite !take_nil.
Qed.

Lemma subarray_from_nonneg b i :
  0 <= i → subarray_from b i = drop (Z.to_nat i) b.
Proof.
  intros Hi. unfold subarray_from. rewrite subarray_nonneg by (unfold blen; lia).
  rewrite take_ge; [done|]. rewrite length_drop. unfold blen. lia.
Qed.

(** The two halves [subarray(0,i)] and [subarray(i)] make the buffer again. *)
Lemma subarray_split b i :
  0 <= i → subarray b 0 i ++ subarray_from b i = b.
Proof.
  intros Hi. rewrite subarray_from_nonneg, subarray_nonneg by lia.
  rewrite drop_0, Nat.sub_0_r. apply take_drop.
Qed.

Lemma subarray_app_l b1 b2 : subarray (b1 ++ b2) 0 (blen b1) = b1.
Proof.
  rewrite subarray_nonneg by (unfold blen; lia). cbn. rewrite Nat.sub_0_r.
  unfold blen. rewrite Nat2Z.id. apply take_app_length.
Qed.

Lemma subarray_app_mid b1 b2 b3 :
  subarray (b1 ++ b2 ++ b3) (blen b1) (blen b1 + blen b2) = b2.
Proof.
  rewrite subarray_nonneg by (unfold blen; lia). unfold blen.
  rewrite Nat2Z.id, drop_app_length.
  replace (Z.to_nat _ - length b1)%nat with (length b2) by lia.
  apply take_app_length.
Qed.

Lemma subarray_from_app b1 b2 : subarray_from (b1 ++ b2) (blen b1) = b2.
Proof.
  rewrite subarray_from_nonneg by (unfold blen; lia).
  unfold blen. rewrite Nat2Z.id. apply drop_app_length.
Qed.

Lemma subarray_from_prefix n b rest : n = blen b → subarray_from (b ++ rest) n = rest.
Proof. intros ->. apply subarray_from_app. Qed.

(** The form the decoders use: reading right behind a known prefix. *)
Lemma read_uint_le_app n b1 b2 v b3 :
  b2 = le_bytes n v → 0 <= v < 256 ^ Z.of_nat n →
  read_uint_le n (b1 ++ b2 ++ b3) (blen b1) = Ret v.
Proof.
  intros -> Hv. unfold read_uint_le. rewrite !blen_app, blen_le_bytes.
  pose proof (blen_nonneg b1). pose proof (blen_nonneg b3).
  zcases; [|lia]. f_equal. unfold blen. rewrite Nat2Z.id, drop_app_length.
  rewrite take_app_length' by (by rewrite length_le_bytes).
  by apply le_Z_le_bytes_small.
Qed.

Lemma read_uint_le_head n v b :
  0 <= v < 256 ^ Z.of_nat n → read_uint_le n (le_bytes n v ++ b) 0 = Ret v.
Proof. intros ?. by apply (read_uint_le_app n [] (le_bytes n v) v b). Qed.

Lemma read_int_le_head n v b :
  (0 < n)%nat →
  - (2 ^ (8 * Z.of_nat n - 1)) <= v < 2 ^ (8 * Z.of_nat n - 1) →
  read_int_le n (le_bytes n v ++ b) 0 = Ret v.
Proof.
  intros Hn Hv. unfold read_int_le. rewrite le_bytes_mod, read_uint_le_head.
  - cbn. f_equal.
    replace (256 ^ Z.of_nat n) with (2 ^ (8 * Z.of_nat n)).
    + apply signed_of_mod; lia.
    + rewrite Z.pow_mul_r by lia. done.
  - apply Z.mod_pos_bound, pow256_pos.
Qed.

Lemma read_uint_le_ret n b off v :
  read_uint_le n b off = Ret v →
  0 <= off ∧ off + Z.of_nat n <= blen b ∧ 0 <= v < 256 ^ Z.of_nat n.
Proof.
  unfold read_uint_le. intros H. destruct ((0 <=? off) && _) eqn:E; [|done].
  zbool. inv_ret. split_and!; [lia|lia|..].
  all: pose proof (le_Z_bound (take n (drop (Z.to_nat off) b))) as Hb;
       unfold blen in *; rewrite length_take, length_drop in Hb;
       rewrite Nat.min_l in Hb by lia; lia.
Qed.

(** Storing into a buffer: the length stays, and what was stored reads back. *)
Lemma length_splice b off w :
  (off + length w <= length b)%nat → length (splice b off w) = length b.
Proof.
  intros ?. unfold splice. rewrite !length_app, length_take, length_drop. lia.
Qed.

Lemma splice_app b1 b2 b3 w :
  length w = length b2 → splice (b1 ++ b2 ++ b3) (length b1) w = b1 ++ w ++ b3.
Proof.
  intros H. unfold splice. rewrite take_app_length. f_equal. f_equal.
  rewrite H, (app_assoc b1 b2 b3). apply drop_app_length'. by rewrite length_app.
Qed.

Lemma store_le_ret n v b off b' :
  store_le n v b off = Ret b' →
  0 <= off ∧ off + Z.of_nat n <= blen b ∧ b' = splice b (Z.to_nat off) (le_bytes n v).
Proof. unfold store_le. intros H. destruct (_ && _) eqn:E; [|done]. zbool. inv_ret. split_and!; [lia|lia|done]. Qed.

Lemma store_le_length n v b off b' :
  store_le n v b off = Ret b' → length b' = length b.
Proof.
  intros (?&?&->)%store_le_ret. apply length_splice.
  rewrite length_le_bytes. unfold blen in *. lia.
Qed.

Lemma store_le_app n v b1 b2 b3 :
  length b2 = n →
  store_le n v (b1 ++ b2 ++ b3) (blen b1) = Ret (b1 ++ le_bytes n v ++ b3).
Proof.
  intros Hn. unfold store_le. rewrite !blen_app.
  pose proof (blen_nonneg b1). pose proof (blen_nonneg b3).
  zcases; [|unfold blen in *; lia]. f_equal. unfold blen. rewrite Nat2Z.id.
  apply splice_app. by rewrite length_le_bytes.
Qed.

#[export] Hint Resolve byte_Z_range le_Z_bound blen_nonneg pow256_pos : js.
#[export] Hint Rewrite blen_app blen_cons blen_nil blen_le_bytes blen_alloc
  length_le_bytes : js.

(** ** Lemmas: which exceptions a computation can raise *)

Definition throws_only {A} (P : js_error → Prop) (o : outcome A) : Prop :=
  match o with Ret _ => True | Throw e => P e end.

Create HintDb throws discriminated.

Lemma throws_ret {A} P (a : A) : throws_only P (Ret a).
Proof. done. Qed.

Lemma throws_bind {A B} P (m : outcome A) (f : A → outcome B) :
  throws_only P m → (∀ a, throws_only P (f a)) → throws_only P (m ≫= f).
Proof. intros Hm Hf. destruct m; [apply Hf|done]. Qed.

Lemma throws_fmap {A B} P (f : A → B) (m : outcome A) :
  throws_only P m → throws_only P (f <$> m).
Proof. by destruct m. Qed.

Lemma throws_if {A} P (b : bool) (x y : outcome A) :
  throws_only P x → throws_only P y → throws_only P (if b then x else y).
Proof. by destruct b. Qed.

Lemma throws_read_uint P n b off : P RangeError → throws_only P (read_uint_le n b off).
Proof. intros H. unfold read_uint_le. by destruct (_ && _). Qed.

Lemma throws_read_int P n b off : P RangeError → throws_only P (read_int_le n b off).
Proof. intros H. by apply throws_fmap, throws_read_uint. Qed.

#[export] Hint Resolve throws_ret throws_bind throws_fmap throws_if throws_read_uint
  throws_read_int : throws.

(** ** Lemmas: runs and invariants of stateful computations *)

Section js_runs.
Context {S A B : Type}.

Lemma js_bind_inv (m : js S A) (f : A → js S B) s s' b :
  (m ≫= f) s = (s', Ret b) → ∃ s1 a, m s = (s1, Ret a) ∧ f a s1 = (s', Ret b).
Proof.
  unfold mbind, js_bind. destruct (m s) as [s1 [a|e]]; intros H; [by exists s1, a|done].
Qed.

Lemma js_lift_inv (o : outcome A) (s s' : S) a :
  js_lift o s = (s', Ret a) → s' = s ∧ o = Ret a.
Proof. intros H. injection H as <- ->. done. Qed.

Lemma js_mret_inv (a : A) (s s' : S) b :
  (mret a : js S A) s = (s', Ret b) → s' = s ∧ b = a.
Proof. intros H. by injection H as <- ->. Qed.

Lemma js_get_inv (s s' a : S) : js_get s = (s', Ret a) → s' = s ∧ a = s.
Proof. intros H. by injection H as <- ->. Qed.

Lemma js_modify_inv (f : S → S) s s' u : js_modify f s = (s', Ret u) → s' = f s.
Proof. intros H. by injection H as <-. Qed.

Lemma js_put_inv (s0 s s' : S) u : js_put s0 s = (s', Ret u) → s' = s0.
Proof. intros H. by injection H as <-. Qed.

(** [m] keeps [P], whether it completes or throws. *)
Definition keeps (P : S → Prop) (m : js S A) : Prop := ∀ s, P s → P (m s).1.
End js_runs.

Lemma zoom_inv {S T A} (view : S → T) put (m : js T A) s s' a :
  zoom view put m s = (s', Ret a) → ∃ t, m (view s) = (t, Ret a) ∧ s' = put t s.
Proof.
  unfold zoom. destruct (m (view s)) as [t o]. intros H. injection H as <- ->. by exists t.
Qed.

Section keeps.
Context {S : Type} (P : S → Prop).

Lemma keeps_ret {A} (a : A) : keeps P (mret a : js S A).
Proof. by intros s. Qed.

Lemma keeps_throw {A} e : keeps P (js_throw e : js S A).
Proof. by intros s. Qed.

Lemma keeps_lift {A} (o : outcome A) : keeps P (js_lift o).
Proof. by intros s. Qed.

Lemma keeps_get : keeps P js_get.
Proof. by intros s. Qed.

Lemma keeps_bind {A B} (m : js S A) (f : A → js S B) :
  keeps P m → (∀ a, keeps P (f a)) → keeps P (m ≫= f).
Proof.
  intros Hm Hf s Hs. unfold mbind, js_bind. specialize (Hm s Hs).
  destruct (m s) as [s1 [a|e]]; [by apply Hf|done].
Qed.

Lemma keeps_modify f : (∀ s, P s → P (f s)) → keeps P (js_modify f).
Proof. intros H s. apply H. Qed.

Lemma keeps_if {A} (b : bool) (x y : js S A) : keeps P x → keeps P y → keeps P (if b then x else y).
Proof. by destruct b. Qed.

Lemma keeps_zoom {T A} (view : S → T) put (Q : T → Prop) (m : js T A) :
  keeps Q m → (∀ s, P s → Q (view s)) → (∀ s t, P s → Q t → P (put t s)) →
  keeps P (zoom view put m).
Proof.
  intros Hm H1 H2 s Hs. unfold zoom. specialize (Hm (view s) (H1 s Hs)).
  destruct (m (view s)) as [t o]. cbn in *. by apply H2.
Qed.
End keeps.

Create HintDb keeps discriminated.
#[export] Hint Resolve keeps_ret keeps_throw keeps_lift keeps_get keeps_bind keeps_if : keeps.

(** Takes a successful run apart, step by step. *)
Ltac js_inv :=
  repeat match goal with
  | H : (_ ≫= _) _ = (_, Ret _) |- _ => apply js_bind_inv in H as (? & ? & ? & H)
  | H : js_lift _ _ = (_, Ret _) |- _ => apply js_lift_inv in H as [-> H]
  | H : @mret (js _) _ _ _ _ = (_, Ret _) |- _ => apply js_mret_inv in H as [-> H]; subst
  | H : js_get _ = (_, Ret _) |- _ => apply js_get_inv in H as [-> ->]
  | H : js_modify _ _ = (_, Ret _) |- _ => apply js_modify_inv in H as ->
  | H : js_put _ _ = (_, Ret _) |- _ => apply js_put_inv in H as ->
  | H : js_throw _ _ = (_, Ret _) |- _ => discriminate H
  | H : zoom _ _ _ _ = (_, Ret _) |- _ => apply zoom_inv in H as (? & H & ->)
  end.

(** ** Lemmas: invariants of step relations *)

Lemma rtc_keeps {A} (R : A → A → Prop) (P : A → Prop) :
  (∀ x y, P x → R x y → P y) → ∀ x y, rtc R x y → P x → P y.
Proof. intros HR x y H. induction H as [|x y z Hxy _ IH]; [done|]. eauto. Qed.
