(* ===== verification/Async.v ===== *)
(** * Asynchronous queues and timeouts (src/async/)

    [AsyncQueue] hands out promises: the [k]-th [dequeue] gets a promise of the
    [k]-th value, whether that value is already there or not.  A promise is its index
    in the list of all promises the queue made; the function that resolves it is the
    same index. *)
From S2P Require Import Prelude.

Section queue.
Context {A : Type}.

(** [settled]: the promises made so far, with their values; a value is not itself a
    promise. *)
Record AsyncQueue : Type := AQ {
  resolvers : list nat;
  promises : list nat;
  settled : list (option A) }.

Definition AsyncQueue_new : AsyncQueue := AQ [] [] [].

(** [_createEntry()] *)
Definition createEntry : js AsyncQueue unit :=
  js_modify (λ q, AQ (resolvers q ++ [length (settled q)]) (promises q ++ [length (settled q)])
                     (settled q ++ [None])).

(** [isEmpty()] *)
Definition isEmpty (q : AsyncQueue) : bool := (length (promises q) =? 0)%nat.

(** [this.resolvers.shift()] and [this.promises.shift()]; an empty list gives
    [undefined]. *)
Definition shift_resolver : js AsyncQueue (option nat) := λ q,
  (AQ (tail (resolvers q)) (promises q) (settled q), Ret (head (resolvers q))).
Definition shift_promise : js AsyncQueue (option nat) := λ q,
  (AQ (resolvers q) (tail (promises q)) (settled q), Ret (head (promises q))).

(** Calling the resolver of promise [p]: only the first call counts. *)
Definition resolve (p : nat) (v : A) : js AsyncQueue unit :=
  js_modify (λ q, AQ (resolvers q) (promises q)
                     (alter (λ o, Some (default v o)) p (settled q))).

(** [enqueue(v)] *)
Definition enqueue (v : A) : js AsyncQueue unit :=
  q ← js_get;
  (if (length (resolvers q) =? 0)%nat then createEntry else mret tt) ;;
  r ← shift_resolver;
  match r with
  | Some p => resolve p v
  | None => js_throw TypeError
  end.

(** [dequeue()] *)
Definition dequeue : js AsyncQueue (option nat) :=
  q ← js_get;
  (if (length (promises q) =? 0)%nat then createEntry else mret tt) ;;
  shift_promise.

(** A use of the queue, and the promises it was given. *)
Inductive queue_op : Type :=
  | Enqueue (v : A)
  | Dequeue.

Definition perform (op : queue_op) : js AsyncQueue (list (option nat)) :=
  match op with
  | Enqueue v => enqueue v ;; mret []
  | Dequeue => p ← dequeue; mret [p]
  end.

Fixpoint perform_all (ops : list queue_op) : js AsyncQueue (list (option nat)) :=
  match ops with
  | [] => mret []
  | op :: ops' => l ← perform op; l' ← perform_all ops'; mret (l ++ l')
  end.

(** ** What the queue promises

    Abstractly a queue is the values put into it, in order, and the number of takers
    so far. *)
Record fifo : Type := Fifo { put_values : list A; takers : nat }.

Definition fifo_step (op : queue_op) (f : fifo) : fifo :=
  match op with
  | Enqueue v => Fifo (put_values f ++ [v]) (takers f)
  | Dequeue => Fifo (put_values f) (S (takers f))
  end.

(** The concrete queue of an abstract one: a promise for every value and every
    taker; the values without a taker are the promises kept, the takers without a
    value are the resolvers kept. *)
Definition queue_of (f : fifo) : AsyncQueue :=
  let n := length (put_values f) in
  let m := takers f in
  AQ (seq n (m - n)) (seq m (n - m)) ((λ i, put_values f !! i) <$> seq 0 (n `max` m)).

Lemma seq_snoc' i n j : j = (i + n)%nat → seq i n ++ [j] = seq i (S n).
Proof. intros ->. by rewrite seq_S. Qed.

Lemma length_settled f : length (settled (queue_of f)) = (length (put_values f) `max` takers f)%nat.
Proof. cbn. by rewrite length_fmap, length_seq. Qed.

(** The promises after a new value: those there are, with one more settled. *)
Lemma settle_next (l : list A) (v : A) (n : nat) :
  (length l < n)%nat →
  alter (λ o, Some (default v o)) (length l) ((λ i, l !! i) <$> seq 0 n) =
  (λ i, (l ++ [v]) !! i) <$> seq 0 n.
Proof.
  intros Hn. apply list_eq. intros i. destruct (decide (i = length l)) as [->|Hi].
  - rewrite list_lookup_alter_eq, !list_lookup_fmap, lookup_seq_lt by done. cbn.
    rewrite (lookup_ge_None_2 l) by lia. by rewrite lookup_app_r, Nat.sub_diag by lia.
  - rewrite list_lookup_alter_ne, !list_lookup_fmap by done.
    destruct (seq 0 n !! i) as [j|] eqn:Hj; [|done]. cbn.
    apply lookup_seq in Hj as [-> _]. cbn. f_equal.
    destruct (decide (i < length l)%nat); [by rewrite lookup_app_l|].
    rewrite !lookup_ge_None_2; [done| |lia]. rewrite length_app. cbn. lia.
Qed.

(** More promises than values: the ones behind are not settled. *)
Lemma pending_next (l : list A) (n : nat) :
  (length l <= n)%nat →
  ((λ i, l !! i) <$> seq 0 n) ++ [None] = (λ i, l !! i) <$> seq 0 (S n).
Proof.
  intros Hn. rewrite seq_S, fmap_app. cbn. by rewrite (lookup_ge_None_2 l n) by done.
Qed.

(** A queue is the queue of [f] when its counts are. *)
Lemma queue_of_eq (f : fifo) a b c d e :
  b = (takers f - length (put_values f))%nat → (b = 0 ∨ a = length (put_values f))%nat →
  d = (length (put_values f) - takers f)%nat → (d = 0 ∨ c = takers f)%nat →
  e = (length (put_values f) `max` takers f)%nat →
  AQ (seq a b) (seq c d) ((λ i, put_values f !! i) <$> seq 0 e) = queue_of f.
Proof.
  intros Hb Ha Hd Hc ->. unfold queue_of. rewrite <- Hb, <- Hd.
  destruct Ha as [->| ->], Hc as [->| ->]; done.
Qed.

Lemma enqueue_refines v f : enqueue v (queue_of f) = (queue_of (fifo_step (Enqueue v) f), Ret tt).
Proof.
  destruct f as [l m]. unfold enqueue, mbind, js_bind, js_get, shift_resolver.
  cbn [queue_of put_values takers resolvers fifo_step]. rewrite length_seq.
  destruct (Nat.eqb_spec (m - length l) 0) as [H|H].
  - unfold createEntry, js_modify, resolve. cbn -[seq]. rewrite length_fmap, length_seq, H.
    rewrite Nat.max_l, pending_next by lia. change (seq (length l) 0 ++ [length l]) with [length l].
    unfold js_modify. cbn -[seq fmap queue_of]. rewrite settle_next, seq_snoc' by lia. f_equal.
    apply (queue_of_eq (Fifo (l ++ [v]) m) 0 0); cbn; rewrite ?length_app; cbn; lia.
  - unfold resolve, js_modify. cbn -[seq fmap].
    destruct (m - length l)%nat as [|k] eqn:E; [done|]. cbn [seq].
    cbn -[seq fmap queue_of]. rewrite settle_next by lia. f_equal.
    apply (queue_of_eq (Fifo (l ++ [v]) m)); cbn; rewrite ?length_app; cbn; lia.
Qed.

Lemma dequeue_refines f :
  dequeue (queue_of f) = (queue_of (fifo_step Dequeue f), Ret (Some (takers f))).
Proof.
  destruct f as [l m]. unfold dequeue, mbind, js_bind, js_get, shift_promise.
  cbn [queue_of put_values takers promises fifo_step]. rewrite length_seq.
  destruct (Nat.eqb_spec (length l - m) 0) as [H|H].
  - unfold createEntry, js_modify. cbn -[seq fmap]. rewrite length_fmap, length_seq, H.
    rewrite Nat.max_r, pending_next, (seq_snoc' (length l)) by lia.
    change (seq m 0 ++ [m]) with [m]. cbn -[seq fmap queue_of]. f_equal.
    apply (queue_of_eq (Fifo l (S m)) _ _ 0 0); cbn; lia.
  - cbn -[seq fmap]. destruct (length l - m)%nat as [|k] eqn:E; [done|]. cbn [seq].
    cbn -[seq fmap queue_of]. f_equal. apply (queue_of_eq (Fifo l (S m))); cbn; lia.
Qed.

Definition enqueued (ops : list queue_op) : list A :=
  ops ≫= λ op, match op with Enqueue v => [v] | Dequeue => [] end.

Definition dequeues (ops : list queue_op) : list unit :=
  ops ≫= λ op, match op with Enqueue _ => [] | Dequeue => [tt] end.

Definition fifo_run (ops : list queue_op) (f : fifo) : fifo := foldl (λ f op, fifo_step op f) f ops.

Lemma fifo_run_spec ops f :
  fifo_run ops f = Fifo (put_values f ++ enqueued ops) (takers f + length (dequeues ops)).
Proof.
  revert f. induction ops as [|op ops IH]; intros [l m].
  - cbn. by rewrite app_nil_r, Nat.add_0_r.
  - change (fifo_run (op :: ops) (Fifo l m)) with (fifo_run ops (fifo_step op (Fifo l m))).
    rewrite IH. destruct op as [v|]; cbn [fifo_step put_values takers].
    + change (enqueued (Enqueue v :: ops)) with ([v] ++ enqueued ops). by rewrite app_assoc.
    + change (dequeues (Dequeue :: ops)) with ([tt] ++ dequeues ops).
      rewrite length_app. cbn [length]. f_equal. lia.
Qed.

Lemma perform_all_refines ops f :
  perform_all ops (queue_of f) =
  (queue_of (fifo_run ops f), Ret (Some <$> seq (takers f) (length (dequeues ops)))).
Proof.
  revert f. induction ops as [|[v|] ops IH]; intros f; [done| |]; cbn [perform_all perform];
    unfold mbind, js_bind, mret, js_ret.
  - by rewrite enqueue_refines, IH.
  - by rewrite dequeue_refines, IH.
Qed.
End queue.

#[global] Arguments AsyncQueue : clear implicits.
#[global] Arguments queue_op : clear implicits.

(** ** AsyncTimeout (src/async/AsyncTimeout.js)

    [Promise.race] of the promise [func] and of a timer: [race] is how the race
    ended, [armed] whether the timer still runs.  The timer is cleared when the race
    was won with a value, and only then. *)
Section timeout.
Context {A : Type}.

Record timeout : Type := Timeout { race : option (outcome A); armed : bool }.

Definition AsyncTimeout_new : timeout := Timeout None true.

Definition expired : js_error := Thrown "AsyncTimeout expired".

(** [func] settles. *)
Definition func_settles (o : outcome A) (t : timeout) : timeout :=
  match race t with
  | Some _ => t
  | None => Timeout (Some o) (if is_ret o then false else armed t)
  end.

(** The timer fires, if it runs. *)
Definition timer_fires (t : timeout) : timeout :=
  if armed t then Timeout (Some (default (Throw expired) (race t))) false else t.

(** Whatever comes first decides; a rejection of [func] leaves the timer running. *)
Lemma timeout_first o :
  race (timer_fires (func_settles o AsyncTimeout_new)) = Some o ∧
  race (func_settles o (timer_fires AsyncTimeout_new)) = Some (Throw expired) ∧
  armed (func_settles o AsyncTimeout_new) = negb (is_ret o).
Proof. by destruct o. Qed.
End timeout.

(** C38: a queue gives its takers the values in the order they were put in: after any
    sequence of calls, none of which throws, the promises handed out are the first
    ones, as many as calls of [dequeue]; promise [k] has settled with the [k]-th value
    put in, or is pending when there is none yet; and [isEmpty] tells whether every
    value has a taker. *)
Theorem queue_refines {A} (ops : list (queue_op A)) :
  let n := length (dequeues ops) in
  ∃ q, perform_all ops AsyncQueue_new = (q, Ret (Some <$> seq 0 n)) ∧
       take n (settled q) = (λ k, enqueued ops !! k) <$> seq 0 n ∧
       isEmpty q = (length (enqueued ops) <=? n)%nat.
Proof.
  intros n. exists (queue_of (fifo_run ops (Fifo [] 0))). split_and!.
  - apply (perform_all_refines ops (Fifo [] 0)).
  - rewrite fifo_run_spec. cbn -[seq take]. rewrite <- fmap_take, take_seq. do 2 f_equal. lia.
  - rewrite fifo_run_spec. unfold isEmpty. cbn -[seq]. rewrite length_seq. fold n.
    destruct (Nat.eqb_spec (length (enqueued ops) - n) 0), (Nat.leb_spec (length (enqueued ops)) n);
      lia || done.
Qed.

(** Two takers come before the values. *)
Example queue_late :
  (perform_all [Dequeue; Enqueue 7; Dequeue; Dequeue; Enqueue 8] AsyncQueue_new) =
  (AQ [2%nat] [] [Some 7; Some 8; None], Ret [Some 0; Some 1; Some 2]%nat).
Proof. reflexivity. Qed.
