(* ===== verification/JsNumber.v ===== *)
(** * JavaScript numbers

    A Number is an IEEE-754 double.  The code mostly handles integral ones, so
    [num] keeps an integral Number as the integer it is ([NInt]) and every other
    double ([NFrac]: fractions, NaN, infinities and -0) as its 64-bit pattern.
    The conversions the Buffer API needs between patterns of 32 and 64 bits
    (round to nearest, ties to even) are written out, together with the
    comparisons of a Number with an integer constant.  A BigInt is a plain [Z]. *)
From S2P Require Import Prelude.

(** ** IEEE-754 binary formats *)

Record ieee : Type := Ieee { mbits : Z; ebits : Z }.

Definition b32 : ieee := Ieee 23 8.
Definition b64 : ieee := Ieee 52 11.

(** Weight of the last mantissa bit of the subnormal numbers. *)
Definition emin (f : ieee) : Z := 2 - 2 ^ (ebits f - 1) - mbits f.
Definition emask (f : ieee) : Z := 2 ^ ebits f - 1.

(** A decoded pattern; a finite one has the value (-1)^neg * m * 2^e. *)
Inductive fp : Type :=
  | FNaN
  | FInf (neg : bool)
  | FFin (neg : bool) (m e : Z).

Definition unpack (f : ieee) (bits : Z) : fp :=
  let neg := Z.testbit bits (mbits f + ebits f) in
  let ex := (bits `div` 2 ^ mbits f) `mod` 2 ^ ebits f in
  let man := bits `mod` 2 ^ mbits f in
  if ex =? emask f then if man =? 0 then FInf neg else FNaN
  else if ex =? 0 then FFin neg man (emin f)
  else FFin neg (man + 2 ^ mbits f) (ex - 1 + emin f).

(** Division by 2^k, to nearest, ties to even. *)
Definition shift_rne (m k : Z) : Z :=
  let q := m `div` 2 ^ k in
  let r := m `mod` 2 ^ k in
  if 2 * r <? 2 ^ k then q
  else if 2 ^ k <? 2 * r then q + 1
  else if Z.even q then q else q + 1.

Definition pack (f : ieee) (v : fp) : Z :=
  let top := emask f * 2 ^ mbits f in
  let sign (neg : bool) := if neg then 2 ^ (mbits f + ebits f) else 0 in
  match v with
  | FNaN => top + 2 ^ (mbits f - 1)
  | FInf neg => sign neg + top
  | FFin neg m e =>
      if m =? 0 then sign neg else
      let et := Z.max (e + Z.log2 m - mbits f) (emin f) in
      let m' := if et <=? e then m * 2 ^ (e - et) else shift_rne m (et - e) in
      sign neg + Z.min top ((et - emin f) * 2 ^ mbits f + m')
  end.

Definition f32_of_f64 (bits : Z) : Z := pack b32 (unpack b64 bits).
Definition f64_of_f32 (bits : Z) : Z := pack b64 (unpack b32 bits).

(** ** Numbers *)

Inductive num : Type :=
  | NInt (z : Z)
  | NFrac (bits : Z).

#[export] Instance num_eq_dec : EqDecision num.
Proof. solve_decision. Defined.

(** The mathematical value; [VBetween k] lies strictly between [k] and [k+1]. *)
Inductive nval : Type :=
  | VNaN
  | VInf (neg : bool)
  | VInt (z : Z)
  | VBetween (fl : Z).

Definition nval_of_fp (v : fp) : nval :=
  match v with
  | FNaN => VNaN
  | FInf neg => VInf neg
  | FFin neg m e =>
      let sg z := if neg then - z else z in
      if 0 <=? e then VInt (sg (m * 2 ^ e))
      else let q := m `div` 2 ^ (- e) in
           if m `mod` 2 ^ (- e) =? 0 then VInt (sg q)
           else VBetween (if neg then - q - 1 else q)
  end.

Definition num_val (n : num) : nval :=
  match n with
  | NInt z => VInt z
  | NFrac bits => nval_of_fp (unpack b64 bits)
  end.

Definition neg_zero_bits : Z := 2 ^ 63.
Definition nan_bits : Z := pack b64 FNaN.

(** The Number a 64-bit pattern stands for. *)
Definition num_of_bits (bits : Z) : num :=
  match nval_of_fp (unpack b64 bits) with
  | VInt z => if bits =? neg_zero_bits then NFrac bits else NInt z
  | VNaN => NFrac nan_bits
  | _ => NFrac bits
  end.

Definition bits_of_num (n : num) : Z :=
  match n with
  | NInt z => pack b64 (FFin (z <? 0) (Z.abs z) 0)
  | NFrac bits => bits
  end.

(** [Number.isInteger] *)
Definition num_is_integer (n : num) : bool :=
  match num_val n with VInt _ => true | _ => false end.

(** Comparisons with an integer constant; all false on NaN. *)
Definition nval_ltb (v : nval) (k : Z) : bool :=
  match v with
  | VNaN => false | VInf neg => neg | VInt z => z <? k | VBetween fl => fl <? k
  end.
Definition nval_leb (v : nval) (k : Z) : bool :=
  match v with
  | VNaN => false | VInf neg => neg | VInt z => z <=? k | VBetween fl => fl <? k
  end.
Definition nval_geb (v : nval) (k : Z) : bool :=
  match v with
  | VNaN => false | VInf neg => negb neg | VInt z => k <=? z | VBetween fl => k <=? fl
  end.

(** Rounding towards zero, 0 for NaN and the infinities: what an integer store
    into a typed array does before it reduces modulo the width. *)
Definition nval_trunc (v : nval) : Z :=
  match v with
  | VInt z => z
  | VBetween fl => if fl <? 0 then fl + 1 else fl
  | _ => 0
  end.


(** ** Numeric values: Numbers and BigInts *)

Inductive numeric : Type :=
  | Num (n : num)
  | Big (z : Z).

#[export] Instance nval_eq_dec : EqDecision nval.
Proof. solve_decision. Defined.

#[export] Instance numeric_eq_dec : EqDecision numeric.
Proof. solve_decision. Defined.

Definition numeric_val (v : numeric) : nval :=
  match v with Num n => num_val n | Big z => VInt z end.

(** [BigInt(v)]: a RangeError on a Number that is not an integer. *)
Definition to_bigint (v : numeric) : outcome Z :=
  match numeric_val v with VInt z => Ret z | _ => Throw RangeError end.

(** [Number(v)], for the values that are in the exact range of a double. *)
Definition to_number (v : numeric) : num :=
  match v with Num n => n | Big z => NInt z end.

(** [writeUInt8(v)], [writeUInt16LE(v)], [writeUInt32LE(v)] into a fresh buffer
    of their width: [+v] throws on a BigInt, then the range is checked and the
    value is stored truncated.  A comparison with NaN is false both times, so a
    NaN passes the range check and is stored as 0. *)
Definition write_number_uint (n : nat) (v : numeric) : outcome buffer :=
  match v with
  | Big _ => Throw TypeError
  | Num x =>
      let r := num_val x in
      if negb (nval_leb r (256 ^ Z.of_nat n - 1)) && negb (bool_decide (r = VNaN))
         || nval_ltb r 0
      then Throw RangeError
      else Ret (le_bytes n (nval_trunc r))
  end.

Definition write_number_int (n : nat) (v : numeric) : outcome buffer :=
  match v with
  | Big _ => Throw TypeError
  | Num x =>
      let r := num_val x in
      let h := 256 ^ Z.of_nat n `div` 2 in
      if negb (nval_leb r (h - 1)) && negb (bool_decide (r = VNaN)) || nval_ltb r (- h)
      then Throw RangeError
      else Ret (le_bytes n (nval_trunc r))
  end.
