(* ===== verification/JsString.v ===== *)
(** * JavaScript strings

    A string is the list of its UTF-16 code units.  [utf8_encode] and
    [utf8_decode] are [Buffer.from(s,'utf-8')] and [toString('utf-8')] with the
    replacement character for what is malformed, [hex_encode] and [hex_decode]
    are [toString('hex')] and [Buffer.from(s,'hex')].  Names that the code uses
    as enumerations (the ['type'] of a TLV entry, a tag name) stay Rocq
    [string]s. *)
From stdpp Require Import pretty.
From S2P Require Import Prelude.

Abbreviation jsstr := (list Z).

(** A literal of the source (they are all ASCII). *)
Definition js_str (s : string) : jsstr :=
  (λ a, Z.of_N (Ascii.N_of_ascii a)) <$> String.list_ascii_of_string s.

Definition buf_str (s : string) : buffer :=
  (λ a, Z_byte (Z.of_N (Ascii.N_of_ascii a))) <$> String.list_ascii_of_string s.

#[global] Arguments buf_str : simpl never.

(** [s.length] *)
Definition str_length (s : jsstr) : Z := Z.of_nat (length s).

(** White space of regular expressions and of [trim] *)
Definition is_space (u : Z) : bool :=
  (9 <=? u) && (u <=? 13) || (0x2000 <=? u) && (u <=? 0x200A)
  || bool_decide (u ∈ [32; 0xA0; 0x1680; 0x2028; 0x2029; 0x202F; 0x205F; 0x3000; 0xFEFF]).

Fixpoint skip_space (s : jsstr) : jsstr :=
  match s with
  | u :: s' => if is_space u then skip_space s' else s
  | [] => []
  end.

(** [s.trim()] *)
Definition trim (s : jsstr) : jsstr := reverse (skip_space (reverse (skip_space s))).

Definition is_high (u : Z) : bool := (0xD800 <=? u) && (u <=? 0xDBFF).
Definition is_low (u : Z) : bool := (0xDC00 <=? u) && (u <=? 0xDFFF).
Definition replacement : Z := 0xFFFD.

(** UTF-8 bytes of a code point. *)
Definition utf8_of_cp (c : Z) : buffer :=
  Z_byte <$>
  if c <? 0x80 then [c]
  else if c <? 0x800 then [0xC0 + c `div` 64; 0x80 + c `mod` 64]
  else if c <? 0x10000 then
    [0xE0 + c `div` 4096; 0x80 + (c `div` 64) `mod` 64; 0x80 + c `mod` 64]
  else
    [0xF0 + c `div` 262144; 0x80 + (c `div` 4096) `mod` 64;
     0x80 + (c `div` 64) `mod` 64; 0x80 + c `mod` 64].

(** A lone surrogate is written as the replacement character. *)
Fixpoint utf8_encode (s : jsstr) : buffer :=
  match s with
  | [] => []
  | u :: s' =>
      if is_high u then
        match s' with
        | v :: s'' =>
            if is_low v
            then utf8_of_cp (0x10000 + (u - 0xD800) * 1024 + (v - 0xDC00)) ++ utf8_encode s''
            else utf8_of_cp replacement ++ utf8_encode s'
        | [] => utf8_of_cp replacement
        end
      else if is_low u then utf8_of_cp replacement ++ utf8_encode s'
      else utf8_of_cp u ++ utf8_encode s'
  end.

Definition units_of_cp (c : Z) : jsstr :=
  if c <? 0x10000 then [c]
  else [0xD800 + (c - 0x10000) `div` 1024; 0xDC00 + (c - 0x10000) `mod` 1024].

(** State of the UTF-8 decoder inside a sequence: how many bytes it still needs,
    the code point so far, and the bounds of the next byte. *)
Record utf8_state : Type := Utf8St {
  u_needed : Z; u_cp : Z; u_lower : Z; u_upper : Z }.

Definition utf8_idle : utf8_state := Utf8St 0 0 0x80 0xBF.

(** A byte at the start of a sequence. *)
Definition utf8_start (b : Z) : jsstr * utf8_state :=
  if b <=? 0x7F then ([b], utf8_idle)
  else if (0xC2 <=? b) && (b <=? 0xDF) then ([], Utf8St 1 (b - 0xC0) 0x80 0xBF)
  else if (0xE0 <=? b) && (b <=? 0xEF) then
    ([], Utf8St 2 (b - 0xE0) (if b =? 0xE0 then 0xA0 else 0x80)
                             (if b =? 0xED then 0x9F else 0xBF))
  else if (0xF0 <=? b) && (b <=? 0xF4) then
    ([], Utf8St 3 (b - 0xF0) (if b =? 0xF0 then 0x90 else 0x80)
                             (if b =? 0xF4 then 0x8F else 0xBF))
  else ([replacement], utf8_idle).

(** One byte: a byte outside the bounds ends the sequence with a replacement
    character and starts over. *)
Definition utf8_step (st : utf8_state) (b : Z) : jsstr * utf8_state :=
  if u_needed st =? 0 then utf8_start b
  else if (u_lower st <=? b) && (b <=? u_upper st) then
    let cp := u_cp st * 64 + (b - 0x80) in
    if u_needed st =? 1 then (units_of_cp cp, utf8_idle)
    else ([], Utf8St (u_needed st - 1) cp 0x80 0xBF)
  else let '(out, st') := utf8_start b in (replacement :: out, st').

Fixpoint utf8_run (st : utf8_state) (b : buffer) : jsstr :=
  match b with
  | [] => if u_needed st =? 0 then [] else [replacement]
  | x :: b' => let '(out, st') := utf8_step st (byte_Z x) in out ++ utf8_run st' b'
  end.

Definition utf8_decode (b : buffer) : jsstr := utf8_run utf8_idle b.

(** ** Hexadecimal *)

Definition hex_digit (d : Z) : Z := if d <? 10 then 48 + d else 87 + d.

Definition hex_value (u : Z) : option Z :=
  if (48 <=? u) && (u <=? 57) then Some (u - 48)
  else if (97 <=? u) && (u <=? 102) then Some (u - 87)
  else if (65 <=? u) && (u <=? 70) then Some (u - 55)
  else None.

Definition hex_encode (b : buffer) : jsstr :=
  b ≫= λ x, [hex_digit (byte_Z x `div` 16); hex_digit (byte_Z x `mod` 16)].

(** Decoding stops at the first pair that is not two hexadecimal digits. *)
Fixpoint hex_decode (s : jsstr) : buffer :=
  match s with
  | u :: v :: s' =>
      match hex_value u, hex_value v with
      | Some h, Some l => Z_byte (16 * h + l) :: hex_decode s'
      | _, _ => []
      end
  | _ => []
  end.

(** ** Lemmas *)

Definition ascii_str (s : jsstr) : Prop := Forall (λ u, 0 <= u < 0x80) s.

Lemma length_js_str s : length (js_str s) = length (buf_str s).
Proof. unfold js_str, buf_str. by rewrite !length_fmap. Qed.

Lemma ascii_utf8_encode s : ascii_str s → utf8_encode s = Z_byte <$> s.
Proof.
  induction 1 as [|u s Hu _ IH]; [done|]. cbn [utf8_encode].
  unfold is_high, is_low, utf8_of_cp.
  destruct ((0xD800 <=? u) && _) eqn:E1; [zbool; lia|].
  destruct ((0xDC00 <=? u) && _) eqn:E2; [zbool; lia|].
  destruct (Z.ltb_spec u 0x80); [|lia]. cbn. by rewrite IH.
Qed.

Lemma ascii_utf8_length s : ascii_str s → blen (utf8_encode s) = str_length s.
Proof.
  intros Hs. rewrite ascii_utf8_encode by done. unfold blen, str_length.
  by rewrite length_fmap.
Qed.

Lemma utf8_of_cp_length c : 0 <= c →
  1 <= blen (utf8_of_cp c) ∧ (blen (utf8_of_cp c) = 1 ↔ c < 0x80).
Proof.
  intros Hc. unfold utf8_of_cp, blen. rewrite length_fmap. zcases; cbn [length]; split; lia.
Qed.

(** No unit is encoded in less than an octet, and only ASCII in one. *)
Lemma utf8_length_units s : Forall (λ u, 0 <= u < 65536) s →
  str_length s <= blen (utf8_encode s) ∧ (blen (utf8_encode s) = str_length s → ascii_str s).
Proof.
  induction s as [s IH] using (induction_ltof1 _ length). unfold ltof in IH.
  destruct s as [|u s]; intros Hs; [split; [done|constructor]|].
  apply Forall_cons in Hs as [Hu Hs'].
  pose proof (utf8_of_cp_length replacement ltac:(unfold replacement; lia)) as [Hr1 Hr2].
  assert (blen (utf8_of_cp replacement) = 3) as Hr3 by done.
  destruct (IH s) as [IH1 IH2]; [cbn; lia|done|].
  cbn [utf8_encode]. unfold str_length in *. cbn [length] in *.
  destruct (is_high u) eqn:Eh; [|destruct (is_low u) eqn:El].
  - destruct s as [|v s]; [rewrite Hr3; cbn; split; [lia|lia]|].
    apply Forall_cons in Hs' as Hs''. destruct Hs'' as [Hv Hs'']. destruct (is_low v) eqn:El.
    + destruct (IH s) as [IH3 IH4]; [cbn; lia|done|]. unfold is_high, is_low in *. zbool.
      rewrite blen_app. set (cp := 0x10000 + _ + _).
      assert (0x10000 <= cp) by (unfold cp; lia).
      assert (blen (utf8_of_cp cp) = 4) as -> by (unfold utf8_of_cp; zcases; try lia; done).
      cbn [length]. split; lia.
    + rewrite blen_app, Hr3. cbn [length] in *. split; lia.
  - rewrite blen_app, Hr3. split; lia.
  - rewrite blen_app. destruct (utf8_of_cp_length u) as [Hu1 Hu2]; [lia|]. split; [lia|].
    intros E. constructor; [split; [lia|apply Hu2; lia]|apply IH2; lia].
Qed.

Lemma ascii_utf8_decode s : ascii_str s → utf8_decode (utf8_encode s) = s.
Proof.
  intros Hs. rewrite ascii_utf8_encode by done. unfold utf8_decode.
  induction Hs as [|u s Hu _ IH]; [done|]. cbn.
  rewrite byte_Z_small by lia. unfold utf8_start.
  destruct (Z.leb_spec u 0x7F); [|lia]. cbn. by rewrite IH.
Qed.

Lemma hex_value_digit d : 0 <= d < 16 → hex_value (hex_digit d) = Some d.
Proof. intros ?. unfold hex_value, hex_digit. zcases; try lia; f_equal; lia. Qed.

Lemma hex_decode_encode b : hex_decode (hex_encode b) = b.
Proof.
  induction b as [|x b IH]; [done|].
  unfold hex_encode in *. cbn. pose proof (byte_Z_range x).
  rewrite !hex_value_digit, IH.
  - f_equal. rewrite <- Z.div_mod by lia. apply Z_byte_byte_Z.
  - apply Z.mod_pos_bound. lia.
  - split; [apply Z.div_pos; lia|apply Z.div_lt_upper_bound; lia].
Qed.

Lemma length_hex_encode b : length (hex_encode b) = (2 * length b)%nat.
Proof. induction b as [|x b IH]; [done|]. unfold hex_encode in *. cbn in *. lia. Qed.

#[export] Hint Resolve ascii_utf8_length : js.
(** The text of a number *)
Lemma js_str_inj s t : js_str s = js_str t → s = t.
Proof.
  revert t. induction s as [|a s IH]; intros [|b t] H; try done.
  unfold js_str in *. cbn in H. injection H as Hab H. f_equal; [|by apply IH].
  apply (f_equal Ascii.ascii_of_N) in Hab || apply N2Z.inj in Hab.
  by rewrite <- (Ascii.ascii_N_embedding a), <- (Ascii.ascii_N_embedding b), Hab.
Qed.

Lemma pretty_go_nonempty x s : s ≠ ""%string → pretty_N_go x s ≠ ""%string.
Proof.
  revert s. induction (N.lt_wf_0 x) as [x _ IH]; intros s Hs.
  assert (x = 0 ∨ 0 < x)%N as [->|Hx] by lia; [by rewrite pretty_N_go_0|].
  rewrite pretty_N_go_step by done. apply IH; [by apply N.div_lt|done].
Qed.

Lemma pretty_nonempty z : 0 <= z → pretty z ≠ ""%string.
Proof.
  intros Hz. destruct z as [|p|p]; [done| |lia].
  change (pretty (Npos p) ≠ ""%string). unfold pretty, pretty_N.
  rewrite decide_False by done. rewrite pretty_N_go_step by done. by apply pretty_go_nonempty.
Qed.

#[export] Hint Rewrite hex_decode_encode : js.
