(* ===== verification/Expect.v ===== *)
(** * Driving a child process (src/expect/)

    [ExpectProcess] starts a child, queues the lines it prints (Async.v) and searches
    them for a condition.  The searches are asynchronous: each waits for the promise of
    one line, so the calls that have not ended are part of the state, and the event loop
    resumes any whose line is there.  The operating system's part, starting the child and
    delivering signals, is reduced to what is asked of it. *)
From S2P Require Import Prelude JsString Async.

(** The regular expressions of the language: compiling a source may throw a
    SyntaxError; a line matches somewhere or nowhere. *)
Class RegExp : Type := {
  regexp : Type;
  RegExp_new (source : jsstr) : outcome regexp;
  regexp_matches (r : regexp) (line : jsstr) : bool }.

(** What was asked of the child: its command line, what was written to its standard
    input and whether that was closed, the IPC messages, the number of SIGHUPs. *)
Record child : Type := Child {
  ch_command : string;
  ch_args : list jsstr;
  ch_stdin : list jsstr;
  ch_ended : bool;
  ch_messages : list jsstr;
  ch_hups : nat }.

(** [data.split(os.EOL)] *)
Definition EOL : Z := 10.

Fixpoint split_lines (data : jsstr) : list jsstr :=
  match data with
  | [] => [[]]
  | u :: data' =>
      if u =? EOL then [] :: split_lines data'
      else match split_lines data' with
           | line :: lines => (u :: line) :: lines
           | [] => [[u]]
           end
  end.

(** [assert.match], [assert.equal] and [assert.ok] throw an AssertionError. *)
Definition AssertionError : js_error := Thrown "AssertionError".

Definition DEFAULT_TIMEOUT : Z := 10000.

Section regexp.
Context `{R : RegExp}.

(** A condition is a string, taken for the source of an expression, or an expression. *)
Inductive condition : Type :=
  | CText (source : jsstr)
  | CRegExp (r : regexp).

Definition as_regexp (c : condition) : outcome regexp :=
  match c with CText s => RegExp_new s | CRegExp r => Ret r end.

(** [expectLine(condition, line)], [expectMatch(condition, line)] *)
Definition expectLine (c : condition) (line : jsstr) : outcome unit :=
  r ← as_regexp c; if regexp_matches r line then Ret tt else Throw AssertionError.
Definition expectMatch (c : condition) (line : jsstr) : outcome bool :=
  r ← as_regexp c; Ret (regexp_matches r line).

(** A call of [expectNext] or [expectSearch]: the promise it waits for, the promises
    whose lines it has seen, its result, and the race with the timer when [expect] has
    started it. *)
Inductive call_kind : Type := NextCall | SearchCall.

Record call : Type := Call {
  ca_kind : call_kind;
  ca_condition : condition;
  ca_awaits : option nat;
  ca_lines : list nat;
  ca_result : option (outcome unit);
  ca_race : option (@timeout unit) }.

Record ExpectProcess : Type := EP {
  stdoutQ : AsyncQueue jsstr;
  stderrQ : AsyncQueue jsstr;
  ep_timeout : Z;
  ep_process : option child;
  calls : list call }.

Definition ExpectProcess_new : ExpectProcess :=
  EP AsyncQueue_new AsyncQueue_new DEFAULT_TIMEOUT None [].

Definition set_stdoutQ (q : AsyncQueue jsstr) (e : ExpectProcess) : ExpectProcess :=
  EP q (stderrQ e) (ep_timeout e) (ep_process e) (calls e).
Definition set_stderrQ (q : AsyncQueue jsstr) (e : ExpectProcess) : ExpectProcess :=
  EP (stdoutQ e) q (ep_timeout e) (ep_process e) (calls e).
Definition set_Timeout (ms : Z) (e : ExpectProcess) : ExpectProcess :=
  EP (stdoutQ e) (stderrQ e) ms (ep_process e) (calls e).
Definition set_process (c : option child) (e : ExpectProcess) : ExpectProcess :=
  EP (stdoutQ e) (stderrQ e) (ep_timeout e) c (calls e).
Definition set_calls (l : list call) (e : ExpectProcess) : ExpectProcess :=
  EP (stdoutQ e) (stderrQ e) (ep_timeout e) (ep_process e) l.

Definition in_stdout {A} (m : js (AsyncQueue jsstr) A) : js ExpectProcess A :=
  zoom stdoutQ set_stdoutQ m.
Definition in_stderr {A} (m : js (AsyncQueue jsstr) A) : js ExpectProcess A :=
  zoom stderrQ set_stderrQ m.

(** ** The child *)

(** A use of [this.process], which is undefined before the child is started. *)
Definition with_process (f : child → child) : js ExpectProcess unit := λ e,
  match ep_process e with
  | Some c => (set_process (Some (f c)) e, Ret tt)
  | None => (e, Throw TypeError)
  end.

(** [spawn(command, args)] and [fork(command, args)] *)
Definition initChild (c : child) : js ExpectProcess unit := js_modify (set_process (Some c)).
Definition spawn (command : string) (args : list jsstr) : js ExpectProcess unit :=
  initChild (Child command args [] false [] 0).
Definition fork := spawn.

Definition sendRaw (line : jsstr) : js ExpectProcess unit :=
  with_process (λ c, Child (ch_command c) (ch_args c) (ch_stdin c ++ [line]) (ch_ended c)
                       (ch_messages c) (ch_hups c)).
Definition ExpectProcess_send (line : jsstr) : js ExpectProcess unit := sendRaw (line ++ [10]).
Definition sendEof : js ExpectProcess unit :=
  with_process (λ c, Child (ch_command c) (ch_args c) (ch_stdin c) true (ch_messages c) (ch_hups c)).
Definition ExpectProcess_message (msg : jsstr) : js ExpectProcess unit :=
  with_process (λ c, Child (ch_command c) (ch_args c) (ch_stdin c) (ch_ended c)
                       (ch_messages c ++ [msg]) (ch_hups c)).
Definition kill : js ExpectProcess unit :=
  with_process (λ c, Child (ch_command c) (ch_args c) (ch_stdin c) (ch_ended c) (ch_messages c)
                       (S (ch_hups c))).
Definition exit : js ExpectProcess unit := kill.

(** The listeners that [initChild] adds. *)
Definition on_error : js ExpectProcess unit := js_throw AssertionError.
Definition on_disconnect : js ExpectProcess unit := kill.
Definition on_stdout (data : jsstr) : js ExpectProcess unit :=
  js_forEach (λ line, in_stdout (enqueue line)) (split_lines data).
Definition on_stderr (data : jsstr) : js ExpectProcess unit := in_stderr (enqueue data).
Definition on_exit (code : option Z) : js ExpectProcess unit :=
  match code with
  | None => mret tt
  | Some code => if code =? 0 then mret tt else js_throw AssertionError
  end.
Definition on_message (msg : jsstr) : js ExpectProcess unit :=
  if bool_decide (msg = js_str "exit") then kill else mret tt.

(** ** Expectations *)

(** The first step of a call, up to its first [await]: the promise of a line. *)
Definition start (kind : call_kind) (c : condition) (timed : bool) : js ExpectProcess nat :=
  p ← in_stdout dequeue;
  e ← js_get;
  js_put (set_calls (calls e ++ [Call kind c p [] None
                       (if timed then Some AsyncTimeout_new else None)]) e) ;;
  mret (length (calls e)).

Definition expectNext (c : condition) : js ExpectProcess nat := start NextCall c false.
Definition expectSearch (c : condition) : js ExpectProcess nat := start SearchCall c false.

(** [expect(condition)]: the search against the timer of [this.Timeout] milliseconds.
    [expectRegEx(condition)] starts the same and does not wait for it. *)
Definition expect (c : condition) : js ExpectProcess nat := start SearchCall c true.
Definition expectRegEx (source : jsstr) : js ExpectProcess nat :=
  r ← js_lift (RegExp_new source); expect (CRegExp r).

(** The call ends: whoever waits for it, or the race, gets the result. *)
Definition finish (o : outcome unit) (t : call) : call :=
  Call (ca_kind t) (ca_condition t) None (ca_lines t) (Some o) (func_settles o <$> ca_race t).

(** The call gets the line of promise [p], or waits for another promise. *)
Definition saw (p : nat) (t : call) : call :=
  Call (ca_kind t) (ca_condition t) None (ca_lines t ++ [p]) (ca_result t) (ca_race t).
Definition awaits (p : option nat) (t : call) : call :=
  Call (ca_kind t) (ca_condition t) p (ca_lines t) (ca_result t) (ca_race t).

Definition update_call (k : nat) (f : call → call) : js ExpectProcess unit :=
  js_modify (λ e, set_calls (alter f k (calls e)) e).

(** What follows the [await] in call [k], given the line. *)
Definition got_line (k : nat) (t : call) (line : jsstr) : js ExpectProcess unit :=
  match ca_kind t with
  | NextCall => update_call k (finish (expectLine (ca_condition t) line))
  | SearchCall =>
      match expectMatch (ca_condition t) line with
      | Throw e => update_call k (finish (Throw e))
      | Ret true => update_call k (finish (Ret tt))
      | Ret false => p ← in_stdout dequeue; update_call k (awaits p)
      end
  end.

(** The line that call [k] waits for, with its promise. *)
Definition ready (e : ExpectProcess) (k : nat) : option (call * nat * jsstr) :=
  t ← calls e !! k; p ← ca_awaits t; o ← settled (stdoutQ e) !! p; line ← o; Some (t, p, line).

(** The event loop resumes call [k], if its line is there. *)
Definition resume_call (k : nat) : js ExpectProcess unit := λ e,
  match ready e k with
  | Some (t, p, line) => (update_call k (saw p) ;; got_line k t line) e
  | None => (e, Ret tt)
  end.

(** The timer of call [k] fires. *)
Definition fire (k : nat) : js ExpectProcess unit :=
  update_call k (λ t, Call (ca_kind t) (ca_condition t) (ca_awaits t) (ca_lines t) (ca_result t)
                        (timer_fires <$> ca_race t)).

(** Call [k] is resumed [n] times. *)
Fixpoint resumes (n : nat) (k : nat) : js ExpectProcess unit :=
  match n with
  | O => mret tt
  | S n' => resume_call k ;; resumes n' k
  end.

(** How the race of call [k] ended. *)
Definition call_race (e : ExpectProcess) (k : nat) : option (outcome unit) :=
  t ← calls e !! k; r ← ca_race t; race r.

(** ** ExpectNode *)

Record ExpectNode : Type := EN { _nodeNum : Z; _nodePort : Z; proc : ExpectProcess }.
Definition PORT_OFFSET : Z := 5540.

(** [new ExpectNode(nodeNum)]; [text] is the argument as the child gets it. *)
Definition ExpectNode_new (nodeNum : Z) (text : jsstr) : ExpectNode :=
  EN nodeNum (nodeNum + PORT_OFFSET) (fork "dist/app.js" [text] ExpectProcess_new).1.

(** [init()], cut at its two awaits: what it does when the race of the expectation it
    waits for has been won. *)
Definition init_start : js ExpectProcess nat := expect (CText (js_str "Server started!")).
Definition init_continue (k : nat) : js ExpectProcess (option nat) :=
  e ← js_get;
  match call_race e k with
  | Some (Ret _) => ExpectProcess_send [] ;; k' ← expect (CText (js_str ">")); mret (Some k')
  | Some (Throw err) => js_throw err
  | None => mret None
  end.

Definition ExpectNode_exit : js ExpectProcess unit := exit.

(** ** What the searches rely on

    The abstract process: the lines printed so far and the number of lines the calls
    have asked for. *)
Definition lines_ok (e : ExpectProcess) (l : list jsstr) (m : nat) : Prop :=
  stdoutQ e = queue_of (Fifo l m).

Lemma in_stdout_enqueue e l m line :
  lines_ok e l m →
  in_stdout (enqueue line) e = (set_stdoutQ (queue_of (Fifo (l ++ [line]) m)) e, Ret tt).
Proof. intros H. unfold in_stdout, zoom. by rewrite H, enqueue_refines. Qed.

Lemma in_stdout_dequeue e l m :
  lines_ok e l m →
  in_stdout dequeue e = (set_stdoutQ (queue_of (Fifo l (S m))) e, Ret (Some m)).
Proof. intros H. unfold in_stdout, zoom. by rewrite H, dequeue_refines. Qed.

(** Output becomes lines, each the next value of the queue. *)
Lemma on_stdout_spec data e l m :
  lines_ok e l m →
  on_stdout data e = (set_stdoutQ (queue_of (Fifo (l ++ split_lines data) m)) e, Ret tt).
Proof.
  unfold on_stdout. generalize (split_lines data) as new. intros new. revert e l.
  induction new as [|line new IH]; intros e l H; cbn [js_forEach].
  - rewrite app_nil_r, <- H. by destruct e.
  - erewrite js_bind_eq by by apply in_stdout_enqueue.
    rewrite (IH _ (l ++ [line])) by done. by rewrite <- app_assoc.
Qed.

(** A call starts by taking the next promise. *)
Lemma start_spec kind c timed e l m :
  lines_ok e l m →
  start kind c timed e
  = (set_calls (calls e ++ [Call kind c (Some m) [] None
                              (if timed then Some AsyncTimeout_new else None)])
       (set_stdoutQ (queue_of (Fifo l (S m))) e), Ret (length (calls e))).
Proof. intros H. unfold start. by erewrite js_bind_eq by by apply in_stdout_dequeue. Qed.

(** The line a call waits for, if it has been printed. *)
Lemma settled_line (l : list jsstr) (m p : nat) :
  (p < m)%nat → settled (queue_of (Fifo l m)) !! p = Some (l !! p).
Proof. intros Hp. cbn. rewrite list_lookup_fmap, lookup_seq_lt by lia. done. Qed.

Lemma ready_spec e l m k t p :
  lines_ok e l m → calls e !! k = Some t → ca_awaits t = Some p → (p < m)%nat →
  ready e k = pair (t, p) <$> l !! p.
Proof.
  intros H Hk Ht Hp. unfold ready. rewrite Hk. cbn [mbind option_bind]. rewrite Ht. cbn [mbind option_bind].
  rewrite H, settled_line by done. cbn. by destruct (l !! p).
Qed.

Lemma alter_twice {A} (f g : A → A) (l : list A) k t :
  l !! k = Some t → alter g k (alter f k l) = <[k := g (f t)]> l.
Proof.
  intros Hk. apply list_eq. intros i. destruct (decide (k = i)) as [<-|Hi].
  - rewrite !list_lookup_alter_eq, Hk, list_lookup_insert_eq; [done|]. by eapply lookup_lt_Some.
  - by rewrite !list_lookup_alter_ne, list_lookup_insert_ne by done.
Qed.

(** A line that matches ends the search, another one makes it take the next promise. *)
Definition next_call (r : regexp) (m p : nat) (line : jsstr) (t : call) : call :=
  if regexp_matches r line then finish (Ret tt) (saw p t) else awaits (Some m) (saw p t).

Lemma resume_search e l m k t p r line :
  lines_ok e l m → calls e !! k = Some t → ca_kind t = SearchCall →
  as_regexp (ca_condition t) = Ret r → ca_awaits t = Some p → (p < m)%nat → l !! p = Some line →
  resume_call k e
  = (set_calls (<[k := next_call r m p line t]> (calls e))
       (set_stdoutQ (queue_of (Fifo l (if regexp_matches r line then m else S m))) e), Ret tt).
Proof.
  intros H Hk Hkind Hr Ht Hp Hl. unfold resume_call.
  rewrite (ready_spec _ _ _ _ _ _ H Hk Ht Hp), Hl. cbn [fmap option_fmap option_map].
  unfold update_call at 1. rewrite (js_bind_eq (js_modify _) _ e _ tt) by done.
  unfold got_line, expectMatch. rewrite Hkind, Hr. cbn [mbind outcome_bind].
  unfold next_call. destruct (regexp_matches r line); unfold update_call.
  - unfold js_modify. cbn. by rewrite (alter_twice _ _ _ _ _ Hk), <- H.
  - erewrite js_bind_eq by by apply (in_stdout_dequeue _ l m).
    unfold js_modify. cbn. by rewrite (alter_twice _ _ _ _ _ Hk).
Qed.

(** ** One search *)

(** The call after it has seen the lines [ps] and waits for [next]. *)
Definition searched (ps : list nat) (next : option nat) (t : call) : call :=
  Call (ca_kind t) (ca_condition t) next (ca_lines t ++ ps) (ca_result t) (ca_race t).

Definition first_match (r : regexp) (lines : list jsstr) : option (nat * jsstr) :=
  list_find (λ line, regexp_matches r line = true) lines.

Definition is_search (r : regexp) (p : nat) (t : call) : Prop :=
  ca_kind t = SearchCall ∧ as_regexp (ca_condition t) = Ret r ∧ ca_awaits t = Some p.

Lemma drop_lines (l : list jsstr) p x rest :
  drop p l = x :: rest → l !! p = Some x ∧ drop (S p) l = rest.
Proof.
  intros H. split.
  - rewrite <- (Nat.add_0_r p), <- lookup_drop, H. done.
  - rewrite <- Nat.add_1_r, <- drop_drop, H. done.
Qed.

Lemma insert_twice {A} (a b : A) (l : list A) k : <[k := a]> (<[k := b]> l) = <[k := a]> l.
Proof. by rewrite list_insert_insert_eq. Qed.

(** One line that does not match. *)
Lemma resume_passes e l k t p r x rest :
  lines_ok e l (S p) → calls e !! k = Some t → is_search r p t →
  drop p l = x :: rest → regexp_matches r x = false →
  resume_call k e
  = (set_calls (<[k := searched [p] (Some (S p)) t]> (calls e))
       (set_stdoutQ (queue_of (Fifo l (S (S p)))) e), Ret tt).
Proof.
  intros H Hk (Hs & Hr & Ht) [Hx _]%drop_lines Hf.
  erewrite resume_search by (try done; lia). unfold next_call. rewrite Hf. done.
Qed.

Lemma searched_is r p t ps next : is_search r p t → is_search r next (searched ps (Some next) t).
Proof. by intros (? & ? & _). Qed.

Lemma searched_twice p ps n1 n2 t : searched ps n2 (searched [p] n1 t) = searched (p :: ps) n2 t.
Proof. unfold searched. cbn. by rewrite <- app_assoc. Qed.

Lemma search_found i e l k t p r line :
  lines_ok e l (S p) → calls e !! k = Some t → is_search r p t →
  first_match r (drop p l) = Some (i, line) →
  resumes (S i) k e
  = (set_calls (<[k := finish (Ret tt) (searched (seq p (S i)) None t)]> (calls e))
       (set_stdoutQ (queue_of (Fifo l (S (p + i)))) e), Ret tt).
Proof.
  revert e t p. induction i as [|i IH]; intros e t p H Hk Hs Hf; unfold first_match in Hf;
    destruct (drop p l) as [|x rest] eqn:Hd; try done; cbn [list_find] in Hf;
    destruct (decide (regexp_matches r x = true)) as [Hm|Hm]; try done.
  - destruct (drop_lines _ _ _ _ Hd) as [Hx _]. destruct Hs as (Hkind & Hr & Ht).
    cbn [resumes]. erewrite js_bind_eq by (eapply resume_search; try done; lia).
    unfold next_call. by rewrite Hm, Nat.add_0_r.
  - by destruct (list_find _ rest) as [[]|].
  - apply not_true_is_false in Hm.
    destruct (list_find _ rest) as [[j y]|] eqn:Hrest; [|done]. cbn in Hf. simplify_eq.
    change (resumes (S (S i)) k e) with ((resume_call k ;; resumes (S i) k) e).
    erewrite js_bind_eq by by eapply resume_passes.
    pose proof (drop_lines _ _ _ _ Hd) as [_ Hd'].
    erewrite (IH _ (searched [p] (Some (S p)) t) (S p)); [|done| |by eapply searched_is|].
    + rewrite searched_twice. unfold set_calls, set_stdoutQ. cbn [calls stdoutQ].
      rewrite insert_twice. do 5 f_equal. lia.
    + cbn. rewrite list_lookup_insert_eq; [done|]. by eapply lookup_lt_Some.
    + unfold first_match. by rewrite Hd'.
Qed.

Lemma search_pending n e l k t p r :
  lines_ok e l (S p) → calls e !! k = Some t → is_search r p t →
  n = length (drop p l) → first_match r (drop p l) = None →
  resumes n k e
  = (set_calls (<[k := searched (seq p n) (Some (p + n)%nat) t]> (calls e))
       (set_stdoutQ (queue_of (Fifo l (S (p + n)))) e), Ret tt).
Proof.
  revert e t p. induction n as [|n IH]; intros e t p H Hk Hs Hn Hf; unfold first_match in Hf;
    destruct (drop p l) as [|x rest] eqn:Hd; try done.
  - cbn. rewrite Nat.add_0_r, list_insert_id; [by rewrite <- H; destruct e|].
    rewrite Hk. destruct Hs as (? & ? & Ht), t. unfold searched. cbn in *. by rewrite app_nil_r, Ht.
  - cbn [list_find] in Hf. destruct (decide (regexp_matches r x = true)) as [Hm|Hm]; [done|].
    apply not_true_is_false in Hm.
    change (resumes (S n) k e) with ((resume_call k ;; resumes n k) e).
    erewrite js_bind_eq by by eapply resume_passes.
    pose proof (drop_lines _ _ _ _ Hd) as [_ Hd'].
    erewrite (IH _ (searched [p] (Some (S p)) t) (S p)); [|done| |by eapply searched_is| |].
    + rewrite searched_twice. unfold set_calls, set_stdoutQ. cbn [calls stdoutQ].
      rewrite insert_twice. rewrite <- plus_n_Sm. done.
    + cbn. rewrite list_lookup_insert_eq; [done|]. by eapply lookup_lt_Some.
    + rewrite Hd'. cbn in Hn. lia.
    + unfold first_match. rewrite Hd'. by destruct (list_find _ rest) as [[]|].
Qed.

(** C39: an expectation finds the first line that matches.  When no other call waits, an
    expectation whose condition compiles takes the lines that are in the queue one after
    the other: it is resumed once for each line up to the first that matches, its race is
    then won, the timer is off, and the lines behind that one stay for the next
    call; when none matches, it has taken all of them, waits for the next line, and is lost
    when the timer fires. *)
Theorem expect_first_line (e : ExpectProcess) (l : list jsstr) (m : nat) (c : condition)
    (r : regexp) :
  lines_ok e l m → (m <= length l)%nat → as_regexp c = Ret r →
  match first_match r (drop m l) with
  | Some (i, line) =>
      ∃ e', (k ← expect c; resumes (S i) k) e = (e', Ret tt) ∧
        calls e' = calls e ++ [Call SearchCall c None (seq m (S i)) (Some (Ret tt))
                                 (Some (Timeout (Some (Ret tt)) false))] ∧
        lines_ok e' l (m + S i)
  | None =>
      ∃ e', (k ← expect c; resumes (length l - m) k) e = (e', Ret tt) ∧
        calls e' = calls e ++ [Call SearchCall c (Some (length l)) (seq m (length l - m)) None
                                 (Some (Timeout None true))] ∧
        lines_ok e' l (S (length l)) ∧ ready e' (length (calls e)) = None ∧
        call_race (fire (length (calls e)) e').1 (length (calls e)) = Some (Throw expired)
  end.
Proof.
  intros H Hm Hr. set (k := length (calls e)).
  set (t := Call SearchCall c (Some m) [] None (Some AsyncTimeout_new)).
  set (e1 := set_calls (calls e ++ [t]) (set_stdoutQ (queue_of (Fifo l (S m))) e)).
  assert (∀ n, (k ← expect c; resumes n k) e = resumes n k e1) as Hrun.
  { intros n. by erewrite js_bind_eq by by apply start_spec. }
  assert (calls e1 !! k = Some t) as Hk by (cbn; unfold k; by rewrite list_lookup_middle).
  assert (∀ x : call, <[k := x]> (calls e ++ [t]) = calls e ++ [x]) as Hins.
  { intros x. unfold k. by rewrite insert_app_r_alt, Nat.sub_diag by done. }
  destruct (first_match r (drop m l)) as [[i line]|] eqn:Hf.
  - eexists. rewrite Hrun, (search_found i e1 l k t m r line) by done. split_and!; [done| |].
    + cbn [calls set_calls set_stdoutQ]. by rewrite Hins.
    + by rewrite <- plus_n_Sm.
  - assert ((m + (length l - m))%nat = length l) as Hn by lia.
    eexists. rewrite Hrun, (search_pending (length l - m) e1 l k t m r) by (try done; by rewrite length_drop).
    rewrite Hn. split; [done|]. cbn [calls set_calls set_stdoutQ]. rewrite Hins.
    assert (∀ x : call, (calls e ++ [x]) !! k = Some x) as Hat
      by (intros x; unfold k; by rewrite list_lookup_middle).
    split_and!; [done|done| |].
    + erewrite ready_spec; [|done|apply Hat|done|lia]. by rewrite lookup_ge_None_2.
    + unfold call_race, fire, update_call, js_modify. cbn [fst calls set_calls].
      by rewrite list_lookup_alter_eq, Hat.
Qed.

(** ** Many calls *)

(** What can happen to a process. *)
Inductive expect_step : ExpectProcess → ExpectProcess → Prop :=
  | step_stdout data e : expect_step e (on_stdout data e).1
  | step_stderr data e : expect_step e (on_stderr data e).1
  | step_start kind c timed e : expect_step e (start kind c timed e).1
  | step_resume k e : expect_step e (resume_call k e).1
  | step_fire k e : expect_step e (fire k e).1
  | step_child f e : expect_step e (with_process f e).1
  | step_spawn command args e : expect_step e (spawn command args e).1
  | step_Timeout ms e : expect_step e (set_Timeout ms e).

(** The lines a call has seen or waits for, by their numbers. *)
Definition claims (t : call) : list nat := ca_lines t ++ option_list (ca_awaits t).

(** Every line that was asked for belongs to one call. *)
Definition expect_ok (e : ExpectProcess) : Prop :=
  ∃ l m, lines_ok e l m ∧ (calls e ≫= claims) ≡ₚ seq 0 m.

(** Replacing a call. *)
Lemma calls_insert (l : list call) k t t' :
  l !! k = Some t → ∃ l1 l2, l = l1 ++ t :: l2 ∧ <[k := t']> l = l1 ++ t' :: l2.
Proof.
  intros H. exists (take k l), (drop (S k) l). split; [by rewrite take_drop_middle|].
  rewrite insert_take_drop; [done|by eapply lookup_lt_Some].
Qed.

Lemma claims_insert (l : list call) k t t' new :
  l !! k = Some t → claims t' ≡ₚ claims t ++ new →
  (<[k := t']> l ≫= claims) ≡ₚ (l ≫= claims) ++ new.
Proof.
  intros H Hp. destruct (calls_insert l k t t' H) as (l1 & l2 & -> & ->).
  rewrite !bind_app, !bind_cons, Hp. rewrite <- !app_assoc.
  by rewrite (Permutation_app_comm new).
Qed.

Lemma claims_saw p t : ca_awaits t = Some p → claims (saw p t) = claims t.
Proof. intros H. unfold claims. rewrite H. cbn. by rewrite app_nil_r. Qed.

Lemma claims_finish o t : ca_awaits t = None → claims (finish o t) = claims t.
Proof. intros H. unfold claims. by rewrite H. Qed.

(** Calls keep what they have claimed. *)
Definition grows (e e' : ExpectProcess) : Prop :=
  ∀ k t, calls e !! k = Some t → ∃ t', calls e' !! k = Some t' ∧ claims t ⊆ claims t'.

Lemma grows_same e e' : calls e' = calls e → grows e e'.
Proof. intros H k t Hk. rewrite H. eauto. Qed.

Lemma grows_trans e1 e2 e3 : grows e1 e2 → grows e2 e3 → grows e1 e3.
Proof.
  intros H12 H23 k t (t2 & (t3 & Hk & Hs)%H23 & Hs')%H12. exists t3. split; [done|set_solver].
Qed.

(** A call that takes [n] more lines. *)
Lemma ok_update e e' l m k t t' n :
  (calls e ≫= claims) ≡ₚ seq 0 m → lines_ok e' l (m + n) → calls e !! k = Some t →
  calls e' = <[k := t']> (calls e) → claims t' = claims t ++ seq m n →
  expect_ok e' ∧ grows e e'.
Proof.
  intros Hp H Hk Hc Ht. split.
  - exists l, (m + n)%nat. split; [done|].
    rewrite Hc, (claims_insert _ k t t' (seq m n)) by (done || by rewrite Ht).
    by rewrite Hp, seq_app.
  - intros k' u Hu. rewrite Hc. destruct (decide (k = k')) as [<-|Hne].
    + rewrite Hk in Hu. simplify_eq. rewrite list_lookup_insert_eq by by eapply lookup_lt_Some.
      exists t'. split; [done|]. rewrite Ht. set_solver.
    + rewrite list_lookup_insert_ne by done. eauto.
Qed.

Lemma resume_ok k e : expect_ok e → expect_ok (resume_call k e).1 ∧ grows e (resume_call k e).1.
Proof.
  intros (l & m & H & Hp). unfold resume_call.
  destruct (ready e k) as [[[t p] line]|] eqn:Hr.
  2:{ split; [by exists l, m|by apply grows_same]. }
  assert (calls e !! k = Some t ∧ ca_awaits t = Some p) as [Hk Ht].
  { unfold ready in Hr. destruct (calls e !! k) as [u|]; [|done]. cbn in Hr.
    destruct (ca_awaits u) as [q|] eqn:E; [|done]. cbn in Hr.
    destruct (settled (stdoutQ e) !! q) as [[|]|]; by simplify_eq/=. }
  assert (∀ o, let e' := (update_call k (saw p) ;; update_call k (finish o)) e in
    expect_ok e'.1 ∧ grows e e'.1) as Hfinish.
  { intros o. eapply (ok_update e _ l m k t (finish o (saw p t)) 0);
      [done|by rewrite Nat.add_0_r|done| |].
    - unfold update_call, js_modify, mbind, js_bind. cbn. by rewrite (alter_twice _ _ _ _ _ Hk).
    - rewrite claims_finish, claims_saw, app_nil_r by done. done. }
  unfold got_line. destruct (ca_kind t); [apply Hfinish|].
  destruct (expectMatch (ca_condition t) line) as [[]|]; [apply Hfinish| |apply Hfinish].
  rewrite (js_bind_eq (update_call k (saw p)) _ e _ tt) by done.
  erewrite js_bind_eq by by apply (in_stdout_dequeue _ l m).
  eapply (ok_update e _ l m k t (awaits (Some m) (saw p t)) 1); [done| |done| |].
  - by rewrite Nat.add_1_r.
  - unfold update_call, js_modify. cbn. by rewrite (alter_twice _ _ _ _ _ Hk).
  - unfold claims, awaits, saw. cbn. by rewrite Ht.
Qed.

Lemma fire_ok k e : expect_ok e → expect_ok (fire k e).1 ∧ grows e (fire k e).1.
Proof.
  intros (l & m & H & Hp). unfold fire, update_call, js_modify. cbn [fst].
  destruct (calls e !! k) as [t|] eqn:Hk.
  - eapply (ok_update e _ l m k t _ 0); [done|by rewrite Nat.add_0_r|done| |].
    + cbn. apply list_eq. intros i. destruct (decide (k = i)) as [<-|Hne].
      * by rewrite list_lookup_alter_eq, list_lookup_insert_eq, Hk by by eapply lookup_lt_Some.
      * by rewrite list_lookup_alter_ne, list_lookup_insert_ne by done.
    + by rewrite app_nil_r.
  - set (f := λ t : call, _). assert (alter f k (calls e) = calls e) as E.
    { apply list_eq. intros i. rewrite list_lookup_alter. case_decide as Hi; [|done].
      subst. by rewrite Hk. }
    split; [exists l, m; by rewrite <- E in Hp|by apply grows_same].
Qed.

Lemma start_ok kind c timed e :
  expect_ok e → expect_ok (start kind c timed e).1 ∧ grows e (start kind c timed e).1.
Proof.
  intros (l & m & H & Hp). rewrite (start_spec _ _ _ _ l m) by done. cbn [fst]. split.
  - exists l, (S m). split; [done|]. cbn [calls set_calls]. rewrite bind_app, Hp, seq_S. done.
  - intros k t Hk. cbn [calls set_calls]. exists t. split; [by apply lookup_app_l_Some|done].
Qed.

Lemma expect_step_ok e e' : expect_ok e → expect_step e e' → expect_ok e' ∧ grows e e'.
Proof.
  intros Hok Hstep. destruct Hstep as [data e|data e|kind c timed e|k e|k e|f e|command args e|ms e];
    try (destruct Hok as (l & m & H & Hp)).
  - rewrite (on_stdout_spec _ _ l m) by done. split; [|by apply grows_same]. by eexists _, m.
  - split; [exists l, m|apply grows_same]; unfold on_stderr, in_stderr, zoom;
      by destruct (enqueue data (stderrQ e)).
  - apply start_ok. by exists l, m.
  - apply resume_ok. by exists l, m.
  - apply fire_ok. by exists l, m.
  - split; [exists l, m|apply grows_same]; unfold with_process; by destruct (ep_process e).
  - split; [by exists l, m|by apply grows_same].
  - split; [by exists l, m|by apply grows_same].
Qed.

Lemma expect_reach_ok e e' : expect_ok e → rtc expect_step e e' → expect_ok e' ∧ grows e e'.
Proof.
  intros Hok H. induction H as [e|e1 e2 e3 H12 _ IH]; [split; [done|by apply grows_same]|].
  destruct (expect_step_ok _ _ Hok H12) as [Hok2 Hg]. destruct (IH Hok2) as [Hok3 Hg'].
  split; [done|by eapply grows_trans].
Qed.

Lemma expect_new_ok : expect_ok ExpectProcess_new.
Proof. by exists [], 0%nat. Qed.

(** Claims of different calls are apart. *)
Lemma claims_apart (l : list call) k k' t t' p :
  NoDup (l ≫= claims) → l !! k = Some t → l !! k' = Some t' → p ∈ claims t → p ∈ claims t' →
  k = k'.
Proof.
  revert k k'. induction l as [|x l IH]; intros k k' Hn Hk Hk' Hp Hp'; [done|].
  rewrite bind_cons, NoDup_app in Hn. destruct Hn as (_ & Hx & Hn).
  assert (∀ i u, l !! i = Some u → p ∈ claims u → p ∈ l ≫= claims) as Hin.
  { intros i u Hi Hu. apply list_elem_of_bind. exists u. split; [done|].
    by eapply list_elem_of_lookup_2. }
  destruct k as [|k], k' as [|k']; simplify_eq/=; [done| | |f_equal; by eapply IH].
  - exfalso. eapply Hx; [done|by eapply Hin].
  - exfalso. eapply Hx; [done|by eapply Hin].
Qed.

(** A search keeps the line it waits for, also when nobody waits for the search any more.
    In every state that a process can reach, the lines asked for, in the order in which
    they are printed, are shared out among the calls, each to one.  A call that waits for line
    [p] has it for good: whatever happens afterwards, its timer firing included, no
    other call gets that line.  So an expectation that has timed out takes at least one
    line from the expectations behind it. *)
Theorem search_keeps_its_line (e e' : ExpectProcess) (k k' p : nat) (t t' : call) :
  rtc expect_step ExpectProcess_new e → rtc expect_step e e' →
  calls e !! k = Some t → ca_awaits t = Some p →
  calls e' !! k' = Some t' → p ∈ claims t' →
  k' = k ∧ ∃ m, (calls e' ≫= claims) ≡ₚ seq 0 m.
Proof.
  intros He He' Hk Hp Hk' Hin.
  destruct (expect_reach_ok _ _ expect_new_ok He) as [Hok _].
  destruct (expect_reach_ok _ _ Hok He') as [(l & m & _ & Hperm) Hg].
  split; [|by exists m]. destruct (Hg k t Hk) as (u & Hu & Hsub).
  eapply claims_apart; [|done..|].
  - rewrite Hperm. apply NoDup_seq.
  - apply Hsub. unfold claims. rewrite Hp. set_solver.
Qed.
End regexp.

(** ** Lines and chunks *)

Definition is_EOL (u : Z) : bool := u =? EOL.

Lemma split_lines_cons data : ∃ line lines, split_lines data = line :: lines.
Proof.
  destruct data as [|u data]; cbn; [eauto|]. destruct (u =? EOL); [eauto|].
  destruct (split_lines data); eauto.
Qed.

Lemma split_lines_length data : length (split_lines data) = S (length (List.filter is_EOL data)).
Proof.
  induction data as [|u data IH]; [done|]. cbn. unfold is_EOL at 1.
  destruct (u =? EOL); cbn; [by rewrite IH|].
  destruct (split_lines_cons data) as (x & y & E). rewrite E in *. exact IH.
Qed.

Lemma split_lines_break a b : split_lines (a ++ EOL :: b) = split_lines a ++ split_lines b.
Proof.
  induction a as [|u a IH]; [done|]. cbn. destruct (u =? EOL); [by rewrite IH|].
  rewrite IH. by destruct (split_lines_cons a) as (x & y & ->).
Qed.

(** The queue depends on how the output is cut into data events: wherever it is cut,
    there is one line more. *)
Lemma chunks_differ a b : split_lines a ++ split_lines b ≠ split_lines (a ++ b).
Proof.
  intros H%(f_equal length). rewrite length_app, !split_lines_length, List.filter_app, length_app in H. lia.
Qed.

(** ** Concrete instances *)

(** Expressions without operators: the line contains the text. *)
Definition contains (text line : jsstr) : bool :=
  existsb (λ i, bool_decide (take (length text) (drop i line) = text)) (seq 0 (S (length line))).

#[export] Instance toy_regexp : RegExp :=
  {| regexp := jsstr; RegExp_new := Ret; regexp_matches := contains |}.

(** A started node prints two lines and the prompt. *)
Definition demo_output : jsstr := js_str "starting" ++ [EOL] ++ js_str "Server started!" ++ [EOL] ++ js_str ">".
Definition demo_process : ExpectProcess := (on_stdout demo_output ExpectProcess_new).1.

Lemma expect_first_line_witness :
  ∃ e', (k ← expect (CText (js_str "Server started!")); resumes 2 k) demo_process = (e', Ret tt) ∧
    calls e' = [Call SearchCall (CText (js_str "Server started!")) None [0; 1]%nat (Some (Ret tt))
                  (Some (Timeout (Some (Ret tt)) false))] ∧
    lines_ok e' (split_lines demo_output) 2.
Proof.
  apply (expect_first_line demo_process (split_lines demo_output) 0
           (CText (js_str "Server started!")) (js_str "Server started!")).
  - vm_compute. reflexivity.
  - vm_compute. lia.
  - reflexivity.
Defined.

(** A search that has timed out gets the line that the second one looks for. *)
Definition demo_abandoned : ExpectProcess :=
  (fire 0 (expect (CText (js_str "ready")) ExpectProcess_new).1).1.
Definition demo_second : ExpectProcess :=
  ((_ ← expect (CText (js_str ">")); on_stdout (js_str ">") ;; resume_call 0 ;; resume_call 1) demo_abandoned).1.

Lemma search_keeps_its_line_witness :
  call_race demo_abandoned 0 = Some (Throw expired) ∧
  call_race demo_second 1 = None ∧
  (∀ k t, calls demo_second !! k = Some t → 0%nat ∈ claims t → k = 0%nat).
Proof.
  split; [reflexivity|]. split; [vm_compute; reflexivity|]. intros k t Hk Ht.
  refine (proj1 (search_keeps_its_line demo_abandoned demo_second 0 k 0 _ t _ _ _ _ Hk Ht)).
  - eapply rtc_l; [apply (step_start SearchCall (CText (js_str "ready")) true)|].
    apply rtc_once, step_fire.
  - eapply rtc_l; [apply (step_start SearchCall (CText (js_str ">")) true)|].
    eapply rtc_l; [apply (step_stdout (js_str ">"))|].
    eapply rtc_l; [apply (step_resume 0)|]. apply rtc_once, step_resume.
  - reflexivity.
  - reflexivity.
Defined.
