(* ===== verification/TlvType.v ===== *)
(** * Deterministic JSON (src/tlv/TlvType.ts)

    The values a TLV element can carry and the entries that hold them.  An entry
    is parametrised by the type of its value, so that the reader, which builds
    the tree in place, and its clients, which only read it, share the record. *)
From S2P Require Import Prelude JsNumber JsString.

(** The interface [DeterministicJson]; an absent field is [None]. *)
Record DeterministicJson (V : Type) : Type := Entry {
  tag : option Z;
  type : option string;
  profile : option Z;
  value : V;
  tagName : option string }.
Arguments Entry {V} _ _ _ _ _.
Arguments tag {V} _.
Arguments type {V} _.
Arguments profile {V} _.
Arguments value {V} _.
Arguments tagName {V} _.

(** JavaScript values as the TLV code sees them ([value?: any]). *)
Set Warnings "-register-all".

Inductive json : Type :=
  | JUndef
  | JNull
  | JBool (b : bool)
  | JNum (n : num)
  | JBig (z : Z)
  | JStr (s : jsstr)
  | JBuf (b : buffer)
  | JArr (l : list json)
  | JObj (e : DeterministicJson json).

Abbreviation entry := (DeterministicJson json).

(** The interface [ValueLength]. *)
Record ValueLength : Type := VL { vl_value : json; vl_length : Z }.

(** The interface [DecodedTagLength]. *)
Record DecodedTagLength : Type := DTL {
  dt_tag : option Z; dt_tagLength : Z; dt_profile : option Z }.

(** The interface [DecodedControlByte]; a name is [None] when the table of
    names has no such entry. *)
Record DecodedControlByte : Type := DCB {
  typeNum : Z; tagType : Z; dc_type : option string; tagTypeName : option string }.

(** ** Induction over the nested type *)

Section json_induction.
Variable P : json → Prop.
Hypothesis P_undef : P JUndef.
Hypothesis P_null : P JNull.
Hypothesis P_bool : ∀ b, P (JBool b).
Hypothesis P_num : ∀ n, P (JNum n).
Hypothesis P_big : ∀ z, P (JBig z).
Hypothesis P_str : ∀ s, P (JStr s).
Hypothesis P_buf : ∀ b, P (JBuf b).
Hypothesis P_arr : ∀ l, Forall P l → P (JArr l).
Hypothesis P_obj : ∀ e, P (value e) → P (JObj e).

Fixpoint json_nested_ind (j : json) : P j :=
  match j with
  | JUndef => P_undef
  | JNull => P_null
  | JBool b => P_bool b
  | JNum n => P_num n
  | JBig z => P_big z
  | JStr s => P_str s
  | JBuf b => P_buf b
  | JArr l => P_arr l ((fix go l : Forall P l :=
      match l with
      | [] => Forall_nil_2 P
      | j :: l' => Forall_cons_2 P j l' (json_nested_ind j) (go l')
      end) l)
  | JObj e => P_obj e (match e return P (value e) with Entry _ _ _ v _ => json_nested_ind v end)
  end.
End json_induction.

(** Property reads the clients chain: an index into a value and the [value] of
    an entry.  A Buffer and a string can be indexed too; any other value has no
    such property, and reading one of undefined or null is a TypeError. *)
Definition js_index (j : json) (i : nat) : outcome json :=
  match j with
  | JArr l => Ret (default JUndef (l !! i))
  | JBuf b => Ret (default JUndef ((λ x, JNum (NInt (byte_Z x))) <$> b !! i))
  | JStr s => Ret (default JUndef ((λ u, JStr [u]) <$> s !! i))
  | JUndef | JNull => Throw TypeError
  | _ => Ret JUndef
  end.

Definition js_value (j : json) : outcome json :=
  match j with
  | JObj e => Ret (value e)
  | JUndef | JNull => Throw TypeError
  | _ => Ret JUndef
  end.
