(* ===== verification/TlvCodec.v ===== *)
(** * The TLV codec (src/tlv/TlvCodec.ts)

    Encoding and decoding of single TLV elements: the control octet with its
    tag, integers of minimal width, and element values. *)
From S2P Require Import Prelude JsNumber JsString TlvType.

Definition TLV_TYPE_SIGNED_INTEGER : Z := 0x00.
Definition TLV_TYPE_UNSIGNED_INTEGER : Z := 0x04.
Definition TLV_TYPE_BOOLEAN_FALSE : Z := 0x08.
Definition TLV_TYPE_BOOLEAN_TRUE : Z := 0x09.
Definition TLV_TYPE_FLOAT : Z := 0x0A.
Definition TLV_TYPE_DOUBLE : Z := 0x0B.
Definition TLV_TYPE_UTF8_STRING : Z := 0x0C.
Definition TLV_TYPE_BYTE_STRING : Z := 0x10.
Definition TLV_TYPE_NULL : Z := 0x14.
Definition TLV_TYPE_STRUCTURE : Z := 0x15.
Definition TLV_TYPE_ARRAY : Z := 0x16.
Definition TLV_TYPE_LIST : Z := 0x17.
Definition TLV_TYPE_END : Z := 0x18.

Definition TLV_TAG_CONTROL_ANONYMOUS : Z := 0x00.
Definition TLV_TAG_CONTROL_CONTEXT_SPECIFIC : Z := 0x20.
Definition TLV_TAG_CONTROL_COMMON_PROFILE_2Bytes : Z := 0x40.
Definition TLV_TAG_CONTROL_COMMON_PROFILE_4Bytes : Z := 0x60.
Definition TLV_TAG_CONTROL_IMPLICIT_PROFILE_2Bytes : Z := 0x80.
Definition TLV_TAG_CONTROL_IMPLICIT_PROFILE_4Bytes : Z := 0xA0.
Definition TLV_TAG_CONTROL_FULLY_QUALIFIED_6Bytes : Z := 0xC0.
Definition TLV_TAG_CONTROL_FULLY_QUALIFIED_8Bytes : Z := 0xE0.

Definition INT8_MIN : Z := -128.
Definition INT16_MIN : Z := -32768.
Definition INT32_MIN : Z := -2147483648.
Definition INT64_MIN : Z := -9223372036854775808.

Definition INT8_MAX : Z := 127.
Definition INT16_MAX : Z := 32767.
Definition INT32_MAX : Z := 2147483647.
(** The literal 9223372036854775807 is a Number: it denotes the double 2^63. *)
Definition INT64_MAX : Z := 9223372036854775808.

Definition UINT8_MAX : Z := 255.
Definition UINT16_MAX : Z := 65535.
Definition UINT32_MAX : Z := 4294967295.
(** Likewise 18446744073709551615 denotes the double 2^64. *)
Definition UINT64_MAX : Z := 18446744073709551616.

Definition ElementTypes (t : Z) : option string :=
  match t with
  | 0x00 => Some "int8"
  | 0x01 => Some "int16"
  | 0x02 => Some "int32"
  | 0x03 => Some "int64"
  | 0x04 => Some "uint8"
  | 0x05 => Some "uint16"
  | 0x06 => Some "uint32"
  | 0x07 => Some "uint64"
  | 0x08 => Some "boolean"
  | 0x09 => Some "boolean"
  | 0x0A => Some "float"
  | 0x0B => Some "double"
  | 0x0C => Some "string uint8 len"
  | 0x0D => Some "string uint16 len"
  | 0x0E => Some "string uint32 len"
  | 0x0F => Some "string uint64 len"
  | 0x10 => Some "Buffer uint8 len"
  | 0x11 => Some "Buffer uint16 len"
  | 0x12 => Some "Buffer uint32 len"
  | 0x13 => Some "Buffer uint64 len"
  | 0x14 => Some "null"
  | 0x15 => Some "struct"
  | 0x16 => Some "array"
  | 0x17 => Some "list"
  | 0x18 => Some "End of Collection"
  | _ => None
  end%string.

Definition TagControls (t : Z) : option string :=
  match t with
  | 0x00 => Some "Anonymous"
  | 0x20 => Some "Context 1-byte"
  | 0x40 => Some "Common Profile 2-byte"
  | 0x60 => Some "Common Profile 4-byte"
  | 0x80 => Some "Implicit Profile 2-byte"
  | 0xA0 => Some "Implicit Profile 4-byte"
  | 0xC0 => Some "Fully Qualified 6-byte"
  | 0xE0 => Some "Fully Qualified 8-byte"
  | _ => None
  end%string.

Definition out_of_range : js_error := Thrown "TLV: Integer value out of range".

(** [encodeSignedInt(val)] *)
Definition encodeSignedInt (val : numeric) : outcome buffer :=
  let v := numeric_val val in
  if nval_geb v INT8_MIN && nval_leb v INT8_MAX then
    write_number_int 1 (Num (to_number val))
  else if nval_geb v INT16_MIN && nval_leb v INT16_MAX then
    write_number_int 2 (Num (to_number val))
  else if nval_geb v INT32_MIN && nval_leb v INT32_MAX then
    write_number_int 4 (Num (to_number val))
  else if nval_geb v INT64_MIN && nval_leb v INT64_MAX then
    z ← to_bigint val; write_int_le 8 z (alloc 8) 0
  else Throw out_of_range.

(** [encodeU64(val)] *)
Definition encodeU64 (val : numeric) : outcome buffer :=
  z ← to_bigint val; write_uint_le 8 z (alloc 8) 0.

(** [encodeUnsignedInt(val)] *)
Definition encodeUnsignedInt (val : numeric) : outcome buffer :=
  let v := numeric_val val in
  if nval_ltb v 0 then Throw out_of_range
  else if nval_leb v UINT8_MAX then write_number_uint 1 val
  else if nval_leb v UINT16_MAX then write_number_uint 2 val
  else if nval_leb v UINT32_MAX then write_number_uint 4 val
  else if nval_leb v UINT64_MAX then
    z ← to_bigint val; write_uint_le 8 z (alloc 8) 0
  else Throw out_of_range.

(** [encodeFloat(val)]: the Number rounded to single precision. *)
Definition encodeFloat (val : numeric) : outcome buffer :=
  match val with
  | Big _ => Throw TypeError
  | Num n => Ret (le_bytes 4 (f32_of_f64 (bits_of_num n)))
  end.

(** [encodeDouble(val)] *)
Definition encodeDouble (val : numeric) : outcome buffer :=
  match val with
  | Big _ => Throw TypeError
  | Num n => Ret (le_bytes 8 (bits_of_num n))
  end.

(** [encodeTag(tag)] *)
Definition encodeTag (tag : Z) : outcome buffer :=
  if (0 <=? tag) || (tag <=? UINT16_MAX) then write_uint_le 2 tag (alloc 2) 0
  else if (UINT16_MAX <? tag) || (tag <=? UINT32_MAX) then write_uint_le 4 tag (alloc 4) 0
  else Ret [].

(** The first part of [encodeControlByte]: the width bits of the element type. *)
Definition control_width (type lenOfLenOrVal : Z) : outcome Z :=
  if lenOfLenOrVal =? 2 then Ret (Z.lor type 1)
  else if lenOfLenOrVal =? 4 then Ret (Z.lor type 2)
  else if lenOfLenOrVal =? 8 then Ret (Z.lor type 3)
  else if lenOfLenOrVal >? 1 then Throw (Thrown "TLV: Illegal control value length")
  else Ret type.

(** [encodeControlByte(type, lenOfLenOrVal, tag, profile)] *)
Definition encodeControlByte (type lenOfLenOrVal : Z) (tag profile : option Z)
    : outcome buffer :=
  controlByte ← control_width type lenOfLenOrVal;
  '(controlByte, encoded) ←
    match profile with
    | None =>
        (* anonymous or context-specific *)
        match tag with
        | None => Ret (Z.lor controlByte TLV_TAG_CONTROL_ANONYMOUS, [])
        | Some t =>
            if (t <? 0) || (t >? UINT8_MAX)
            then Throw (Thrown "TLV: Context-specific tag number out of range")
            else encoded ← write_uint_le 1 t (alloc 1) 0;
                 Ret (Z.lor controlByte TLV_TAG_CONTROL_CONTEXT_SPECIFIC, encoded)
        end
    | Some p =>
        match tag with
        | None => Throw (Thrown "TLV: tag undefined")
        | Some t =>
            if (p =? 0) || (p =? TLV_TAG_CONTROL_COMMON_PROFILE_2Bytes)
               || (p =? TLV_TAG_CONTROL_COMMON_PROFILE_4Bytes) then
              (* common profile *)
              if (0 <=? t) && (t <=? UINT16_MAX) then
                let c := Z.lor controlByte TLV_TAG_CONTROL_COMMON_PROFILE_2Bytes in
                encoded ← write_uint_le 1 c (alloc 2) 0;
                encoded ← write_uint_le 2 t encoded 0;
                Ret (c, encoded)
              else if (t >? UINT16_MAX) && (t <=? UINT32_MAX) then
                encoded ← write_uint_le 4 t (alloc 4) 0;
                Ret (Z.lor controlByte TLV_TAG_CONTROL_COMMON_PROFILE_4Bytes, encoded)
              else Throw (Thrown "TLV: Illegal tag length")
            else if (p =? -1) || (p =? TLV_TAG_CONTROL_IMPLICIT_PROFILE_2Bytes)
                    || (p =? TLV_TAG_CONTROL_IMPLICIT_PROFILE_4Bytes) then
              (* implicit profile *)
              if (0 <=? t) && (t <=? UINT16_MAX) then
                encoded ← write_uint_le 2 t (alloc 2) 0;
                Ret (Z.lor controlByte TLV_TAG_CONTROL_IMPLICIT_PROFILE_2Bytes, encoded)
              else if (t >? UINT16_MAX) && (t <=? UINT32_MAX) then
                encoded ← write_uint_le 4 t (alloc 4) 0;
                Ret (Z.lor controlByte TLV_TAG_CONTROL_IMPLICIT_PROFILE_4Bytes, encoded)
              else Throw (Thrown "TLV: Illegal tag length")
            else
              (* fully qualified profile tag *)
              if (0 <=? t) && (t <=? UINT16_MAX) then
                encoded ← write_uint_le 4 p (alloc 6) 0;
                encoded ← write_uint_le 2 t encoded 4;
                Ret (Z.lor controlByte TLV_TAG_CONTROL_FULLY_QUALIFIED_6Bytes, encoded)
              else if (t >? UINT16_MAX) && (t <=? UINT32_MAX) then
                encoded ← write_uint_le 4 p (alloc 8) 0;
                encoded ← write_uint_le 4 t encoded 4;
                Ret (Z.lor controlByte TLV_TAG_CONTROL_FULLY_QUALIFIED_8Bytes, encoded)
              else Ret (controlByte, [])
        end
    end;
  encodedControl ← write_uint_le 1 controlByte (alloc 1) 0;
  Ret (encodedControl ++ encoded).

(** [decodeControlByte(tlv)] *)
Definition decodeControlByte (tlv : buffer) : outcome DecodedControlByte :=
  controlByte ← read_uint_le 1 tlv 0;
  let elementType := Z.land controlByte 0x1F in
  let tagControl := Z.land controlByte 0xE0 in
  Ret (DCB elementType tagControl (ElementTypes elementType) (TagControls tagControl)).

Definition is_one_of (t : Z) (l : list Z) : bool := existsb (Z.eqb t) l.

(** The first cascade of [decodeValueAndLength]: the primitive value, or the
    length prefix of a string, and the number of bytes it took. *)
Definition decode_primitive (tlv : buffer) (elementType : Z) : outcome (json * Z) :=
  let among := is_one_of elementType in
  let num_at n := z ← read_uint_le n tlv 0; Ret (JNum (NInt z), Z.of_nat n) in
  let int_at n := z ← read_int_le n tlv 0; Ret (JNum (NInt z), Z.of_nat n) in
  if among [TLV_TYPE_NULL] then Ret (JUndef, 0)
  else if among [TLV_TYPE_BOOLEAN_TRUE] then Ret (JBool true, 0)
  else if among [TLV_TYPE_BOOLEAN_FALSE] then Ret (JBool false, 0)
  else if among [TLV_TYPE_UTF8_STRING; TLV_TYPE_BYTE_STRING; TLV_TYPE_UNSIGNED_INTEGER]
  then num_at 1%nat
  else if among [TLV_TYPE_UTF8_STRING + 1; TLV_TYPE_BYTE_STRING + 1;
              TLV_TYPE_UNSIGNED_INTEGER + 1]
  then num_at 2%nat
  else if among [TLV_TYPE_UTF8_STRING + 2; TLV_TYPE_BYTE_STRING + 2;
              TLV_TYPE_UNSIGNED_INTEGER + 2]
  then num_at 4%nat
  else if among [TLV_TYPE_UTF8_STRING + 3; TLV_TYPE_BYTE_STRING + 3;
              TLV_TYPE_UNSIGNED_INTEGER + 3]
  then z ← read_uint_le 8 tlv 0; Ret (JBig z, 8)
  else if among [TLV_TYPE_SIGNED_INTEGER] then int_at 1%nat
  else if among [TLV_TYPE_SIGNED_INTEGER + 1] then int_at 2%nat
  else if among [TLV_TYPE_SIGNED_INTEGER + 2] then int_at 4%nat
  else if among [TLV_TYPE_SIGNED_INTEGER + 3]
  then z ← read_int_le 8 tlv 0; Ret (JBig z, 8)
  else if among [TLV_TYPE_FLOAT]
  then z ← read_uint_le 4 tlv 0; Ret (JNum (num_of_bits (f64_of_f32 z)), 4)
  else if among [TLV_TYPE_DOUBLE]
  then z ← read_uint_le 8 tlv 0; Ret (JNum (num_of_bits z), 8)
  else if among [TLV_TYPE_STRUCTURE; TLV_TYPE_ARRAY; TLV_TYPE_LIST] then Ret (JArr [], 0)
  else Ret (JUndef, 0).

(** [decodeValueAndLength(tlv, elementType)]: for the string types the number
    read is a length, and the value is the slice behind it. *)
Definition decodeValueAndLength (tlv : buffer) (elementType : Z) : outcome ValueLength :=
  '(v, l) ← decode_primitive tlv elementType;
  match v with
  | JNum (NInt valSize) =>
      if (TLV_TYPE_UTF8_STRING <=? elementType)
         && (elementType <=? TLV_TYPE_UTF8_STRING + 3) then
        Ret (VL (JStr (utf8_decode (subarray tlv l (l + valSize)))) (l + valSize))
      else if (TLV_TYPE_BYTE_STRING <=? elementType)
              && (elementType <=? TLV_TYPE_BYTE_STRING + 3) then
        Ret (VL (JBuf (subarray tlv l (l + valSize))) (l + valSize))
      else Ret (VL v l)
  | _ => Ret (VL v l)
  end.

(** [decodeTagAndLength(tlv, tagType)] *)
Definition decodeTagAndLength (tlv : buffer) (tagType : Z) : outcome DecodedTagLength :=
  '(profile, tag, l) ←
    (if tagType =? TLV_TAG_CONTROL_ANONYMOUS then Ret (None, None, 0)
     else if tagType =? TLV_TAG_CONTROL_CONTEXT_SPECIFIC then
       t ← read_uint_le 1 tlv 0; Ret (None, Some t, 1)
     else if (tagType =? TLV_TAG_CONTROL_COMMON_PROFILE_2Bytes)
             || (tagType =? TLV_TAG_CONTROL_IMPLICIT_PROFILE_2Bytes) then
       t ← read_uint_le 2 tlv 0; Ret (Some 0, Some t, 2)
     else if (tagType =? TLV_TAG_CONTROL_COMMON_PROFILE_4Bytes)
             || (tagType =? TLV_TAG_CONTROL_IMPLICIT_PROFILE_4Bytes) then
       t ← read_uint_le 4 tlv 0; Ret (Some 0, Some t, 4)
     else if tagType =? TLV_TAG_CONTROL_FULLY_QUALIFIED_6Bytes then
       p ← read_uint_le 4 tlv 0; t ← read_uint_le 2 tlv 4; Ret (Some p, Some t, 6)
     else if tagType =? TLV_TAG_CONTROL_FULLY_QUALIFIED_8Bytes then
       p ← read_uint_le 4 tlv 0; t ← read_uint_le 4 tlv 4; Ret (Some p, Some t, 8)
     else Ret (None, Some 0, 0));
  let profile :=
    if (tagType =? TLV_TAG_CONTROL_IMPLICIT_PROFILE_2Bytes)
       || (tagType =? TLV_TAG_CONTROL_IMPLICIT_PROFILE_4Bytes)
    then Some (-1) else profile in
  Ret (DTL tag l profile).
