(* ===== verification/TlvWriter.v ===== *)
(** * The TLV writer (src/tlv/TlvWriter.ts)

    The object's state is its output buffer [buf]; every method appends to it.
    A method that throws keeps what it had appended before. *)
From S2P Require Import Prelude JsNumber JsString TlvType TlvCodec.

(** [this.buf = Buffer.concat([this.buf, ...])] *)
Definition append (b : buffer) : js buffer unit := js_modify (λ buf, buf ++ b).

(** The numeric reading of a value given for an integer or float type.  Strings
    and objects there are outside the declared [val:number]. *)
Definition to_numeric (v : json) : outcome numeric :=
  match v with
  | JUndef => Ret (Num (NFrac nan_bits))
  | JNull => Ret (Num (NInt 0))
  | JBool b => Ret (Num (NInt (if b then 1 else 0)))
  | JNum n => Ret (Num n)
  | JBig z => Ret (Big z)
  | JStr _ | JBuf _ | JArr _ | JObj _ => Throw OutOfModel
  end.

(** The value as a condition. *)
Definition truthy (v : json) : bool :=
  match v with
  | JUndef | JNull => false
  | JBool b => b
  | JNum n => match num_val n with VInt 0 | VNaN => false | _ => true end
  | JBig z => negb (z =? 0)
  | JStr s => negb (str_length s =? 0)
  | JBuf _ | JArr _ | JObj _ => true
  end.

(** [putUnsignedInt(val, tag, profile)] *)
Definition putUnsignedInt (val : json) (tag profile : option Z) : js buffer unit :=
  v ← js_lift (to_numeric val);
  encoded ← js_lift (encodeUnsignedInt v);
  controlAndTag ← js_lift (encodeControlByte TLV_TYPE_UNSIGNED_INTEGER
                             (blen encoded) tag profile);
  append (controlAndTag ++ encoded).

(** [putSignedInt(val, tag, profile)] *)
Definition putSignedInt (val : json) (tag profile : option Z) : js buffer unit :=
  v ← js_lift (to_numeric val);
  encoded ← js_lift (encodeSignedInt v);
  controlAndTag ← js_lift (encodeControlByte TLV_TYPE_SIGNED_INTEGER
                             (blen encoded) tag profile);
  append (controlAndTag ++ encoded).

(** [putFloat(val, tag, profile)] *)
Definition putFloat (val : json) (tag profile : option Z) : js buffer buffer :=
  v ← js_lift (to_numeric val);
  encoded ← js_lift (encodeFloat v);
  controlAndTag ← js_lift (encodeControlByte TLV_TYPE_FLOAT 0 tag profile);
  append (controlAndTag ++ encoded) ;;
  mret (controlAndTag ++ encoded).

(** [putDouble(val, tag, profile)] *)
Definition putDouble (val : json) (tag profile : option Z) : js buffer unit :=
  v ← js_lift (to_numeric val);
  encoded ← js_lift (encodeDouble v);
  controlAndTag ← js_lift (encodeControlByte TLV_TYPE_DOUBLE 0 tag profile);
  append (controlAndTag ++ encoded).

(** [putBoolean(val, tag, profile)] *)
Definition putBoolean (val : json) (tag profile : option Z) : js buffer unit :=
  let type := if truthy val then TLV_TYPE_BOOLEAN_TRUE else TLV_TYPE_BOOLEAN_FALSE in
  controlAndTag ← js_lift (encodeControlByte type 0 tag profile);
  append controlAndTag.

(** [putNull(tag, profile)] *)
Definition putNull (tag profile : option Z) : js buffer unit :=
  controlAndTag ← js_lift (encodeControlByte TLV_TYPE_NULL 0 tag profile);
  append controlAndTag.

(** [putBytes(val, tag, profile)] *)
Definition putBytes (val : buffer) (tag profile : option Z) : js buffer unit :=
  valLen ← js_lift (encodeUnsignedInt (Num (NInt (blen val))));
  controlAndTag ← js_lift (encodeControlByte TLV_TYPE_BYTE_STRING
                             (blen valLen) tag profile);
  append (controlAndTag ++ valLen ++ val).

(** [putString(val, tag, profile)]: the length written is [val.length], the
    number of UTF-16 units, while the contents are the UTF-8 bytes. *)
Definition putString (val : jsstr) (tag profile : option Z) : js buffer unit :=
  let encoded := utf8_encode val in
  valLen ← js_lift (encodeUnsignedInt (Num (NInt (str_length val))));
  controlAndTag ← js_lift (encodeControlByte TLV_TYPE_UTF8_STRING
                             (blen valLen) tag profile);
  append (controlAndTag ++ valLen ++ encoded).

(** [putStructStart], [putArrayStart], [putListStart] *)
Definition putStructStart (tag profile : option Z) : js buffer buffer :=
  controlAndTag ← js_lift (encodeControlByte TLV_TYPE_STRUCTURE 0 tag profile);
  append controlAndTag ;; mret controlAndTag.

Definition putArrayStart (tag profile : option Z) : js buffer buffer :=
  controlAndTag ← js_lift (encodeControlByte TLV_TYPE_ARRAY 0 tag profile);
  append controlAndTag ;; mret controlAndTag.

Definition putListStart (tag profile : option Z) : js buffer buffer :=
  controlAndTag ← js_lift (encodeControlByte TLV_TYPE_LIST 0 tag profile);
  append controlAndTag ;; mret controlAndTag.

(** [putContainerEnd()] *)
Definition putContainerEnd : js buffer unit :=
  controlAndTag ← js_lift (encodeControlByte TLV_TYPE_END 0 None None);
  append controlAndTag.

(** The dispatch of [put] on the value; [k] is what it does with an object
    ([this.encode(val)] after its tag and profile were overwritten). *)
Definition put_dispatch (k : js buffer unit) (val : json) (tag profile : option Z)
    : js buffer unit :=
  match val with
  | JUndef | JNull => putNull tag profile
  | JStr s => putString s tag profile
  | JBuf b => putBytes b tag profile
  | JBig z =>
      if z <? 0 then putSignedInt val tag profile else putUnsignedInt val tag profile
  | JNum n =>
      if num_is_integer n then
        if nval_ltb (num_val n) 0
        then putSignedInt val tag profile else putUnsignedInt val tag profile
      else putDouble val tag profile
  | JBool _ => putBoolean val tag profile
  | JArr _ | JObj _ => k
  end.

Definition is_type (t : option string) (l : list string) : bool :=
  match t with Some s => existsb (String.eqb s) l | None => false end.

(** [Buffer.from(value)] for a value that is not a string. *)
Definition buffer_elem (v : json) : outcome Byte.byte :=
  match v with
  | JNum n => Ret (Z_byte (nval_trunc (num_val n)))
  | JBool b => Ret (Z_byte (if b then 1 else 0))
  | JUndef | JNull => Ret Byte.x00
  | _ => Throw OutOfModel
  end.

Fixpoint buffer_elems (l : list json) : outcome buffer :=
  match l with
  | [] => Ret []
  | v :: l' => x ← buffer_elem v; b ← buffer_elems l'; Ret (x :: b)
  end.

Definition buffer_from (v : json) : outcome buffer :=
  match v with
  | JBuf b => Ret b
  | JArr l => buffer_elems l
  | JStr s => Ret (utf8_encode s)
  | JUndef | JNull | JBool _ | JNum _ | JBig _ | JObj _ => Throw TypeError
  end.

(** [encode(json)].  [ov] carries the tag and profile that [put] has just
    stored into the object it passes on. *)
Fixpoint encode_at (ov : option (option Z * option Z)) (json : json) : js buffer unit :=
  match json with
  | JUndef | JNull => js_throw TypeError
  | JArr l => js_forEach (encode_at None) l
  | JObj (Entry t type p value _) =>
      let '(tag, profile) := match ov with Some o => o | None => (t, p) end in
      if is_type type ["struct"%string] then
        putStructStart tag profile ;; encode_at None value ;; putContainerEnd
      else if is_type type ["array"%string] then
        putArrayStart tag profile ;; encode_at None value ;; putContainerEnd
      else if is_type type ["list"%string] then
        putListStart tag profile ;; encode_at None value ;; putContainerEnd
      else if is_type type ["int8"; "int16"; "int32"; "int64"]%string then
        putSignedInt value tag profile
      else if is_type type ["uint8"; "uint16"; "uint32"; "uint64"]%string then
        putUnsignedInt value tag profile
      else if is_type type ["float"%string] then
        putFloat value tag profile ;; mret tt
      else if is_type type ["boolean"; "bool"]%string then
        putBoolean value tag profile
      else if is_type type ["Buffer"%string] then
        value ← js_lift (match value with
                         | JStr s => Ret (hex_decode s)
                         | _ => buffer_from value
                         end);
        putBytes value tag profile
      else
        put_dispatch (encode_at (Some (tag, profile)) value) value tag profile
  | JBuf _ => putNull None None
  | JBool _ | JNum _ | JBig _ | JStr _ =>
      put_dispatch (js_throw TypeError) json None None
  end.

Definition encode (json : json) : js buffer unit := encode_at None json.

(** [put(val, tag, profile)] *)
Definition put (val : json) (tag profile : option Z) : js buffer unit :=
  put_dispatch (encode_at (Some (tag, profile)) val) val tag profile.

(** [new TlvWriter()] and [new TlvWriter().encode(json).Buffer] *)
Definition TlvWriter_new : buffer := alloc 0.

Definition encode_new (json : json) : outcome buffer :=
  match encode json TlvWriter_new with
  | (b, Ret _) => Ret b
  | (_, Throw e) => Throw e
  end.
