(* ===== verification/TlvReader.v ===== *)
(** * The TLV reader (src/tlv/TlvReader.ts)

    The decoder builds the tree in place: a container entry's [value] is an
    array object that later iterations push into through [this._container],
    and a stack remembers the enclosing arrays.  The model keeps that sharing.
    Arrays live in a store [arrays], an array object is an index into it, and
    the [value] of a container entry is such an index.  [json_of] reads the tree
    out of the store; the main lemmas relate it to the abstract elements of
    [TlvElement]. *)
From S2P Require Import Prelude JsNumber JsString TlvType TlvCodec.

(** The value slot of an entry under construction. *)
Inductive slot : Type :=
  | SVal (v : json)
  | SRef (a : nat).

Abbreviation hentry := (DeterministicJson slot).
Abbreviation store := (list (list hentry)).

(** The object: [_json] is the array 0 of the store. *)
Record TlvReader : Type := Reader {
  arrays : store;
  _container : option nat }.

Definition TlvReader_new : TlvReader := Reader [[]] (Some 0%nat).

(** [this._container.push(decoding)], when there is a container. *)
Definition push_entry (h : store) (c : option nat) (e : hentry) : store :=
  match c with
  | Some a => alter (λ l, l ++ [e]) a h
  | None => h
  end.

(** The variables of the loop of [decode]. *)
Record decode_state : Type := DS {
  ds_tlv : buffer;
  ds_depth : Z;
  ds_stack : list (option nat);
  ds_reader : TlvReader }.

Definition is_container (type : Z) : bool :=
  (type =? TLV_TYPE_STRUCTURE) || (type =? TLV_TYPE_ARRAY) || (type =? TLV_TYPE_LIST).

(** One iteration of the [while] loop.  [decodeValueAndLength] returns a new
    array for a container type; it becomes a new cell of the store.  What can throw, the
    three calls of the codec, comes before the first write to the object. *)
Definition decode_step (s : decode_state) : outcome decode_state :=
  let '(DS tlv containerDepth containerStack (Reader h c)) := s in
  control ← decodeControlByte tlv;
  let type := typeNum control in
  let tlv := subarray_from tlv 1 in
  tag ← decodeTagAndLength tlv (tagType control);
  let tlv := subarray_from tlv (dt_tagLength tag) in
  valueAndLength ← decodeValueAndLength tlv type;
  let '(h, v) := if is_container type then (h ++ [[]], SRef (length h))
                 else (h, SVal (vl_value valueAndLength)) in
  let decoding := Entry (dt_tag tag) (dc_type control) (dt_profile tag) v None in
  let tlv := subarray_from tlv (vl_length valueAndLength) in
  let '(h, c, containerDepth, containerStack) :=
    if type =? TLV_TYPE_END
    then (h, mjoin (head containerStack), containerDepth - 1, tail containerStack)
    else (push_entry h c decoding, c, containerDepth, containerStack) in
  let '(c, containerDepth, containerStack) :=
    match v with
    | SRef a => if is_container type
                then (Some a, containerDepth + 1, c :: containerStack)
                else (c, containerDepth, containerStack)
    | SVal _ => (c, containerDepth, containerStack)
    end in
  Ret (DS tlv containerDepth containerStack (Reader h c)).

(** [while (tlv.length > 0 && containerDepth > 0)].  Each iteration takes at
    least the control octet, so [length tlv] iterations are enough
    ([decode_of_run]); [None] is an exhausted fuel.  An exception leaves the object as the
    iterations before it made it. *)
Fixpoint decode_loop (fuel : nat) (s : decode_state) : option (TlvReader * outcome unit) :=
  if (blen (ds_tlv s) >? 0) && (ds_depth s >? 0) then
    match fuel with
    | O => None
    | S fuel' =>
        match decode_step s with
        | Ret s' => decode_loop fuel' s'
        | Throw e => Some (ds_reader s, Throw e)
        end
    end
  else Some (ds_reader s, Ret tt).

Definition decode_start (r : TlvReader) (tlv : buffer) : decode_state :=
  DS tlv 1 [_container r] r.

(** [decode(tlv)] *)
Definition decode (tlv : buffer) : js TlvReader unit := λ r,
  match decode_loop (length tlv) (decode_start r tlv) with
  | Some o => o
  | None => (r, Throw OutOfModel)
  end.

(** Reading the tree of an array out of the store.  An array only refers to
    arrays created after it, so the size of the store bounds the nesting. *)
Fixpoint json_of (fuel : nat) (h : store) (a : nat) : list json :=
  match fuel with
  | O => []
  | S fuel' =>
      (λ e : hentry,
        JObj (Entry (tag e) (type e) (profile e)
          (match value e with
           | SVal v => v
           | SRef a' => JArr (json_of fuel' h a')
           end) (tagName e)))
      <$> (h !!! a)
  end.

(** The getter [Json]. *)
Definition Json (r : TlvReader) : list json :=
  json_of (length (arrays r)) (arrays r) 0.

(** [new TlvReader().decode(tlv).Json] *)
Definition decode_json (tlv : buffer) : outcome json :=
  let '(r, o) := decode tlv TlvReader_new in o ;; Ret (JArr (Json r)).

(** [TlvReader.findTag(tlvJson, tag)]: the value of the first entry with the
    tag; [undefined] when there is none.  Arrays and Buffers have [find]; the
    numbers in a Buffer have no [tag]; reading [tag] of an element that is null or
    undefined throws. *)
Fixpoint find_entry (l : list json) (t : Z) : outcome json :=
  match l with
  | [] => Ret JUndef
  | JObj e :: l' =>
      if bool_decide (tag e = Some t) then Ret (value e) else find_entry l' t
  | (JUndef | JNull) :: _ => Throw TypeError
  | _ :: l' => find_entry l' t
  end.

Definition findTag (tlvJson : json) (t : Z) : outcome json :=
  match tlvJson with
  | JArr l => find_entry l t
  | JBuf _ => Ret JUndef
  | _ => Throw TypeError
  end.
