(* ===== verification/TlvParser.v ===== *)
(** * Reading fields by name (src/tlv/TlvParser.ts)

    The static methods of [TlvParser] work on the array a container holds.  Those
    that write names do so in place; the model returns the renamed array. *)
From S2P Require Import Prelude JsNumber JsString TlvType TlvReader.

(** [JsonStringify(tlvJson)]: the replacer is a block without [return], so it
    drops the root value and the result is [undefined]. *)
Definition replacer (value : json) : json := JUndef.
Definition JsonStringify (tlvJson : json) : json := replacer tlvJson.

(** [findTag(tlvJson, tag)]: the same search as [TlvReader.findTag]. *)
Definition parser_findTag (tlvJson : json) (t : Z) : outcome json := findTag tlvJson t.

(** [entry.tagName = tagName] *)
Definition set_tagName (name : string) (e : entry) : entry :=
  Entry (tag e) (type e) (profile e) (value e) (Some name).

(** [setNameForTag(tlvJson, tag, tagName)] *)
Fixpoint name_first (l : list json) (t : Z) (name : string) : outcome (list json) :=
  match l with
  | [] => Ret []
  | JObj e :: l' =>
      if bool_decide (tag e = Some t) then Ret (JObj (set_tagName name e) :: l')
      else cons (JObj e) <$> name_first l' t name
  | (JUndef | JNull) :: _ => Throw TypeError
  | j :: l' => cons j <$> name_first l' t name
  end.

Definition setNameForTag (tlvJson : json) (t : Z) (name : string) : outcome json :=
  match tlvJson with
  | JArr l => JArr <$> name_first l t name
  | JBuf _ => Ret tlvJson
  | _ => Throw TypeError
  end.

(** [get(tlvJson, tagName)]: the value of the first entry with the name. *)
Fixpoint find_named (l : list json) (name : string) : outcome json :=
  match l with
  | [] => Ret JUndef
  | JObj e :: l' =>
      if bool_decide (tagName e = Some name) then Ret (value e) else find_named l' name
  | (JUndef | JNull) :: _ => Throw TypeError
  | _ :: l' => find_named l' name
  end.

Definition get (tlvJson : json) (name : string) : outcome json :=
  match tlvJson with
  | JArr l => find_named l name
  | JBuf _ => Ret JUndef
  | _ => Throw TypeError
  end.

(** [mapFields(tlvJson, tagNameMap)]: the condition [element.tag && ...] also
    leaves out tag 0. *)
Definition map_entry (m : gmap Z string) (e : entry) : entry :=
  match tag e with
  | Some t => if t =? 0 then e
              else match m !! t with Some name => set_tagName name e | None => e end
  | None => e
  end.

Definition map_field (m : gmap Z string) (j : json) : outcome json :=
  match j with
  | JObj e => Ret (JObj (map_entry m e))
  | JUndef | JNull => Throw TypeError
  | _ => Ret j
  end.

Definition mapFields (tlvJson : json) (m : gmap Z string) : outcome json :=
  match tlvJson with
  | JArr l => JArr <$> mapM (map_field m) l
  | JBuf _ => Ret tlvJson
  | _ => Throw TypeError
  end.

(** ** Lemmas *)

Lemma mapFields_entries (m : gmap Z string) (es : list entry) :
  mapFields (JArr (JObj <$> es)) m = Ret (JArr (JObj <$> (map_entry m <$> es))).
Proof.
  cbn [mapFields]. induction es as [|e es IH]; [done|]. cbn.
  destruct (mapM (map_field m) (JObj <$> es)) as [l|] eqn:E; cbn in IH; [|done].
  inv_ret. cbn. f_equal. unfold fmap, list_fmap in *. congruence.
Qed.
