(* ===== verification/TlvElement.v ===== *)
(** * Abstract TLV elements

    The specification the TLV codec is measured against: an element is a tag
    with a primitive value or with a container of elements.  [elems_bytes] is
    its encoding, [elem_json] the entry the reader makes of it, and [elems_of]
    says which elements the writer makes of a JSON value. *)
From S2P Require Import Prelude JsNumber JsString TlvType TlvCodec TlvWriter.

(** ** Elements *)

Inductive tagform : Type :=
  | TagAnon
  | TagContext (t : Z)
  | TagCommon (t : Z)
  | TagImplicit (t : Z)
  | TagFull (p t : Z).

Inductive prim : Type :=
  | PInt (z : Z)
  | PUint (z : Z)
  | PBool (b : bool)
  | PFloat (bits : Z)
  | PDouble (bits : Z)
  | PStr (s : jsstr)
  | PBytes (b : buffer)
  | PNull.

Inductive ckind : Type := KStruct | KArray | KList.

Set Warnings "-register-all".

Inductive elem : Type :=
  | Prim (tg : tagform) (p : prim)
  | Cont (tg : tagform) (k : ckind) (l : list elem).

Section elem_induction.
Variable P : elem → Prop.
Hypothesis P_prim : ∀ tg p, P (Prim tg p).
Hypothesis P_cont : ∀ tg k l, Forall P l → P (Cont tg k l).

Fixpoint elem_nested_ind (e : elem) : P e :=
  match e with
  | Prim tg p => P_prim tg p
  | Cont tg k l => P_cont tg k l ((fix go l : Forall P l :=
      match l with
      | [] => Forall_nil_2 P
      | x :: l' => Forall_cons_2 P x l' (elem_nested_ind x) (go l')
      end) l)
  end.
End elem_induction.

(** ** Encoding *)

Definition is_u16 (t : Z) : bool := t <=? UINT16_MAX.

Definition tag_control (tg : tagform) : Z :=
  match tg with
  | TagAnon => TLV_TAG_CONTROL_ANONYMOUS
  | TagContext _ => TLV_TAG_CONTROL_CONTEXT_SPECIFIC
  | TagCommon t => if is_u16 t then TLV_TAG_CONTROL_COMMON_PROFILE_2Bytes
                   else TLV_TAG_CONTROL_COMMON_PROFILE_4Bytes
  | TagImplicit t => if is_u16 t then TLV_TAG_CONTROL_IMPLICIT_PROFILE_2Bytes
                     else TLV_TAG_CONTROL_IMPLICIT_PROFILE_4Bytes
  | TagFull _ t => if is_u16 t then TLV_TAG_CONTROL_FULLY_QUALIFIED_6Bytes
                   else TLV_TAG_CONTROL_FULLY_QUALIFIED_8Bytes
  end.

Definition tag_number (t : Z) : buffer := le_bytes (if is_u16 t then 2 else 4) t.

Definition tag_bytes (tg : tagform) : buffer :=
  match tg with
  | TagAnon => []
  | TagContext t => le_bytes 1 t
  | TagCommon t | TagImplicit t => tag_number t
  | TagFull p t => le_bytes 4 p ++ tag_number t
  end.

(** The [tag] and [profile] fields of an entry with this tag. *)
Definition tag_fields (tg : tagform) : option Z * option Z :=
  match tg with
  | TagAnon => (None, None)
  | TagContext t => (Some t, None)
  | TagCommon t => (Some t, Some 0)
  | TagImplicit t => (Some t, Some (-1))
  | TagFull p t => (Some t, Some p)
  end.

Definition u32_ok (t : Z) : Prop := 0 <= t <= UINT32_MAX.

(** The profile numbers 0, 0x40, 0x60, 0x80 and 0xA0 of a fully-qualified tag
    are taken for other tag forms by [encodeControlByte]. *)
Definition tag_ok (tg : tagform) : Prop :=
  match tg with
  | TagAnon => True
  | TagContext t => 0 <= t <= UINT8_MAX
  | TagCommon t | TagImplicit t => u32_ok t
  | TagFull p t => u32_ok p ∧ u32_ok t ∧ p ∉ [0; 0x40; 0x60; 0x80; 0xA0]
  end.

(** log2 of the width an unsigned or signed integer is encoded in. *)
Definition uint_log (z : Z) : Z :=
  if z <=? UINT8_MAX then 0 else if z <=? UINT16_MAX then 1
  else if z <=? UINT32_MAX then 2 else 3.

Definition int_log (z : Z) : Z :=
  if (INT8_MIN <=? z) && (z <=? INT8_MAX) then 0
  else if (INT16_MIN <=? z) && (z <=? INT16_MAX) then 1
  else if (INT32_MIN <=? z) && (z <=? INT32_MAX) then 2 else 3.

Definition width_of_log (k : Z) : nat :=
  if k =? 0 then 1 else if k =? 1 then 2 else if k =? 2 then 4 else 8.

Definition uint_bytes (z : Z) : buffer := le_bytes (width_of_log (uint_log z)) z.
Definition int_bytes (z : Z) : buffer := le_bytes (width_of_log (int_log z)) z.

Definition prim_type (p : prim) : Z :=
  match p with
  | PInt z => TLV_TYPE_SIGNED_INTEGER + int_log z
  | PUint z => TLV_TYPE_UNSIGNED_INTEGER + uint_log z
  | PBool b => if b then TLV_TYPE_BOOLEAN_TRUE else TLV_TYPE_BOOLEAN_FALSE
  | PFloat _ => TLV_TYPE_FLOAT
  | PDouble _ => TLV_TYPE_DOUBLE
  | PStr s => TLV_TYPE_UTF8_STRING + uint_log (str_length s)
  | PBytes b => TLV_TYPE_BYTE_STRING + uint_log (blen b)
  | PNull => TLV_TYPE_NULL
  end.

Definition prim_payload (p : prim) : buffer :=
  match p with
  | PInt z => int_bytes z
  | PUint z => uint_bytes z
  | PBool _ | PNull => []
  | PFloat bits => le_bytes 4 bits
  | PDouble bits => le_bytes 8 bits
  | PStr s => uint_bytes (str_length s) ++ utf8_encode s
  | PBytes b => uint_bytes (blen b) ++ b
  end.

Definition ckind_type (k : ckind) : Z :=
  match k with
  | KStruct => TLV_TYPE_STRUCTURE
  | KArray => TLV_TYPE_ARRAY
  | KList => TLV_TYPE_LIST
  end.

Definition header (ty : Z) (tg : tagform) : buffer :=
  Z_byte (Z.lor ty (tag_control tg)) :: tag_bytes tg.

Definition end_bytes : buffer := [Z_byte TLV_TYPE_END].

Fixpoint elem_bytes (e : elem) : buffer :=
  match e with
  | Prim tg p => header (prim_type p) tg ++ prim_payload p
  | Cont tg k l =>
      header (ckind_type k) tg ++ concat (elem_bytes <$> l) ++ end_bytes
  end.

Definition elems_bytes (l : list elem) : buffer := concat (elem_bytes <$> l).

(** ** The reader's view *)

Definition prim_json (p : prim) : json :=
  match p with
  | PInt z => if int_log z =? 3 then JBig z else JNum (NInt z)
  | PUint z => if uint_log z =? 3 then JBig z else JNum (NInt z)
  | PBool b => JBool b
  | PFloat bits => JNum (num_of_bits (f64_of_f32 bits))
  | PDouble bits => JNum (num_of_bits bits)
  | PStr s => JStr s
  | PBytes b => JBuf b
  | PNull => JUndef
  end.

Definition mk_entry {V} (tg : tagform) (ty : Z) (v : V) : DeterministicJson V :=
  Entry (tag_fields tg).1 (ElementTypes ty) (tag_fields tg).2 v None.

Fixpoint elem_json (e : elem) : json :=
  match e with
  | Prim tg p => JObj (mk_entry tg (prim_type p) (prim_json p))
  | Cont tg k l => JObj (mk_entry tg (ckind_type k) (JArr (elem_json <$> l)))
  end.

(** Integers in range; lengths that fit the 32-bit length fields. *)
Definition prim_ok (p : prim) : Prop :=
  match p with
  | PInt z => - 2 ^ 63 <= z < 2 ^ 63
  | PUint z => 0 <= z < 2 ^ 64
  | PFloat bits => 0 <= bits < 2 ^ 32
  | PDouble bits => 0 <= bits < 2 ^ 64
  | PStr s => str_length s <= UINT32_MAX
  | PBytes b => blen b <= UINT32_MAX
  | PBool _ | PNull => True
  end.

Fixpoint elem_ok (e : elem) : Prop :=
  match e with
  | Prim tg p => tag_ok tg ∧ prim_ok p
  | Cont tg k l => tag_ok tg ∧ Forall id (elem_ok <$> l)
  end.

(** Strings whose length in UTF-16 units is their length in bytes. *)
Fixpoint elem_ascii (e : elem) : Prop :=
  match e with
  | Prim _ (PStr s) => ascii_str s
  | Prim _ _ => True
  | Cont _ _ l => Forall id (elem_ascii <$> l)
  end.

Definition elems_ok (l : list elem) : Prop := Forall elem_ok l.
Definition elems_ascii (l : list elem) : Prop := Forall elem_ascii l.

(** ** What the writer makes of a JSON value *)

Definition tagform_of (tag profile : option Z) : option tagform :=
  match tag, profile with
  | None, None => Some TagAnon
  | Some t, None => if (0 <=? t) && (t <=? UINT8_MAX) then Some (TagContext t) else None
  | Some t, Some p =>
      if negb ((0 <=? t) && (t <=? UINT32_MAX)) then None
      else if is_one_of p [0; 0x40; 0x60] then Some (TagCommon t)
      else if is_one_of p [-1; 0x80; 0xA0] then Some (TagImplicit t)
      else if (0 <=? p) && (p <=? UINT32_MAX) then Some (TagFull p t) else None
  | None, Some _ => None
  end.

Definition in_int64 (z : Z) : bool := (INT64_MIN <=? z) && (z <? INT64_MAX).
Definition in_uint64 (z : Z) : bool := (0 <=? z) && (z <? UINT64_MAX).

(** A value written as a signed or unsigned integer.  A BigInt that fits 32
    bits is refused by [writeUInt8], [writeUInt16LE] and [writeUInt32LE]. *)
Definition prim_signed (v : json) : option prim :=
  match v with
  | JNum (NInt z) | JBig z => if in_int64 z then Some (PInt z) else None
  | _ => None
  end.

Definition prim_unsigned (v : json) : option prim :=
  match v with
  | JNum (NInt z) => if in_uint64 z then Some (PUint z) else None
  | JBig z => if (UINT32_MAX <? z) && in_uint64 z then Some (PUint z) else None
  | _ => None
  end.

(** A value written by [put] without a type. *)
Definition prim_auto (v : json) : option prim :=
  match v with
  | JUndef | JNull => Some PNull
  | JStr s => if str_length s <=? UINT32_MAX then Some (PStr s) else None
  | JBuf b => if blen b <=? UINT32_MAX then Some (PBytes b) else None
  | JBig z => if z <? 0 then prim_signed v else prim_unsigned v
  | JNum (NInt z) => if z <? 0 then prim_signed v else prim_unsigned v
  | JNum (NFrac bits) =>
      if num_is_integer (NFrac bits) then None
      else if (0 <=? bits) && (bits <? 2 ^ 64) then Some (PDouble bits) else None
  | JBool b => Some (PBool b)
  | JArr _ | JObj _ => None
  end.

Definition prim_float (v : json) : option prim :=
  match v with
  | JNum n => let bits := f32_of_f64 (bits_of_num n) in
              if (0 <=? bits) && (bits <? 2 ^ 32) then Some (PFloat bits) else None
  | _ => None
  end.

Definition prim_buffer (v : json) : option prim :=
  match v with
  | JStr s => prim_auto (JBuf (hex_decode s))
  | JBuf b => prim_auto (JBuf b)
  | _ => None
  end.

Definition kind_of_type (t : option string) : option ckind :=
  if is_type t ["struct"%string] then Some KStruct
  else if is_type t ["array"%string] then Some KArray
  else if is_type t ["list"%string] then Some KList else None.

Fixpoint elems_at (ov : option (option Z * option Z)) (j : json) : option (list elem) :=
  match j with
  | JUndef | JNull => None
  | JArr l => (fix go l := match l with
                           | [] => Some []
                           | x :: l' => a ← elems_at None x; b ← go l'; Some (a ++ b)
                           end) l
  | JObj (Entry t type p value _) =>
      let '(tag, profile) := match ov with Some o => o | None => (t, p) end in
      tg ← tagform_of tag profile;
      let leaf o := (λ x, [Prim tg x]) <$> o in
      match kind_of_type type with
      | Some k => l ← elems_at None value; Some [Cont tg k l]
      | None =>
          if is_type type ["int8"; "int16"; "int32"; "int64"]%string
          then leaf (prim_signed value)
          else if is_type type ["uint8"; "uint16"; "uint32"; "uint64"]%string
          then leaf (prim_unsigned value)
          else if is_type type ["float"%string] then leaf (prim_float value)
          else if is_type type ["boolean"; "bool"]%string
          then leaf (Some (PBool (truthy value)))
          else if is_type type ["Buffer"%string] then leaf (prim_buffer value)
          else match value with
               | JArr _ | JObj _ => elems_at (Some (tag, profile)) value
               | _ => leaf (prim_auto value)
               end
      end
  | JBuf _ => Some [Prim TagAnon PNull]
  | JBool _ | JNum _ | JBig _ | JStr _ => (λ x, [Prim TagAnon x]) <$> prim_auto j
  end.

Definition elems_of (j : json) : option (list elem) := elems_at None j.
