(* ===== verification/TlvFacts.v ===== *)
(** * Facts about the TLV codec

    Helper lemmas, shared by the theorems of [TlvTheorems] and by the clients of
    the codec: control octets and tags, integer widths, what [encodeControlByte],
    [encodeSignedInt], [encodeUnsignedInt] and the decoders do on the abstract
    elements of [TlvElement]. *)
From S2P Require Import Prelude JsNumber JsString TlvType TlvCodec TlvWriter TlvReader.
From S2P Require Import TlvElement.

(** Exposes the numeric constants of the codec to [lia]. *)
Ltac tlv_consts :=
  unfold TLV_TYPE_SIGNED_INTEGER, TLV_TYPE_UNSIGNED_INTEGER, TLV_TYPE_BOOLEAN_FALSE,
    TLV_TYPE_BOOLEAN_TRUE, TLV_TYPE_FLOAT, TLV_TYPE_DOUBLE, TLV_TYPE_UTF8_STRING,
    TLV_TYPE_BYTE_STRING, TLV_TYPE_NULL, TLV_TYPE_STRUCTURE, TLV_TYPE_ARRAY,
    TLV_TYPE_LIST, TLV_TYPE_END, u32_ok, is_u16, UINT8_MAX, UINT16_MAX, UINT32_MAX,
    UINT64_MAX, INT8_MIN, INT8_MAX, INT16_MIN, INT16_MAX, INT32_MIN, INT32_MAX,
    INT64_MIN, INT64_MAX in *.

(** ** Control octets *)

Definition tag_controls : list Z := [0; 0x20; 0x40; 0x60; 0x80; 0xA0; 0xC0; 0xE0].

Lemma tag_control_In tg : tag_control tg ∈ tag_controls.
Proof.
  unfold tag_controls. destruct tg; cbn; repeat case_match; set_solver.
Qed.

Definition control_split (tc ty : Z) : bool :=
  (Z.land (Z.lor ty tc) 0x1F =? ty) && (Z.land (Z.lor ty tc) 0xE0 =? tc)
  && (0 <=? Z.lor ty tc) && (Z.lor ty tc <? 256).

Lemma control_split_all :
  forallb (λ tc, forallb (control_split tc) (seqZ 0 32)) tag_controls = true.
Proof. vm_compute. reflexivity. Qed.

Lemma control_bits tg ty :
  0 <= ty < 32 →
  Z.land (Z.lor ty (tag_control tg)) 0x1F = ty ∧
  Z.land (Z.lor ty (tag_control tg)) 0xE0 = tag_control tg ∧
  0 <= Z.lor ty (tag_control tg) < 256.
Proof.
  intros Hty. pose proof control_split_all as H.
  rewrite forallb_forall in H.
  specialize (H (tag_control tg) (proj1 (list_elem_of_In _ _) (tag_control_In tg))).
  rewrite forallb_forall in H. specialize (H ty).
  unfold control_split in H. rewrite !andb_true_iff in H.
  assert (In ty (seqZ 0 32)) as Hin by (apply list_elem_of_In, elem_of_seqZ; lia).
  specialize (H Hin). zbool. lia.
Qed.

(** A write of a value in range is the raw store; on a buffer of known size the
    store then computes. *)
Lemma write_uint_ok n v b off :
  0 <= v < 256 ^ Z.of_nat n → write_uint_le n v b off = store_le n v b off.
Proof.
  intros Hv. unfold write_uint_le.
  destruct (Z.leb_spec 0 v); [|lia]. by destruct (Z.ltb_spec v (256 ^ Z.of_nat n)); [|lia].
Qed.

Lemma write_int_ok n v b off :
  - (256 ^ Z.of_nat n `div` 2) <= v < 256 ^ Z.of_nat n `div` 2 →
  write_int_le n v b off = store_le n v b off.
Proof. intros Hv. unfold write_int_le. zcases; [done|lia]. Qed.

Lemma write_byte v : 0 <= v < 256 → write_uint_le 1 v (alloc 1) 0 = Ret [Z_byte v].
Proof. intros Hv. by rewrite write_uint_ok. Qed.

Lemma store_fresh n m v : store_le n v (alloc (n + m)) 0 = Ret (le_bytes n v ++ alloc m).
Proof.
  unfold alloc. rewrite replicate_add.
  pose proof (store_le_app n v [] (replicate n Byte.x00) (replicate m Byte.x00)) as H.
  change (blen []) with 0 in H. rewrite app_nil_l in H.
  apply H, length_replicate.
Qed.

(** Replaces a test by the value the arithmetic context gives it. *)
Ltac pow_consts :=
  change (256 ^ Z.of_nat 1) with 256 in *; change (256 ^ Z.of_nat 2) with 65536 in *;
  change (256 ^ Z.of_nat 4) with 4294967296 in *;
  change (256 ^ Z.of_nat 8) with 18446744073709551616 in *;
  change (256 `div` 2) with 128 in *; change (65536 `div` 2) with 32768 in *;
  change (4294967296 `div` 2) with 2147483648 in *;
  change (18446744073709551616 `div` 2) with 9223372036854775808 in *.

Ltac ztest b v := replace b with v by (tlv_consts; pow_consts; lia).

(** ** The control octet and tag of an element *)

Section control_byte.
Context (ty len ty' : Z).
Hypothesis Hwidth : control_width ty len = Ret ty'.
Hypothesis Hty : 0 <= ty' < 32.

(** Writing the control octet in front of the tag bytes. *)
Lemma control_finish tg bs :
  (encodedControl ← write_uint_le 1 (Z.lor ty' (tag_control tg)) (alloc 1) 0;
   Ret (encodedControl ++ bs)) = Ret (Z_byte (Z.lor ty' (tag_control tg)) :: bs).
Proof. rewrite write_byte; [done|]. by apply control_bits. Qed.

Lemma encode_anonymous :
  encodeControlByte ty len None None = Ret (header ty' TagAnon).
Proof.
  unfold encodeControlByte. rewrite Hwidth. cbn [mbind outcome_bind].
  apply (control_finish TagAnon).
Qed.

Lemma encode_context t :
  0 <= t <= UINT8_MAX →
  encodeControlByte ty len (Some t) None = Ret (header ty' (TagContext t)).
Proof.
  intros Ht. unfold encodeControlByte. rewrite Hwidth. cbn [mbind outcome_bind].
  ztest ((t <? 0) || (t >? UINT8_MAX)) false.
  rewrite (write_byte t) by (tlv_consts; lia). cbn [mbind outcome_bind].
  apply (control_finish (TagContext t)).
Qed.

(** The number of a profile tag fits 16 bits, or only 32. *)
Lemma tag_cases t :
  u32_ok t →
  (0 <= t <= UINT16_MAX ∧ is_u16 t = true ∧ (0 <=? t) && (t <=? UINT16_MAX) = true) ∨
  (UINT16_MAX < t <= UINT32_MAX ∧ is_u16 t = false ∧
   (0 <=? t) && (t <=? UINT16_MAX) = false ∧
   (t >? UINT16_MAX) && (t <=? UINT32_MAX) = true).
Proof. tlv_consts. intros H. destruct (Z.leb_spec t 65535); [left|right]; lia. Qed.

Lemma encode_common t p :
  u32_ok t → is_one_of p [0; 0x40; 0x60] = true →
  encodeControlByte ty len (Some t) (Some p) = Ret (header ty' (TagCommon t)).
Proof.
  intros Ht Hp. unfold encodeControlByte. rewrite Hwidth. cbn [mbind outcome_bind].
  unfold is_one_of in Hp. cbn [existsb] in Hp. rewrite orb_false_r, orb_assoc in Hp.
  unfold TLV_TAG_CONTROL_COMMON_PROFILE_2Bytes at 1,
    TLV_TAG_CONTROL_COMMON_PROFILE_4Bytes at 1. rewrite Hp.
  unfold header. cbn [tag_bytes]. unfold tag_number.
  pose proof (control_finish (TagCommon t)) as Hfin. cbn [tag_control] in *.
  destruct (control_bits (TagCommon t) ty' Hty) as (_ & _ & Hc). cbn [tag_control] in Hc.
  destruct (tag_cases t Ht) as [(? & E & ->)|(? & E & -> & ->)]; rewrite E in *.
  - rewrite (write_uint_ok 1 _ (alloc 2)), (store_fresh 1 1) by (tlv_consts; lia).
    cbn [mbind outcome_bind].
    rewrite (write_uint_ok 2) by (tlv_consts; lia). apply Hfin.
  - rewrite (write_uint_ok 4) by (tlv_consts; lia). apply Hfin.
Qed.

Lemma encode_implicit t p :
  u32_ok t → is_one_of p [0; 0x40; 0x60] = false → is_one_of p [-1; 0x80; 0xA0] = true →
  encodeControlByte ty len (Some t) (Some p) = Ret (header ty' (TagImplicit t)).
Proof.
  intros Ht Hp Hp'. unfold encodeControlByte. rewrite Hwidth. cbn [mbind outcome_bind].
  unfold is_one_of in *. cbn [existsb] in *. rewrite orb_false_r, orb_assoc in Hp, Hp'.
  unfold TLV_TAG_CONTROL_COMMON_PROFILE_2Bytes at 1,
    TLV_TAG_CONTROL_COMMON_PROFILE_4Bytes at 1,
    TLV_TAG_CONTROL_IMPLICIT_PROFILE_2Bytes at 1,
    TLV_TAG_CONTROL_IMPLICIT_PROFILE_4Bytes at 1. rewrite Hp, Hp'.
  unfold header. cbn [tag_bytes]. unfold tag_number.
  pose proof (control_finish (TagImplicit t)) as Hfin. cbn [tag_control] in *.
  destruct (tag_cases t Ht) as [(? & E & ->)|(? & E & -> & ->)]; rewrite E in *.
  - rewrite (write_uint_ok 2) by (tlv_consts; lia). apply Hfin.
  - rewrite (write_uint_ok 4) by (tlv_consts; lia). apply Hfin.
Qed.

Lemma encode_full t p :
  u32_ok t → u32_ok p →
  is_one_of p [0; 0x40; 0x60] = false → is_one_of p [-1; 0x80; 0xA0] = false →
  encodeControlByte ty len (Some t) (Some p) = Ret (header ty' (TagFull p t)).
Proof.
  intros Ht Hp32 Hp Hp'. unfold encodeControlByte. rewrite Hwidth. cbn [mbind outcome_bind].
  unfold is_one_of in *. cbn [existsb] in *. rewrite orb_false_r, orb_assoc in Hp, Hp'.
  unfold TLV_TAG_CONTROL_COMMON_PROFILE_2Bytes at 1,
    TLV_TAG_CONTROL_COMMON_PROFILE_4Bytes at 1,
    TLV_TAG_CONTROL_IMPLICIT_PROFILE_2Bytes at 1,
    TLV_TAG_CONTROL_IMPLICIT_PROFILE_4Bytes at 1. rewrite Hp, Hp'.
  unfold header. cbn [tag_bytes]. unfold tag_number.
  pose proof (control_finish (TagFull p t)) as Hfin. cbn [tag_control] in *.
  destruct (tag_cases t Ht) as [(? & E & ->)|(? & E & -> & ->)]; rewrite E in *.
  - rewrite (write_uint_ok 4), (store_fresh 4 2) by (tlv_consts; lia).
    cbn [mbind outcome_bind]. rewrite (write_uint_ok 2) by (tlv_consts; lia). apply Hfin.
  - rewrite (write_uint_ok 4 p), (store_fresh 4 4) by (tlv_consts; lia).
    cbn [mbind outcome_bind]. rewrite (write_uint_ok 4 t) by (tlv_consts; lia). apply Hfin.
Qed.

(** The octets a tag and profile are written as are those of [tagform_of]. *)
Lemma encodeControlByte_of tag profile tg :
  tagform_of tag profile = Some tg →
  encodeControlByte ty len tag profile = Ret (header ty' tg).
Proof.
  unfold tagform_of. intros H. destruct tag as [t|], profile as [p|]; try done.
  - destruct (negb _) eqn:Ht; [done|]. apply negb_false_iff in Ht.
    assert (u32_ok t) by (unfold u32_ok; zbool; lia).
    destruct (is_one_of p [0; 0x40; 0x60]) eqn:E1; [simplify_eq; by apply encode_common|].
    destruct (is_one_of p [-1; 0x80; 0xA0]) eqn:E2; [simplify_eq; by apply encode_implicit|].
    destruct ((0 <=? p) && _) eqn:E3; [|done]. simplify_eq.
    apply encode_full; try done. unfold u32_ok. zbool. lia.
  - destruct ((0 <=? t) && _) eqn:E; [|done]. simplify_eq.
    apply encode_context. zbool. lia.
  - simplify_eq. apply encode_anonymous.
Qed.
End control_byte.

(** ** Integers of minimal width *)

Lemma uint_log_cases z :
  0 <= z < UINT64_MAX →
  (uint_log z = 0 ∧ z <= UINT8_MAX) ∨ (uint_log z = 1 ∧ UINT8_MAX < z <= UINT16_MAX) ∨
  (uint_log z = 2 ∧ UINT16_MAX < z <= UINT32_MAX) ∨ (uint_log z = 3 ∧ UINT32_MAX < z).
Proof. unfold uint_log. intros H. zcases; lia. Qed.

Lemma int_log_cases z :
  INT64_MIN <= z < INT64_MAX →
  (int_log z = 0 ∧ INT8_MIN <= z <= INT8_MAX) ∨
  (int_log z = 1 ∧ INT16_MIN <= z <= INT16_MAX ∧ ~ (INT8_MIN <= z <= INT8_MAX)) ∨
  (int_log z = 2 ∧ INT32_MIN <= z <= INT32_MAX ∧ ~ (INT16_MIN <= z <= INT16_MAX)) ∨
  (int_log z = 3 ∧ ~ (INT32_MIN <= z <= INT32_MAX)).
Proof. tlv_consts. unfold int_log. tlv_consts. intros H. zcases; lia. Qed.

Lemma uint_log_range z : 0 <= uint_log z <= 3.
Proof. unfold uint_log. zcases; lia. Qed.

Lemma int_log_range z : 0 <= int_log z <= 3.
Proof. unfold int_log. zcases; lia. Qed.

Lemma uint_bytes_fit z :
  in_uint64 z = true → 0 <= z < 256 ^ Z.of_nat (width_of_log (uint_log z)).
Proof.
  unfold in_uint64. intros H. zbool.
  destruct (uint_log_cases z) as [[-> ?]|[[-> ?]|[[-> ?]|[-> ?]]]]; [lia|..];
    cbn; tlv_consts; lia.
Qed.

Lemma width_of_log_values k :
  0 <= k <= 3 → width_of_log k = 1%nat ∨ width_of_log k = 2%nat ∨
                width_of_log k = 4%nat ∨ width_of_log k = 8%nat.
Proof.
  intros. assert (k = 0 ∨ k = 1 ∨ k = 2 ∨ k = 3) as [->|[->|[->| ->]]] by lia;
    cbn; auto.
Qed.

(** The width of a minimal integer selects the element type next to the base. *)
Lemma control_width_log ty k b :
  0 <= k <= 3 → ty ∈ [TLV_TYPE_SIGNED_INTEGER; TLV_TYPE_UNSIGNED_INTEGER;
                      TLV_TYPE_UTF8_STRING; TLV_TYPE_BYTE_STRING] →
  length b = width_of_log k → control_width ty (blen b) = Ret (ty + k).
Proof.
  intros Hk Hty Hb. unfold blen. rewrite Hb.
  assert (k = 0 ∨ k = 1 ∨ k = 2 ∨ k = 3) as [->|[->|[->| ->]]] by lia;
  rewrite !elem_of_cons, elem_of_nil in Hty;
  destruct Hty as [->|[->|[->|[->|[]]]]]; reflexivity.
Qed.

Lemma encodeUnsignedInt_num z :
  in_uint64 z = true → encodeUnsignedInt (Num (NInt z)) = Ret (uint_bytes z).
Proof.
  unfold in_uint64. intros H. zbool. destruct H as [H0 H1].
  unfold encodeUnsignedInt, uint_bytes, write_number_uint.
  cbn [numeric_val num_val nval_ltb nval_leb nval_trunc to_bigint].
  ztest (z <? 0) false.
  destruct (uint_log_cases z) as [[-> ?]|[[-> ?]|[[-> ?]|[-> ?]]]]; [done|..].
  - ztest (z <=? UINT8_MAX) true. ztest (z <=? 256 ^ Z.of_nat 1 - 1) true. done.
  - ztest (z <=? UINT8_MAX) false. ztest (z <=? UINT16_MAX) true.
    ztest (z <=? 256 ^ Z.of_nat 2 - 1) true. done.
  - ztest (z <=? UINT8_MAX) false. ztest (z <=? UINT16_MAX) false.
    ztest (z <=? UINT32_MAX) true. ztest (z <=? 256 ^ Z.of_nat 4 - 1) true. done.
  - ztest (z <=? UINT8_MAX) false. ztest (z <=? UINT16_MAX) false.
    ztest (z <=? UINT32_MAX) false. ztest (z <=? UINT64_MAX) true.
    cbn [mbind outcome_bind]. rewrite (write_uint_ok 8) by (tlv_consts; lia). done.
Qed.

(** A BigInt is only accepted where the code converts it to one, above 32 bits. *)
Lemma encodeUnsignedInt_big z :
  (UINT32_MAX <? z) && in_uint64 z = true → encodeUnsignedInt (Big z) = Ret (uint_bytes z).
Proof.
  intros H. assert (in_uint64 z = true) as Hz by (zbool; tauto).
  rewrite <- encodeUnsignedInt_num by done. unfold in_uint64 in H. zbool.
  destruct H as (? & ? & ?). unfold encodeUnsignedInt.
  cbn [numeric_val num_val nval_ltb nval_leb].
  ztest (z <? 0) false. ztest (z <=? UINT8_MAX) false. ztest (z <=? UINT16_MAX) false.
  ztest (z <=? UINT32_MAX) false. done.
Qed.

Lemma encodeUnsignedInt_big_small z :
  0 <= z <= UINT32_MAX → encodeUnsignedInt (Big z) = Throw TypeError.
Proof.
  intros H. unfold encodeUnsignedInt. cbn [numeric_val nval_ltb nval_leb].
  ztest (z <? 0) false. zcases; solve [done | lia].
Qed.

Lemma encodeSignedInt_int v z :
  v = Num (NInt z) ∨ v = Big z → in_int64 z = true →
  encodeSignedInt v = Ret (int_bytes z).
Proof.
  unfold in_int64. intros Hv H. zbool. destruct H as [H0 H1].
  assert (numeric_val v = VInt z ∧ to_number v = NInt z ∧ to_bigint v = Ret z)
    as (Ev & En & Eb) by (destruct Hv as [-> | ->]; done).
  unfold encodeSignedInt, int_bytes, write_number_int.
  rewrite Ev, En, Eb. cbn [num_val nval_geb nval_leb nval_ltb nval_trunc].
  destruct (int_log_cases z) as [[-> ?]|[[-> ?]|[[-> ?]|[-> ?]]]]; [done|..].
  - ztest ((INT8_MIN <=? z) && (z <=? INT8_MAX)) true.
    ztest (z <=? 256 ^ Z.of_nat 1 `div` 2 - 1) true.
    ztest (z <? - (256 ^ Z.of_nat 1 `div` 2)) false. done.
  - ztest ((INT8_MIN <=? z) && (z <=? INT8_MAX)) false.
    ztest ((INT16_MIN <=? z) && (z <=? INT16_MAX)) true.
    ztest (z <=? 256 ^ Z.of_nat 2 `div` 2 - 1) true.
    ztest (z <? - (256 ^ Z.of_nat 2 `div` 2)) false. done.
  - ztest ((INT8_MIN <=? z) && (z <=? INT8_MAX)) false.
    ztest ((INT16_MIN <=? z) && (z <=? INT16_MAX)) false.
    ztest ((INT32_MIN <=? z) && (z <=? INT32_MAX)) true.
    ztest (z <=? 256 ^ Z.of_nat 4 `div` 2 - 1) true.
    ztest (z <? - (256 ^ Z.of_nat 4 `div` 2)) false. done.
  - ztest ((INT8_MIN <=? z) && (z <=? INT8_MAX)) false.
    ztest ((INT16_MIN <=? z) && (z <=? INT16_MAX)) false.
    ztest ((INT32_MIN <=? z) && (z <=? INT32_MAX)) false.
    ztest ((INT64_MIN <=? z) && (z <=? INT64_MAX)) true.
    cbn [mbind outcome_bind]. rewrite (write_int_ok 8) by (tlv_consts; pow_consts; lia). done.
Qed.

(** ** Decoding one element *)

Lemma decode_control ty tg rest :
  0 <= ty < 32 →
  decodeControlByte (Z_byte (Z.lor ty (tag_control tg)) :: rest) =
  Ret (DCB ty (tag_control tg) (ElementTypes ty) (TagControls (tag_control tg))).
Proof.
  intros Hty. destruct (control_bits tg ty Hty) as (E1 & E2 & E3).
  unfold decodeControlByte.
  change (Z_byte ?c :: ?r) with (le_bytes 1 c ++ r).
  rewrite read_uint_le_head by (cbn; lia). cbn [mbind outcome_bind].
  by rewrite E1, E2.
Qed.

Lemma decode_header ty tg rest :
  0 <= ty < 32 →
  decodeControlByte (header ty tg ++ rest) =
  Ret (DCB ty (tag_control tg) (ElementTypes ty) (TagControls (tag_control tg))).
Proof. apply decode_control. Qed.

Lemma header_tail ty tg rest : subarray_from (header ty tg ++ rest) 1 = tag_bytes tg ++ rest.
Proof. by rewrite subarray_from_nonneg by lia. Qed.

Lemma decode_tag tg rest :
  tag_ok tg →
  decodeTagAndLength (tag_bytes tg ++ rest) (tag_control tg) =
  Ret (DTL (tag_fields tg).1 (blen (tag_bytes tg)) (tag_fields tg).2).
Proof.
  intros Htg. unfold decodeTagAndLength, tag_bytes, tag_number.
  destruct tg as [|t|t|t|p t]; cbn [tag_ok tag_control tag_fields fst snd] in *.
  - done.
  - cbn. change (Z_byte t :: rest) with (le_bytes 1 t ++ rest).
    by rewrite read_uint_le_head by (tlv_consts; pow_consts; lia).
  - destruct (tag_cases t Htg) as [(? & -> & _)|(? & -> & _)]; cbn -[le_bytes];
      by rewrite read_uint_le_head by (tlv_consts; pow_consts; lia).
  - destruct (tag_cases t Htg) as [(? & -> & _)|(? & -> & _)]; cbn -[le_bytes];
      by rewrite read_uint_le_head by (tlv_consts; pow_consts; lia).
  - destruct Htg as (Hp & Ht & _).
    assert (∀ n, 0 <= t < 256 ^ Z.of_nat n →
      read_uint_le n ((le_bytes 4 p ++ le_bytes n t) ++ rest) 4 = Ret t) as Hread.
    { intros n Hn. rewrite <- app_assoc. by apply (read_uint_le_app n (le_bytes 4 p)). }
    destruct (tag_cases t Ht) as [(? & -> & _)|(? & -> & _)]; cbn -[le_bytes];
      rewrite Hread by (tlv_consts; pow_consts; lia);
      rewrite <- app_assoc, read_uint_le_head by (tlv_consts; pow_consts; lia); done.
Qed.

(** Reading back an integer of minimal width. *)
Lemma read_uint_bytes k z rest :
  in_uint64 z = true → uint_log z = k →
  read_uint_le (width_of_log k) (uint_bytes z ++ rest) 0 = Ret z.
Proof.
  intros Hz <-. apply read_uint_le_head. by apply uint_bytes_fit.
Qed.

Lemma read_int_bytes k z rest :
  in_int64 z = true → int_log z = k →
  read_int_le (width_of_log k) (int_bytes z ++ rest) 0 = Ret z.
Proof.
  unfold in_int64. intros Hz <-. zbool. apply read_int_le_head.
  - destruct (width_of_log_values (int_log z)) as [->|[->|[-> | ->]]];
      [apply int_log_range|lia..].
  - destruct (int_log_cases z) as [[-> ?]|[[-> ?]|[[-> ?]|[-> ?]]]];
      [lia|..]; cbn; tlv_consts; lia.
Qed.

Lemma blen_uint_bytes z : blen (uint_bytes z) = Z.of_nat (width_of_log (uint_log z)).
Proof. apply blen_le_bytes. Qed.

Lemma blen_int_bytes z : blen (int_bytes z) = Z.of_nat (width_of_log (int_log z)).
Proof. apply blen_le_bytes. Qed.

Lemma decode_value_uint z rest :
  in_uint64 z = true →
  decodeValueAndLength (uint_bytes z ++ rest) (TLV_TYPE_UNSIGNED_INTEGER + uint_log z) =
  Ret (VL (prim_json (PUint z)) (blen (uint_bytes z))).
Proof.
  intros Hz. rewrite blen_uint_bytes. unfold decodeValueAndLength, decode_primitive.
  pose proof (read_uint_bytes _ z rest Hz eq_refl) as Hr. cbn [prim_json].
  unfold in_uint64 in Hz. zbool.
  destruct (uint_log_cases z) as [[E ?]|[[E ?]|[[E ?]|[E ?]]]]; [lia|..];
    rewrite E in *; cbn in Hr |- *; by rewrite Hr.
Qed.

Lemma decode_value_int z rest :
  in_int64 z = true →
  decodeValueAndLength (int_bytes z ++ rest) (TLV_TYPE_SIGNED_INTEGER + int_log z) =
  Ret (VL (prim_json (PInt z)) (blen (int_bytes z))).
Proof.
  intros Hz. rewrite blen_int_bytes. unfold decodeValueAndLength, decode_primitive.
  pose proof (read_int_bytes _ z rest Hz eq_refl) as Hr. cbn [prim_json].
  unfold in_int64 in Hz. zbool.
  destruct (int_log_cases z) as [[E ?]|[[E ?]|[[E ?]|[E ?]]]]; [lia|..];
    rewrite E in *; cbn in Hr |- *; by rewrite Hr.
Qed.

(** A string type: the length of at most 32 bits, then the contents. *)
Lemma decode_value_counted base n b rest :
  base ∈ [TLV_TYPE_UTF8_STRING; TLV_TYPE_BYTE_STRING] →
  n = blen b → n <= UINT32_MAX →
  decodeValueAndLength ((uint_bytes n ++ b) ++ rest) (base + uint_log n) =
  Ret (VL (if base =? TLV_TYPE_UTF8_STRING then JStr (utf8_decode b) else JBuf b)
          (blen (uint_bytes n ++ b))).
Proof.
  intros Hbase Hn Hmax. rewrite <- app_assoc.
  assert (0 <= n) by (rewrite Hn; apply blen_nonneg).
  assert (in_uint64 n = true) as Hz by (unfold in_uint64; tlv_consts; lia).
  pose proof (read_uint_bytes _ n (b ++ rest) Hz eq_refl) as Hr.
  pose proof (subarray_app_mid (uint_bytes n) b rest) as Hs.
  rewrite blen_app, <- Hn in *. rewrite blen_uint_bytes in *.
  unfold decodeValueAndLength, decode_primitive.
  rewrite !elem_of_cons, elem_of_nil in Hbase.
  destruct (uint_log_cases n) as [[E ?]|[[E ?]|[[E ?]|[E ?]]]]; [tlv_consts; lia|..];
    [..|lia]; rewrite E in *; destruct Hbase as [->|[->|[]]]; cbn in Hr |- *;
    rewrite Hr; first [exact (f_equal (λ x, Ret (VL (JStr (utf8_decode x)) _)) Hs)
                      |exact (f_equal (λ x, Ret (VL (JBuf x) _)) Hs)].
Qed.

Lemma decode_value_number (tlv : buffer) ty n (l : Z) :
  decode_primitive tlv ty = Ret (JNum n, l) →
  (TLV_TYPE_UTF8_STRING <=? ty) && (ty <=? TLV_TYPE_UTF8_STRING + 3) = false →
  (TLV_TYPE_BYTE_STRING <=? ty) && (ty <=? TLV_TYPE_BYTE_STRING + 3) = false →
  decodeValueAndLength tlv ty = Ret (VL (JNum n) l).
Proof.
  intros H E1 E2. unfold decodeValueAndLength. rewrite H. cbn [mbind outcome_bind].
  rewrite E1, E2. by destruct n.
Qed.

Lemma decode_value_float bits rest :
  0 <= bits < 2 ^ 32 →
  decodeValueAndLength (le_bytes 4 bits ++ rest) TLV_TYPE_FLOAT =
  Ret (VL (JNum (num_of_bits (f64_of_f32 bits))) 4).
Proof.
  intros H. apply decode_value_number; [|done..].
  transitivity (z ← read_uint_le 4 (le_bytes 4 bits ++ rest) 0;
                Ret (JNum (num_of_bits (f64_of_f32 z)), 4)); [reflexivity|].
  by rewrite read_uint_le_head by (pow_consts; lia).
Qed.

Lemma decode_value_double bits rest :
  0 <= bits < 2 ^ 64 →
  decodeValueAndLength (le_bytes 8 bits ++ rest) TLV_TYPE_DOUBLE =
  Ret (VL (JNum (num_of_bits bits)) 8).
Proof.
  intros H. apply decode_value_number; [|done..].
  transitivity (z ← read_uint_le 8 (le_bytes 8 bits ++ rest) 0;
                Ret (JNum (num_of_bits z), 8)); [reflexivity|].
  by rewrite read_uint_le_head by (pow_consts; lia).
Qed.

Lemma decode_value p rest :
  prim_ok p → match p with PStr s => ascii_str s | _ => True end →
  decodeValueAndLength (prim_payload p ++ rest) (prim_type p) =
  Ret (VL (prim_json p) (blen (prim_payload p))).
Proof.
  intros Hp Ha. destruct p as [z|z|[]|bits|bits|s|b|]; cbn [prim_ok prim_payload prim_type] in *.
  - apply decode_value_int. unfold in_int64. tlv_consts. lia.
  - apply decode_value_uint. unfold in_uint64. tlv_consts. lia.
  - done.
  - done.
  - by rewrite decode_value_float, blen_le_bytes.
  - by rewrite decode_value_double, blen_le_bytes.
  - rewrite decode_value_counted; [|set_solver|by rewrite ascii_utf8_length|done].
    cbn. by rewrite ascii_utf8_decode.
  - by rewrite decode_value_counted; [|set_solver|..].
  - done.
Qed.
