(* ===== verification/TlvWriterFacts.v ===== *)
(** * The TLV writer implements the abstract encoding

    [elems_of] (TlvElement) says which elements a JSON value stands for; the
    writer then appends exactly their encoding to its buffer.  The lemmas go
    method by method, the theorem is the induction over the value. *)
From S2P Require Import Prelude JsNumber JsString TlvType TlvCodec TlvWriter TlvElement.
From S2P Require Import TlvFacts.

(** Runs the monadic binds of a writer method whose calls are known. *)
Ltac run_writer := unfold js_lift, append, js_modify, mbind, js_bind, mret, js_ret; cbn beta iota.

Section methods.
Context (tag profile : option Z) (tg : tagform) (b : buffer).
Hypothesis Htag : tagform_of tag profile = Some tg.

(** An element whose control octet carries no width. *)
Lemma control_plain ty :
  0 <= ty < 32 → encodeControlByte ty 0 tag profile = Ret (header ty tg).
Proof. intros. by apply encodeControlByte_of. Qed.

(** An element whose width bits come from an encoded integer. *)
Lemma control_sized ty k w :
  0 <= k <= 3 →
  ty ∈ [TLV_TYPE_SIGNED_INTEGER; TLV_TYPE_UNSIGNED_INTEGER;
        TLV_TYPE_UTF8_STRING; TLV_TYPE_BYTE_STRING] →
  length w = width_of_log k →
  encodeControlByte ty (blen w) tag profile = Ret (header (ty + k) tg).
Proof.
  intros Hk Hty Hw. eapply encodeControlByte_of; [by apply control_width_log| |done].
  rewrite !elem_of_cons, elem_of_nil in Hty.
  destruct Hty as [->|[->|[->|[->|[]]]]]; tlv_consts; lia.
Qed.

Lemma putNull_spec : putNull tag profile b = (b ++ elem_bytes (Prim tg PNull), Ret tt).
Proof.
  unfold putNull. rewrite control_plain by done. run_writer. cbn [elem_bytes prim_payload].
  by rewrite app_nil_r.
Qed.

Lemma putBoolean_spec v :
  putBoolean v tag profile b = (b ++ elem_bytes (Prim tg (PBool (truthy v))), Ret tt).
Proof.
  unfold putBoolean. rewrite control_plain by (destruct (truthy v); done).
  run_writer. cbn [elem_bytes prim_payload prim_type]. by rewrite app_nil_r.
Qed.

Lemma putSignedInt_spec v p :
  prim_signed v = Some p →
  putSignedInt v tag profile b = (b ++ elem_bytes (Prim tg p), Ret tt).
Proof.
  intros Hp.
  assert (∃ z n, p = PInt z ∧ to_numeric v = Ret n ∧ (n = Num (NInt z) ∨ n = Big z) ∧
                 in_int64 z = true) as (z & n & -> & Hn & Hb & Hz).
  { destruct v as [| | |[z|]|z| | | |]; cbn [prim_signed] in Hp; try done;
      destruct (in_int64 z) eqn:E; try done; simplify_eq; eexists _, _; eauto. }
  unfold putSignedInt. rewrite Hn. run_writer.
  rewrite (encodeSignedInt_int n z Hb Hz).
  rewrite (control_sized _ (int_log z));
    [done|apply int_log_range|set_solver|apply length_le_bytes].
Qed.

Lemma putUnsignedInt_spec v p :
  prim_unsigned v = Some p →
  putUnsignedInt v tag profile b = (b ++ elem_bytes (Prim tg p), Ret tt).
Proof.
  intros Hp.
  assert (∃ z n, p = PUint z ∧ to_numeric v = Ret n ∧
                 encodeUnsignedInt n = Ret (uint_bytes z)) as (z & n & -> & Hn & Hz).
  { destruct v as [| | |[z|]|z| | | |]; cbn [prim_unsigned] in Hp; try done.
    - destruct (in_uint64 z) eqn:E; simplify_eq.
      eexists _, _. split_and!; [done..|by apply encodeUnsignedInt_num].
    - destruct (_ && _) eqn:E; simplify_eq.
      eexists _, _. split_and!; [done..|by apply encodeUnsignedInt_big]. }
  unfold putUnsignedInt. rewrite Hn. run_writer. rewrite Hz.
  rewrite (control_sized _ (uint_log z));
    [done|apply uint_log_range|set_solver|apply length_le_bytes].
Qed.

Lemma putFloat_spec v p :
  prim_float v = Some p →
  (putFloat v tag profile ;; mret tt) b = (b ++ elem_bytes (Prim tg p), Ret tt).
Proof.
  intros Hp. destruct v as [| | |n| | | | |]; try done. cbn [prim_float] in Hp.
  case_match; simplify_eq. unfold putFloat. rewrite control_plain by done. done.
Qed.

Lemma putDouble_spec bits :
  putDouble (JNum (NFrac bits)) tag profile b =
  (b ++ elem_bytes (Prim tg (PDouble bits)), Ret tt).
Proof. unfold putDouble. rewrite control_plain by done. done. Qed.

Lemma putString_spec s :
  str_length s <= UINT32_MAX →
  putString s tag profile b = (b ++ elem_bytes (Prim tg (PStr s)), Ret tt).
Proof.
  intros Hs. unfold putString.
  rewrite encodeUnsignedInt_num by (unfold in_uint64, str_length in *; tlv_consts; lia).
  run_writer. rewrite (control_sized _ (uint_log (str_length s)));
    [|apply uint_log_range|set_solver|apply length_le_bytes].
  by cbn [elem_bytes prim_payload prim_type].
Qed.

Lemma putBytes_spec v :
  blen v <= UINT32_MAX →
  putBytes v tag profile b = (b ++ elem_bytes (Prim tg (PBytes v)), Ret tt).
Proof.
  intros Hv. unfold putBytes. pose proof (blen_nonneg v).
  rewrite encodeUnsignedInt_num by (unfold in_uint64; tlv_consts; lia).
  run_writer. rewrite (control_sized _ (uint_log (blen v)));
    [|apply uint_log_range|set_solver|apply length_le_bytes].
  by cbn [elem_bytes prim_payload prim_type].
Qed.

(** [put] on a value that is not an object. *)
Lemma put_dispatch_spec k v p :
  prim_auto v = Some p →
  put_dispatch k v tag profile b = (b ++ elem_bytes (Prim tg p), Ret tt).
Proof.
  intros Hp. destruct v as [| |x|[z|bits]|z|s|v|l|e]; cbn [prim_auto] in Hp; try done.
  - simplify_eq. apply putNull_spec.
  - simplify_eq. apply putNull_spec.
  - simplify_eq. apply putBoolean_spec.
  - cbn. case_match; [by apply putSignedInt_spec|by apply putUnsignedInt_spec].
  - unfold put_dispatch. destruct (num_is_integer _); [done|].
    case_match; simplify_eq. apply putDouble_spec.
  - cbn. case_match; [by apply putSignedInt_spec|by apply putUnsignedInt_spec].
  - case_match eqn:E; simplify_eq. zbool. by apply putString_spec.
  - case_match eqn:E; simplify_eq. zbool. by apply putBytes_spec.
Qed.

(** A container: its header, the elements, the end octet. *)
Definition putStart (k : ckind) : js buffer buffer :=
  match k with
  | KStruct => putStructStart tag profile
  | KArray => putArrayStart tag profile
  | KList => putListStart tag profile
  end.

Lemma put_container_spec k l (body : js buffer unit) :
  (∀ b, body b = (b ++ elems_bytes l, Ret tt)) →
  (putStart k ;; body ;; putContainerEnd) b = (b ++ elem_bytes (Cont tg k l), Ret tt).
Proof.
  intros Hb. assert (putStart k b = (b ++ header (ckind_type k) tg,
                                     Ret (header (ckind_type k) tg))) as Hs.
  { destruct k; unfold putStart, putStructStart, putArrayStart, putListStart;
      rewrite control_plain by done; done. }
  rewrite (js_bind_eq _ _ _ _ _ Hs), (js_bind_eq _ _ _ _ _ (Hb _)).
  unfold putContainerEnd. rewrite (encode_anonymous TLV_TYPE_END 0 TLV_TYPE_END) by done.
  run_writer. cbn [elem_bytes]. unfold elems_bytes. by rewrite <- !app_assoc.
Qed.
End methods.

Lemma elems_bytes_app l1 l2 : elems_bytes (l1 ++ l2) = elems_bytes l1 ++ elems_bytes l2.
Proof. unfold elems_bytes. by rewrite fmap_app, concat_app. Qed.

Lemma elems_bytes_one e : elems_bytes [e] = elem_bytes e.
Proof. apply app_nil_r. Qed.

(** What [encode] has to do at a value, as the induction hypothesis states it. *)
Definition encodes (j : json) : Prop := ∀ ov l b,
  elems_at ov j = Some l → encode_at ov j b = (b ++ elems_bytes l, Ret tt).

Lemma encode_array js : Forall encodes js → encodes (JArr js).
Proof.
  intros H ov l b Hl. cbn [encode_at]. cbn [elems_at] in Hl. revert l b Hl.
  induction H as [|x js Hx _ IH]; intros l b Hl; cbn in Hl.
  - simplify_eq. cbn. by rewrite app_nil_r.
  - destruct (elems_at None x) as [l1|] eqn:E1; [|done]. cbn in Hl.
    match type of Hl with (?m ≫= _) = _ => destruct m as [l2|] eqn:E2; [|done] end.
    cbn in Hl. simplify_eq. cbn [js_forEach].
    rewrite (js_bind_eq _ _ _ _ _ (Hx _ _ _ E1)), (IH _ _ eq_refl), elems_bytes_app.
    by rewrite app_assoc.
Qed.

(** A value that is written as one primitive element. *)
Lemma encode_leaf tg (m : js buffer unit) (o : option prim) l b :
  (λ x, [Prim tg x]) <$> o = Some l →
  (∀ p, o = Some p → m b = (b ++ elem_bytes (Prim tg p), Ret tt)) →
  m b = (b ++ elems_bytes l, Ret tt).
Proof.
  intros Ho Hm. destruct o as [p|]; [|done]. cbn in Ho. simplify_eq.
  rewrite elems_bytes_one. by apply Hm.
Qed.

Lemma encode_container tag profile tg value k l b :
  tagform_of tag profile = Some tg → encodes value →
  elems_at None value ≫= (λ l, Some [Cont tg k l]) = Some l →
  (putStart tag profile k ;; encode_at None value ;; putContainerEnd) b
  = (b ++ elems_bytes l, Ret tt).
Proof.
  intros Htg IH Hk. destruct (elems_at None value) as [l'|] eqn:E; [|done].
  cbn in Hk. simplify_eq. rewrite elems_bytes_one.
  apply put_container_spec; [done|]. intros b'. by apply IH.
Qed.

Lemma encode_entry e : encodes (value e) → encodes (JObj e).
Proof.
  destruct e as [t type p value tn]. cbn [TlvType.value]. intros IH ov l b Hl.
  cbn [elems_at] in Hl. cbn [encode_at].
  destruct (match ov with Some o => o | None => (t, p) end) as [tag profile].
  destruct (tagform_of tag profile) as [tg|] eqn:Htg; [|done]. cbn [mbind option_bind] in Hl.
  unfold kind_of_type in Hl.
  pose proof (λ k, encode_container tag profile tg value k l b Htg IH) as Hcont.
  destruct (is_type type ["struct"%string]); [by apply (Hcont KStruct)|].
  destruct (is_type type ["array"%string]); [by apply (Hcont KArray)|].
  destruct (is_type type ["list"%string]); [by apply (Hcont KList)|].
  destruct (is_type type ["int8"; "int16"; "int32"; "int64"]%string).
  { eapply encode_leaf; [done|]. intros. by apply putSignedInt_spec. }
  destruct (is_type type ["uint8"; "uint16"; "uint32"; "uint64"]%string).
  { eapply encode_leaf; [done|]. intros. by apply putUnsignedInt_spec. }
  destruct (is_type type ["float"%string]).
  { eapply encode_leaf; [done|]. intros. by apply putFloat_spec. }
  destruct (is_type type ["boolean"; "bool"]%string).
  { eapply encode_leaf; [done|]. intros. simplify_eq. by apply putBoolean_spec. }
  destruct (is_type type ["Buffer"%string]).
  { eapply encode_leaf; [done|]. intros p' Hp'.
    destruct value; try done; cbn in Hp'; case_match eqn:E; simplify_eq;
      run_writer; zbool; by apply putBytes_spec. }
  destruct value; try (eapply encode_leaf; [exact Hl|]; intros; by apply put_dispatch_spec);
    by apply IH.
Qed.

(** Values that are not arrays or entries, at the top. *)
Lemma encode_plain ov j p :
  prim_auto j = Some p → encode_at ov j = put_dispatch (js_throw TypeError) j None None →
  ∀ b, encode_at ov j b = (b ++ elems_bytes [Prim TagAnon p], Ret tt).
Proof.
  intros Hp -> b. rewrite elems_bytes_one. by apply (put_dispatch_spec None None TagAnon).
Qed.

Lemma encode_at_spec j : encodes j.
Proof.
  induction j as [| |x|n|z|s|v|js IH|e IH] using json_nested_ind;
    try (by apply encode_array); try (by apply encode_entry); intros ov l b Hl;
    cbn [elems_at] in Hl; try done.
  5: simplify_eq; by apply (putNull_spec None None TagAnon).
  all: match type of Hl with _ <$> ?o = _ => destruct o as [p|] eqn:E; [|done] end.
  all: cbn in Hl; simplify_eq; by apply encode_plain.
Qed.
