(* ===== verification/TlvReaderFacts.v ===== *)
(** * The TLV reader decodes the abstract encoding

    Three layers: one iteration of the loop on an element's octets
    ([step_prim], [step_container], [step_end]); the run over a whole element,
    which leaves the arrays [place] says in the store ([run_elem]); and the tree
    [json_of] reads from those arrays ([read_places]).  Termination of the loop
    is independent of the contents ([decode_loop_total]). *)
From S2P Require Import Prelude JsNumber JsString TlvType TlvCodec TlvReader TlvWriter.
From S2P Require Import TlvElement TlvFacts.

(** ** One iteration *)

Lemma prim_type_range p : prim_ok p → 0 <= prim_type p < 32.
Proof.
  intros _. destruct p as [z|z|[]|bits|bits|s|b|]; cbn [prim_type];
    try (tlv_consts; lia).
  - pose proof (int_log_range z). tlv_consts. lia.
  - pose proof (uint_log_range z). tlv_consts. lia.
  - pose proof (uint_log_range (str_length s)). tlv_consts. lia.
  - pose proof (uint_log_range (blen b)). tlv_consts. lia.
Qed.

Lemma prim_type_plain p :
  prim_ok p → is_container (prim_type p) = false ∧ (prim_type p =? TLV_TYPE_END) = false.
Proof.
  intros _. unfold is_container. destruct p as [z|z|[]|bits|bits|s|b|]; cbn [prim_type];
    try (split; reflexivity).
  - pose proof (int_log_range z). tlv_consts. lia.
  - pose proof (uint_log_range z). tlv_consts. lia.
  - pose proof (uint_log_range (str_length s)). tlv_consts. lia.
  - pose proof (uint_log_range (blen b)). tlv_consts. lia.
Qed.

Section step.
Context (d : Z) (st : list (option nat)) (h : store) (c : option nat).

(** An element whose value is not a container *)
Lemma step_leaf tg ty b v n :
  tag_ok tg → 0 <= ty < 32 → is_container ty = false → (ty =? TLV_TYPE_END) = false →
  decodeValueAndLength b ty = Ret (VL v n) →
  decode_step (DS (header ty tg ++ b) d st (Reader h c)) =
  Ret (DS (subarray_from b n) d st (Reader (push_entry h c (mk_entry tg ty (SVal v))) c)).
Proof.
  intros Htg Hty E1 E2 Hv. unfold decode_step.
  rewrite decode_header by done. cbn [mbind outcome_bind typeNum tagType].
  rewrite header_tail, decode_tag by done. cbn [mbind outcome_bind dt_tagLength].
  rewrite subarray_from_app, Hv. cbn [mbind outcome_bind].
  by rewrite E1, E2.
Qed.

Lemma step_prim tg p rest :
  tag_ok tg → prim_ok p → elem_ascii (Prim tg p) →
  decode_step (DS (elem_bytes (Prim tg p) ++ rest) d st (Reader h c)) =
  Ret (DS rest d st (Reader
    (push_entry h c (mk_entry tg (prim_type p) (SVal (prim_json p)))) c)).
Proof.
  intros Htg Hp Ha. destruct (prim_type_plain p Hp) as [E1 E2]. cbn [elem_bytes elem_ascii] in *.
  rewrite <- app_assoc.
  rewrite (step_leaf tg (prim_type p) (prim_payload p ++ rest) (prim_json p) (blen (prim_payload p)));
    [by rewrite subarray_from_app|done|by apply prim_type_range|done..|].
  apply decode_value; [done|]. by destruct p.
Qed.

Lemma step_container tg k rest :
  tag_ok tg →
  decode_step (DS (header (ckind_type k) tg ++ rest) d st (Reader h c)) =
  Ret (DS rest (d + 1) (c :: st) (Reader
    (push_entry (h ++ [[]]) c (mk_entry tg (ckind_type k) (SRef (length h))))
    (Some (length h)))).
Proof.
  intros Htg. unfold decode_step.
  rewrite decode_header by (destruct k; cbn; tlv_consts; lia). cbn [mbind outcome_bind typeNum tagType].
  rewrite header_tail, decode_tag by done. cbn [mbind outcome_bind dt_tagLength].
  rewrite subarray_from_app.
  assert (decodeValueAndLength rest (ckind_type k) = Ret (VL (JArr []) 0)) as ->
    by (by destruct k).
  cbn [mbind outcome_bind vl_length]. rewrite (subarray_from_prefix 0 [] rest eq_refl : subarray_from rest 0 = rest).
  by destruct k.
Qed.

Lemma step_end c' rest :
  decode_step (DS (end_bytes ++ rest) d (c' :: st) (Reader h c)) =
  Ret (DS rest (d - 1) st (Reader h c')).
Proof.
  change end_bytes with (header TLV_TYPE_END TagAnon).
  unfold decode_step. rewrite decode_header by (tlv_consts; lia).
  cbn [mbind outcome_bind typeNum tagType].
  rewrite header_tail, decode_tag by done. cbn [mbind outcome_bind dt_tagLength].
  rewrite subarray_from_app.
  change (decodeValueAndLength rest TLV_TYPE_END) with (Ret (VL JUndef 0)).
  cbn [mbind outcome_bind vl_length].
  by rewrite (subarray_from_prefix 0 [] rest eq_refl : subarray_from rest 0 = rest).
Qed.
End step.

(** ** Runs of the loop *)

(** An iteration the loop makes: its condition holds and the body completes. *)
Definition iterates (s s' : decode_state) : Prop :=
  (blen (ds_tlv s) >? 0) && (ds_depth s >? 0) = true ∧ decode_step s = Ret s'.

Lemma decode_loop_more n m s o :
  decode_loop n s = Some o → (n <= m)%nat → decode_loop m s = Some o.
Proof.
  revert m s. induction n as [|n IH]; intros [|m] s H Hm; try lia; cbn in *;
    destruct (_ && _); try done.
  destruct (decode_step s); [|done]. apply IH; [done|lia].
Qed.

Lemma decode_loop_iterates s s' n o :
  rtc iterates s s' → decode_loop n s' = Some o → ∃ m, decode_loop m s = Some o.
Proof.
  intros Hs. revert n. induction Hs as [s|s1 s2 s3 [Hc Hs] _ IH]; intros n H; [by exists n|].
  destruct (IH n H) as [m Hm]. exists (S m). cbn. by rewrite Hc, Hs.
Qed.

(** Every iteration consumes at least the control octet. *)
Lemma decode_step_shrinks s s' :
  decode_step s = Ret s' → (length (ds_tlv s') < length (ds_tlv s))%nat.
Proof.
  destruct s as [tlv d st [h c]]. unfold decode_step. intros H.
  apply outcome_bind_Ret in H as (control & Hc & H).
  apply outcome_bind_Ret in H as (tg & Ht & H).
  apply outcome_bind_Ret in H as (vl & Hv & H).
  unfold decodeControlByte in Hc. apply outcome_bind_Ret in Hc as (b & Hb & _).
  apply read_uint_le_ret in Hb as (_ & Hlen & _).
  assert (ds_tlv s' = subarray_from (subarray_from (subarray_from tlv 1)
    (dt_tagLength tg)) (vl_length vl)) as ->.
  { repeat case_match; inv_ret; done. }
  assert (∀ b i, (length (subarray_from b i) <= length b)%nat) as Hsub.
  { intros b' i. unfold subarray_from, subarray. rewrite length_take, length_drop. lia. }
  pose proof (Hsub (subarray_from (subarray_from tlv 1) (dt_tagLength tg)) (vl_length vl)).
  pose proof (Hsub (subarray_from tlv 1) (dt_tagLength tg)).
  rewrite (subarray_from_nonneg tlv), length_drop in * by lia.
  cbn [ds_tlv]. unfold blen in Hlen. lia.
Qed.

(** The loop ends within as many iterations as there are octets. *)
Lemma decode_loop_total n s : (length (ds_tlv s) <= n)%nat → decode_loop n s ≠ None.
Proof.
  revert s. induction n as [|n IH]; intros s Hn; cbn.
  - assert (blen (ds_tlv s) = 0) as -> by (unfold blen; lia). done.
  - destruct (_ && _); [|done]. destruct (decode_step s) as [s'|e] eqn:E; [|done].
    apply IH. apply decode_step_shrinks in E. lia.
Qed.

(** So the fuel [decode] gives is enough, and any larger amount gives the same. *)
Lemma decode_of_run r tlv n o :
  decode_loop n (decode_start r tlv) = Some o → decode tlv r = o.
Proof.
  intros H. unfold decode.
  destruct (decode_loop (length tlv) (decode_start r tlv)) as [o'|] eqn:E.
  - apply decode_loop_more with (m := (n + length tlv)%nat) in H; [|lia].
    apply decode_loop_more with (m := (n + length tlv)%nat) in E; [|lia]. congruence.
  - by apply decode_loop_total in E.
Qed.

(** ** Where the elements land in the store

    [place base e]: the entry made for [e] and the arrays created for it, the
    first of them at address [base]. *)
Fixpoint place (base : nat) (e : elem) : hentry * store :=
  match e with
  | Prim tg p => (mk_entry tg (prim_type p) (SVal (prim_json p)), [])
  | Cont tg k l =>
      let '(es, hs) :=
        (fix go base l := match l with
                          | [] => ([], [])
                          | e :: l' => let '(x, h1) := place base e in
                                       let '(xs, h2) := go (base + length h1)%nat l' in
                                       (x :: xs, h1 ++ h2)
                          end) (S base) l in
      (mk_entry tg (ckind_type k) (SRef base), es :: hs)
  end.

Fixpoint places (base : nat) (l : list elem) : list hentry * store :=
  match l with
  | [] => ([], [])
  | e :: l' => let '(x, h1) := place base e in
               let '(xs, h2) := places (base + length h1)%nat l' in
               (x :: xs, h1 ++ h2)
  end.

Lemma place_cont base tg k l :
  place base (Cont tg k l) =
  (mk_entry tg (ckind_type k) (SRef base),
   (places (S base) l).1 :: (places (S base) l).2).
Proof.
  cbn. assert (∀ b l,
    (fix go base l := match l with
                      | [] => ([], [])
                      | e :: l' => let '(x, h1) := place base e in
                                   let '(xs, h2) := go (base + length h1)%nat l' in
                                   (x :: xs, h1 ++ h2)
                      end) b l = places b l) as ->.
  { clear. intros b l. revert b. induction l as [|e l IH]; intros b; [done|].
    cbn. destruct (place b e) as [x h1]. by rewrite IH. }
  by destruct (places (S base) l).
Qed.

Lemma places_cons base e l :
  places base (e :: l) =
  let '(x, h1) := place base e in
  let '(xs, h2) := places (base + length h1)%nat l in (x :: xs, h1 ++ h2).
Proof. done. Qed.

(** The effect of decoding a list of elements into the array [a]. *)
Definition grow (h : store) (a : nat) (p : list hentry * store) : store :=
  alter (λ l, l ++ p.1) a h ++ p.2.

Lemma alter_app_cell (f : list hentry → list hentry) a (h h' : store) :
  (a < length h)%nat → alter f a (h ++ h') = alter f a h ++ h'.
Proof. apply alter_app_l. Qed.

Lemma grow_nil h a : grow h a ([], []) = h.
Proof.
  unfold grow. cbn. rewrite app_nil_r. apply list_alter_id. intros. apply app_nil_r.
Qed.

Lemma length_grow h a p : length (grow h a p) = (length h + length p.2)%nat.
Proof. unfold grow. by rewrite length_app, length_alter. Qed.

Lemma grow_grow h a p q :
  (a < length h)%nat → grow (grow h a p) a q = grow h a (p.1 ++ q.1, p.2 ++ q.2).
Proof.
  intros Ha. unfold grow. cbn [fst snd].
  rewrite alter_app_cell by (by rewrite length_alter).
  rewrite <- app_assoc. f_equal. rewrite list_alter_alter_eq.
  apply list_alter_ext; [|done]. intros x _. cbn. by rewrite app_assoc.
Qed.

(** Filling the array that the container has just been given. *)
Lemma grow_container h a x p :
  (a < length h)%nat →
  grow (push_entry (h ++ [[]]) (Some a) x) (length h) p = grow h a ([x], p.1 :: p.2).
Proof.
  intros Ha. unfold grow, push_entry. cbn [fst snd].
  rewrite alter_app_cell by done.
  assert (length h = length (alter (λ l, l ++ [x]) a h)) as Hl by (by rewrite length_alter).
  rewrite Hl at 1. rewrite <- (Nat.add_0_r (length (alter _ a h))), alter_app_r.
  by rewrite <- app_assoc.
Qed.

(** ** The run over an element *)

Definition place1 (base : nat) (e : elem) : list hentry * store :=
  ([(place base e).1], (place base e).2).

Lemma places_grow base e l :
  places base (e :: l) =
  ((place1 base e).1 ++ (places (base + length (place1 base e).2) l).1,
   (place1 base e).2 ++ (places (base + length (place1 base e).2) l).2).
Proof.
  rewrite places_cons. unfold place1. destruct (place base e) as [x h1]. cbn.
  by destruct (places _ l).
Qed.

(** The octets of [l] decoded into the array [a], with [rest] behind them. *)
Definition decodes (b : buffer) (p : nat → list hentry * store) : Prop :=
  ∀ h a d st rest, (a < length h)%nat → 0 < d →
  rtc iterates (DS (b ++ rest) d st (Reader h (Some a)))
               (DS rest d st (Reader (grow h a (p (length h))) (Some a))).

Lemma iterate_once x b d st h c s :
  0 < d → decode_step (DS ((x :: b)) d st (Reader h c)) = Ret s →
  iterates (DS (x :: b) d st (Reader h c)) s.
Proof.
  intros Hd Hs. split; [|done]. cbn [ds_tlv ds_depth]. rewrite blen_cons.
  pose proof (blen_nonneg b). lia.
Qed.

Lemma decodes_elems l :
  Forall (λ e, decodes (elem_bytes e) (λ base, place1 base e)) l →
  decodes (elems_bytes l) (λ base, places base l).
Proof.
  induction 1 as [|e l He _ IH]; intros h a d st rest Ha Hd.
  - cbn. rewrite grow_nil. apply rtc_refl.
  - unfold elems_bytes. cbn [fmap list_fmap concat]. rewrite <- app_assoc.
    etrans; [by apply He|].
    etrans; [apply IH; [rewrite length_grow; lia|done]|].
    rewrite places_grow, grow_grow, length_grow by done. apply rtc_refl.
Qed.

Lemma decodes_prim tg p :
  elem_ok (Prim tg p) → elem_ascii (Prim tg p) →
  decodes (elem_bytes (Prim tg p)) (λ base, place1 base (Prim tg p)).
Proof.
  intros [Htg Hp] Hasc h a d st rest Ha Hd. apply rtc_once, iterate_once; [done|].
  pose proof (step_prim d st h (Some a) tg p rest Htg Hp Hasc) as Hs.
  unfold grow, place1. cbn [place fst snd]. rewrite app_nil_r. exact Hs.
Qed.

Lemma decodes_cont tg k l :
  tag_ok tg → decodes (elems_bytes l) (λ base, places base l) →
  decodes (elem_bytes (Cont tg k l)) (λ base, place1 base (Cont tg k l)).
Proof.
  intros Htg Hl h a d st rest Ha Hd.
  cbn [elem_bytes]. rewrite <- !app_assoc.
  eapply rtc_l; [apply iterate_once; [done|by apply step_container]|].
  etrans.
  { apply Hl; [|lia]. cbn [push_entry]. rewrite length_alter, length_app. cbn. lia. }
  assert (length (push_entry (h ++ [[]]) (Some a)
    (mk_entry tg (ckind_type k) (SRef (length h)))) = S (length h)) as ->.
  { cbn [push_entry]. rewrite length_alter, length_app. cbn. lia. }
  rewrite grow_container by done.
  apply rtc_once, iterate_once; [lia|].
  pose proof (step_end (d + 1) st (grow h a
    ([mk_entry tg (ckind_type k) (SRef (length h))],
     (places (S (length h)) l).1 :: (places (S (length h)) l).2))
    (Some (length h)) (Some a) rest) as Hs.
  unfold place1. rewrite place_cont. cbn [fst snd].
  replace (d + 1 - 1) with d in Hs by lia. exact Hs.
Qed.

Lemma decodes_elem e :
  elem_ok e → elem_ascii e → decodes (elem_bytes e) (λ base, place1 base e).
Proof.
  induction e as [tg p|tg k l IH] using elem_nested_ind; intros Hok Hasc.
  - by apply decodes_prim.
  - destruct Hok as [Htg Hok]. cbn [elem_ascii] in Hasc.
    apply decodes_cont, decodes_elems; [done|].
    rewrite Forall_fmap in Hok, Hasc. rewrite Forall_forall in *.
    intros e He. apply IH; [done|by apply Hok|by apply Hasc].
Qed.

(** ** Reading the tree back *)

Definition read_entry (fuel : nat) (h : store) (e : hentry) : json :=
  JObj (Entry (tag e) (type e) (profile e)
    (match value e with
     | SVal v => v
     | SRef a' => JArr (json_of fuel h a')
     end) (tagName e)).

Lemma json_of_S fuel h a : json_of (S fuel) h a = read_entry fuel h <$> (h !!! a).
Proof. done. Qed.

(** [h] holds the arrays [hs] from address [base] on. *)
Definition holds (h : store) (base : nat) (hs : store) : Prop :=
  ∃ h1 h2, h = h1 ++ hs ++ h2 ∧ length h1 = base.

Lemma holds_app h base hs1 hs2 :
  holds h base (hs1 ++ hs2) → holds h base hs1 ∧ holds h (base + length hs1) hs2.
Proof.
  intros (h1 & h2 & -> & <-). split.
  - exists h1, (hs2 ++ h2). by rewrite <- app_assoc.
  - exists (h1 ++ hs1), h2. by rewrite <- !app_assoc, length_app.
Qed.

Lemma holds_cons h base x hs :
  holds h base (x :: hs) → h !!! base = x ∧ holds h (S base) hs ∧ (base < length h)%nat.
Proof.
  intros (h1 & h2 & -> & <-). split_and!.
  - by rewrite lookup_total_app_r, Nat.sub_diag by lia.
  - exists (h1 ++ [x]), h2. rewrite <- app_assoc, length_app. cbn. split; [done|lia].
  - rewrite length_app. cbn. lia.
Qed.

Lemma read_placed h fuel : ∀ base l,
  Forall (λ e, ∀ base fuel, holds h base (place base e).2 →
                 (length h <= fuel + base)%nat →
                 read_entry fuel h (place base e).1 = elem_json e) l →
  holds h base (places base l).2 → (length h <= fuel + base)%nat →
  read_entry fuel h <$> (places base l).1 = elem_json <$> l.
Proof.
  intros base l H. revert base. induction H as [|e l He _ IH]; intros base Hh Hf; [done|].
  rewrite places_grow in *. cbn [fst snd] in *.
  apply holds_app in Hh as [Hh1 Hh2]. unfold place1 in *. cbn [fst snd app fmap list_fmap] in *.
  f_equal; [by apply He|]. apply IH; [done|lia].
Qed.

Lemma read_place h e : ∀ base fuel,
  holds h base (place base e).2 → (length h <= fuel + base)%nat →
  read_entry fuel h (place base e).1 = elem_json e.
Proof.
  induction e as [tg p|tg k l IH] using elem_nested_ind; intros base fuel Hh Hf; [done|].
  rewrite place_cont in *. cbn [fst snd] in *.
  apply holds_cons in Hh as (Hx & Hh & Hb). destruct fuel as [|fuel]; [lia|].
  unfold read_entry, mk_entry. cbn [tag type profile value tagName].
  rewrite json_of_S, Hx, (read_placed _ _ _ _ IH Hh) by lia. done.
Qed.

Lemma read_places h fuel base l :
  holds h base (places base l).2 → (length h <= fuel + base)%nat →
  read_entry fuel h <$> (places base l).1 = elem_json <$> l.
Proof.
  apply read_placed, Forall_forall. intros e _ base' fuel'. apply read_place.
Qed.

(** ** Input that ends early

    Containers that have been opened and not ended, the outermost first, each with the
    elements in front of it, and the elements [l] of the innermost one. *)
Abbreviation frame := (list elem * tagform * ckind)%type.

Fixpoint open_bytes (fs : list frame) (l : list elem) : buffer :=
  match fs with
  | [] => elems_bytes l
  | (l0, tg, k) :: fs' => elems_bytes l0 ++ header (ckind_type k) tg ++ open_bytes fs' l
  end.

(** The same elements with the containers ended *)
Fixpoint closed (fs : list frame) (l : list elem) : list elem :=
  match fs with
  | [] => l
  | (l0, tg, k) :: fs' => l0 ++ [Cont tg k (closed fs' l)]
  end.

Lemma places_app base l1 l2 :
  places base (l1 ++ l2) =
  ((places base l1).1 ++ (places (base + length (places base l1).2) l2).1,
   (places base l1).2 ++ (places (base + length (places base l1).2) l2).2).
Proof.
  revert base. induction l1 as [|e l1 IH]; intros base; cbn [app].
  - cbn [places fst snd length app]. rewrite Nat.add_0_r. by destruct (places base l2).
  - rewrite !places_grow. cbn [fst snd]. rewrite IH. cbn [fst snd].
    by rewrite length_app, Nat.add_assoc, <- !app_assoc.
Qed.

Lemma decodes_list l :
  elems_ok l → elems_ascii l → decodes (elems_bytes l) (λ base, places base l).
Proof.
  intros Hok Hasc. apply decodes_elems. unfold elems_ok, elems_ascii in *.
  rewrite Forall_forall in *. intros e He. apply decodes_elem; auto.
Qed.

(** The arrays of the open containers hold what those of the ended ones would. *)
Lemma decodes_open fs l : elems_ok (closed fs l) → elems_ascii (closed fs l) →
  ∀ h a d st rest, (a < length h)%nat → 0 < d →
  ∃ d' st' c, 0 < d' ∧
    rtc iterates (DS (open_bytes fs l ++ rest) d st (Reader h (Some a)))
      (DS rest d' st' (Reader (grow h a (places (length h) (closed fs l))) (Some c))).
Proof.
  induction fs as [|[[l0 tg] k] fs IH]; cbn [closed open_bytes]; intros Hok Hasc h a d st rest Ha Hd.
  { exists d, st, a. split; [done|]. by apply decodes_list. }
  unfold elems_ok, elems_ascii in Hok, Hasc.
  apply Forall_app in Hok as [Hok0 [Htg Hok]%Forall_inv].
  apply Forall_app in Hasc as [Hasc0 Hasc%Forall_inv].
  cbn [elem_ascii] in Hasc. rewrite Forall_fmap in Hok, Hasc.
  set (h0 := grow h a (places (length h) l0)).
  assert (length h0 = length h + length (places (length h) l0).2)%nat as Hl0 by apply length_grow.
  set (h1 := push_entry (h0 ++ [[]]) (Some a) (mk_entry tg (ckind_type k) (SRef (length h0)))).
  assert (length h1 = S (length h0)) as Hl1
    by (unfold h1; cbn [push_entry]; rewrite length_alter, length_app; cbn; lia).
  destruct (IH Hok Hasc h1 (length h0) (d + 1) (Some a :: st) rest) as (d' & st' & c & Hd' & Hrun);
    [lia..|].
  exists d', st', c. split; [done|]. rewrite <- !app_assoc.
  etrans; [by apply decodes_list|]. fold h0.
  eapply rtc_l; [apply iterate_once; [done|by apply step_container]|]. fold h1.
  etrans; [exact Hrun|]. rewrite Hl1. unfold h1. rewrite grow_container by lia.
  unfold h0 at 1. rewrite grow_grow by done. rewrite places_app, <- Hl0.
  rewrite places_grow. unfold place1. rewrite place_cont. cbn [fst snd places].
  rewrite !app_nil_r. apply rtc_refl.
Qed.

(** The octets of an element that say how long it is: for a string they end with its
    length, for a container with its tag. *)
Definition payload_head (p : prim) : nat :=
  match p with
  | PStr s => length (uint_bytes (str_length s))
  | PBytes b => length (uint_bytes (blen b))
  | _ => length (prim_payload p)
  end.

Definition elem_head (e : elem) : nat :=
  match e with
  | Prim tg p => S (length (tag_bytes tg) + payload_head p)
  | Cont tg k l => S (length (tag_bytes tg))
  end.

Lemma read_uint_short n b off : blen b < off + Z.of_nat n → read_uint_le n b off = Throw RangeError.
Proof. intros H. unfold read_uint_le. by rewrite (proj2 (Z.leb_gt _ _) H), andb_false_r. Qed.

Lemma blen_take n (b : buffer) : blen (take n b) <= Z.of_nat n.
Proof. unfold blen. rewrite length_take. lia. Qed.

Lemma cut_value p n : prim_ok p → (n < payload_head p)%nat →
  decodeValueAndLength (take n (prim_payload p)) (prim_type p) = Throw RangeError.
Proof.
  intros Hp Hn. pose proof (blen_take n (prim_payload p)) as Hb.
  set (b := take n (prim_payload p)) in *. clearbody b.
  assert (∀ z, length (uint_bytes z) = width_of_log (uint_log z)) as Hu by (intros z; apply length_le_bytes).
  assert (∀ z, length (int_bytes z) = width_of_log (int_log z)) as Hi by (intros z; apply length_le_bytes).
  assert (∀ k, (n < k)%nat → read_uint_le k b 0 = Throw RangeError) as Hr
    by (intros k Hk; apply read_uint_short; lia).
  unfold decodeValueAndLength, decode_primitive.
  destruct p as [z|z|[]|bits|bits|s|c|]; cbn [prim_type payload_head prim_payload prim_ok] in *;
    rewrite ?Hu, ?Hi in Hn; try (cbn in Hn; lia).
  - destruct (int_log_cases z) as [[E ?]|[[E ?]|[[E ?]|[E ?]]]]; [tlv_consts; lia|..];
      rewrite E in *; cbn in Hn |- *; unfold read_int_le; specialize (Hr _ Hn); by rewrite Hr.
  - destruct (uint_log_cases z) as [[E ?]|[[E ?]|[[E ?]|[E ?]]]]; [tlv_consts; lia|..];
      rewrite E in *; cbn in Hn |- *; specialize (Hr _ Hn); by rewrite Hr.
  - rewrite length_le_bytes in Hn. cbn. specialize (Hr _ Hn). by rewrite Hr.
  - rewrite length_le_bytes in Hn. cbn. specialize (Hr _ Hn). by rewrite Hr.
  - destruct (uint_log_cases (str_length s)) as [[E ?]|[[E ?]|[[E ?]|[E ?]]]]; [unfold str_length in *; tlv_consts; lia|..];
      rewrite E in *; cbn in Hn |- *; specialize (Hr _ Hn); by rewrite Hr.
  - pose proof (blen_nonneg c).
    destruct (uint_log_cases (blen c)) as [[E ?]|[[E ?]|[[E ?]|[E ?]]]]; [tlv_consts; lia|..];
      rewrite E in *; cbn in Hn |- *; specialize (Hr _ Hn); by rewrite Hr.
Qed.

Lemma cut_tag tg n : tag_ok tg → (n < length (tag_bytes tg))%nat →
  decodeTagAndLength (take n (tag_bytes tg)) (tag_control tg) = Throw RangeError.
Proof.
  intros Htg Hn. pose proof (blen_take n (tag_bytes tg)) as Hb.
  set (b := take n (tag_bytes tg)) in *. clearbody b.
  assert (∀ k off, Z.of_nat n < off + Z.of_nat k → read_uint_le k b off = Throw RangeError) as Hs
    by (intros k off Hk; apply read_uint_short; lia).
  unfold decodeTagAndLength. unfold tag_bytes, tag_number in Hn.
  destruct tg as [|t|t|t|p t]; cbn [tag_ok tag_control] in *; [cbn in Hn; lia|..].
  - cbn in Hn |- *. by rewrite Hs by lia.
  - destruct (is_u16 t); rewrite length_le_bytes in Hn; cbn; by rewrite Hs by lia.
  - destruct (is_u16 t); rewrite length_le_bytes in Hn; cbn; by rewrite Hs by lia.
  - assert (throws_only (eq RangeError) (read_uint_le 4 b 0)) as Hp by auto with throws.
    destruct (is_u16 t); rewrite length_app, !length_le_bytes in Hn; cbn;
      (destruct (read_uint_le 4 b 0); cbn in *; [by rewrite Hs by lia|by subst]).
Qed.

Lemma step_cut e n d st r : elem_ok e → (0 < n < elem_head e)%nat →
  decode_step (DS (take n (elem_bytes e)) d st r) = Throw RangeError.
Proof.
  intros He [H0 Hn]. destruct r as [h c]. destruct n as [|n]; [lia|]. clear H0.
  assert (∃ ty tg payload w, elem_bytes e = header ty tg ++ payload ∧ 0 <= ty < 32 ∧ tag_ok tg ∧
    (n < length (tag_bytes tg) + w)%nat ∧
    ∀ m, (m < w)%nat → decodeValueAndLength (take m payload) ty = Throw RangeError)
    as (ty & tg & payload & w & -> & Hty & Htg & Hw & Hcut).
  { destruct e as [tg p|tg k l]; destruct He as [Htg He].
    - exists (prim_type p), tg, (prim_payload p), (payload_head p).
      split_and!; [done|by apply prim_type_range..|done|cbn in Hn; lia|].
      intros m. by apply cut_value.
    - eexists (ckind_type k), tg, _, 0%nat. split_and!; [done|by destruct k..|done|cbn in Hn; lia|lia]. }
  unfold decode_step. unfold header. cbn [app take].
  rewrite decode_control by done. cbn [mbind outcome_bind typeNum tagType].
  rewrite subarray_from_nonneg by lia. change (drop (Z.to_nat 1) (?x :: ?b)) with b.
  destruct (decide (n < length (tag_bytes tg))%nat) as [Ht|Ht].
  - rewrite take_app_le by lia. by rewrite cut_tag.
  - rewrite take_app_ge by lia. rewrite decode_tag by done. cbn [mbind outcome_bind dt_tagLength].
    by rewrite subarray_from_app, Hcut by lia.
Qed.

(** ** The reader on the encoding of a list of elements *)

Lemma Json_places l c : Json (Reader (grow [[]] 0 (places 1 l)) c) = elem_json <$> l.
Proof.
  unfold Json, grow. cbn [arrays alter list_alter app length]. rewrite json_of_S.
  cbn [lookup_total list_lookup_total]. apply read_places; [|cbn; lia].
  exists [(places 1 l).1], []. by rewrite app_nil_r.
Qed.

(** A run from a new reader to a state in which the loop ends *)
Lemma decode_of_run_to tlv s n o :
  rtc iterates (DS tlv 1 [Some 0%nat] (Reader [[]] (Some 0%nat))) s → decode_loop n s = Some o →
  decode tlv TlvReader_new = o.
Proof.
  intros Hs Hn. destruct (decode_loop_iterates _ _ n o Hs Hn) as [m Hm].
  by apply (decode_of_run TlvReader_new tlv m).
Qed.

(** Containers that are not ended are read as if they were. *)
Lemma decode_open fs l : elems_ok (closed fs l) → elems_ascii (closed fs l) →
  ∃ r, decode (open_bytes fs l) TlvReader_new = (r, Ret tt) ∧ Json r = elem_json <$> closed fs l.
Proof.
  intros Hok Hasc.
  destruct (decodes_open fs l Hok Hasc [[]] 0%nat 1 [Some 0%nat] []) as (d & st & c & Hd & Hrun);
    [cbn; lia|lia|].
  rewrite app_nil_r in Hrun. eexists. split; [by eapply (decode_of_run_to _ _ 0 _ Hrun)|].
  apply Json_places.
Qed.

(** An element that is cut short in front of its contents throws; what is in front of it
    has been read. *)
Lemma decode_cut fs l e n : elems_ok (closed fs l) → elems_ascii (closed fs l) →
  elem_ok e → (0 < n < elem_head e)%nat →
  ∃ r, decode (open_bytes fs l ++ take n (elem_bytes e)) TlvReader_new = (r, Throw RangeError) ∧
    Json r = elem_json <$> closed fs l.
Proof.
  intros Hok Hasc He Hn.
  destruct (decodes_open fs l Hok Hasc [[]] 0%nat 1 [Some 0%nat] (take n (elem_bytes e)))
    as (d & st & c & Hd & Hrun); [cbn; lia|lia|].
  eexists. split; [|apply Json_places with (c := Some c)].
  apply (decode_of_run_to _ _ 1 _ Hrun). cbn [decode_loop ds_tlv ds_depth].
  assert ((blen (take n (elem_bytes e)) >? 0) = true) as ->.
  { destruct n; [lia|]. by destruct e. }
  apply Z.gtb_lt in Hd as ->. cbn [andb]. by rewrite step_cut.
Qed.

Lemma decode_json_elems l :
  elems_ok l → elems_ascii l →
  decode_json (elems_bytes l) = Ret (JArr (elem_json <$> l)).
Proof.
  intros Hok Hasc. destruct (decode_open [] l Hok Hasc) as (r & Hr & Hj).
  unfold decode_json. change (elems_bytes l) with (open_bytes [] l). rewrite Hr. cbn. by rewrite Hj.
Qed.
