(* ===== verification/TlvTheorems.v ===== *)
(** * Theorems on the TLV codec

    The writer implements the abstract encoding, the reader its inverse, and both
    compose to a round trip; decoding ends on every input, with a RangeError as
    the only failure; and where the encoder departs from the format. *)
From S2P Require Import Prelude JsNumber JsString TlvType TlvCodec TlvReader TlvWriter.
From S2P Require Import TlvElement TlvFacts TlvWriterFacts TlvReaderFacts.

(** ** Lemmas: the writer only makes well-formed elements *)

Lemma tagform_of_ok tag profile tg : tagform_of tag profile = Some tg → tag_ok tg.
Proof.
  unfold tagform_of, is_one_of. cbn [existsb].
  destruct tag as [t|], profile as [p|]; intros H; try done; repeat case_match; simplify_eq;
    cbn [tag_ok]; try done.
  all: unfold u32_ok; zbool; rewrite ?negb_false_iff, ?andb_true_iff in *; zbool; try lia.
  split_and!; try lia. rewrite !not_elem_of_cons. split_and!; try lia. apply not_elem_of_nil.
Qed.

Lemma prim_signed_ok v p : prim_signed v = Some p → prim_ok p.
Proof.
  unfold prim_signed, in_int64. intros H.
  repeat case_match; simplify_eq; cbn; zbool; tlv_consts; lia.
Qed.

Lemma prim_unsigned_ok v p : prim_unsigned v = Some p → prim_ok p.
Proof.
  unfold prim_unsigned, in_uint64. intros H.
  repeat case_match; simplify_eq; cbn; zbool; tlv_consts; lia.
Qed.

Lemma prim_auto_ok v p : prim_auto v = Some p → prim_ok p.
Proof.
  unfold prim_auto. intros H.
  repeat case_match; simplify_eq;
    solve [by eapply prim_signed_ok|by eapply prim_unsigned_ok|cbn; zbool; lia|done].
Qed.

Lemma prim_float_ok v p : prim_float v = Some p → prim_ok p.
Proof. unfold prim_float. intros H. repeat case_match; simplify_eq. cbn. zbool. lia. Qed.

Lemma prim_buffer_ok v p : prim_buffer v = Some p → prim_ok p.
Proof. unfold prim_buffer. intros H. destruct v; try done; by eapply prim_auto_ok. Qed.

Lemma leaf_ok tg (o : option prim) l :
  tag_ok tg → (∀ p, o = Some p → prim_ok p) →
  (λ x, [Prim tg x]) <$> o = Some l → elems_ok l.
Proof.
  intros Htg Ho H. destruct o as [p|]; [|done]. cbn in H. simplify_eq.
  repeat constructor; cbn; auto.
Qed.

Lemma elems_at_ok j : ∀ ov l, elems_at ov j = Some l → elems_ok l.
Proof.
  induction j as [| |x|n|z|s|v|js IH|e IH] using json_nested_ind; intros ov l Hl;
    cbn [elems_at] in Hl; try done;
    try (by eapply (leaf_ok TagAnon); [done|apply prim_auto_ok|done]).
  - simplify_eq. by repeat constructor.
  - revert l Hl. induction IH as [|x js Hx _ IH]; intros l Hl; cbn in Hl.
    { simplify_eq. constructor. }
    destruct (elems_at None x) as [l1|] eqn:E1; [|done]. cbn in Hl.
    match type of Hl with (?m ≫= _) = _ => destruct m as [l2|] eqn:E2; [|done] end.
    cbn in Hl. simplify_eq. apply Forall_app. split; [by eapply Hx|by apply IH].
  - destruct e as [t type p value tn]. cbn [TlvType.value] in IH.
    destruct (match ov with Some o => o | None => (t, p) end) as [tag profile].
    destruct (tagform_of tag profile) as [tg|] eqn:Htg; [|done].
    apply tagform_of_ok in Htg. cbn [mbind option_bind] in Hl.
    destruct (kind_of_type type) as [k|].
    { destruct (elems_at None value) as [l'|] eqn:E; [|done]. cbn in Hl. simplify_eq.
      repeat constructor; [done|]. apply Forall_fmap. by eapply IH. }
    pose proof (leaf_ok tg) as Hleaf.
    repeat case_match; try (by eapply IH);
      (eapply Hleaf; [exact Htg| |exact Hl]);
      first [apply prim_signed_ok|apply prim_unsigned_ok|apply prim_float_ok
            |apply prim_buffer_ok|apply prim_auto_ok|by intros; simplify_eq].
Qed.

(** ** Lemmas: what the reader made is written back as it was *)

(** A double the reader gives back as the Number it came from: not integral
    (an integral Number is written as an integer), NaN in its canonical form.  A
    single that survives the conversion to a double and back. *)
Definition prim_stable (p : prim) : bool :=
  match p with
  | PFloat bits => bool_decide (f32_of_f64 (bits_of_num (num_of_bits (f64_of_f32 bits))) = bits)
  | PDouble bits =>
      bool_decide (num_of_bits bits = NFrac bits) && negb (num_is_integer (NFrac bits))
  | _ => true
  end.

Fixpoint elem_stable (e : elem) : bool :=
  match e with
  | Prim _ p => prim_stable p
  | Cont _ _ l => forallb elem_stable l
  end.

Lemma tagform_of_fields tg : tag_ok tg → tagform_of (tag_fields tg).1 (tag_fields tg).2 = Some tg.
Proof.
  unfold tagform_of, is_one_of.
  destruct tg as [|t|t|t|p t]; cbn [tag_ok tag_fields fst snd existsb]; intros H; [done|..].
  - by ztest ((0 <=? t) && (t <=? UINT8_MAX)) true.
  - by ztest ((0 <=? t) && (t <=? UINT32_MAX)) true.
  - by ztest ((0 <=? t) && (t <=? UINT32_MAX)) true.
  - destruct H as (Hp & Ht & Hn). ztest ((0 <=? t) && (t <=? UINT32_MAX)) true.
    rewrite !not_elem_of_cons in Hn. destruct Hn as (? & ? & ? & ? & ? & _). cbn [negb].
    ztest ((p =? 0) || ((p =? 0x40) || ((p =? 0x60) || false))) false.
    ztest ((p =? -1) || ((p =? 0x80) || ((p =? 0xA0) || false))) false.
    by ztest ((0 <=? p) && (p <=? UINT32_MAX)) true.
Qed.

(** The leaf [elems_at] makes of the entry the reader made. *)
Definition leaf_of (type : option string) (v : json) : option prim :=
  if is_type type ["int8"; "int16"; "int32"; "int64"]%string then prim_signed v
  else if is_type type ["uint8"; "uint16"; "uint32"; "uint64"]%string then prim_unsigned v
  else if is_type type ["float"%string] then prim_float v
  else if is_type type ["boolean"; "bool"]%string then Some (PBool (truthy v))
  else if is_type type ["Buffer"%string] then prim_buffer v
  else prim_auto v.

Definition is_plain (v : json) : bool :=
  match v with JArr _ | JObj _ => false | _ => true end.

Lemma elems_at_leaf tag profile type v tn tg p :
  tagform_of tag profile = Some tg → kind_of_type type = None →
  leaf_of type v = Some p → is_plain v = true →
  elems_at None (JObj (Entry tag type profile v tn)) = Some [Prim tg p].
Proof.
  intros Htg Hk Hp Ha. cbn [elems_at]. rewrite Htg. cbn [mbind option_bind]. rewrite Hk.
  unfold leaf_of in Hp.
  repeat case_match; rewrite ?Hp; try done; by inversion Hp.
Qed.

Lemma leaf_of_int z :
  in_int64 z = true →
  leaf_of (ElementTypes (TLV_TYPE_SIGNED_INTEGER + int_log z)) (prim_json (PInt z))
  = Some (PInt z).
Proof.
  intros Hz. assert (prim_signed (prim_json (PInt z)) = Some (PInt z)) as H.
  { cbn [prim_json]. destruct (int_log z =? 3); cbn [prim_signed]; by rewrite Hz. }
  unfold in_int64 in Hz. zbool.
  destruct (int_log_cases z) as [[E ?]|[[E ?]|[[E ?]|[E ?]]]]; [lia|..]; rewrite E; exact H.
Qed.

Lemma leaf_of_uint z :
  in_uint64 z = true →
  leaf_of (ElementTypes (TLV_TYPE_UNSIGNED_INTEGER + uint_log z)) (prim_json (PUint z))
  = Some (PUint z).
Proof.
  intros Hz. assert (prim_unsigned (prim_json (PUint z)) = Some (PUint z)) as H.
  { cbn [prim_json]. destruct (uint_log z =? 3) eqn:E; cbn [prim_unsigned]; rewrite Hz; [|done].
    assert ((UINT32_MAX <? z) = true) as ->; [|done]. unfold in_uint64 in Hz. zbool.
    destruct (uint_log_cases z) as [[E' ?]|[[E' ?]|[[E' ?]|[E' ?]]]]; lia. }
  unfold in_uint64 in Hz. zbool.
  destruct (uint_log_cases z) as [[E ?]|[[E ?]|[[E ?]|[E ?]]]]; [lia|..]; rewrite E; exact H.
Qed.

Lemma leaf_of_string base v n :
  base ∈ [TLV_TYPE_UTF8_STRING; TLV_TYPE_BYTE_STRING] → 0 <= n <= UINT32_MAX →
  leaf_of (ElementTypes (base + uint_log n)) v = prim_auto v ∧
  kind_of_type (ElementTypes (base + uint_log n)) = None.
Proof.
  intros Hb Hn. rewrite !elem_of_cons, elem_of_nil in Hb.
  destruct (uint_log_cases n) as [[E ?]|[[E ?]|[[E ?]|[E ?]]]]; [tlv_consts; lia|..]; [..|lia];
    rewrite E; destruct Hb as [->|[->|[]]]; done.
Qed.

Lemma leaf_of_prim p :
  prim_ok p → prim_stable p = true →
  leaf_of (ElementTypes (prim_type p)) (prim_json p) = Some p ∧
  kind_of_type (ElementTypes (prim_type p)) = None.
Proof.
  intros Hp Hs. destruct p as [z|z|[]|bits|bits|s|b|]; cbn [prim_ok prim_type] in *; try done.
  - split; [apply leaf_of_int; unfold in_int64; tlv_consts; lia|].
    by destruct (int_log_cases z) as [[-> ?]|[[-> ?]|[[-> ?]|[-> ?]]]]; [tlv_consts; lia|..].
  - split; [apply leaf_of_uint; unfold in_uint64; tlv_consts; lia|].
    by destruct (uint_log_cases z) as [[-> ?]|[[-> ?]|[[-> ?]|[-> ?]]]]; [tlv_consts; lia|..].
  - split; [|done]. cbn [prim_stable] in Hs. apply bool_decide_eq_true in Hs.
    change (prim_float (prim_json (PFloat bits)) = Some (PFloat bits)).
    cbn [prim_json prim_float]. rewrite Hs. by ztest ((0 <=? bits) && (bits <? 2 ^ 32)) true.
  - split; [|done]. cbn [prim_stable] in Hs. apply andb_true_iff in Hs as [Hs Hi].
    apply bool_decide_eq_true in Hs. apply negb_true_iff in Hi.
    change (prim_auto (prim_json (PDouble bits)) = Some (PDouble bits)).
    cbn [prim_json]. rewrite Hs. unfold prim_auto. rewrite Hi.
    by ztest ((0 <=? bits) && (bits <? 2 ^ 64)) true.
  - cbn [prim_json].
    destruct (leaf_of_string TLV_TYPE_UTF8_STRING (JStr s) (str_length s)) as [-> ->];
      [set_solver|unfold str_length in *; lia|].
    cbn [prim_auto]. by ztest (str_length s <=? UINT32_MAX) true.
  - pose proof (blen_nonneg b). cbn [prim_json].
    destruct (leaf_of_string TLV_TYPE_BYTE_STRING (JBuf b) (blen b)) as [-> ->];
      [set_solver|lia|].
    cbn [prim_auto]. by ztest (blen b <=? UINT32_MAX) true.
Qed.

Lemma elems_at_array es l :
  Forall2 (λ j e, elems_at None j = Some [e]) es l → elems_at None (JArr es) = Some l.
Proof.
  intros H. cbn [elems_at]. induction H as [|j e es l Hj _ IH]; [done|].
  rewrite Hj. cbn [mbind option_bind]. by rewrite IH.
Qed.

Lemma elems_at_elem_json e :
  elem_ok e → elem_stable e = true → elems_at None (elem_json e) = Some [e].
Proof.
  induction e as [tg p|tg k l IH] using elem_nested_ind; intros Hok Hs.
  - destruct Hok as [Htg Hp]. destruct (leaf_of_prim p Hp Hs) as [Hl Hk].
    apply elems_at_leaf; [by apply tagform_of_fields|done..|].
    destruct p as [z|z|b|bits|bits|s|b|]; cbn; try done; by case_match.
  - destruct Hok as [Htg Hok]. cbn [elem_stable] in Hs.
    assert (elems_at None (JArr (elem_json <$> l)) = Some l) as Hl.
    { apply elems_at_array. apply Forall2_fmap_l, Forall_Forall2_diag.
      rewrite Forall_fmap in Hok. rewrite forallb_forall in Hs.
      rewrite Forall_forall in *. intros e He. apply IH; [done|by apply Hok|].
      by apply Hs, list_elem_of_In. }
    cbn [elem_json]. unfold mk_entry. cbn -[elems_at] in *. cbn [elems_at].
    rewrite tagform_of_fields by done. cbn [mbind option_bind].
    assert (kind_of_type (ElementTypes (ckind_type k)) = Some k) as -> by (by destruct k).
    cbn [elems_at] in Hl. by rewrite Hl.
Qed.

Lemma elems_of_read l :
  elems_ok l → forallb elem_stable l = true →
  elems_of (JArr (elem_json <$> l)) = Some l.
Proof.
  intros Hok Hs. apply elems_at_array, Forall2_fmap_l, Forall_Forall2_diag.
  rewrite forallb_forall in Hs. unfold elems_ok in Hok. rewrite Forall_forall in *.
  intros e He. apply elems_at_elem_json; [by apply Hok|by apply Hs, list_elem_of_In].
Qed.

(** ** Lemmas: the failures of the reader *)

Lemma throws_primitive tlv ty : throws_only (eq RangeError) (decode_primitive tlv ty).
Proof. unfold decode_primitive. auto 40 with throws. Qed.

Lemma throws_step s : throws_only (eq RangeError) (decode_step s).
Proof.
  destruct s as [tlv d st [h c]]. unfold decode_step.
  apply throws_bind; [unfold decodeControlByte; auto with throws|intros control].
  apply throws_bind.
  { unfold decodeTagAndLength. apply throws_bind; [auto 20 with throws|].
    intros [[? ?] ?]. auto with throws. }
  intros tg. apply throws_bind.
  { unfold decodeValueAndLength. apply throws_bind; [apply throws_primitive|].
    intros [[] ?]; repeat case_match; auto with throws. }
  intros vl. repeat case_match; auto with throws.
Qed.

Lemma throws_loop n s :
  match decode_loop n s with Some o => throws_only (eq RangeError) o.2 | None => True end.
Proof.
  revert s. induction n as [|n IH]; intros s; cbn; destruct (_ && _); try done.
  pose proof (throws_step s) as H. destruct (decode_step s); [apply IH|done].
Qed.

Lemma decode_outcome (r : TlvReader) (tlv : buffer) :
  (decode tlv r).2 = Ret tt ∨ (decode tlv r).2 = Throw RangeError.
Proof.
  unfold decode. pose proof (throws_loop (length tlv) (decode_start r tlv)) as Ht.
  destruct (decode_loop _ _) as [[r' [[]|e]]|] eqn:E; cbn in *; [by left|by subst; right|].
  by apply decode_loop_total in E.
Qed.

Lemma decode_json_throws tlv e : decode_json tlv = Throw e → e = RangeError.
Proof.
  unfold decode_json. destruct (decode_outcome TlvReader_new tlv) as [H|H];
    destruct (decode tlv TlvReader_new) as [r o]; cbn in *; subst; cbn; [done|by intros [=]].
Qed.

(** ** Theorems *)

(** C5: the writer implements the abstract encoding.  For every JSON value that
    stands for a list of elements, [encode] completes and appends exactly the
    octets of those elements to the writer's buffer. *)
Theorem tlv_encode_correct (j : json) (buf : buffer) (l : list elem) :
  elems_of j = Some l → encode j buf = (buf ++ elems_bytes l, Ret tt).
Proof. apply encode_at_spec. Qed.

(** C6: the reader decodes the encoding of any well-formed list of elements,
    nested containers included, to the entries of those elements, in order. *)
Theorem tlv_decode_correct (l : list elem) :
  elems_ok l → elems_ascii l →
  decode_json (elems_bytes l) = Ret (JArr (elem_json <$> l)).
Proof. apply decode_json_elems. Qed.

(** C7: what a new writer encodes, a new reader decodes: the result is the entry
    view of the elements the JSON value stands for. *)
Theorem tlv_roundtrip (j : json) (l : list elem) :
  elems_of j = Some l → elems_ascii l →
  (b ← encode_new j; decode_json b) = Ret (JArr (elem_json <$> l)).
Proof.
  intros Hj Ha. unfold encode_new, encode.
  rewrite (encode_at_spec j None l TlvWriter_new Hj). cbn [mbind outcome_bind].
  apply decode_json_elems; [by eapply elems_at_ok|done].
Qed.

(** C8: the representation is deterministic: decoding the octets of stable
    elements and encoding the result gives the same octets back. *)
Theorem tlv_reencode (l : list elem) :
  elems_ok l → elems_ascii l → forallb elem_stable l = true →
  (j ← decode_json (elems_bytes l); encode_new j) = Ret (elems_bytes l).
Proof.
  intros Hok Ha Hs. rewrite decode_json_elems by done. cbn [mbind outcome_bind].
  unfold encode_new, encode.
  by rewrite (encode_at_spec _ None l TlvWriter_new (elems_of_read l Hok Hs)).
Qed.

(** C9: the loop of [decode] ends on every input, from any state: as many
    iterations as there are octets left are enough, and more change nothing. *)
Theorem tlv_decode_terminates (n : nat) (s : decode_state) :
  (length (ds_tlv s) <= n)%nat →
  decode_loop n s = decode_loop (length (ds_tlv s)) s ∧ decode_loop n s ≠ None.
Proof.
  intros Hn. pose proof (decode_loop_total n s Hn) as H. split; [|done].
  pose proof (decode_loop_total _ s (le_n _)) as H'.
  destruct (decode_loop (length (ds_tlv s)) s) as [o|] eqn:E; [|done].
  by eapply decode_loop_more.
Qed.


(** [findTag] returns the value of the first entry with the tag, and
    [undefined] when no entry has it. *)
Theorem findTag_first (es : list entry) (t : Z) :
  findTag (JArr (JObj <$> es : list json)) t =
  Ret (default JUndef ((λ x : nat * entry, value x.2) <$> list_find (λ e, tag e = Some t) es)).
Proof.
  cbn [findTag]. induction es as [|e es IH]; [done|]. cbn [fmap list_fmap find_entry list_find].
  destruct (decide (tag e = Some t)) as [E|E].
  - by rewrite bool_decide_true.
  - rewrite bool_decide_false by done. rewrite IH.
    by destruct (list_find _ es) as [[]|].
Qed.

(** What the reader makes of the octets of a string *)
Lemma decode_string_units (s : jsstr) (rest : buffer) :
  str_length s <= UINT32_MAX → str_length s <= blen (utf8_encode s) →
  decodeValueAndLength (prim_payload (PStr s) ++ rest) (prim_type (PStr s)) =
  Ret (VL (JStr (utf8_decode (take (length s) (utf8_encode s))))
          (blen (uint_bytes (str_length s) ++ take (length s) (utf8_encode s)))).
Proof.
  intros Hs Hl. cbn [prim_payload prim_type]. unfold str_length, blen in Hl.
  rewrite <- (take_drop (length s) (utf8_encode s)) at 1.
  assert (str_length s = blen (take (length s) (utf8_encode s))) as Hn.
  { unfold str_length, blen. rewrite length_take. lia. }
  rewrite (app_assoc (uint_bytes _)), <- (app_assoc _ _ rest).
  by rewrite decode_value_counted; [|set_solver|..].
Qed.

(** C11: strings that are not ASCII do not survive.  The length that [putString] writes counts
    UTF-16 units, the contents are UTF-8 octets.  The reader, at what [putString] has
    written, takes only the first [s.length] octets of the contents for the string,
    and goes on with the others as with the next element; none are left, and the string is the
    one that was written, exactly when it is ASCII. *)
Theorem string_length_units (s : jsstr) (tag profile : option Z) (tg : tagform) (buf rest : buffer)
    (d : Z) (st : list (option nat)) (h : store) (c : option nat) :
  Forall (λ u, 0 <= u < 65536) s → str_length s <= UINT32_MAX → tagform_of tag profile = Some tg →
  let contents := utf8_encode s in
  let read := utf8_decode (take (length s) contents) in
  let left := drop (length s) contents in
  ∃ b, putString s tag profile buf = (buf ++ b, Ret tt) ∧
    decode_step (DS (b ++ rest) d st (Reader h c)) =
    Ret (DS (left ++ rest) d st (Reader (push_entry h c
      (mk_entry tg (TLV_TYPE_UTF8_STRING + uint_log (str_length s)) (SVal (JStr read)))) c)) ∧
    (left = [] ↔ ascii_str s) ∧ (ascii_str s → read = s).
Proof.
  intros Hu Hs Htg contents read left. destruct (utf8_length_units s Hu) as [Hl Ha].
  exists (elem_bytes (Prim tg (PStr s))).
  split; [by apply putString_spec|]. split; [|split].
  - cbn [elem_bytes]. rewrite <- app_assoc.
    destruct (prim_type_plain (PStr s) Hs) as [E1 E2].
    erewrite step_leaf; [|by eapply tagform_of_ok|by apply prim_type_range|done|done
                         |by apply decode_string_units].
    cbn [prim_payload]. rewrite <- (take_drop (length s) (utf8_encode s)) at 1.
    rewrite (app_assoc (uint_bytes _)), <- (app_assoc _ _ rest), subarray_from_app. done.
  - unfold left, contents. split; intros H.
    + apply Ha. apply (f_equal length) in H. rewrite length_drop in H.
      unfold blen, str_length in *. cbn in H. lia.
    + apply nil_length_inv. rewrite length_drop. pose proof (ascii_utf8_length s H).
      unfold blen, str_length in *. lia.
  - intros H. unfold read, contents. pose proof (ascii_utf8_length s H) as E.
    rewrite take_ge by (unfold blen, str_length in E; lia). by apply ascii_utf8_decode.
Qed.

(** A BigInt of at most 32 bits given for an unsigned integer type makes the
    writer throw a TypeError.  The reader makes such values of 8-byte integers. *)
Theorem small_bigint_refused (t profile : option Z) (z : Z) (buf : buffer) :
  0 <= z <= UINT32_MAX →
  encode (JObj (Entry t (Some "uint64"%string) profile (JBig z) None)) buf
  = (buf, Throw TypeError).
Proof.
  intros Hz. unfold encode. cbn [encode_at]. unfold is_type. cbn [existsb].
  cbn [String.eqb Ascii.eqb Bool.eqb orb]. unfold putUnsignedInt. cbn [to_numeric].
  run_writer. by rewrite encodeUnsignedInt_big_small.
Qed.

(** ** Instances *)

(** A structure with context tags, as the PASE messages use it, holding an array,
    a byte string and a 64-bit integer. *)
Definition sample : list elem :=
  [Cont TagAnon KStruct
     [Prim (TagContext 1) (PBytes [Byte.x01; Byte.x02]);
      Prim (TagContext 2) (PUint 1000);
      Cont (TagContext 3) KArray [Prim TagAnon (PInt (-5)); Prim (TagCommon 70000) (PBool true)];
      Prim (TagFull 1 2) (PStr (js_str "abc"));
      Prim (TagContext 4) (PUint (2 ^ 40))]].

Definition sample_json : json := JArr (elem_json <$> sample).

Lemma tlv_encode_correct_witness :
  elems_of sample_json = Some sample ∧
  encode sample_json [] = (elems_bytes sample, Ret tt).
Proof.
  split; [vm_compute; reflexivity|].
  apply (tlv_encode_correct sample_json [] sample). vm_compute. reflexivity.
Defined.

Lemma sample_ok : elems_ok sample ∧ elems_ascii sample.
Proof.
  split; repeat constructor; cbn; unfold u32_ok; tlv_consts; try (vm_compute; done);
    try lia; unfold str_length; cbn; try lia.
  rewrite !not_elem_of_cons. split_and!; try lia. apply not_elem_of_nil.
Qed.

Lemma tlv_decode_correct_witness :
  elems_ok sample ∧ elems_ascii sample ∧
  decode_json (elems_bytes sample) = Ret sample_json.
Proof.
  destruct sample_ok as [H1 H2]. split; [exact H1|]. split; [exact H2|].
  apply (tlv_decode_correct sample H1 H2).
Defined.

Lemma tlv_roundtrip_witness :
  elems_of sample_json = Some sample ∧
  (b ← encode_new sample_json; decode_json b) = Ret sample_json.
Proof.
  split; [vm_compute; reflexivity|].
  apply (tlv_roundtrip sample_json sample); [vm_compute; reflexivity|apply sample_ok].
Defined.

Lemma tlv_reencode_witness :
  forallb elem_stable sample = true ∧
  (j ← decode_json (elems_bytes sample); encode_new j) = Ret (elems_bytes sample).
Proof.
  split; [vm_compute; reflexivity|].
  apply (tlv_reencode sample); [apply sample_ok|apply sample_ok|vm_compute; reflexivity].
Defined.

Lemma tlv_decode_terminates_witness :
  let s := decode_start TlvReader_new (elems_bytes sample) in
  decode_loop 100 s = decode_loop (length (ds_tlv s)) s ∧ decode_loop 100 s ≠ None.
Proof. apply (tlv_decode_terminates 100). vm_compute. lia. Defined.


(** "é": one UTF-16 unit, two octets, of which the reader keeps one and takes the other for
    the control octet of an element. *)
Lemma string_length_units_witness :
  ∃ b, putString [233] (Some 1) None [] = ([] ++ b, Ret tt) ∧
    decode_step (DS (b ++ [Byte.x18]) 1 [] (Reader [[]] (Some 0%nat))) =
    Ret (DS [Byte.xa9; Byte.x18] 1 [] (Reader [[Entry (Some 1) (Some "string uint8 len"%string) None
           (SVal (JStr [replacement])) None]] (Some 0%nat))).
Proof.
  destruct (string_length_units [233] (Some 1) None (TagContext 1) [] [Byte.x18] 1 [] [[]] (Some 0%nat))
    as (b & H1 & H2 & _).
  - repeat constructor; lia.
  - vm_compute. discriminate.
  - reflexivity.
  - exists b. split; [exact H1|]. rewrite H2. vm_compute. reflexivity.
Defined.

Lemma small_bigint_refused_witness :
  decode_json (Z_byte 0x07 :: le_bytes 8 5)
  = Ret (JArr [JObj (Entry None (Some "uint64"%string) None (JBig 5) None)]) ∧
  encode (JObj (Entry None (Some "uint64"%string) None (JBig 5) None)) []
  = ([], Throw TypeError).
Proof.
  split; [vm_compute; reflexivity|].
  apply (small_bigint_refused None None 5 []). vm_compute. split; discriminate.
Defined.
