(* ===== verification/Aead.v ===== *)
(** * Cryptographic primitives of Node, as interfaces

    The sources call Node's [crypto] and [futoin-hkdf]; neither is part of the
    repository.  A class collects the functions a component uses, a second class
    the documented facts its theorems rely on.  The instances at the end are a
    toy cipher and key derivation that satisfy them. *)
From S2P Require Import Prelude.

(** AES-128-CCM with a 16-byte tag.  [ccm_seal] is [createCipheriv], [setAAD],
    [update], [final] and [getAuthTag]; it throws on a key or nonce of a wrong
    size.  [ccm_open] is the deciphering chain; it throws when a size is wrong or
    the tag does not verify.  [ccm_stream] is the cipher without additional data
    and without reading the tag, as [Crypto.PrivacyEncrypt] uses it. *)
Class Aead : Type := {
  ccm_seal (key nonce aad plain : buffer) : outcome (buffer * buffer);
  ccm_open (key nonce aad enc mic : buffer) : outcome buffer;
  ccm_stream (key plain nonce : buffer) : outcome buffer }.

Definition key_size : Z := 16.
Definition tag_size : Z := 16.
Definition nonce_size : Z := 13.

(** CCM writes the length of the plaintext into the octets that the nonce leaves of a block:
    [2 ^ (8 * (15 - N))] is the limit that Node documents for a nonce of [N] octets. *)
Definition ccm_limit : Z := 2 ^ (8 * (15 - nonce_size)).

Class AeadLaws (A : Aead) : Prop := {
  seal_total key nonce aad plain :
    blen key = key_size → blen nonce = nonce_size → blen plain < ccm_limit →
    ∃ enc mic, ccm_seal key nonce aad plain = Ret (enc, mic);
  seal_length key nonce aad plain enc mic :
    ccm_seal key nonce aad plain = Ret (enc, mic) →
    blen enc = blen plain ∧ blen mic = tag_size;
  open_seal key nonce aad plain enc mic :
    ccm_seal key nonce aad plain = Ret (enc, mic) →
    ccm_open key nonce aad enc mic = Ret plain;
  open_tag_size key nonce aad enc mic plain :
    ccm_open key nonce aad enc mic = Ret plain → blen mic = tag_size }.

(** The stream cipher adds a key stream, which depends on key and nonce only: applied
    twice it gives the text back. *)
Class StreamLaws (A : Aead) : Prop := {
  stream_length key plain nonce c : ccm_stream key plain nonce = Ret c → blen c = blen plain;
  stream_twice key plain nonce c :
    ccm_stream key plain nonce = Ret c → ccm_stream key c nonce = Ret plain }.

(** HKDF with SHA-256, and SHA-256 itself. *)
Class Kdf : Type := {
  hkdf (secret salt info : buffer) (len : Z) : outcome buffer;
  sha256 (msg : buffer) : buffer }.

Class KdfLaws (K : Kdf) : Prop := {
  hkdf_length secret salt info len b :
    0 <= len → hkdf secret salt info len = Ret b → blen b = len }.

(** ** A toy instance

    The "cipher" is the identity and the tag a checksum of everything else. *)
Definition toy_tag (key nonce aad plain : buffer) : buffer :=
  le_bytes 16 (foldr (λ x acc, byte_Z x + 257 * acc) 0 (key ++ nonce ++ aad ++ plain)).

#[global] Arguments toy_tag : simpl never.

Lemma blen_toy_tag key nonce aad plain : blen (toy_tag key nonce aad plain) = tag_size.
Proof. apply blen_le_bytes. Qed.

#[export] Instance toy_aead : Aead := {|
  ccm_seal key nonce aad plain :=
    if (blen key =? key_size) && (blen nonce =? nonce_size) && (blen plain <? ccm_limit)
    then Ret (plain, toy_tag key nonce aad plain) else Throw RangeError;
  ccm_open key nonce aad enc mic :=
    if bool_decide (mic = toy_tag key nonce aad enc) then Ret enc else Throw RangeError;
  ccm_stream key plain nonce := Ret plain |}.

#[export] Instance toy_aead_laws : AeadLaws toy_aead.
Proof.
  split; cbn.
  - intros key nonce aad plain -> -> ->%Z.ltb_lt. rewrite !Z.eqb_refl. cbn [andb]. eauto.
  - intros * H. case_match; [|done]. inv_ret. simplify_eq.
    split; [done|]. apply blen_toy_tag.
  - intros * H. case_match; [|done]. inv_ret. simplify_eq. by rewrite bool_decide_true.
  - intros * H. case_bool_decide; [|done]. subst. apply blen_toy_tag.
Qed.

#[export] Instance toy_stream_laws : StreamLaws toy_aead.
Proof. split; cbn; intros key plain nonce c H; by injection H as <-. Qed.

#[export] Instance toy_kdf : Kdf := {|
  hkdf secret salt info len := Ret (take (Z.to_nat len) (secret ++ salt ++ info
    ++ alloc (Z.to_nat len)));
  sha256 msg := le_bytes 32 (foldr (λ x acc, byte_Z x + 257 * acc) 0 msg) |}.

#[export] Instance toy_kdf_laws : KdfLaws toy_kdf.
Proof.
  split. cbn. intros secret salt info len b Hlen H. inv_ret.
  unfold blen, alloc. rewrite length_take, !length_app, length_replicate. lia.
Qed.
