(* ===== verification/MsgCodec.v ===== *)
(** * Message headers and message encryption (src/message/MsgCodec.js) *)
From S2P Require Import Prelude Aead.

Definition MTU : nat := 1280.

Definition MSG_FLAGS_SRC_PRESENT : Z := 0x04.
Definition MSG_FLAGS_DST_PRESENT : Z := 0x01.
Definition MSG_FLAGS_DST_GROUP : Z := 0x02.

Definition NODE_ID_ANY : Z := 0xFFFFFFFFFFFFFFFF.

(** A bit test used as a condition. *)
Definition has_flag (v mask : Z) : bool := negb (Z.land v mask =? 0).

(** [encodeMessageFlags(dsiz, sFlag, version)] *)
Definition encodeMessageFlags (dsiz sFlag version : Z) : Z :=
  Z.lor (Z.lor (Z.shiftl (Z.land version 0x0F) 4) (Z.shiftl (Z.land sFlag 0x01) 2))
        (Z.land dsiz 0x03).

(** [encodeSecurityFlags(sessionType, cFlag, pFlag, mxFlag)] *)
Definition encodeSecurityFlags (sessionType cFlag pFlag mxFlag : Z) : Z :=
  Z.lor (Z.lor (Z.lor (Z.shiftl (Z.land pFlag 0x01) 7) (Z.shiftl (Z.land cFlag 0x01) 6))
               (Z.shiftl (Z.land mxFlag 0x01) 5))
        (Z.land sessionType 0x03).

(** [encodeExchangeFlags(iFlag, aFlag, rFlag, vFlag, sxFlag)] *)
Definition encodeExchangeFlags (iFlag aFlag rFlag vFlag sxFlag : Z) : Z :=
  Z.lor (Z.lor (Z.lor (Z.lor (Z.shiftl (Z.land vFlag 0x01) 4) (Z.shiftl (Z.land sxFlag 0x01) 3))
                      (Z.shiftl (Z.land rFlag 0x01) 2))
               (Z.shiftl (Z.land aFlag 0x01) 1))
        (Z.land iFlag 0x01).

(** A header field that is only written under a condition: the buffer and the
    offset behind it. *)
Definition write_opt (c : bool) (n : nat) (v : option Z) (buf : buffer) (offset : Z)
    : outcome (buffer * Z) :=
  match v with
  | Some v => if c then buf ← write_uint_le n v buf offset; Ret (buf, offset + Z.of_nat n)
              else Ret (buf, offset)
  | None => Ret (buf, offset)
  end.

(** [encodeHeader(msgFlags, secFlags, sessionId, msgCounter, src, dst)] *)
Definition encodeHeader (msgFlags secFlags sessionId msgCounter : Z) (src dst : option Z)
    : outcome buffer :=
  let buf := alloc MTU in
  buf ← write_uint_le 1 msgFlags buf 0;
  buf ← write_uint_le 2 sessionId buf 1;
  buf ← write_uint_le 1 secFlags buf 3;
  buf ← write_uint_le 4 msgCounter buf 4;
  '(buf, offset) ← write_opt (has_flag msgFlags MSG_FLAGS_SRC_PRESENT) 8 src buf 8;
  '(buf, offset) ← write_opt (has_flag msgFlags MSG_FLAGS_DST_PRESENT) 8 dst buf offset;
  Ret (subarray buf 0 offset).

(** [encodeProtocolHeader(exchangeFlags, exchangeId, opcode, protocolId, vendorId,
    ackMsgCounter)] *)
Definition encodeProtocolHeader (exchangeFlags exchangeId opcode protocolId : Z)
    (vendorId ackMsgCounter : option Z) : outcome buffer :=
  let buf := alloc MTU in
  buf ← write_uint_le 1 exchangeFlags buf 0;
  buf ← write_uint_le 1 opcode buf 1;
  buf ← write_uint_le 2 exchangeId buf 2;
  buf ← write_uint_le 2 protocolId buf 4;
  '(buf, offset) ← write_opt true 2 vendorId buf 6;
  '(buf, offset) ← write_opt true 4 ackMsgCounter buf offset;
  Ret (subarray buf 0 offset).

(** [msg[0] & mask]: the first octet, 0 when the buffer is empty. *)
Definition first_octet (msg : buffer) : Z :=
  match msg with x :: _ => byte_Z x | [] => 0 end.

(** [Buffer.concat(list, n)]: cut or zero-filled to [n] octets. *)
Definition concat_to (n : nat) (b : buffer) : buffer := take n (b ++ alloc n).

(** [getNonce(msg, srcNode)] *)
Definition getNonce (msg : buffer) (srcNode : Z) : outcome buffer :=
  let nonce := subarray msg 3 8 in
  src ← (if has_flag (first_octet msg) MSG_FLAGS_SRC_PRESENT then Ret (subarray msg 8 16)
         else write_uint_le 8 srcNode (alloc 8) 0);
  Ret (concat_to 13 (nonce ++ src)).

(** The size of the cleartext header, as [encrypt] and [decrypt] compute it. *)
Definition header_size (msg : buffer) : Z :=
  let add c n := if has_flag (first_octet msg) c then n else 0 in
  8 + add MSG_FLAGS_SRC_PRESENT 8 + add MSG_FLAGS_DST_PRESENT 8 + add MSG_FLAGS_DST_GROUP 2.

Section encryption.
Context `{Aead}.

(** [encrypt(msg, key)] *)
Definition encrypt (msg key : buffer) : outcome buffer :=
  let headerSize := header_size msg in
  nonce ← getNonce msg 0;
  let aad := subarray msg 0 headerSize in
  let pay := subarray_from msg headerSize in
  '(encrypted, tag) ← ccm_seal key nonce aad pay;
  Ret (aad ++ encrypted ++ tag).

(** [decrypt(msg, key)]; [None] is the [null] it returns when the deciphering
    throws. *)
Definition decrypt (msg key : buffer) : outcome (option buffer) :=
  let headerSize := header_size msg in
  nonce ← getNonce msg 0;
  let aad := subarray msg 0 headerSize in
  let enc := subarray msg headerSize (blen msg - 16) in
  let mic := subarray_from msg (blen msg - 16) in
  match ccm_open key nonce aad enc mic with
  | Ret dmsg => Ret (Some (aad ++ dmsg))
  | Throw _ => Ret None
  end.
End encryption.
