(* ===== verification/Message.v ===== *)
(** * Messages (src/message/Message.js)

    A [Message] wraps the plaintext octets [_buffer] and the encrypted ones.  Its
    accessors read and write the header fields in place; a setter is a function
    from the object to the object or the exception it throws.  The accessors of
    the exchange header go through [Payload], a view of [_buffer] from
    [PayloadOffset] on, so writing through it writes into [_buffer]. *)
From S2P Require Import Prelude Aead MsgCodec.

(** ** Data *)

(** Remote address information, with the transport it came in on. *)
Record PeerInfo : Type := Peer {
  address : string;
  port : Z;
  transport : nat }.

#[export] Instance PeerInfo_eq_dec : EqDecision PeerInfo.
Proof. solve_decision. Defined.

Record Message : Type := Msg {
  _buffer : buffer;
  _encrypted : option buffer;
  _peerInfo : option PeerInfo;
  _hasSource : bool;
  _hasDestination : bool }.

Definition SESSION_ID_UNSECURED : Z := 0x0000.
Definition MESSAGE_HEADER_MIN_SIZE : Z := 8.
Definition MESSAGE_HEADER_CLEARTEXT_SIZE : Z := 4.
Definition EXCHANGE_HEADER_MIN_SIZE : Z := 6.
Definition MESSAGE_NODE_ID_SIZE : nat := 8.
Definition MESSAGE_GROUP_ID_SIZE : nat := 2.
Definition ACK_COUNTER_SIZE : nat := 4.
Definition CRYPTO_AEAD_MIC_LENGTH_BYTES : Z := 16.

Definition DestinationType_Omit : Z := 0.
Definition DestinationType_NodeId : Z := 1.
Definition DestinationType_GroupId : Z := 2.
Definition SourceType_Omit : Z := 0.
Definition SourceType_NodeId : Z := 4.

(** [new Message(buf, enc, peerInfo)]; without [buf], an empty one. *)
Definition Message_new (buf : option buffer) (enc : option buffer) (peer : option PeerInfo)
    : Message :=
  Msg (default (alloc (Z.to_nat (MESSAGE_HEADER_MIN_SIZE + EXCHANGE_HEADER_MIN_SIZE))) buf)
      enc peer false false.

Definition set_buffer (m : Message) (b : buffer) : Message :=
  Msg b (_encrypted m) (_peerInfo m) (_hasSource m) (_hasDestination m).
Definition set_Encrypted (b : option buffer) (m : Message) : Message :=
  Msg (_buffer m) b (_peerInfo m) (_hasSource m) (_hasDestination m).
Definition set_hasSource (m : Message) : Message :=
  Msg (_buffer m) (_encrypted m) (_peerInfo m) true (_hasDestination m).
Definition set_hasDestination (m : Message) : Message :=
  Msg (_buffer m) (_encrypted m) (_peerInfo m) (_hasSource m) true.

Definition Decrypted (m : Message) : buffer := _buffer m.

(** ** The message header *)

Definition MessageFlags (m : Message) : outcome Z := read_uint_le 1 (_buffer m) 0.
Definition SessionId (m : Message) : outcome Z := read_uint_le 2 (_buffer m) 1.
Definition SecurityFlags (m : Message) : outcome Z := read_uint_le 1 (_buffer m) 3.
Definition MessageCounter (m : Message) : outcome Z := read_uint_le 4 (_buffer m) 4.

Definition set_field (n : nat) (off : Z) (v : Z) (m : Message) : outcome Message :=
  set_buffer m <$> write_uint_le n v (_buffer m) off.

Definition set_MessageFlags := set_field 1 0.
Definition set_SessionId := set_field 2 1.
Definition set_SecurityFlags := set_field 1 3.
Definition set_MessageCounter := set_field 4 4.

Definition Version (m : Message) : outcome Z := (λ f, Z.shiftr f 4) <$> MessageFlags m.
Definition Sflag (m : Message) : outcome bool := (λ f, has_flag f 0x04) <$> MessageFlags m.
Definition Dsiz (m : Message) : outcome Z := (λ f, Z.land f 0x03) <$> MessageFlags m.

(** [set Sflag(v)]: [MessageFlags &= 0x04] keeps the old flag instead of
    clearing it, and clears everything else. *)
Definition set_Sflag (v : Z) (m : Message) : outcome Message :=
  f ← MessageFlags m; m ← set_MessageFlags (Z.land f 0x04) m;
  f ← MessageFlags m; set_MessageFlags (Z.lor f (Z.land v 0x04)) m.

(** [set Dsiz(v)]: likewise with the mask 0x03. *)
Definition set_Dsiz (v : Z) (m : Message) : outcome Message :=
  f ← MessageFlags m; m ← set_MessageFlags (Z.land f 0x03) m;
  f ← MessageFlags m; set_MessageFlags (Z.lor f (Z.land v 0x03)) m.

(** [get SourceNodeId()] *)
Definition SourceNodeId (m : Message) : outcome Z :=
  s ← Sflag m;
  if s : bool then read_uint_le 8 (_buffer m) MESSAGE_HEADER_MIN_SIZE else Ret NODE_ID_ANY.

(** Fresh octets inserted at an offset. *)
Definition insert_zeros (b : buffer) (off : Z) (n : nat) : buffer :=
  subarray b 0 off ++ alloc n ++ subarray_from b off.

(** [set SourceNodeId(v)]: nothing without the flag; the field is inserted the
    first time it is set. *)
Definition set_SourceNodeId (v : Z) (m : Message) : outcome Message :=
  s ← Sflag m;
  if s : bool then
    let m := if _hasSource m then m
             else set_hasSource (set_buffer m
                    (insert_zeros (_buffer m) 8 MESSAGE_NODE_ID_SIZE)) in
    set_field 8 MESSAGE_HEADER_MIN_SIZE v m
  else Ret m.

(** The offset behind the source node id. *)
Definition destination_offset (m : Message) : outcome Z :=
  (λ s : bool, MESSAGE_HEADER_MIN_SIZE + if s then Z.of_nat MESSAGE_NODE_ID_SIZE else 0)
  <$> Sflag m.

(** [get DestinationNodeId()]: the test for a group id reads [this.dsiz], which
    does not exist, so a group id is never read. *)
Definition DestinationNodeId (m : Message) : outcome Z :=
  dsiz ← Dsiz m;
  offset ← destination_offset m;
  if dsiz =? 1 then read_uint_le 8 (_buffer m) offset else Ret NODE_ID_ANY.

(** [set DestinationNodeId(v)]: with [Dsiz] 3 there is no buffer to insert, and
    [Buffer.concat] throws. *)
Definition set_DestinationNodeId (v : Z) (m : Message) : outcome Message :=
  offset ← destination_offset m;
  dsiz ← Dsiz m;
  if dsiz =? 0 then Ret m
  else
    m ← (if _hasDestination m then Ret m
         else if dsiz =? 1 then
           Ret (set_hasDestination (set_buffer m
                  (insert_zeros (_buffer m) offset MESSAGE_NODE_ID_SIZE)))
         else if dsiz =? 2 then
           Ret (set_hasDestination (set_buffer m
                  (insert_zeros (_buffer m) offset MESSAGE_GROUP_ID_SIZE)))
         else Throw TypeError);
    if dsiz =? 1 then set_field 8 offset v m
    else if dsiz =? 2 then set_field 2 offset v m
    else Ret m.

Definition Pflag (m : Message) : outcome bool := (λ f, has_flag f 0x80) <$> SecurityFlags m.
Definition Cflag (m : Message) : outcome bool := (λ f, has_flag f 0x40) <$> SecurityFlags m.
Definition Mxflag (m : Message) : outcome bool := (λ f, has_flag f 0x20) <$> SecurityFlags m.
Definition SessionType (m : Message) : outcome Z := (λ f, Z.land f 0x03) <$> SecurityFlags m.

(** [get PayloadOffset()] *)
Definition PayloadOffset (m : Message) : outcome Z :=
  s ← Sflag m;
  dsiz ← Dsiz m;
  let offset := MESSAGE_HEADER_MIN_SIZE + if s : bool then 8 else 0 in
  Ret (if dsiz =? 1 then offset + 8 else if dsiz =? 2 then offset + 2 else offset).

Definition Payload (m : Message) : outcome buffer :=
  subarray_from (_buffer m) <$> PayloadOffset m.

(** ** The exchange header *)

Definition payload_field (n : nat) (off : Z) (m : Message) : outcome Z :=
  p ← Payload m; read_uint_le n p off.

Definition ExchangeFlags := payload_field 1 0.
Definition ProtocolOpcode := payload_field 1 1.
Definition ExchangeId := payload_field 2 2.
Definition ProtocolId := payload_field 2 4.

(** A write into the view is a write into the buffer behind it. *)
Definition set_payload_field (n : nat) (off : Z) (v : Z) (m : Message) : outcome Message :=
  offset ← PayloadOffset m;
  p ← write_uint_le n v (subarray_from (_buffer m) offset) off;
  Ret (set_buffer m (subarray (_buffer m) 0 offset ++ p)).

Definition set_ExchangeFlags := set_payload_field 1 0.
Definition set_ProtocolOpcode := set_payload_field 1 1.
Definition set_ExchangeId := set_payload_field 2 2.
Definition set_ProtocolId := set_payload_field 2 4.

Definition exchange_flag (mask : Z) (m : Message) : outcome bool :=
  (λ f, has_flag f mask) <$> ExchangeFlags m.

Definition Iflag := exchange_flag 0x01.
Definition Aflag := exchange_flag 0x02.
Definition Rflag := exchange_flag 0x04.
Definition Sxflag := exchange_flag 0x08.
Definition Vflag := exchange_flag 0x10.

(** [ExchangeFlags |= mask] or [ExchangeFlags &= ~mask] *)
Definition set_exchange_flag (mask : Z) (v : bool) (m : Message) : outcome Message :=
  f ← ExchangeFlags m;
  set_ExchangeFlags (if v then Z.lor f mask else Z.land f (Z.lnot mask)) m.

Definition set_Iflag := set_exchange_flag 0x01.
Definition set_Aflag := set_exchange_flag 0x02.
Definition set_Rflag := set_exchange_flag 0x04.

(** [set AckCounter(v)]: inserted behind the exchange header, at every call. *)
Definition set_AckCounter (v : Z) (m : Message) : outcome Message :=
  payload ← PayloadOffset m;
  let offset := payload + EXCHANGE_HEADER_MIN_SIZE in
  a ← Aflag m;
  if a : bool then
    set_field 4 offset v (set_buffer m (insert_zeros (_buffer m) offset ACK_COUNTER_SIZE))
  else Ret m.

Definition isUnencrypted (m : Message) : outcome bool :=
  t ← SessionType m;
  if t =? 0 then (λ id, id =? SESSION_ID_UNSECURED) <$> SessionId m else Ret false.

Definition isEncrypted (m : Message) : outcome bool := negb <$> isUnencrypted m.

(** [get AppPayload()] *)
Definition AppPayload (m : Message) : outcome buffer :=
  a ← Aflag m;
  let exchangeHeaderSize :=
    EXCHANGE_HEADER_MIN_SIZE + if a : bool then Z.of_nat ACK_COUNTER_SIZE else 0 in
  offset ← PayloadOffset m;
  Ret (subarray_from (_buffer m) (offset + exchangeHeaderSize)).

Definition set_AppPayload (v : buffer) (m : Message) : Message :=
  set_buffer m (_buffer m ++ v).

(** ** Nonces and encryption *)

Definition Mic (m : Message) : outcome buffer :=
  match _encrypted m with
  | Some e => Ret (subarray e (blen e - CRYPTO_AEAD_MIC_LENGTH_BYTES) (blen e))
  | None => Throw TypeError
  end.

(** [get Nonce()] *)
Definition Nonce (m : Message) : outcome buffer :=
  src ← SourceNodeId m;
  getNonce (_buffer m) (if src =? NODE_ID_ANY then 0 else src).

(** [buf.fill(pattern, offset)] over [n] octets; an empty pattern throws. *)
Definition fill (n : nat) (pattern : buffer) : outcome buffer :=
  match pattern with
  | [] => Throw TypeError
  | _ => Ret (take n (mjoin (replicate n pattern)))
  end.

(** [get PrivacyNonce()] *)
Definition PrivacyNonce (m : Message) : outcome buffer :=
  sessionId ← SessionId m;
  mic ← Mic m;
  let micFragment := subarray mic (CRYPTO_AEAD_MIC_LENGTH_BYTES - 11)
                                  CRYPTO_AEAD_MIC_LENGTH_BYTES in
  tail ← fill 11 micFragment;
  Ret (be_bytes 2 sessionId ++ tail).

Section message_encryption.
Context `{Aead}.

(** [encrypt(key, apply)] *)
Definition Message_encrypt (key : buffer) (apply : bool) (m : Message)
    : outcome (Message * option buffer) :=
  u ← isUnencrypted m;
  if u : bool then Ret (m, None)
  else buf ← encrypt (_buffer m) key;
       Ret (if apply then set_Encrypted (Some buf) m else m, Some buf).

(** [decrypt(key, apply)] *)
Definition Message_decrypt (key : buffer) (apply : bool) (m : Message)
    : outcome (Message * option buffer) :=
  u ← isUnencrypted m;
  if u : bool then Ret (m, None)
  else match _encrypted m with
       | None => Throw TypeError
       | Some e =>
           dmsg ← decrypt e key;
           match dmsg with
           | None => Ret (m, None)
           | Some d => Ret (if apply then set_buffer m d else m, Some d)
           end
       end.

(** The header with its part from octet 4 to [PayloadOffset] run through the
    stream cipher: the common body of [privacyEncrypt] and [privacyDecrypt]. *)
Definition privacy_mask (privacyKey : buffer) (m : Message) (e : buffer) : outcome buffer :=
  offsetEnd ← PayloadOffset m;
  let text := subarray e MESSAGE_HEADER_CLEARTEXT_SIZE offsetEnd in
  nonce ← PrivacyNonce m;
  header ← ccm_stream privacyKey text nonce;
  Ret (subarray e 0 MESSAGE_HEADER_CLEARTEXT_SIZE ++ header ++ subarray_from e offsetEnd).

(** [privacyEncrypt(privacyKey, apply)] *)
Definition privacyEncrypt (privacyKey : buffer) (apply : bool) (m : Message)
    : outcome (Message * option buffer) :=
  p ← Pflag m;
  if p : bool then
    match _encrypted m with
    | None => Throw TypeError
    | Some e =>
        b ← privacy_mask privacyKey m e;
        Ret (if apply then set_Encrypted (Some b) m else m, Some b)
    end
  else Ret (m, _encrypted m).

(** [privacyDecrypt(privacyKey, apply)] also replaces the plaintext buffer. *)
Definition privacyDecrypt (privacyKey : buffer) (apply : bool) (m : Message)
    : outcome (Message * option buffer) :=
  p ← Pflag m;
  if p : bool then
    match _encrypted m with
    | None => Throw TypeError
    | Some e =>
        b ← privacy_mask privacyKey m e;
        Ret (if apply then set_buffer (set_Encrypted (Some b) m) b else m, Some b)
    end
  else Ret (m, _encrypted m).
End message_encryption.
