(* ===== verification/MessageTheorems.v ===== *)
(** * Theorems on messages

    Headers written by [encodeHeader] and [encodeProtocolHeader] read back through
    the accessors of [Message]; setters change the field they name and no other;
    [decrypt] inverts [encrypt], and the nonce identifies the counter and source. *)
From S2P Require Import Prelude Aead MsgCodec Message.

(** ** Lemmas: writing behind a prefix *)

Definition fits (n : nat) (v : Z) : Prop := 0 <= v < 256 ^ Z.of_nat n.

Lemma write_at n v pre m off :
  fits n v → off = blen pre → (n <= m)%nat →
  write_uint_le n v (pre ++ alloc m) off = Ret ((pre ++ le_bytes n v) ++ alloc (m - n)).
Proof.
  unfold fits. intros Hv -> Hm. unfold write_uint_le.
  destruct (Z.leb_spec 0 v); [|lia]. destruct (Z.ltb_spec v (256 ^ Z.of_nat n)); [|lia].
  cbn [andb]. replace (alloc m) with (alloc n ++ alloc (m - n)).
  - rewrite store_le_app by apply length_replicate. by rewrite app_assoc.
  - unfold alloc. rewrite <- replicate_add. f_equal. lia.
Qed.

(** The octets an optional field adds. *)
Definition opt_bytes (c : bool) (n : nat) (v : option Z) : buffer :=
  match v with Some v => if c then le_bytes n v else [] | None => [] end.

Definition opt_fits (n : nat) (v : option Z) : Prop :=
  match v with Some v => fits n v | None => True end.

Lemma write_opt_at c n v pre m off :
  opt_fits n v → off = blen pre → (n <= m)%nat →
  ∃ m', write_opt c n v (pre ++ alloc m) off
        = Ret ((pre ++ opt_bytes c n v) ++ alloc m', off + blen (opt_bytes c n v)) ∧
        (m - n <= m')%nat.
Proof.
  intros Hv -> Hm. unfold write_opt, opt_bytes. destruct v as [v|].
  - destruct c.
    + rewrite write_at by done. exists (m - n)%nat. cbn [mbind outcome_bind].
      by rewrite blen_le_bytes.
    + exists m. rewrite app_nil_r, Z.add_0_r. split; [done|lia].
  - exists m. rewrite app_nil_r, Z.add_0_r. split; [done|lia].
Qed.

Lemma subarray_prefix pre m off : off = blen pre → subarray (pre ++ alloc m) 0 off = pre.
Proof. intros ->. apply subarray_app_l. Qed.

(** ** The layout of the headers *)

Definition header_bytes (msgFlags secFlags sessionId msgCounter : Z) (src dst : option Z)
    : buffer :=
  le_bytes 1 msgFlags ++ le_bytes 2 sessionId ++ le_bytes 1 secFlags ++
  le_bytes 4 msgCounter ++
  opt_bytes (has_flag msgFlags MSG_FLAGS_SRC_PRESENT) 8 src ++
  opt_bytes (has_flag msgFlags MSG_FLAGS_DST_PRESENT) 8 dst.

Lemma encodeHeader_layout msgFlags secFlags sessionId msgCounter src dst :
  fits 1 msgFlags → fits 1 secFlags → fits 2 sessionId → fits 4 msgCounter →
  opt_fits 8 src → opt_fits 8 dst →
  encodeHeader msgFlags secFlags sessionId msgCounter src dst
  = Ret (header_bytes msgFlags secFlags sessionId msgCounter src dst).
Proof.
  intros Hf Hs Hid Hc Hsrc Hdst. unfold encodeHeader, header_bytes.
  change (alloc MTU) with ([] ++ alloc MTU).
  assert (MTU = 1280)%nat as HM by reflexivity. generalize dependent MTU. intros M HM.
  rewrite write_at by (first [done|lia]). cbn [mbind outcome_bind].
  rewrite write_at by (first [done|lia]). cbn [mbind outcome_bind].
  rewrite write_at by (first [done|lia]). cbn [mbind outcome_bind].
  rewrite write_at by (first [done|lia]). cbn [mbind outcome_bind].
  destruct (write_opt_at (has_flag msgFlags MSG_FLAGS_SRC_PRESENT) 8 src
    (((([] ++ le_bytes 1 msgFlags) ++ le_bytes 2 sessionId) ++ le_bytes 1 secFlags)
       ++ le_bytes 4 msgCounter) (M - 1 - 2 - 1 - 4) 8) as (m1 & -> & Hm1); [done|done|lia|].
  cbn [mbind outcome_bind].
  edestruct (write_opt_at (has_flag msgFlags MSG_FLAGS_DST_PRESENT) 8 dst) as (m2 & -> & Hm2);
    [done| |lia|].
  { by rewrite (blen_app _ (opt_bytes _ _ src)). }
  cbn [mbind outcome_bind]. rewrite subarray_prefix.
  - by rewrite !app_nil_l, <- !app_assoc.
  - rewrite (blen_app _ (opt_bytes _ _ dst)), (blen_app _ (opt_bytes _ _ src)). done.
Qed.

Lemma encodeProtocolHeader_layout exchangeFlags exchangeId opcode protocolId vendorId ack :
  fits 1 exchangeFlags → fits 1 opcode → fits 2 exchangeId → fits 2 protocolId →
  opt_fits 2 vendorId → opt_fits 4 ack →
  encodeProtocolHeader exchangeFlags exchangeId opcode protocolId vendorId ack
  = Ret (le_bytes 1 exchangeFlags ++ le_bytes 1 opcode ++ le_bytes 2 exchangeId ++
         le_bytes 2 protocolId ++ opt_bytes true 2 vendorId ++ opt_bytes true 4 ack).
Proof.
  intros Hf Ho Hx Hp Hv Ha. unfold encodeProtocolHeader.
  change (alloc MTU) with ([] ++ alloc MTU).
  assert (MTU = 1280)%nat as HM by reflexivity. generalize dependent MTU. intros M HM.
  rewrite write_at by (first [done|lia]). cbn [mbind outcome_bind].
  rewrite write_at by (first [done|lia]). cbn [mbind outcome_bind].
  rewrite write_at by (first [done|lia]). cbn [mbind outcome_bind].
  rewrite write_at by (first [done|lia]). cbn [mbind outcome_bind].
  destruct (write_opt_at true 2 vendorId
    (((([] ++ le_bytes 1 exchangeFlags) ++ le_bytes 1 opcode) ++ le_bytes 2 exchangeId)
       ++ le_bytes 2 protocolId) (M - 1 - 1 - 2 - 2) 6) as (m1 & -> & Hm1); [done|done|lia|].
  cbn [mbind outcome_bind].
  edestruct (write_opt_at true 4 ack) as (m2 & -> & Hm2); [done| |lia|].
  { by rewrite (blen_app _ (opt_bytes _ _ vendorId)). }
  cbn [mbind outcome_bind]. rewrite subarray_prefix.
  - by rewrite !app_nil_l, <- !app_assoc.
  - rewrite (blen_app _ (opt_bytes _ _ ack)), (blen_app _ (opt_bytes _ _ vendorId)). done.
Qed.

(** ** Lemmas: reading a buffer of known layout *)

Lemma read_at n v pre post off :
  fits n v → off = blen pre → read_uint_le n (pre ++ le_bytes n v ++ post) off = Ret v.
Proof. intros Hv ->. by apply read_uint_le_app. Qed.

Section header.
Context (f sid sec ctr : Z) (tail : buffer) (m : Message).
Hypothesis Hbuf : _buffer m = le_bytes 1 f ++ le_bytes 2 sid ++ le_bytes 1 sec
                              ++ le_bytes 4 ctr ++ tail.
Hypothesis Hf : fits 1 f.
Hypothesis Hsec : fits 1 sec.
Hypothesis Hsid : fits 2 sid.
Hypothesis Hctr : fits 4 ctr.

Lemma header_flags : MessageFlags m = Ret f.
Proof. unfold MessageFlags. rewrite Hbuf. by apply (read_at 1 f []). Qed.

Lemma header_session : SessionId m = Ret sid.
Proof. unfold SessionId. rewrite Hbuf. by apply (read_at 2 sid (le_bytes 1 f)). Qed.

Lemma header_security : SecurityFlags m = Ret sec.
Proof.
  unfold SecurityFlags. rewrite Hbuf, (app_assoc (le_bytes 1 f)).
  by apply (read_at 1 sec (le_bytes 1 f ++ le_bytes 2 sid)).
Qed.

Lemma header_counter : MessageCounter m = Ret ctr.
Proof.
  unfold MessageCounter. rewrite Hbuf, (app_assoc (le_bytes 1 f)), (app_assoc _ (le_bytes 1 sec)).
  by apply (read_at 4 ctr ((le_bytes 1 f ++ le_bytes 2 sid) ++ le_bytes 1 sec)).
Qed.

Lemma header_sflag : Sflag m = Ret (has_flag f 0x04).
Proof. unfold Sflag. by rewrite header_flags. Qed.

Lemma header_dsiz : Dsiz m = Ret (Z.land f 0x03).
Proof. unfold Dsiz. by rewrite header_flags. Qed.

Definition fixed_header : buffer :=
  le_bytes 1 f ++ le_bytes 2 sid ++ le_bytes 1 sec ++ le_bytes 4 ctr.

Lemma header_assoc : _buffer m = fixed_header ++ tail.
Proof. rewrite Hbuf. unfold fixed_header. by rewrite <- !app_assoc. Qed.

Lemma header_source s post :
  tail = opt_bytes (has_flag f 0x04) 8 (Some s) ++ post → fits 8 s →
  SourceNodeId m = Ret (if has_flag f 0x04 then s else NODE_ID_ANY).
Proof.
  intros Ht Hs. unfold SourceNodeId. rewrite header_sflag. cbn [mbind outcome_bind].
  unfold opt_bytes in Ht. destruct (has_flag f 0x04); [|done].
  rewrite header_assoc, Ht. by apply read_at.
Qed.

Lemma header_payload_offset :
  Z.land f 0x03 ≠ 3 →
  PayloadOffset m = Ret (8 + (if has_flag f 0x04 then 8 else 0)
                           + (if Z.land f 0x03 =? 1 then 8
                              else if Z.land f 0x03 =? 2 then 2 else 0)).
Proof.
  intros Hd. unfold PayloadOffset. rewrite header_sflag, header_dsiz.
  cbn [mbind outcome_bind]. change MESSAGE_HEADER_MIN_SIZE with 8. f_equal.
  zcases; lia.
Qed.
End header.

(** ** Lemmas: setting a field *)

Lemma store_read_same n v b off b' :
  fits n v → store_le n v b off = Ret b' → read_uint_le n b' off = Ret v.
Proof.
  intros Hv (Hoff & Hlen & ->)%store_le_ret. unfold splice, blen in *.
  rewrite length_le_bytes. replace off with (blen (take (Z.to_nat off) b)) at 3.
  - by apply read_uint_le_app.
  - unfold blen. rewrite length_take. lia.
Qed.

Lemma store_read_other n v b off b' k off' :
  store_le n v b off = Ret b' → 0 <= off' →
  off' + Z.of_nat k <= off ∨ off + Z.of_nat n <= off' →
  read_uint_le k b' off' = read_uint_le k b off'.
Proof.
  intros Hs Hoff' Hd. pose proof (store_le_length _ _ _ _ _ Hs) as Hl.
  apply store_le_ret in Hs as (Hoff & Hlen & ->). unfold read_uint_le, blen in *.
  rewrite Hl. destruct (_ && _) eqn:E; [|done]. zbool. do 2 f_equal.
  unfold splice in *. rewrite length_le_bytes in *. destruct Hd.
  - rewrite drop_app_le by (rewrite length_take; lia).
    rewrite take_app_le by (rewrite length_drop, length_take; lia).
    rewrite <- (take_drop (Z.to_nat off) b) at 2.
    rewrite drop_app_le by (rewrite length_take; lia).
    by rewrite take_app_le by (rewrite length_drop, length_take; lia).
  - rewrite app_assoc, drop_app_ge by (rewrite length_app, length_take, length_le_bytes; lia).
    rewrite length_app, length_take, length_le_bytes, drop_drop. do 2 f_equal. lia.
Qed.

(** The four fields of the fixed header: width and offset. *)
Definition header_field (n : nat) (off : Z) : Prop :=
  (n, off) ∈ [(1%nat, 0); (2%nat, 1); (1%nat, 3); (4%nat, 4)].

Lemma header_fields_disjoint n off k off' :
  header_field n off → header_field k off' → (n, off) ≠ (k, off') →
  0 <= off' ∧ (off' + Z.of_nat k <= off ∨ off + Z.of_nat n <= off').
Proof.
  unfold header_field. rewrite !elem_of_cons, !elem_of_nil.
  intros H1 H2 Hne. naive_solver lia.
Qed.

(** ** Lemmas: the nonce *)

Lemma concat_to_ge n b : (n <= length b)%nat → concat_to n b = take n b.
Proof. intros H. unfold concat_to. by rewrite take_app_le. Qed.

Lemma length_concat_to n b : length (concat_to n b) = n.
Proof.
  unfold concat_to, alloc. rewrite length_take, length_app, length_replicate. lia.
Qed.

Lemma getNonce_length msg src nonce : getNonce msg src = Ret nonce → blen nonce = 13.
Proof.
  unfold getNonce, blen. intros H. apply outcome_bind_Ret in H as (b & _ & H). inv_ret.
  by rewrite length_concat_to.
Qed.

Lemma getNonce_total msg src : fits 8 src → ∃ nonce, getNonce msg src = Ret nonce.
Proof.
  intros Hs. unfold getNonce. destruct (has_flag _ _); cbn; eauto.
  unfold write_uint_le. destruct Hs as [? ?].
  destruct (Z.leb_spec 0 src); [|lia].
  destruct (Z.ltb_spec src (256 ^ Z.of_nat 8)); [|lia]. cbn. eauto.
Qed.

(** A slice that ends before [a] does is the same whatever follows. *)
Lemma subarray_in_prefix a x i j :
  0 <= i → 0 <= j <= blen a → subarray (a ++ x) i j = subarray a i j.
Proof.
  intros Hi Hj. rewrite !subarray_nonneg by lia. unfold blen in *.
  destruct (decide (Z.to_nat i <= length a)%nat).
  - rewrite drop_app_le by lia. rewrite take_app_le; [done|]. rewrite length_drop. lia.
  - replace (Z.to_nat j - Z.to_nat i)%nat with 0%nat by lia. done.
Qed.

Lemma header_size_ge msg : 8 <= header_size msg.
Proof. unfold header_size. repeat case_match; lia. Qed.

Lemma header_size_src msg :
  has_flag (first_octet msg) MSG_FLAGS_SRC_PRESENT = true → 16 <= header_size msg.
Proof. unfold header_size. intros ->. repeat case_match; lia. Qed.

Lemma first_octet_app a x : 0 < blen a → first_octet (a ++ x) = first_octet a.
Proof. by destruct a. Qed.

(** The nonce and the header size are functions of the header octets. *)
Lemma getNonce_prefix a x y :
  header_size a <= blen a → getNonce (a ++ x) 0 = getNonce (a ++ y) 0.
Proof.
  intros Ha. pose proof (header_size_ge a) as H8. unfold getNonce.
  rewrite !first_octet_app by lia. rewrite !(subarray_in_prefix a _ 3 8) by lia.
  destruct (has_flag (first_octet a) MSG_FLAGS_SRC_PRESENT) eqn:E; [|done].
  apply header_size_src in E. by rewrite !(subarray_in_prefix a _ 8 16) by lia.
Qed.

Lemma header_size_prefix a x : 0 < blen a → header_size (a ++ x) = header_size a.
Proof. intros H. unfold header_size. by rewrite first_octet_app. Qed.

Lemma blen_subarray_prefix b n : 0 <= n <= blen b → blen (subarray b 0 n) = n.
Proof.
  intros H. rewrite subarray_nonneg by lia. unfold blen in *.
  rewrite length_take, drop_0. lia.
Qed.

Section encryption.
Context `{HA : Aead} {HL : AeadLaws HA}.

(** What [decrypt] cuts an encrypted message into. *)
Lemma decrypt_parts aad enc tag key :
  header_size aad = blen aad → blen tag = 16 →
  decrypt (aad ++ enc ++ tag) key =
  (nonce ← getNonce (aad ++ enc ++ tag) 0;
   match ccm_open key nonce aad enc tag with
   | Ret dmsg => Ret (Some (aad ++ dmsg))
   | Throw _ => Ret None
   end).
Proof.
  intros Ha Ht. pose proof (header_size_ge aad). pose proof (blen_nonneg enc).
  unfold decrypt. rewrite header_size_prefix by lia. rewrite Ha.
  rewrite subarray_app_l. rewrite !blen_app, Ht.
  replace (blen aad + (blen enc + 16) - 16) with (blen aad + blen enc) by lia.
  rewrite subarray_app_mid. rewrite (app_assoc aad).
  by rewrite (subarray_from_prefix (blen aad + blen enc) (aad ++ enc) tag) by (by rewrite blen_app).
Qed.

(** Encrypting a message whose header is complete *)
Lemma encrypt_parts msg key b :
  header_size msg <= blen msg → encrypt msg key = Ret b →
  ∃ nonce enc tag,
    let aad := subarray msg 0 (header_size msg) in
    let pay := subarray_from msg (header_size msg) in
    getNonce msg 0 = Ret nonce ∧ ccm_seal key nonce aad pay = Ret (enc, tag) ∧
    b = aad ++ enc ++ tag.
Proof.
  intros Hm He. unfold encrypt in He.
  apply outcome_bind_Ret in He as (nonce & Hn & He).
  apply outcome_bind_Ret in He as ([enc tag] & Hs & He). inv_ret.
  by exists nonce, enc, tag.
Qed.

(** It succeeds with a key of the right size, for a message within the cipher's limit. *)
Lemma encrypt_total msg key :
  header_size msg <= blen msg → blen key = key_size → blen msg - header_size msg < ccm_limit →
  ∃ b, encrypt msg key = Ret b.
Proof.
  intros Hm Hk Hl. destruct (getNonce_total msg 0) as [nonce Hn]; [done|].
  pose proof (header_size_ge msg).
  destruct (seal_total key nonce (subarray msg 0 (header_size msg))
              (subarray_from msg (header_size msg))) as (enc & tag & Hs).
  - done.
  - by eapply getNonce_length.
  - rewrite subarray_from_nonneg by lia. unfold blen in *. rewrite length_drop. lia.
  - eexists. unfold encrypt. rewrite Hn. cbn [mbind outcome_bind]. by rewrite Hs.
Qed.

(** What was encrypted is decrypted. *)
Lemma decrypt_encrypt msg key b :
  header_size msg <= blen msg → encrypt msg key = Ret b →
  decrypt b key = Ret (Some msg) ∧ blen b = blen msg + 16 ∧
  subarray b 0 (header_size msg) = subarray msg 0 (header_size msg).
Proof.
  intros Hm He. destruct (encrypt_parts msg key b Hm He) as (nonce & enc & tag & Hn & Hs & ->).
  cbn zeta in *. pose proof (header_size_ge msg) as H8.
  pose proof (subarray_split msg (header_size msg)) as Hsplit.
  pose proof (blen_subarray_prefix msg (header_size msg)) as Hl.
  set (aad := subarray msg 0 (header_size msg)) in *.
  set (pay := subarray_from msg (header_size msg)) in *.
  assert (blen aad = header_size msg) as Hla by (apply Hl; lia).
  assert (aad ++ pay = msg) as Hmsg by (apply Hsplit; lia).
  destruct (seal_length _ _ _ _ _ _ Hs) as [Hle Hlt].
  assert (header_size aad = blen aad) as Hha.
  { rewrite Hla. transitivity (header_size (aad ++ pay)); [by rewrite header_size_prefix by lia|].
    by rewrite Hmsg. }
  split_and!.
  - rewrite decrypt_parts by done.
    rewrite (getNonce_prefix aad (enc ++ tag) pay) by lia. rewrite Hmsg, Hn.
    cbn [mbind outcome_bind]. rewrite (open_seal _ _ _ _ _ _ Hs). by rewrite Hmsg.
  - rewrite <- Hmsg, !blen_app, Hle, Hlt. unfold tag_size. lia.
  - rewrite <- Hla. by rewrite subarray_app_l.
Qed.
End encryption.

(** ** Lemmas: flags, by enumeration *)

Definition bits (n : Z) : list Z := seqZ 0 n.

Lemma in_bits n v : 0 <= v < n → In v (bits n).
Proof. intros H. apply list_elem_of_In, elem_of_seqZ. lia. Qed.

Ltac enumerate H v :=
  rewrite forallb_forall in H; specialize (H v ltac:(apply in_bits; lia)); cbv beta in H.

(** Each flag octet against the fields it is made of, on all of their values. *)
Lemma message_flags_all :
  forallb (λ d, forallb (λ s, forallb (λ v,
    let mf := encodeMessageFlags d s v in
    bool_decide (0 <= mf < 256 ^ Z.of_nat 1 ∧ Z.shiftr mf 4 = v ∧
                 has_flag mf 0x04 = (s =? 1) ∧ Z.land mf 0x03 = d))
  (bits 16)) (bits 2)) (bits 4) = true.
Proof. vm_compute. reflexivity. Qed.

Lemma security_flags_all :
  forallb (λ t, forallb (λ c, forallb (λ p, forallb (λ mx,
    let sf := encodeSecurityFlags t c p mx in
    bool_decide (0 <= sf < 256 ^ Z.of_nat 1 ∧ Z.land sf 0x03 = t ∧
                 has_flag sf 0x80 = (p =? 1) ∧ has_flag sf 0x40 = (c =? 1) ∧
                 has_flag sf 0x20 = (mx =? 1)))
  (bits 2)) (bits 2)) (bits 2)) (bits 4) = true.
Proof. vm_compute. reflexivity. Qed.

Lemma exchange_flags_all :
  forallb (λ i, forallb (λ a, forallb (λ r, forallb (λ vf, forallb (λ sx,
    let ef := encodeExchangeFlags i a r vf sx in
    bool_decide (0 <= ef < 256 ^ Z.of_nat 1 ∧ has_flag ef 0x01 = (i =? 1) ∧
                 has_flag ef 0x02 = (a =? 1) ∧ has_flag ef 0x04 = (r =? 1) ∧
                 has_flag ef 0x08 = (sx =? 1) ∧ has_flag ef 0x10 = (vf =? 1)))
  (bits 2)) (bits 2)) (bits 2)) (bits 2)) (bits 2) = true.
Proof. vm_compute. reflexivity. Qed.

Lemma flags_low f :
  0 <= f < 256 → has_flag f 0x02 = false →
  Z.land f 3 = if has_flag f 0x01 then 1 else 0.
Proof.
  intros Hf H2.
  assert (forallb (λ f, has_flag f 0x02 ||
    (Z.land f 3 =? if has_flag f 0x01 then 1 else 0)) (bits 256) = true) as H
    by (vm_compute; reflexivity).
  enumerate H f. rewrite H2 in H. cbn [orb] in H. by apply Z.eqb_eq.
Qed.

Lemma has_flag_payload f :
  0 <= f < 256 →
  (if has_flag f 0x01 then 8 else 0) + (if has_flag f 0x02 then 2 else 0) =
  (if Z.land f 3 =? 1 then 8 else if Z.land f 3 =? 2 then 2 else 0)
  + (if Z.land f 3 =? 3 then 10 else 0).
Proof.
  intros Hf.
  assert (forallb (λ f,
    (if has_flag f 0x01 then 8 else 0) + (if has_flag f 0x02 then 2 else 0) =?
    (if Z.land f 3 =? 1 then 8 else if Z.land f 3 =? 2 then 2 else 0)
    + (if Z.land f 3 =? 3 then 10 else 0)) (bits 256) = true) as H
    by (vm_compute; reflexivity).
  enumerate H f. by apply Z.eqb_eq.
Qed.

Lemma le_bytes_inj n v w : fits n v → fits n w → le_bytes n v = le_bytes n w → v = w.
Proof.
  intros Hv Hw H. rewrite <- (le_Z_le_bytes_small n v), <- (le_Z_le_bytes_small n w) by done.
  by rewrite H.
Qed.

Lemma le_bytes_app_inj n v w b1 b2 :
  fits n v → fits n w → le_bytes n v ++ b1 = le_bytes n w ++ b2 → v = w ∧ b1 = b2.
Proof.
  intros Hv Hw H. apply app_inj_1 in H as [H1 H2]; [|by rewrite !length_le_bytes].
  split; [by eapply le_bytes_inj|done].
Qed.

(** The first octet of a buffer that starts with the flags. *)
Lemma first_octet_flags f tail : fits 1 f → first_octet (le_bytes 1 f ++ tail) = f.
Proof. intros Hf. cbn. by apply byte_Z_small. Qed.

Lemma read_first b : 0 < blen b → read_uint_le 1 b 0 = Ret (first_octet b).
Proof.
  intros H. unfold read_uint_le. destruct b as [|x b]; [done|].
  pose proof (blen_nonneg b). rewrite blen_cons.
  destruct (Z.leb_spec (0 + Z.of_nat 1) (1 + blen b)); [|lia].
  change (Ret (byte_Z x + 256 * 0) = Ret (byte_Z x)). f_equal. lia.
Qed.

(** The nonce of a message of known header. *)
Lemma nonce_layout f sid sec ctr src tail :
  fits 1 f → opt_fits 8 (Some src) →
  getNonce (le_bytes 1 f ++ le_bytes 2 sid ++ le_bytes 1 sec ++ le_bytes 4 ctr
            ++ opt_bytes (has_flag f MSG_FLAGS_SRC_PRESENT) 8 (Some src) ++ tail) 0
  = Ret (le_bytes 1 sec ++ le_bytes 4 ctr
         ++ le_bytes 8 (if has_flag f MSG_FLAGS_SRC_PRESENT then src else 0)).
Proof.
  intros Hf Hs. unfold getNonce. rewrite first_octet_flags by done.
  set (rest := opt_bytes _ _ _ ++ tail).
  assert (subarray (le_bytes 1 f ++ le_bytes 2 sid ++ le_bytes 1 sec ++ le_bytes 4 ctr ++ rest)
            3 8 = le_bytes 1 sec ++ le_bytes 4 ctr) as ->.
  { rewrite (app_assoc (le_bytes 1 sec)), (app_assoc (le_bytes 1 f)).
    by apply (subarray_app_mid (le_bytes 1 f ++ le_bytes 2 sid) (le_bytes 1 sec ++ le_bytes 4 ctr)). }
  destruct (has_flag f MSG_FLAGS_SRC_PRESENT); cbn [mbind outcome_bind].
  - subst rest. unfold opt_bytes.
    assert (subarray (le_bytes 1 f ++ le_bytes 2 sid ++ le_bytes 1 sec ++ le_bytes 4 ctr
              ++ le_bytes 8 src ++ tail) 8 16 = le_bytes 8 src) as ->.
    { rewrite (app_assoc (le_bytes 1 sec)), (app_assoc (le_bytes 2 sid)), (app_assoc (le_bytes 1 f)).
      by apply (subarray_app_mid (le_bytes 1 f ++ le_bytes 2 sid ++ le_bytes 1 sec ++ le_bytes 4 ctr)
                  (le_bytes 8 src)). }
    by f_equal.
  - f_equal.
Qed.

(** ** Theorems *)

(** A header in front of a payload, read back. *)
Lemma header_reads (f sec sid ctr src dst : Z) (rest : buffer) :
  fits 1 f → fits 1 sec → fits 2 sid → fits 4 ctr → fits 8 src → fits 8 dst →
  has_flag f MSG_FLAGS_DST_GROUP = false →
  ∃ b, encodeHeader f sec sid ctr (Some src) (Some dst) = Ret b ∧
    let m := Message_new (Some (b ++ rest)) None None in
    MessageFlags m = Ret f ∧ SecurityFlags m = Ret sec ∧ SessionId m = Ret sid ∧
    MessageCounter m = Ret ctr ∧
    SourceNodeId m = Ret (if has_flag f MSG_FLAGS_SRC_PRESENT then src else NODE_ID_ANY) ∧
    DestinationNodeId m = Ret (if has_flag f MSG_FLAGS_DST_PRESENT then dst else NODE_ID_ANY) ∧
    Payload m = Ret rest.
Proof.
  intros Hf Hsec Hsid Hctr Hsrc Hdst Hg.
  rewrite encodeHeader_layout by done. eexists. split; [done|].
  unfold header_bytes. cbn zeta.
  set (so := opt_bytes (has_flag f MSG_FLAGS_SRC_PRESENT) 8 (Some src)).
  set (dn := opt_bytes (has_flag f MSG_FLAGS_DST_PRESENT) 8 (Some dst)).
  set (m := Message_new _ _ _).
  assert (_buffer m = le_bytes 1 f ++ le_bytes 2 sid ++ le_bytes 1 sec ++ le_bytes 4 ctr
                      ++ so ++ dn ++ rest) as Hbuf
    by (cbn [m Message_new _buffer default]; by rewrite <- !app_assoc).
  pose proof (flags_low f Hf Hg) as Hlow.
  assert (blen so = if has_flag f 4 then 8 else 0) as Hso.
  { subst so. unfold opt_bytes, MSG_FLAGS_SRC_PRESENT.
    destruct (has_flag f 4); [apply blen_le_bytes|done]. }
  assert (blen dn = if has_flag f 1 then 8 else 0) as Hdn.
  { subst dn. unfold opt_bytes, MSG_FLAGS_DST_PRESENT.
    destruct (has_flag f 1); [apply blen_le_bytes|done]. }
  pose proof (header_assoc f sid sec ctr _ m Hbuf) as Hassoc.
  split_and!.
  - by eapply header_flags.
  - by eapply header_security.
  - by eapply header_session.
  - by eapply header_counter.
  - by eapply (header_source f sid sec ctr).
  - unfold DestinationNodeId, destination_offset.
    rewrite (header_dsiz f sid sec ctr _ m Hbuf), (header_sflag f sid sec ctr _ m Hbuf) by done.
    cbn [mbind outcome_bind fmap outcome_fmap]. rewrite Hlow.
    unfold MSG_FLAGS_DST_PRESENT in *. destruct (has_flag f 1) eqn:E1; [|done].
    change (1 =? 1) with true. cbn iota. rewrite Hassoc. subst dn. cbn [opt_bytes].
    rewrite (app_assoc (fixed_header f sid sec ctr)).
    apply read_at; [done|]. rewrite blen_app, Hso. by destruct (has_flag f 4).
  - unfold Payload. rewrite (header_payload_offset f sid sec ctr _ m Hbuf);
      [|done|rewrite Hlow; by destruct (has_flag f 1)].
    cbn [fmap outcome_fmap]. f_equal. rewrite Hassoc, !app_assoc.
    apply subarray_from_prefix. rewrite !blen_app, Hso, Hdn, Hlow.
    by destruct (has_flag f 4), (has_flag f 1).
Qed.

(** C12: a header written by [encodeHeader] in front of any payload is read back
    field by field by the accessors of [Message], and [Payload] is what follows.
    (The group bit is clear: [encodeHeader] has no group id.) *)
Theorem header_roundtrip (f sec sid ctr src dst : Z) (rest : buffer) :
  fits 1 f → fits 1 sec → fits 2 sid → fits 4 ctr → fits 8 src → fits 8 dst →
  has_flag f MSG_FLAGS_DST_GROUP = false →
  ∃ b, encodeHeader f sec sid ctr (Some src) (Some dst) = Ret b ∧
    let m := Message_new (Some (b ++ rest)) None None in
    MessageFlags m = Ret f ∧ SecurityFlags m = Ret sec ∧ SessionId m = Ret sid ∧
    MessageCounter m = Ret ctr ∧
    SourceNodeId m = Ret (if has_flag f MSG_FLAGS_SRC_PRESENT then src else NODE_ID_ANY) ∧
    DestinationNodeId m = Ret (if has_flag f MSG_FLAGS_DST_PRESENT then dst else NODE_ID_ANY) ∧
    Payload m = Ret rest.
Proof. apply header_reads. Qed.

(** A protocol header written by [encodeProtocolHeader] behind a fixed
    message header without optional fields is read back by the accessors of the
    exchange header, and the application payload is what follows, provided the
    acknowledgement flag says whether a counter was written. *)
Theorem protocol_header_roundtrip (hdr : buffer) (fl exId opcode protocolId : Z)
    (ack : option Z) (rest : buffer) :
  fits 1 fl → fits 2 exId → fits 1 opcode → fits 2 protocolId → opt_fits 4 ack →
  has_flag fl 0x02 = bool_decide (is_Some ack) →
  blen hdr = 8 → first_octet hdr = 0 →
  ∃ b, encodeProtocolHeader fl exId opcode protocolId None ack = Ret b ∧
    let m := Message_new (Some (hdr ++ b ++ rest)) None None in
    ExchangeFlags m = Ret fl ∧ ProtocolOpcode m = Ret opcode ∧
    ExchangeId m = Ret exId ∧ ProtocolId m = Ret protocolId ∧
    AppPayload m = Ret rest.
Proof.
  intros Hf Hx Ho Hp Ha Hflag Hlen Hfirst.
  rewrite encodeProtocolHeader_layout by done. eexists. split; [done|].
  cbn [opt_bytes app]. cbn zeta.
  set (ab := opt_bytes true 4 ack). set (body := _ ++ rest). set (m := Message_new _ _ _).
  assert (MessageFlags m = Ret 0) as Hmf.
  { unfold MessageFlags. change (_buffer m) with (hdr ++ body).
    rewrite read_first by (rewrite blen_app; pose proof (blen_nonneg body); lia).
    by rewrite first_octet_app, Hfirst by lia. }
  assert (PayloadOffset m = Ret 8) as Hpo
    by (unfold PayloadOffset, Sflag, Dsiz; by rewrite Hmf).
  assert (Payload m = Ret (le_bytes 1 fl ++ le_bytes 1 opcode ++ le_bytes 2 exId
                           ++ le_bytes 2 protocolId ++ ab ++ rest)) as Hpay.
  { unfold Payload. rewrite Hpo. change (_buffer m) with (hdr ++ body).
    cbn [fmap outcome_fmap]. rewrite subarray_from_prefix by done.
    subst body. by rewrite <- !app_assoc. }
  assert (ExchangeFlags m = Ret fl) as Hef.
  { unfold ExchangeFlags, payload_field. rewrite Hpay. by apply (read_at 1 fl []). }
  split_and!; [done|..].
  - unfold ProtocolOpcode, payload_field. rewrite Hpay. by apply (read_at 1 opcode (le_bytes 1 fl)).
  - unfold ExchangeId, payload_field. rewrite Hpay, (app_assoc (le_bytes 1 fl)).
    by apply (read_at 2 exId (le_bytes 1 fl ++ le_bytes 1 opcode)).
  - unfold ProtocolId, payload_field. rewrite Hpay, (app_assoc (le_bytes 1 fl)), (app_assoc _ (le_bytes 2 exId)).
    by apply (read_at 2 protocolId ((le_bytes 1 fl ++ le_bytes 1 opcode) ++ le_bytes 2 exId)).
  - unfold AppPayload, Aflag, exchange_flag. rewrite Hef, Hpo. cbn [fmap outcome_fmap mbind outcome_bind].
    f_equal. change (_buffer m) with (hdr ++ body). subst body. rewrite !app_assoc.
    apply subarray_from_prefix. rewrite !blen_app, !blen_le_bytes, Hlen, Hflag.
    subst ab. by destruct ack; cbn [opt_bytes]; rewrite ?blen_le_bytes.
Qed.

(** The message, security and exchange flag octets hold the fields they are
    encoded from. *)
Theorem flags_roundtrip (d s v t c p mx i a r vf sx : Z) :
  0 <= d < 4 → 0 <= s < 2 → 0 <= v < 16 →
  0 <= t < 4 → 0 <= c < 2 → 0 <= p < 2 → 0 <= mx < 2 →
  0 <= i < 2 → 0 <= a < 2 → 0 <= r < 2 → 0 <= vf < 2 → 0 <= sx < 2 →
  let mf := encodeMessageFlags d s v in
  let sf := encodeSecurityFlags t c p mx in
  let ef := encodeExchangeFlags i a r vf sx in
  (fits 1 mf ∧ Z.shiftr mf 4 = v ∧ has_flag mf 0x04 = (s =? 1) ∧ Z.land mf 0x03 = d) ∧
  (fits 1 sf ∧ Z.land sf 0x03 = t ∧ has_flag sf 0x80 = (p =? 1) ∧
     has_flag sf 0x40 = (c =? 1) ∧ has_flag sf 0x20 = (mx =? 1)) ∧
  (fits 1 ef ∧ has_flag ef 0x01 = (i =? 1) ∧ has_flag ef 0x02 = (a =? 1) ∧
     has_flag ef 0x04 = (r =? 1) ∧ has_flag ef 0x08 = (sx =? 1) ∧
     has_flag ef 0x10 = (vf =? 1)).
Proof.
  intros Hd Hs Hv Ht Hc Hp Hmx Hi Ha Hr Hvf Hsx. cbn zeta.
  pose proof message_flags_all as Hm. enumerate Hm d. enumerate Hm s. enumerate Hm v.
  pose proof security_flags_all as Hsec. enumerate Hsec t. enumerate Hsec c.
  enumerate Hsec p. enumerate Hsec mx.
  pose proof exchange_flags_all as He. enumerate He i. enumerate He a. enumerate He r.
  enumerate He vf. enumerate He sx.
  apply bool_decide_eq_true in Hm, Hsec, He. unfold fits. tauto.
Qed.

(** Setting a field of the fixed message header stores the value, keeps the
    length of the message and leaves every other field of the header alone. *)
Theorem set_field_frame (n k : nat) (off off' v : Z) (m m' : Message) :
  header_field n off → set_field n off v m = Ret m' →
  read_uint_le n (_buffer m') off = Ret v ∧
  length (_buffer m') = length (_buffer m) ∧ _encrypted m' = _encrypted m ∧
  (header_field k off' → (n, off) ≠ (k, off') →
   read_uint_le k (_buffer m') off' = read_uint_le k (_buffer m) off').
Proof.
  intros Hf H. unfold set_field, write_uint_le in H.
  destruct ((0 <=? v) && _) eqn:E; [|done]. zbool.
  destruct (store_le n v (_buffer m) off) as [b|] eqn:Hb; [|done].
  cbn in H. inv_ret. cbn [set_buffer _buffer _encrypted]. split_and!.
  - by eapply store_read_same; [|done].
  - by eapply store_le_length.
  - done.
  - intros Hk Hne. destruct (header_fields_disjoint _ _ _ _ Hf Hk Hne).
    by eapply store_read_other.
Qed.

(** C13: a message whose header is complete, when it is encrypted, keeps its cleartext header
    and grows by 16 octets, and decrypting the result gives the message back; and with
    a key of 16 octets every such message is encrypted whose part behind the header is within
    the cipher's limit of 65535 octets. *)
Theorem encrypt_roundtrip `{HA : Aead} {HL : AeadLaws HA} (msg key : buffer) :
  header_size msg <= blen msg →
  (∀ b, encrypt msg key = Ret b →
     decrypt b key = Ret (Some msg) ∧ blen b = blen msg + 16 ∧
     subarray b 0 (header_size msg) = subarray msg 0 (header_size msg)) ∧
  (blen key = key_size → blen msg - header_size msg < ccm_limit → ∃ b, encrypt msg key = Ret b).
Proof. intros Hm. split; [intros b; by apply decrypt_encrypt|by apply encrypt_total]. Qed.

(** C14: messages with different counters, security flags or sources are
    encrypted under different nonces. *)
Theorem nonce_unique (f1 sid1 sec1 ctr1 src1 f2 sid2 sec2 ctr2 src2 : Z) (t1 t2 b : buffer) :
  fits 1 f1 → fits 1 sec1 → fits 4 ctr1 → fits 8 src1 →
  fits 1 f2 → fits 1 sec2 → fits 4 ctr2 → fits 8 src2 →
  getNonce (header_bytes f1 sec1 sid1 ctr1 (Some src1) None ++ t1) 0 = Ret b →
  getNonce (header_bytes f2 sec2 sid2 ctr2 (Some src2) None ++ t2) 0 = Ret b →
  sec1 = sec2 ∧ ctr1 = ctr2 ∧
  (if has_flag f1 MSG_FLAGS_SRC_PRESENT then src1 else 0)
  = (if has_flag f2 MSG_FLAGS_SRC_PRESENT then src2 else 0).
Proof.
  intros Hf1 Hs1 Hc1 Hr1 Hf2 Hs2 Hc2 Hr2 H1 H2. unfold header_bytes in H1, H2.
  change (opt_bytes (has_flag f1 MSG_FLAGS_DST_PRESENT) 8 None) with (@nil Byte.byte) in H1.
  change (opt_bytes (has_flag f2 MSG_FLAGS_DST_PRESENT) 8 None) with (@nil Byte.byte) in H2.
  rewrite app_nil_r, <- !app_assoc in H1, H2.
  rewrite nonce_layout in H1, H2 by done. apply Ret_inj in H1, H2. subst b.
  apply le_bytes_app_inj in H2 as [<- H2]; [|done..].
  apply le_bytes_app_inj in H2 as [<- H2]; [|done..].
  split_and!; [done..|]. apply le_bytes_inj in H2; [done|..].
  - by destruct (has_flag f2 MSG_FLAGS_SRC_PRESENT).
  - by destruct (has_flag f1 MSG_FLAGS_SRC_PRESENT).
Qed.

(** [encrypt] and [decrypt] leave in clear exactly the octets in front of
    [PayloadOffset], except when both destination bits are set: then they count a
    node id and a group id that [PayloadOffset] does not. *)
Theorem header_size_offset (f sid sec ctr : Z) (tail : buffer) (m : Message) :
  _buffer m = le_bytes 1 f ++ le_bytes 2 sid ++ le_bytes 1 sec ++ le_bytes 4 ctr ++ tail →
  fits 1 f →
  PayloadOffset m = Ret (header_size (_buffer m) - (if Z.land f 3 =? 3 then 10 else 0)).
Proof.
  intros Hb Hf. unfold PayloadOffset.
  rewrite (header_sflag f sid sec ctr tail m Hb Hf), (header_dsiz f sid sec ctr tail m Hb Hf).
  cbn [mbind outcome_bind]. f_equal. unfold header_size.
  assert (first_octet (_buffer m) = f) as -> by (rewrite Hb; by apply first_octet_flags).
  unfold MSG_FLAGS_SRC_PRESENT, MSG_FLAGS_DST_PRESENT, MSG_FLAGS_DST_GROUP,
    MESSAGE_HEADER_MIN_SIZE.
  pose proof (has_flag_payload f Hf). repeat case_match; zbool; lia.
Qed.

Lemma header_flags_set (f v sid sec ctr : Z) (tail : buffer) (m : Message) :
  _buffer m = le_bytes 1 f ++ le_bytes 2 sid ++ le_bytes 1 sec ++ le_bytes 4 ctr ++ tail →
  fits 1 v →
  set_MessageFlags v m = Ret (set_buffer m
    (le_bytes 1 v ++ le_bytes 2 sid ++ le_bytes 1 sec ++ le_bytes 4 ctr ++ tail)).
Proof.
  intros Hb Hv. unfold set_MessageFlags, set_field. rewrite Hb. unfold write_uint_le.
  destruct Hv as [? ?]. destruct (Z.leb_spec 0 v); [|lia].
  destruct (Z.ltb_spec v (256 ^ Z.of_nat 1)); [|lia]. cbn [andb].
  pose proof (store_le_app 1 v [] (le_bytes 1 f)
    (le_bytes 2 sid ++ le_bytes 1 sec ++ le_bytes 4 ctr ++ tail) eq_refl) as Hst.
  change (blen []) with 0 in Hst. rewrite !app_nil_l in Hst. by rewrite Hst.
Qed.

(** The two-step update of the flag setters, on every octet and flag value. *)
Lemma flag_update_range (mask f v : Z) :
  mask ∈ [4; 3] → 0 <= f < 256 → 0 <= v →
  fits 1 (Z.land f mask) ∧ fits 1 (Z.lor (Z.land f mask) (Z.land v mask)).
Proof.
  intros Hm Hf Hv.
  assert (forallb (λ mask, forallb (λ f, forallb (λ w,
    bool_decide (0 <= Z.land f mask < 256 ∧ 0 <= Z.lor (Z.land f mask) w < 256))
    (bits 8)) (bits 256)) [4; 3] = true) as H by (vm_compute; reflexivity).
  rewrite forallb_forall in H. specialize (H mask (proj1 (list_elem_of_In _ _) Hm)).
  cbv beta in H. enumerate H f.
  assert (0 <= Z.land v mask < 8) as Hw.
  { rewrite !elem_of_cons, elem_of_nil in Hm. split; [by apply Z.land_nonneg; left|].
    destruct Hm as [->|[->|[]]].
    - change 4 with (Z.land 7 4). rewrite Z.land_assoc.
      change 7 with (Z.ones 3) at 1. rewrite Z.land_ones by lia.
      pose proof (Z.mod_pos_bound v (2 ^ 3) ltac:(lia)).
      assert (In (v mod 2 ^ 3) (bits 8)) as Hin by (apply in_bits; lia).
      assert (forallb (λ x, Z.land x 4 <? 8) (bits 8) = true) as Hc by (vm_compute; reflexivity).
      rewrite forallb_forall in Hc. specialize (Hc _ Hin). zbool. lia.
    - change 3 with (Z.ones 2). rewrite Z.land_ones by lia.
      pose proof (Z.mod_pos_bound v (2 ^ 2) ltac:(lia)). lia. }
  enumerate H (Z.land v mask). apply bool_decide_eq_true in H.
  unfold fits. change (256 ^ Z.of_nat 1) with 256. tauto.
Qed.

(** What the setters of the flag fields do.  [Sflag] keeps its old flag next
    to the new one, so it cannot be cleared, and drops the version and the
    destination size; [Dsiz] likewise keeps its old bits and drops [Sflag]. *)
Theorem flag_setters (f v sid sec ctr : Z) (tail : buffer) (m : Message) :
  _buffer m = le_bytes 1 f ++ le_bytes 2 sid ++ le_bytes 1 sec ++ le_bytes 4 ctr ++ tail →
  fits 1 f → 0 <= v →
  let with_flags g := set_buffer m
    (le_bytes 1 g ++ le_bytes 2 sid ++ le_bytes 1 sec ++ le_bytes 4 ctr ++ tail) in
  set_Sflag v m = Ret (with_flags (Z.lor (Z.land f 4) (Z.land v 4))) ∧
  set_Dsiz v m = Ret (with_flags (Z.lor (Z.land f 3) (Z.land v 3))).
Proof.
  intros Hb Hf Hv with_flags.
  assert (∀ mask, mask ∈ [4; 3] →
    (f0 ← MessageFlags m; m0 ← set_MessageFlags (Z.land f0 mask) m;
     f1 ← MessageFlags m0; set_MessageFlags (Z.lor f1 (Z.land v mask)) m0)
    = Ret (with_flags (Z.lor (Z.land f mask) (Z.land v mask)))) as H.
  { intros mask Hm. destruct (flag_update_range mask f v Hm Hf Hv) as [H1 H2].
    rewrite (header_flags f sid sec ctr tail m Hb Hf). cbn [mbind outcome_bind].
    rewrite (header_flags_set f _ sid sec ctr tail m Hb H1). cbn [mbind outcome_bind].
    change (set_buffer m _) with (with_flags (Z.land f mask)).
    rewrite (header_flags (Z.land f mask) sid sec ctr tail (with_flags _) eq_refl H1).
    cbn [mbind outcome_bind].
    by rewrite (header_flags_set (Z.land f mask) _ sid sec ctr tail (with_flags _) eq_refl H2). }
  split; apply H; set_solver.
Qed.

(** ** Instances *)

Lemma header_roundtrip_witness :
  has_flag 5 MSG_FLAGS_DST_GROUP = false ∧
  ∃ b, encodeHeader 5 0 3000 12345 (Some 1) (Some 2) = Ret b ∧
    let m := Message_new (Some (b ++ [Byte.x01])) None None in
    MessageFlags m = Ret 5 ∧ SecurityFlags m = Ret 0 ∧ SessionId m = Ret 3000 ∧
    MessageCounter m = Ret 12345 ∧ SourceNodeId m = Ret 1 ∧ DestinationNodeId m = Ret 2 ∧
    Payload m = Ret [Byte.x01].
Proof.
  split; [reflexivity|].
  apply (header_roundtrip 5 0 3000 12345 1 2 [Byte.x01]); try reflexivity;
    (split; [discriminate|reflexivity]).
Defined.

Lemma protocol_header_roundtrip_witness :
  ∃ b, encodeProtocolHeader 3 7 0x20 1 None (Some 99) = Ret b ∧
    let m := Message_new (Some (alloc 8 ++ b ++ [Byte.xff])) None None in
    ExchangeFlags m = Ret 3 ∧ ProtocolOpcode m = Ret 0x20 ∧
    ExchangeId m = Ret 7 ∧ ProtocolId m = Ret 1 ∧ AppPayload m = Ret [Byte.xff].
Proof.
  apply (protocol_header_roundtrip (alloc 8) 3 7 0x20 1 (Some 99) [Byte.xff]);
    try reflexivity; (split; [discriminate|reflexivity]).
Defined.

Lemma flags_roundtrip_witness :
  encodeMessageFlags 1 1 2 = 0x25 ∧ Z.shiftr (encodeMessageFlags 1 1 2) 4 = 2.
Proof.
  split; [reflexivity|].
  pose proof (flags_roundtrip 1 1 2 0 0 0 0 0 0 0 0 0) as H.
  apply H; (split; [discriminate|reflexivity]).
Defined.

Definition blank : Message := Message_new None None None.

Lemma set_field_frame_witness :
  ∃ m', set_field 2 1 3000 blank = Ret m' ∧ read_uint_le 2 (_buffer m') 1 = Ret 3000 ∧
        read_uint_le 4 (_buffer m') 4 = read_uint_le 4 (_buffer blank) 4.
Proof.
  eexists. split; [vm_compute; reflexivity|].
  destruct (set_field_frame 2 4 1 4 3000 blank _ ltac:(unfold header_field; set_solver)
              ltac:(vm_compute; reflexivity)) as (H1 & _ & _ & H2).
  split; [exact H1|]. apply H2; [unfold header_field; set_solver|discriminate].
Defined.

Lemma encrypt_roundtrip_witness :
  let msg := alloc 14 in let key := alloc 16 in
  ∃ b, encrypt msg key = Ret b ∧ decrypt b key = Ret (Some msg) ∧ blen b = blen msg + 16 ∧
       subarray b 0 (header_size msg) = subarray msg 0 (header_size msg).
Proof.
  destruct (encrypt_roundtrip (HA := toy_aead) (HL := toy_aead_laws) (alloc 14) (alloc 16))
    as [H1 H2]; [vm_compute; discriminate|].
  destruct H2 as [b Hb]; [reflexivity|vm_compute; reflexivity|].
  exists b. split; [exact Hb|]. apply (H1 b Hb).
Defined.

Lemma nonce_unique_witness :
  ∃ b, getNonce (header_bytes 4 0 1 2 (Some 3) None ++ []) 0 = Ret b ∧
       0 = 0 ∧ 2 = 2 ∧ (if has_flag 4 MSG_FLAGS_SRC_PRESENT then 3 else 0)
                       = (if has_flag 4 MSG_FLAGS_SRC_PRESENT then 3 else 0).
Proof.
  eexists. split; [vm_compute; reflexivity|].
  eapply (nonce_unique 4 1 0 2 3 4 1 0 2 3 [] []);
    [split; [discriminate|reflexivity]..|vm_compute; reflexivity|vm_compute; reflexivity].
Defined.

Lemma header_size_offset_witness :
  _buffer blank = le_bytes 1 0 ++ le_bytes 2 0 ++ le_bytes 1 0 ++ le_bytes 4 0 ++ alloc 6 ∧
  PayloadOffset blank = Ret (header_size (_buffer blank) - 0).
Proof.
  split; [reflexivity|].
  apply (header_size_offset 0 0 0 0 (alloc 6) blank); [reflexivity|split; [discriminate|reflexivity]].
Defined.

(** Setting the source flag and then the destination size loses the source flag. *)
Lemma flag_setters_witness :
  let m := set_buffer blank (le_bytes 1 4 ++ alloc 13) in
  Sflag m = Ret true ∧
  set_Dsiz DestinationType_NodeId m = Ret (set_buffer m (le_bytes 1 1 ++ alloc 13)).
Proof.
  split; [vm_compute; reflexivity|].
  apply (flag_setters 4 1 0 0 0 (alloc 6) (set_buffer blank (le_bytes 1 4 ++ alloc 13)));
    [reflexivity|split; [discriminate|reflexivity]|discriminate].
Defined.
