(* ===== verification/Privacy.v ===== *)
(** * Privacy (src/message/Message.js, src/crypto/Crypto.js)

    The helpers of Crypto.js around the cipher, and what the privacy processing of
    messages, [Message.privacyEncrypt] and [privacyDecrypt], does to a message on its way:
    the header behind its first four octets is masked with a nonce that both ends can
    read off the message. *)
From S2P Require Import Prelude Aead MsgCodec Message MessageTheorems.

(** ** Crypto.js *)

Section crypto.
Context `{Aead}.

(** [AeadEncrypt(key, plaintext, additionalData, nonce)] *)
Definition AeadEncrypt (key plaintext additionalData nonce : buffer) : outcome buffer :=
  '(ciphertext, tag) ← ccm_seal key nonce additionalData plaintext;
  Ret (ciphertext ++ tag).

(** [AeadDecrypt(key, ciphertext, additionalData, nonce, mic)]; [None] is [null]. *)
Definition AeadDecrypt (key ciphertext additionalData nonce mic : buffer)
    : outcome (option buffer) :=
  match ccm_open key nonce additionalData ciphertext mic with
  | Ret plaintext => Ret (Some plaintext)
  | Throw _ => Ret None
  end.

(** [PrivacyEncrypt(symmetricKey, plaintext, nonce)]; [PrivacyDecrypt] calls it. *)
Definition PrivacyEncrypt (symmetricKey plaintext nonce : buffer) : outcome buffer :=
  ccm_stream symmetricKey plaintext nonce.
Definition PrivacyDecrypt (symmetricKey ciphertext nonce : buffer) : outcome buffer :=
  PrivacyEncrypt symmetricKey ciphertext nonce.
End crypto.

(** The ciphertext that [AeadEncrypt] returns has the tag behind it, which
    [AeadDecrypt] takes apart. *)
Lemma aead_roundtrip `{HA : Aead} {HL : AeadLaws HA} key plaintext additionalData nonce c :
  AeadEncrypt key plaintext additionalData nonce = Ret c →
  blen c = blen plaintext + tag_size ∧
  AeadDecrypt key (subarray c 0 (blen plaintext)) additionalData nonce
    (subarray_from c (blen plaintext)) = Ret (Some plaintext).
Proof.
  unfold AeadEncrypt, AeadDecrypt. intros H.
  destruct (ccm_seal key nonce additionalData plaintext) as [[enc tag]|] eqn:E; [|done].
  cbn in H. inv_ret. destruct (seal_length _ _ _ _ _ _ E) as [Hl Ht].
  rewrite blen_app, Hl, Ht. split; [done|]. rewrite <- Hl, subarray_app_l.
  rewrite subarray_from_prefix by done. by rewrite (open_seal _ _ _ _ _ _ E).
Qed.

(** ** What the first four octets determine *)

Section clear.
Context (c x y : buffer) (m1 m2 : Message).
Hypothesis Hc : blen c = 4.
Hypothesis H1 : _buffer m1 = c ++ x.
Hypothesis H2 : _buffer m2 = c ++ y.

Lemma clear_read n off : 0 <= off → off + Z.of_nat n <= 4 →
  read_uint_le n (_buffer m1) off = read_uint_le n (_buffer m2) off.
Proof.
  intros H0 Hn. rewrite H1, H2. unfold read_uint_le. rewrite !blen_app, Hc.
  pose proof (blen_nonneg x). pose proof (blen_nonneg y).
  destruct (Z.leb_spec 0 off), (Z.leb_spec (off + Z.of_nat n) (4 + blen x)),
    (Z.leb_spec (off + Z.of_nat n) (4 + blen y)); try lia. cbn. do 2 f_equal.
  unfold blen in Hc. rewrite !drop_app_le by lia. rewrite !take_app_le; [done| |];
    rewrite length_drop; lia.
Qed.

Lemma clear_flags : MessageFlags m1 = MessageFlags m2.
Proof. apply clear_read; lia. Qed.
Lemma clear_session : SessionId m1 = SessionId m2.
Proof. apply clear_read; lia. Qed.
Lemma clear_security : SecurityFlags m1 = SecurityFlags m2.
Proof. apply clear_read; lia. Qed.

Lemma clear_offset : PayloadOffset m1 = PayloadOffset m2.
Proof. unfold PayloadOffset, Sflag, Dsiz. by rewrite clear_flags. Qed.
Lemma clear_pflag : Pflag m1 = Pflag m2.
Proof. unfold Pflag. by rewrite clear_security. Qed.
Lemma clear_unencrypted : isUnencrypted m1 = isUnencrypted m2.
Proof. unfold isUnencrypted, SessionType. by rewrite clear_security, clear_session. Qed.
End clear.

(** ** Masking *)

(** A message whose octets 4 to [PayloadOffset] are [h] and whose tag is [mic]. *)
Definition wire (c h r mic : buffer) : buffer := c ++ h ++ r ++ mic.

Lemma wire_mic m c h r mic :
  _encrypted m = Some (wire c h r mic) → blen mic = 16 → Mic m = Ret mic.
Proof.
  intros He Hm. unfold Mic. rewrite He. unfold wire, CRYPTO_AEAD_MIC_LENGTH_BYTES. f_equal.
  assert (blen (c ++ h ++ r ++ mic) = blen ((c ++ h) ++ r) + blen mic) as ->
    by (rewrite !blen_app; lia).
  rewrite Hm at 1. rewrite Z.add_simpl_r, !app_assoc.
  pose proof (subarray_app_mid ((c ++ h) ++ r) mic []) as H. by rewrite app_nil_r in H.
Qed.

(** The nonce is made of the session id and the tag, which the mask leaves alone. *)
Lemma wire_nonce c h h' r mic x y m1 m2 :
  blen c = 4 → blen mic = 16 → _buffer m1 = c ++ x → _buffer m2 = c ++ y →
  _encrypted m1 = Some (wire c h r mic) → _encrypted m2 = Some (wire c h' r mic) →
  PrivacyNonce m1 = PrivacyNonce m2.
Proof.
  intros Hc Hm H1 H2 He1 He2. unfold PrivacyNonce.
  rewrite (clear_session c x y m1 m2 Hc H1 H2), (wire_mic _ _ _ _ _ He1 Hm).
  by rewrite (wire_mic _ _ _ _ _ He2 Hm).
Qed.

Section mask.
Context `{HA : Aead} {HS : StreamLaws HA}.

Lemma mask_wire m key c h r mic :
  blen c = 4 → PayloadOffset m = Ret (4 + blen h) →
  privacy_mask key m (wire c h r mic)
  = (nonce ← PrivacyNonce m; h' ← PrivacyEncrypt key h nonce; Ret (wire c h' r mic)).
Proof.
  intros Hc Ho. unfold privacy_mask, MESSAGE_HEADER_CLEARTEXT_SIZE, PrivacyEncrypt. rewrite Ho.
  cbn [mbind outcome_bind]. destruct (PrivacyNonce m) as [nonce|]; [|done].
  cbn [mbind outcome_bind]. unfold wire. rewrite <- Hc, subarray_app_mid, subarray_app_l.
  rewrite (app_assoc c h), subarray_from_prefix by by rewrite blen_app.
  done.
Qed.

(** The receiver of the masked message takes the mask off again. *)
Lemma unmask_wire m key x y c h h' r mic nonce r1 :
  blen c = 4 → blen mic = 16 → _buffer m = c ++ x → _buffer r1 = c ++ y →
  _encrypted m = Some (wire c h r mic) → _encrypted r1 = Some (wire c h' r mic) →
  PayloadOffset m = Ret (4 + blen h) → PrivacyNonce m = Ret nonce →
  PrivacyEncrypt key h nonce = Ret h' →
  privacy_mask key r1 (wire c h' r mic) = Ret (wire c h r mic).
Proof.
  intros Hc Hm H1 H2 He1 He2 Ho Hn Hh. pose proof (stream_length _ _ _ _ Hh) as Hl.
  rewrite mask_wire; [|done|].
  2:{ by rewrite <- (clear_offset c x y m r1 Hc H1 H2), Hl. }
  rewrite <- (wire_nonce c h h' r mic x y m r1), Hn by done. cbn [mbind outcome_bind].
  unfold PrivacyEncrypt. by rewrite (stream_twice _ _ _ _ Hh).
Qed.
End mask.

(** The parts of an encrypted message whose header ends at [off]. *)
Lemma wire_parts (b e : buffer) (off : Z) :
  4 <= off → off <= blen b → blen e = blen b + 16 → subarray e 0 8 = subarray b 0 8 → 8 <= blen b →
  ∃ c h r mic x, e = wire c h r mic ∧ b = c ++ x ∧ blen c = 4 ∧ blen mic = 16 ∧ off = 4 + blen h.
Proof.
  intros Ho Hb He Hs H8. rewrite !subarray_nonneg in Hs by lia. rewrite !drop_0 in Hs.
  unfold blen in *. set (n := Z.to_nat off).
  exists (take 4 e), (take (n - 4) (drop 4 e)), (take (length b - n) (drop n e)),
    (drop (length b) e), (drop 4 b).
  assert (take 4 e = take 4 b) as H4.
  { apply (f_equal (take 4)) in Hs. rewrite !take_take in Hs. exact Hs. }
  split_and!.
  - unfold wire. rewrite <- (take_drop 4 e) at 1. f_equal.
    rewrite <- (take_drop (n - 4) (drop 4 e)) at 1. f_equal. rewrite drop_drop.
    replace (4 + (n - 4))%nat with n by lia.
    rewrite <- (take_drop (length b - n) (drop n e)) at 1. f_equal. rewrite drop_drop.
    f_equal. lia.
  - by rewrite H4, take_drop.
  - rewrite length_take. lia.
  - rewrite length_drop. lia.
  - rewrite length_take, length_drop. lia.
Qed.

Section privacy.
Context `{HA : Aead} {HL : AeadLaws HA} {HS : StreamLaws HA}.

(** A message enciphered by [Message_encrypt], cut at the end of its header. *)
Lemma encrypted_parts (m m1 : Message) (key e : buffer) (off : Z) :
  header_size (_buffer m) <= blen (_buffer m) → blen key = key_size →
  PayloadOffset m = Ret off → off <= blen (_buffer m) →
  Message_encrypt key true m = Ret (m1, Some e) →
  decrypt e key = Ret (Some (_buffer m)) ∧ isUnencrypted m = Ret false ∧
  m1 = set_Encrypted (Some e) m ∧
  ∃ c h r mic x, e = wire c h r mic ∧ _buffer m = c ++ x ∧ blen c = 4 ∧ blen mic = 16 ∧
    off = 4 + blen h.
Proof.
  intros Hh Hk Ho Hoff. unfold Message_encrypt.
  destruct (isUnencrypted m) as [[]|]; cbn; [done| |done].
  destruct (encrypt (_buffer m) key) as [b|] eqn:Hb; [|done].
  destruct (decrypt_encrypt (_buffer m) key b Hh Hb) as (Hd & Hl & Hs).
  cbn. intros H. inv_ret. simplify_eq. split_and!; try done. pose proof (header_size_ge (_buffer m)).
  apply wire_parts; try lia.
  - unfold PayloadOffset in Ho. destruct (Sflag m), (Dsiz m); cbn in Ho; try done.
    inv_ret. unfold MESSAGE_HEADER_MIN_SIZE. repeat case_match; lia.
  - rewrite !subarray_nonneg in Hs |- * by lia. rewrite !drop_0 in *.
    apply (f_equal (take (Z.to_nat 8))) in Hs. rewrite !take_take in Hs.
    rewrite !Nat.min_l in Hs by lia. exact Hs.
Qed.

(** C15: privacy.  A message with the privacy flag and a complete header that is
    enciphered and then masked keeps its first four octets (the flags and the session
    id), its length and what is behind its header; a receiver that has both keys takes the
    mask off and deciphers what was sent. *)
Theorem privacy_roundtrip (m m1 m2 : Message) (key privacyKey e e2 : buffer) (off : Z)
    (peer : option PeerInfo) :
  header_size (_buffer m) <= blen (_buffer m) → blen key = key_size →
  PayloadOffset m = Ret off → off <= blen (_buffer m) → Pflag m = Ret true →
  Message_encrypt key true m = Ret (m1, Some e) →
  privacyEncrypt privacyKey true m1 = Ret (m2, Some e2) →
  subarray e2 0 4 = subarray (_buffer m) 0 4 ∧ blen e2 = blen (_buffer m) + 16 ∧
  subarray_from e2 off = subarray_from e off ∧
  ∃ r1 r2, privacyDecrypt privacyKey true (Message_new (Some e2) (Some e2) peer) = Ret (r1, Some e) ∧
    Message_decrypt key true r1 = Ret (r2, Some (_buffer m)) ∧ _buffer r2 = _buffer m.
Proof.
  intros Hh Hk Ho Hoff Hp He Hpe.
  destruct (encrypted_parts m m1 key e off Hh Hk Ho Hoff He)
    as (Hd & Hu & -> & c & h & r & mic & x & -> & Hb & Hc & Hm & ->).
  set (m1 := set_Encrypted _ m) in *. unfold privacyEncrypt in Hpe.
  change (Pflag m1) with (Pflag m) in Hpe. rewrite Hp in Hpe. cbn in Hpe.
  rewrite mask_wire in Hpe by done. destruct (PrivacyNonce m1) as [nonce|] eqn:Hn; [|done].
  cbn in Hpe. destruct (PrivacyEncrypt privacyKey h nonce) as [h'|] eqn:Hh'; [|done].
  cbn in Hpe. inv_ret. simplify_eq. pose proof (stream_length _ _ _ _ Hh') as Hl.
  set (rm := Message_new (Some (wire c h' r mic)) _ peer).
  assert (_buffer rm = c ++ h' ++ r ++ mic) as Hrb by done.
  assert (privacy_mask privacyKey rm (wire c h' r mic) = Ret (wire c h r mic)) as Hmask
    by by apply (unmask_wire m1 privacyKey x (h' ++ r ++ mic) c h h' r mic nonce rm).
  split_and!.
  - rewrite Hb, <- Hc. unfold wire. by rewrite !subarray_app_l.
  - unfold Message_encrypt in He. rewrite Hu in He. cbn in He.
    destruct (encrypt (_buffer m) key) as [b|] eqn:Hb1; [|done]. cbn in He.
    destruct (decrypt_encrypt (_buffer m) key b Hh Hb1) as (_ & Hb2 & _).
    inv_ret. rewrite <- Hb2. simplify_eq. unfold wire. rewrite !blen_app, Hl. lia.
  - unfold wire. rewrite !(app_assoc c). rewrite !subarray_from_prefix by (rewrite blen_app; lia). done.
  - eexists _, _. split_and!.
    + unfold privacyDecrypt. rewrite (clear_pflag c (h' ++ r ++ mic) x rm m), Hp by done.
      cbn. fold rm. by rewrite Hmask.
    + unfold Message_decrypt. cbn [_encrypted set_buffer set_Encrypted].
      rewrite (clear_unencrypted c (h ++ r ++ mic) x _ m), Hu by done. cbn. by rewrite Hd.
    + done.
Qed.
End privacy.

(** ** A concrete instance *)

(** Session 3000, privacy flag, counter 7, a source id, a few octets of payload. *)
Definition private_message : Message :=
  Message_new (Some (le_bytes 1 0x04 ++ le_bytes 2 3000 ++ le_bytes 1 0x80 ++ le_bytes 4 7
                     ++ le_bytes 8 0x1122334455667788 ++ alloc 10)) None None.
Definition private_encrypted : Message * option buffer :=
  match Message_encrypt (alloc 16) true private_message with
  | Ret p => p | Throw _ => (private_message, None) end.
Definition private_masked : Message * option buffer :=
  match privacyEncrypt (alloc 16) true private_encrypted.1 with
  | Ret p => p | Throw _ => (private_message, None) end.

Lemma privacy_roundtrip_witness :
  ∃ r1 r2, privacyDecrypt (alloc 16) true
      (Message_new (Some (default [] private_masked.2)) (Some (default [] private_masked.2)) None)
    = Ret (r1, Some (default [] private_encrypted.2)) ∧
    Message_decrypt (alloc 16) true r1 = Ret (r2, Some (_buffer private_message)) ∧
    _buffer r2 = _buffer private_message.
Proof.
  refine (proj2 (proj2 (proj2 (privacy_roundtrip (HL := toy_aead_laws) (HS := toy_stream_laws)
    private_message private_encrypted.1 private_masked.1 (alloc 16) (alloc 16)
    (default [] private_encrypted.2) (default [] private_masked.2) 16 None _ _ _ _ _ _ _)))).
  - vm_compute. discriminate.
  - reflexivity.
  - vm_compute. reflexivity.
  - vm_compute. discriminate.
  - vm_compute. reflexivity.
  - vm_compute. reflexivity.
  - vm_compute. reflexivity.
Defined.
