(* ===== verification/Runtime.v ===== *)
(** * The runtime environment

    What the message layer uses of Node: random octets, the clock, and the UDP
    sockets it sends on (src/crypto/Crypto.js, src/net/UdpServer.js,
    src/net/UdpClient.js).  Randomness is a tape that the draws consume, so the
    model is a function and every run is some choice of the tape. *)
From S2P Require Import Prelude.

(** The sockets a session can send on. *)
Definition Server : nat := 0.
Definition Client : nat := 1.

Record datagram : Type := Datagram {
  dg_transport : nat;
  dg_buf : buffer;
  dg_port : Z;
  dg_host : string }.

#[export] Instance datagram_eq_dec : EqDecision datagram.
Proof. solve_decision. Defined.

Record runtime : Type := Runtime {
  tape : nat → Byte.byte;
  drawn : nat;
  now : Z;
  sent : list datagram }.

Definition set_drawn (n : nat) (r : runtime) : runtime :=
  Runtime (tape r) n (now r) (sent r).

(** [Crypto.Random(size)] *)
Definition Random (size : nat) : js runtime buffer := λ r,
  (set_drawn (drawn r + size) r,
   Ret ((λ i, tape r (drawn r + i)) <$> seq 0 size)).

(** [Crypto.RandomU16()], [RandomU32()], [RandomU64()] *)
Definition RandomU16 : js runtime Z := b ← Random 2; mret (be_Z b).
Definition RandomU32 : js runtime Z := b ← Random 4; mret (be_Z b).
Definition RandomU64 : js runtime Z := b ← Random 8; mret (be_Z b).

(** [Transport.send(msg, port, host)] *)
Definition send (transport : nat) (msg : buffer) (port : Z) (host : string)
    : js runtime unit :=
  js_modify (λ r, Runtime (tape r) (drawn r) (now r)
                    (sent r ++ [Datagram transport msg port host])).

(** [Date.now()] *)
Definition Date_now : js runtime Z := λ r, (r, Ret (now r)).

(** ** Lemmas *)

Lemma be_Z_range b : 0 <= be_Z b < 256 ^ blen b.
Proof.
  unfold be_Z. pose proof (le_Z_bound (reverse b)) as H.
  unfold blen in *. by rewrite length_reverse in H.
Qed.

Lemma Random_ret size r r' b :
  Random size r = (r', Ret b) → length b = size ∧ sent r' = sent r ∧ now r' = now r.
Proof.
  intros H. injection H as <- <-. cbn. by rewrite length_fmap, length_seq.
Qed.
