(* ===== verification/SessionCryptoContext.v ===== *)
(** * Session keys (src/message/SessionCryptoContext.js) *)
From S2P Require Import Prelude JsString Aead.

Definition kI2RKey : nat := 0.
Definition kR2IKey : nat := 1.
Definition kAttestationChallenge : nat := 2.

(** The three keys, by [KeyIndex]. *)
Record SessionCryptoContext : Type := CryptoContext { _keys : list buffer }.

(** [new SessionCryptoContext()]: the test-mode keys. *)
Definition test_keys : list buffer :=
  (λ s, hex_decode (js_str s)) <$>
  ["5eded244e5532b3cdc23409dbad052d2"; "a9e011b1737c6d4b70e4c0a2fe660476";
   "c5aead0e0691c420284c9580f90e07b0"]%string.

Definition SessionCryptoContext_new : SessionCryptoContext := CryptoContext test_keys.

Section derivation.
Context `{Kdf}.

(** [initFromSecret(secret, salt, info, len)]; [CHIP_CONFIG_SECURITY_TEST_MODE] is
    0. *)
Definition initFromSecret (secret salt info : buffer) (len : Z)
    : outcome SessionCryptoContext :=
  sessionKey ← hkdf secret salt info len;
  Ret (CryptoContext [subarray sessionKey 0 16; subarray sessionKey 16 32;
                      subarray_from sessionKey 32]).
End derivation.

(** [get AttestationChallenge()] *)
Definition AttestationChallenge (c : SessionCryptoContext) : option buffer :=
  _keys c !! kAttestationChallenge.

(** ** Lemmas *)

Lemma initFromSecret_keys `{HK : Kdf} {HL : KdfLaws HK} secret salt info c :
  initFromSecret secret salt info 48 = Ret c →
  ∃ k, hkdf secret salt info 48 = Ret k ∧
       _keys c = [subarray k 0 16; subarray k 16 32; subarray_from k 32] ∧
       Forall (λ b, blen b = 16) (_keys c) ∧ concat (_keys c) = k.
Proof.
  unfold initFromSecret. intros H. apply outcome_bind_Ret in H as (k & Hk & H). inv_ret.
  pose proof (hkdf_length secret salt info 48 k ltac:(lia) Hk) as Hl.
  exists k. split_and!; [done|done|..].
  - unfold blen in *. cbn [_keys]. rewrite !subarray_nonneg, subarray_from_nonneg by lia.
    repeat constructor; rewrite ?length_take, ?length_drop; lia.
  - cbn [_keys concat]. rewrite !subarray_nonneg, subarray_from_nonneg by lia.
    rewrite app_nil_r, drop_0. change (Z.to_nat 0) with 0%nat. rewrite Nat.sub_0_r.
    change (Z.to_nat 32 - Z.to_nat 16)%nat with 16%nat. change (Z.to_nat 16) with 16%nat.
    change (Z.to_nat 32) with 32%nat. rewrite <- (take_drop 16 k) at 4. f_equal.
    rewrite <- (take_drop 16 (drop 16 k)) at 2. by rewrite drop_drop.
Qed.
