(* ===== verification/Session.v ===== *)
(** * Sessions (src/message/Session.js)

    A session's methods run over the object itself and the runtime.  Session ids
    are JavaScript values: the ids of a PASE session come from a peer's TLV, and
    whatever they are is stored.  The message a method is given is local to its
    caller, so it is passed and returned as a value. *)
From S2P Require Import Prelude JsNumber JsString TlvType TlvWriter Aead MsgCodec Message.
From S2P Require Import Runtime SessionCryptoContext.

Record Session : Type := Sess {
  _localSessionId : json;
  _peerSessionId : json;
  _peerNodeId : option Z;
  s_peerInfo : option PeerInfo;
  _peerMessageCounter : Z;
  _initiator : bool;
  _lastActivityTimeMs : Z;
  _secure : bool;
  _messageCounter : Z;
  _metricTxCount : Z;
  _metricRxCount : Z;
  _transport : nat;
  cryptoContext : option SessionCryptoContext }.

Definition UNSECURED_SESSION_ID : json := JNum (NInt 0).

(** [new Session(localSessionId, peerSessionId, secure)]: the message counter
    starts at a random value between 1 and 2^28. *)
Definition Session_new (localSessionId peerSessionId : json) (secure : bool)
    : js runtime Session :=
  r ← RandomU32;
  mret (Sess localSessionId peerSessionId None None 0 false 0 secure
          (Z.land r 0x0FFFFFFF + 1) 0 0 Server
          (if secure then Some SessionCryptoContext_new else None)).

(** ** Setters *)

Definition set_PeerInfo (v : option PeerInfo) (s : Session) : Session :=
  Sess (_localSessionId s) (_peerSessionId s) (_peerNodeId s) v (_peerMessageCounter s)
    (_initiator s) (_lastActivityTimeMs s) (_secure s) (_messageCounter s)
    (_metricTxCount s) (_metricRxCount s) (_transport s) (cryptoContext s).

Definition set_PeerNodeId (v : option Z) (s : Session) : Session :=
  Sess (_localSessionId s) (_peerSessionId s) v (s_peerInfo s) (_peerMessageCounter s)
    (_initiator s) (_lastActivityTimeMs s) (_secure s) (_messageCounter s)
    (_metricTxCount s) (_metricRxCount s) (_transport s) (cryptoContext s).

Definition set_PeerMessageCounter (v : Z) (s : Session) : Session :=
  Sess (_localSessionId s) (_peerSessionId s) (_peerNodeId s) (s_peerInfo s) v
    (_initiator s) (_lastActivityTimeMs s) (_secure s) (_messageCounter s)
    (_metricTxCount s) (_metricRxCount s) (_transport s) (cryptoContext s).

Definition set_Transport (v : nat) (s : Session) : Session :=
  Sess (_localSessionId s) (_peerSessionId s) (_peerNodeId s) (s_peerInfo s)
    (_peerMessageCounter s) (_initiator s) (_lastActivityTimeMs s) (_secure s)
    (_messageCounter s) (_metricTxCount s) (_metricRxCount s) v (cryptoContext s).

Definition set_crypto (c : SessionCryptoContext) (s : Session) : Session :=
  Sess (_localSessionId s) (_peerSessionId s) (_peerNodeId s) (s_peerInfo s)
    (_peerMessageCounter s) (_initiator s) (_lastActivityTimeMs s) (_secure s)
    (_messageCounter s) (_metricTxCount s) (_metricRxCount s) (_transport s) (Some c).

(** [this._messageCounter++] and [this._metricTxCount++]. *)
Definition count_tx (s : Session) : Session :=
  Sess (_localSessionId s) (_peerSessionId s) (_peerNodeId s) (s_peerInfo s)
    (_peerMessageCounter s) (_initiator s) (_lastActivityTimeMs s) (_secure s)
    (_messageCounter s) (_metricTxCount s + 1) (_metricRxCount s) (_transport s)
    (cryptoContext s).

Definition next_counter (s : Session) : Session :=
  Sess (_localSessionId s) (_peerSessionId s) (_peerNodeId s) (s_peerInfo s)
    (_peerMessageCounter s) (_initiator s) (_lastActivityTimeMs s) (_secure s)
    (_messageCounter s + 1) (_metricTxCount s) (_metricRxCount s) (_transport s)
    (cryptoContext s).

(** [updateActivity()] at time [t] *)
Definition updateActivity_at (t : Z) (s : Session) : Session :=
  Sess (_localSessionId s) (_peerSessionId s) (_peerNodeId s) (s_peerInfo s)
    (_peerMessageCounter s) (_initiator s) t (_secure s) (_messageCounter s)
    (_metricTxCount s) (_metricRxCount s + 1) (_transport s) (cryptoContext s).

(** ** Methods *)

(** The object and the runtime. *)
Definition sess_state : Type := Session * runtime.

Definition self : js sess_state Session := λ s, (s, Ret s.1).
Definition update (f : Session → Session) : js sess_state unit :=
  js_modify (λ s, (f s.1, s.2)).
Definition in_runtime {A} (m : js runtime A) : js sess_state A :=
  zoom snd (λ r s, (s.1, r)) m.

Definition updateActivity : js sess_state unit :=
  t ← in_runtime Date_now; update (updateActivity_at t).

(** [msg.SessionId = v] for a JavaScript value: [writeUInt16LE] converts it. *)
Definition set_SessionId_js (v : json) (m : Message) : outcome Message :=
  n ← to_numeric v;
  b ← write_number_uint 2 n;
  set_buffer m <$> store_le 2 (le_Z b) (_buffer m) 1.

(** A node id as a condition: [undefined] and [0n] are false. *)
Definition node_truthy (v : option Z) : bool :=
  match v with Some z => negb (z =? 0) | None => false end.

Section crypto.
Context `{Aead} `{Kdf}.

(** [this.#cryptoContext._keys[i]] *)
Definition session_key (s : Session) (i : nat) : outcome buffer :=
  match cryptoContext s with
  | None => Throw TypeError
  | Some c => match _keys c !! i with Some k => Ret k | None => Throw TypeError end
  end.

(** The unencrypted branch of [sendMessage]: source or destination of the
    message.  Its last case calls [log.error], and [log] is not defined. *)
Definition address_message (msg : Message) : js sess_state Message :=
  i ← js_lift (Iflag msg);
  s ← self;
  if i : bool then
    (if node_truthy (_peerNodeId s) then mret tt
     else id ← in_runtime RandomU64; update (set_PeerNodeId (Some id))) ;;
    s ← self;
    msg ← js_lift (set_Dsiz DestinationType_Omit msg);
    msg ← js_lift (set_Sflag SourceType_NodeId msg);
    js_lift (set_SourceNodeId (default 0 (_peerNodeId s)) msg)
  else if node_truthy (_peerNodeId s) then
    msg ← js_lift (set_Sflag SourceType_Omit msg);
    msg ← js_lift (set_Dsiz DestinationType_NodeId msg);
    js_lift (set_DestinationNodeId (default 0 (_peerNodeId s)) msg)
  else js_throw ReferenceError.

(** [sendMessage(msg)] *)
Definition sendMessage (msg : Message) : js sess_state unit :=
  msg ← js_lift (set_MessageFlags 0 msg);
  msg ← js_lift (set_SecurityFlags 0 msg);
  s ← self;
  msg ← js_lift (set_SessionId_js (_peerSessionId s) msg);
  update next_counter ;;
  msg ← js_lift (set_MessageCounter (_messageCounter s) msg);
  update count_tx ;;
  e ← js_lift (isEncrypted msg);
  buf ← (if e : bool then
           i ← js_lift (Iflag msg);
           key ← js_lift (session_key s (if i : bool then kI2RKey else kR2IKey));
           js_lift (encrypt (_buffer msg) key)
         else
           msg ← address_message msg;
           mret (_buffer msg));
  s ← self;
  match s_peerInfo s with
  | None => js_throw TypeError
  | Some p => in_runtime (send (_transport s) buf (port p) (address p))
  end.

(** [decryptMessage(msg)]: the message, with its plaintext replaced when the
    deciphering succeeds. *)
Definition decryptMessage (s : Session) (msg : Message) : outcome Message :=
  u ← isUnencrypted msg;
  if u : bool then Ret msg
  else
    key ← session_key s (if _initiator s then kR2IKey else kI2RKey);
    match _encrypted msg with
    | None => Throw TypeError
    | Some buf =>
        dmsg ← decrypt buf key;
        match dmsg with
        | None => Ret msg
        | Some d => Ret (set_buffer msg d)
        end
    end.

(** [initFromSecret(secret, salt, info)]: on a session without a crypto context
    there is nothing to call. *)
Definition Session_initFromSecret (secret salt info : buffer) (s : Session)
    : outcome Session :=
  match cryptoContext s with
  | None => Throw TypeError
  | Some _ => c ← initFromSecret secret salt info 48; Ret (set_crypto c s)
  end.
End crypto.
