(* ===== verification/SessionManager.v ===== *)
(** * The session manager (src/message/SessionManager.js)

    Sessions are objects shared by the tables, the exchanges and the protocols,
    so they live in a heap, and a session is its index.  The manager's handlers
    end by emitting an event; the model returns it, and [ExchangeManager] is what
    consumes it. *)
From S2P Require Import Prelude JsNumber JsString TlvType Aead MsgCodec Message Runtime.
From S2P Require Import SessionCryptoContext Session.

Record SessionManager : Type := SM {
  sessions : list Session;
  _sessionsSecured : list nat;
  _sessionsUnsecured : list nat;
  sm_runtime : runtime }.

Definition SessionManager_new (r : runtime) : SessionManager := SM [] [] [] r.

Definition set_sessions (h : list Session) (m : SessionManager) : SessionManager :=
  SM h (_sessionsSecured m) (_sessionsUnsecured m) (sm_runtime m).
Definition set_sm_runtime (r : runtime) (m : SessionManager) : SessionManager :=
  SM (sessions m) (_sessionsSecured m) (_sessionsUnsecured m) r.

(** A method call on the session object [sid]. *)
Definition on_session {A} (sid : nat) (m : js sess_state A) : js SessionManager A := λ sm,
  match sessions sm !! sid with
  | None => (sm, Throw TypeError)
  | Some s => let '((s', r'), o) := m (s, sm_runtime sm) in
              (SM (<[sid := s']> (sessions sm)) (_sessionsSecured sm)
                  (_sessionsUnsecured sm) r', o)
  end.

Definition get_session (sid : nat) : js SessionManager Session := on_session sid self.
Definition update_session (sid : nat) (f : Session → Session) : js SessionManager unit :=
  on_session sid (update f).

(** [v === z] for a JavaScript value and a number. *)
Definition is_number (v : json) (z : Z) : bool :=
  match v with JNum n => bool_decide (num_val n = VInt z) | _ => false end.

(** [getSecureSession(sessionId)]: by the id the *peer* uses, [PeerSessionId],
    although the argument is the id of a received message, that is a local one. *)
Definition peer_id_is (sm : SessionManager) (sessionId : Z) (sid : nat) : bool :=
  match sessions sm !! sid with
  | Some s => is_number (_peerSessionId s) sessionId
  | None => false
  end.

Definition getSecureSession (sessionId : Z) (sm : SessionManager) : option nat :=
  snd <$> list_find (λ sid, peer_id_is sm sessionId sid = true) (_sessionsSecured sm).

(** [getUnsecureSession(peerInfo, peerNodeId)]: a session in the table whose peer
    address is not set yet makes the search throw. *)
Fixpoint find_unsecure (h : list Session) (peer : PeerInfo) (node : Z) (l : list nat)
    : outcome (option nat) :=
  match l with
  | [] => Ret None
  | sid :: l' =>
      match h !! sid ≫= (λ s, pair s <$> s_peerInfo s) with
      | None => Throw TypeError
      | Some (s, p) =>
          if bool_decide (address p = address peer) && (port p =? port peer)
             && match _peerNodeId s with Some n => n =? node | None => true end
          then Ret (Some sid) else find_unsecure h peer node l'
      end
  end.

Definition getUnsecureSession (peer : PeerInfo) (node : Z) (sm : SessionManager)
    : outcome (option nat) :=
  find_unsecure (sessions sm) peer node (_sessionsUnsecured sm).

(** [newSession(localSessionId, peerSessionId, isSecure)] *)
Definition newSession (localSessionId peerSessionId : json) (isSecure : bool)
    : js SessionManager nat :=
  s ← zoom sm_runtime set_sm_runtime (Session_new localSessionId peerSessionId isSecure);
  sm ← js_get;
  let sid := length (sessions sm) in
  js_put (SM (sessions sm ++ [s])
             (if isSecure then _sessionsSecured sm ++ [sid] else _sessionsSecured sm)
             (if isSecure then _sessionsUnsecured sm else _sessionsUnsecured sm ++ [sid])
             (sm_runtime sm)) ;;
  mret sid.

Definition newUnsecuredSession : js SessionManager nat :=
  newSession UNSECURED_SESSION_ID UNSECURED_SESSION_ID false.

(** The end of both receive handlers: the session follows the peer. *)
Definition track_peer (sid : nat) (msg : Message) : js SessionManager unit :=
  update_session sid (set_PeerInfo (_peerInfo msg)) ;;
  counter ← js_lift (MessageCounter msg);
  update_session sid (set_PeerMessageCounter counter) ;;
  on_session sid updateActivity.

(** [onUnsecuredMessage(msg)]: returns what it emits, the message and the
    session. *)
Definition onUnsecuredMessage (msg : Message) : js SessionManager (Message * nat) :=
  i ← js_lift (Iflag msg);
  peerNodeId ← js_lift (if i : bool then SourceNodeId msg else DestinationNodeId msg);
  peer ← js_lift (match _peerInfo msg with Some p => Ret p | None => Throw TypeError end);
  sm ← js_get;
  found ← js_lift (getUnsecureSession peer peerNodeId sm);
  sid ← match found with
        | Some sid =>
            s ← get_session sid;
            match _peerNodeId s with
            | None => src ← js_lift (SourceNodeId msg);
                      update_session sid (set_PeerNodeId (Some src)) ;; mret sid
            | Some _ => mret sid
            end
        | None =>
            sid ← newSession UNSECURED_SESSION_ID UNSECURED_SESSION_ID false;
            src ← js_lift (SourceNodeId msg);
            update_session sid (set_PeerNodeId (Some src)) ;; mret sid
        end;
  track_peer sid msg ;;
  mret (msg, sid).

Section crypto.
Context `{Aead}.

(** [onSecureMessage(buf, peerInfo)]: a message for an unknown id creates a
    session with the test keys, and a message that does not decrypt is emitted
    with its ciphertext as plaintext. *)
Definition onSecureMessage (buf : buffer) (peer : PeerInfo)
    : js SessionManager (Message * nat) :=
  let msg := Message_new (Some buf) (Some buf) (Some peer) in
  sessionId ← js_lift (SessionId msg);
  sm ← js_get;
  sid ← match getSecureSession sessionId sm with
        | Some sid => mret sid
        | None =>
            sid ← newSession (JNum (NInt sessionId)) (JNum (NInt sessionId)) true;
            src ← js_lift (SourceNodeId msg);
            update_session sid (set_PeerNodeId (Some src)) ;; mret sid
        end;
  s ← get_session sid;
  msg ← js_lift (decryptMessage s msg);
  track_peer sid msg ;;
  mret (msg, sid).

(** [onMessage(buf, peerInfo)] *)
Definition SessionManager_onMessage (buf : buffer) (peer : PeerInfo)
    : js SessionManager (Message * nat) :=
  let rawMsg := Message_new (Some buf) None (Some peer) in
  u ← js_lift (isUnencrypted rawMsg);
  if u : bool then onUnsecuredMessage rawMsg else onSecureMessage buf peer.
End crypto.
