(* ===== verification/Exchange.v ===== *)
(** * Exchanges (src/message/Exchange.js) *)
From S2P Require Import Prelude JsNumber TlvType Aead MsgCodec Message Runtime.
From S2P Require Import SessionCryptoContext Session SessionManager.

(** [listeners]: the subscribers to the exchange's ["message"] event, in order. *)
Record Exchange : Type := Exch {
  ex_session : nat;
  _exchangeId : Z;
  _isInitiator : bool;
  _isReliable : bool;
  _isAck : bool;
  _ackCounter : Z;
  listeners : list nat }.

(** [new Exchange(exchangeId, session, isInitiator)] *)
Definition Exchange_new (exchangeId : Z) (session : nat) (isInitiator : bool) : Exchange :=
  Exch session exchangeId isInitiator false false 0 [].

Definition set_isInitiator (v : bool) (e : Exchange) : Exchange :=
  Exch (ex_session e) (_exchangeId e) v (_isReliable e) (_isAck e) (_ackCounter e) (listeners e).
Definition set_isReliable (v : bool) (e : Exchange) : Exchange :=
  Exch (ex_session e) (_exchangeId e) (_isInitiator e) v (_isAck e) (_ackCounter e) (listeners e).
Definition set_isAck (v : bool) (e : Exchange) : Exchange :=
  Exch (ex_session e) (_exchangeId e) (_isInitiator e) (_isReliable e) v (_ackCounter e)
    (listeners e).
Definition set_ackCounter (v : Z) (e : Exchange) : Exchange :=
  Exch (ex_session e) (_exchangeId e) (_isInitiator e) (_isReliable e) (_isAck e) v (listeners e).

(** [exchange.on("message", ...)] *)
Definition add_listener (l : nat) (e : Exchange) : Exchange :=
  Exch (ex_session e) (_exchangeId e) (_isInitiator e) (_isReliable e) (_isAck e)
    (_ackCounter e) (listeners e ++ [l]).

(** [match(session, msg)]: the tests are in the order of the code, and a test
    that fails stops the ones behind it. *)
Definition match_exchange (e : Exchange) (session : nat) (local : json) (msg : Message)
    : outcome bool :=
  exchangeId ← ExchangeId msg;
  if negb (exchangeId =? _exchangeId e) then Ret false
  else
    sessionId ← SessionId msg;
    if negb (is_number local sessionId) then Ret false
    else
      i ← Iflag msg;
      Ret (negb (Bool.eqb i (_isInitiator e)) && (session =? ex_session e)%nat).

Section crypto.
Context `{Aead}.

(** [sendMessage(msg)] *)
Definition Exchange_sendMessage (e : Exchange) (msg : Message) : js SessionManager unit :=
  msg ← js_lift (set_ExchangeId (_exchangeId e) msg);
  msg ← js_lift (set_ExchangeFlags 0 msg);
  msg ← js_lift (set_Iflag (_isInitiator e) msg);
  msg ← js_lift (set_Rflag (_isReliable e) msg);
  msg ← js_lift (if _isAck e then msg ← set_Aflag true msg; set_AckCounter (_ackCounter e) msg
                 else Ret msg);
  _ ← js_lift (SessionId msg);
  on_session (ex_session e) (sendMessage msg).

(** [sendAck()] *)
Definition sendAck (e : Exchange) : js SessionManager unit :=
  let ack := Message_new None None None in
  ack ← js_lift (set_ExchangeId (_exchangeId e) ack);
  ack ← js_lift (set_ExchangeFlags 0 ack);
  ack ← js_lift (set_Aflag true ack);
  ack ← js_lift (set_AckCounter (_ackCounter e) ack);
  ack ← js_lift (set_Iflag (_isInitiator e) ack);
  on_session (ex_session e) (sendMessage ack).
End crypto.
