(* ===== verification/ExchangeManager.v ===== *)
(** * The exchange manager (src/message/ExchangeManager.js)

    Exchanges, like sessions, are shared objects in a heap.  [onSessionMessage]
    ends by emitting the message to the exchange's listeners or to the protocol
    it names; the model returns that event. *)
From S2P Require Import Prelude JsNumber TlvType Aead MsgCodec Message Runtime.
From S2P Require Import SessionCryptoContext Session SessionManager Exchange.

Record ExchangeManager : Type := EM {
  em_sessions : SessionManager;
  exchange_heap : list Exchange;
  _exchanges : list nat;
  _nextExchangeId : Z }.

Definition ExchangeManager_new (sm : SessionManager) : ExchangeManager := EM sm [] [] 0.

Definition set_em_sessions (sm : SessionManager) (m : ExchangeManager) : ExchangeManager :=
  EM sm (exchange_heap m) (_exchanges m) (_nextExchangeId m).

Definition in_sessions {A} (m : js SessionManager A) : js ExchangeManager A :=
  zoom em_sessions set_em_sessions m.

Definition update_exchange (x : nat) (f : Exchange → Exchange) : js ExchangeManager unit :=
  js_modify (λ m, EM (em_sessions m) (alter f x (exchange_heap m)) (_exchanges m)
                     (_nextExchangeId m)).

Definition get_exchange (x : nat) : js ExchangeManager Exchange := λ m,
  match exchange_heap m !! x with
  | Some e => (m, Ret e)
  | None => (m, Throw TypeError)
  end.

(** [ex.match(session, msg)] for the exchange object [x]. *)
Definition match_at (m : ExchangeManager) (session : nat) (msg : Message) (x : nat)
    : outcome bool :=
  match exchange_heap m !! x with
  | None => Throw TypeError
  | Some e =>
      match sessions (em_sessions m) !! ex_session e with
      | None => Throw TypeError
      | Some s => match_exchange e session (_localSessionId s) msg
      end
  end.

(** [getExchange(session, msg)] *)
Fixpoint find_exchange (m : ExchangeManager) (session : nat) (msg : Message) (l : list nat)
    : outcome (option nat) :=
  match l with
  | [] => Ret None
  | x :: l' => b ← match_at m session msg x;
               if b : bool then Ret (Some x) else find_exchange m session msg l'
  end.

Definition getExchange (session : nat) (msg : Message) (m : ExchangeManager)
    : outcome (option nat) :=
  find_exchange m session msg (_exchanges m).

(** The id of a new exchange: the message's, or the next one of our own. *)
Definition next_exchange_id (msg : option Message) : js ExchangeManager Z :=
  match msg with
  | Some msg => js_lift (ExchangeId msg)
  | None => λ m, (EM (em_sessions m) (exchange_heap m) (_exchanges m) (_nextExchangeId m + 1),
                  Ret (_nextExchangeId m))
  end.

Definition push_exchange (e : Exchange) : js ExchangeManager nat := λ m,
  (EM (em_sessions m) (exchange_heap m ++ [e]) (_exchanges m ++ [length (exchange_heap m)])
      (_nextExchangeId m), Ret (length (exchange_heap m))).

(** [newExchange(session, msg, isInitiator)] *)
Definition newExchange (session : option nat) (msg : option Message) (isInitiator : bool)
    : js ExchangeManager nat :=
  session ← match session with
            | Some sid => mret sid
            | None => in_sessions newUnsecuredSession
            end;
  exchangeId ← next_exchange_id msg;
  push_exchange (Exchange_new exchangeId session isInitiator).

(** [deleteExchange(exchange)]: the ids it compares are both [undefined] ([Exchange]
    has no getter [ExchangeId]), so the first exchange is the one removed. *)
Definition deleteExchange (x : nat) : js ExchangeManager unit :=
  js_modify (λ m, EM (em_sessions m) (exchange_heap m) (tail (_exchanges m))
                     (_nextExchangeId m)).

(** What a received message is handed to. *)
Inductive dispatch : Type :=
  | ToExchange (x : nat) (msg : Message)
  | ToProtocol (protocolId : Z) (x : nat) (msg : Message)
  | Dropped.

(** [onSessionMessage(msg, session)] *)
Definition onSessionMessage (msg : Message) (session : nat) : js ExchangeManager dispatch :=
  _ ← js_lift (SessionId msg);
  _ ← js_lift (ExchangeId msg);
  i ← js_lift (Iflag msg);
  m ← js_get;
  found ← js_lift (getExchange session msg m);
  match found with
  | Some x =>
      counter ← js_lift (MessageCounter msg);
      update_exchange x (set_ackCounter counter) ;;
      mret (ToExchange x msg)
  | None =>
      if i : bool then
        protocolId ← js_lift (ProtocolId msg);
        x ← newExchange (Some session) (Some msg) true;
        update_exchange x (set_isInitiator (negb i)) ;;
        r ← js_lift (Rflag msg);
        update_exchange x (set_isReliable r) ;;
        update_exchange x (set_isAck r) ;;
        counter ← js_lift (MessageCounter msg);
        update_exchange x (set_ackCounter counter) ;;
        mret (ToProtocol protocolId x msg)
      else mret Dropped
  end.

Section crypto.
Context `{Aead}.

(** A datagram through both managers: [SessionManager.onMessage], the event it
    emits, [ExchangeManager.onSessionMessage]. *)
Definition receive (buf : buffer) (peer : PeerInfo) : js ExchangeManager dispatch :=
  '(msg, sid) ← in_sessions (SessionManager_onMessage buf peer);
  onSessionMessage msg sid.

(** [exchange.sendMessage(msg)] for the exchange object [x]. *)
Definition send_on (x : nat) (msg : Message) : js ExchangeManager unit :=
  e ← get_exchange x;
  in_sessions (Exchange_sendMessage e msg).
End crypto.
