(* ===== verification/MessagingFacts.v ===== *)
(** * Facts about the message layer

    Sending: which header fields survive the way from [set_MessageCounter] to the
    socket.  Tables: the invariant of the session and exchange managers and that
    every operation keeps it, exceptions included. *)
From S2P Require Import Prelude JsNumber JsString TlvType TlvWriter Aead MsgCodec Message.
From S2P Require Import MessageTheorems Runtime SessionCryptoContext Session.
From S2P Require Import SessionManager Exchange ExchangeManager.

(** ** The counter field along the setters *)

Definition has_counter (c : Z) (b : buffer) : Prop := read_uint_le 4 b 4 = Ret c.

Lemma read_app_l n a x off :
  0 <= off → off + Z.of_nat n <= blen a → read_uint_le n (a ++ x) off = read_uint_le n a off.
Proof.
  intros H1 H2. unfold read_uint_le. rewrite blen_app. pose proof (blen_nonneg x).
  destruct (Z.leb_spec 0 off); [|lia].
  destruct (Z.leb_spec (off + Z.of_nat n) (blen a + blen x)); [|lia].
  destruct (Z.leb_spec (off + Z.of_nat n) (blen a)); [|lia]. cbn [andb].
  unfold blen in *. rewrite drop_app_le by lia.
  rewrite take_app_le; [done|]. rewrite length_drop. lia.
Qed.

Lemma blen_subarray_min b i : 0 <= i → blen (subarray b 0 i) = Z.min i (blen b).
Proof.
  intros Hi. rewrite subarray_nonneg by lia. unfold blen. rewrite length_take, length_drop.
  lia.
Qed.

Lemma read_prefix n b off v i x :
  read_uint_le n b off = Ret v → off + Z.of_nat n <= i →
  read_uint_le n (subarray b 0 i ++ x) off = Ret v.
Proof.
  intros H Hi. pose proof H as (H1 & H2 & _)%read_uint_le_ret.
  pose proof (blen_subarray_min b i). rewrite read_app_l by lia.
  pose proof (read_app_l n (subarray b 0 i) (subarray_from b i) off) as Hr.
  rewrite subarray_split in Hr by lia. rewrite <- Hr by lia. done.
Qed.

Lemma has_counter_field c n off v m m' :
  has_counter c (_buffer m) → set_field n off v m = Ret m' →
  off + Z.of_nat n <= 4 ∨ 8 <= off → has_counter c (_buffer m').
Proof.
  intros Hc H Hoff. unfold set_field, write_uint_le in H.
  destruct ((0 <=? v) && _); [|done].
  destruct (store_le n v (_buffer m) off) as [b|] eqn:Hb; [|done]. cbn in H. inv_ret.
  unfold has_counter in *. cbn [set_buffer _buffer].
  rewrite (store_read_other n v (_buffer m) off) by (done || lia). done.
Qed.

Lemma has_counter_insert c b off n :
  has_counter c b → 8 <= off → has_counter c (insert_zeros b off n).
Proof. intros H Hoff. apply read_prefix; [done|]. cbn. lia. Qed.

Lemma has_counter_flags c v m m' :
  has_counter c (_buffer m) → set_MessageFlags v m = Ret m' → has_counter c (_buffer m').
Proof. intros Hc H. eapply has_counter_field; [done|exact H|]. left. lia. Qed.

Lemma has_counter_Sflag c v m m' :
  has_counter c (_buffer m) → set_Sflag v m = Ret m' → has_counter c (_buffer m').
Proof. unfold set_Sflag. intros Hc H. inv_ret. eauto using has_counter_flags. Qed.

Lemma has_counter_Dsiz c v m m' :
  has_counter c (_buffer m) → set_Dsiz v m = Ret m' → has_counter c (_buffer m').
Proof. unfold set_Dsiz. intros Hc H. inv_ret. eauto using has_counter_flags. Qed.

Lemma has_counter_source c v m m' :
  has_counter c (_buffer m) → set_SourceNodeId v m = Ret m' → has_counter c (_buffer m').
Proof.
  unfold set_SourceNodeId. intros Hc H. apply outcome_bind_Ret in H as ([] & _ & H);
    [|by inv_ret].
  eapply has_counter_field; [|exact H|right; unfold MESSAGE_HEADER_MIN_SIZE; lia].
  destruct (_hasSource m); [done|]. by apply has_counter_insert.
Qed.

Lemma destination_offset_ge m off : destination_offset m = Ret off → 8 <= off.
Proof.
  unfold destination_offset. intros H. destruct (Sflag m) as [b|]; [|done]. cbn in H. inv_ret.
  destruct b; unfold MESSAGE_HEADER_MIN_SIZE; lia.
Qed.

Lemma has_counter_destination c v m m' :
  has_counter c (_buffer m) → set_DestinationNodeId v m = Ret m' → has_counter c (_buffer m').
Proof.
  unfold set_DestinationNodeId. intros Hc H.
  apply outcome_bind_Ret in H as (off & Hoff%destination_offset_ge & H).
  apply outcome_bind_Ret in H as (d & _ & H).
  destruct (d =? 0); [by inv_ret|]. apply outcome_bind_Ret in H as (m1 & H1 & H).
  assert (has_counter c (_buffer m1)) as Hc1.
  { repeat case_match; inv_ret; try done; by apply has_counter_insert. }
  destruct (d =? 1); [by eapply has_counter_field; [|done|right]|].
  destruct (d =? 2); [by eapply has_counter_field; [|done|right]|]. by inv_ret.
Qed.

(** What the counter setter leaves behind. *)
Lemma set_MessageCounter_has c m m' :
  set_MessageCounter c m = Ret m' → fits 4 c ∧ has_counter c (_buffer m').
Proof.
  unfold set_MessageCounter, set_field, write_uint_le. intros H.
  destruct ((0 <=? c) && _) eqn:E; [|done]. zbool.
  destruct (store_le 4 c (_buffer m) 4) as [b|] eqn:Hb; [|done]. cbn in H. inv_ret.
  split; [by unfold fits|]. cbn. by eapply store_read_same; [|done].
Qed.

(** Steps of a session method. *)
Lemma self_inv st st' s : self st = (st', Ret s) → st' = st ∧ s = st.1.
Proof. intros H. by injection H as <- <-. Qed.

Lemma update_inv f st st' u : update f st = (st', Ret u) → st' = (f st.1, st.2).
Proof. intros H. by injection H as <-. Qed.

Lemma in_runtime_inv {A} (m : js runtime A) st st' a :
  in_runtime m st = (st', Ret a) → ∃ r, m st.2 = (r, Ret a) ∧ st' = (st.1, r).
Proof. unfold in_runtime. intros H. apply zoom_inv in H as (r & H & ->). by exists r. Qed.

Lemma RandomU64_sent r r' z : RandomU64 r = (r', Ret z) → sent r' = sent r.
Proof.
  unfold RandomU64. intros H. js_inv.
  match goal with H : Random _ _ = _ |- _ => apply Random_ret in H as (_ & H & _) end. done.
Qed.

Ltac sess_inv :=
  repeat first
  [ progress js_inv
  | match goal with
    | H : self _ = (_, Ret _) |- _ => apply self_inv in H as [-> ->]
    | H : update _ _ = (_, Ret _) |- _ => apply update_inv in H as ->
    | H : in_runtime _ _ = (_, Ret _) |- _ => apply in_runtime_inv in H as (? & H & ->)
    end ]; cbn [fst snd] in *.

Section crypto.
Context `{HA : Aead} {HL : AeadLaws HA}.

(** The cleartext header of an encrypted message keeps the counter. *)
Lemma has_counter_encrypt c msg key b :
  has_counter c msg → encrypt msg key = Ret b → has_counter c b.
Proof.
  unfold encrypt. intros Hc H. apply outcome_bind_Ret in H as (nonce & _ & H).
  apply outcome_bind_Ret in H as ([enc tag] & _ & H). inv_ret.
  apply read_prefix; [done|]. pose proof (header_size_ge msg). cbn. lia.
Qed.

(** The parts of a session that addressing a message does not touch. *)
Definition same_link (s s' : Session) : Prop :=
  _messageCounter s' = _messageCounter s ∧ s_peerInfo s' = s_peerInfo s ∧
  _transport s' = _transport s ∧ _peerSessionId s' = _peerSessionId s ∧
  cryptoContext s' = cryptoContext s.

Lemma address_message_spec msg s r st' msg' c :
  address_message msg (s, r) = (st', Ret msg') → has_counter c (_buffer msg) →
  has_counter c (_buffer msg') ∧ same_link s st'.1 ∧ sent st'.2 = sent r.
Proof.
  unfold address_message. intros H Hc. sess_inv.
  match goal with H : Iflag msg = Ret ?i |- _ => destruct i end.
  - apply js_bind_inv in H as (st1 & [] & H1 & H).
    assert (same_link s st1.1 ∧ sent st1.2 = sent r) as [Hl Hs].
    { destruct (node_truthy _); sess_inv; [done|].
      split; [done|]. cbn. by eapply RandomU64_sent. }
    sess_inv. split_and!; [|done..].
    eauto using has_counter_source, has_counter_Sflag, has_counter_Dsiz.
  - destruct (node_truthy _); sess_inv. split_and!; [|done..].
    eauto using has_counter_destination, has_counter_Sflag, has_counter_Dsiz.
Qed.

(** A successful send: one datagram, with the session's counter in clear. *)
Lemma sendMessage_spec msg s r st' :
  sendMessage msg (s, r) = (st', Ret tt) →
  fits 4 (_messageCounter s) ∧ _messageCounter st'.1 = _messageCounter s + 1 ∧
  ∃ d, sent st'.2 = sent r ++ [d] ∧ has_counter (_messageCounter s) (dg_buf d).
Proof.
  unfold sendMessage. intros H. sess_inv.
  match goal with H : set_MessageCounter _ _ = _ |- _ =>
    apply set_MessageCounter_has in H as [Hfits Hc] end.
  match goal with H : isEncrypted _ = Ret ?e |- _ => rename e into enc end.
  match goal with H : (if enc then _ else _) _ = (?st, Ret ?buf) |- _ =>
    assert (has_counter (_messageCounter s) buf ∧ same_link (count_tx (next_counter s)) st.1
            ∧ sent st.2 = sent r) as (Hb & (Hcnt & _) & Hsent);
    [|clear H; rename st into st1, buf into out] end.
  { destruct enc; sess_inv.
    - split_and!; [|done..]. by eapply has_counter_encrypt.
    - match goal with H : address_message _ _ = _ |- _ =>
        eapply address_message_spec in H as (? & ? & ?); [|exact Hc] end. done. }
  destruct (s_peerInfo st1.1) as [p|]; [|done]. sess_inv.
  match goal with H : send _ _ _ _ _ = _ |- _ => apply js_modify_inv in H; subst end.
  split_and!; [done|by rewrite Hcnt|]. cbn [sent].
  eexists. rewrite Hsent. split; [reflexivity|done].
Qed.
End crypto.

(** ** The invariant of the session tables *)

(** A secure session has its three keys; an unsecured one has none and the id 0. *)
Definition session_wf (s : Session) : Prop :=
  if _secure s then ∃ c, cryptoContext s = Some c ∧ length (_keys c) = 3%nat
  else cryptoContext s = None ∧ _peerSessionId s = UNSECURED_SESSION_ID.

(** Every session is in exactly the table of its kind, once; [n] counts sessions
    that exist already, and sessions never disappear. *)
Definition sm_ok (n : nat) (sm : SessionManager) : Prop :=
  Forall session_wf (sessions sm) ∧ (n <= length (sessions sm))%nat ∧
  (∀ i, i ∈ _sessionsSecured sm ↔ ∃ s, sessions sm !! i = Some s ∧ _secure s = true) ∧
  (∀ i, i ∈ _sessionsUnsecured sm ↔ ∃ s, sessions sm !! i = Some s ∧ _secure s = false) ∧
  NoDup (_sessionsSecured sm) ∧ NoDup (_sessionsUnsecured sm).

(** What a method of a session keeps. *)
Definition kind_ok (b : bool) (st : sess_state) : Prop :=
  session_wf st.1 ∧ _secure st.1 = b.

Lemma keeps_self b : keeps (kind_ok b) self.
Proof. by intros st. Qed.

Lemma keeps_in_runtime {A} b (m : js runtime A) : keeps (kind_ok b) (in_runtime m).
Proof. apply (keeps_zoom _ _ _ (λ _, True)); [done|done|by intros [] ? ?]. Qed.

Lemma keeps_update b f :
  (∀ s, _secure (f s) = _secure s ∧ cryptoContext (f s) = cryptoContext s ∧
        _peerSessionId (f s) = _peerSessionId s) →
  keeps (kind_ok b) (update f).
Proof.
  intros H. apply keeps_modify. intros [s r] [H1 H2]. unfold kind_ok, session_wf in *. cbn in *.
  destruct (H s) as (-> & -> & ->). done.
Qed.

#[export] Hint Resolve keeps_self keeps_in_runtime : keeps.
#[export] Hint Extern 2 (keeps (kind_ok _) (update _)) =>
  (apply keeps_update; intros; split_and!; reflexivity) : keeps.

Section methods.
Context `{HA : Aead}.

Lemma keeps_address_message b msg : keeps (kind_ok b) (address_message msg).
Proof.
  unfold address_message. apply keeps_bind; [auto with keeps|intros i].
  apply keeps_bind; [auto with keeps|intros s]. repeat case_match; auto 20 with keeps.
Qed.

Lemma keeps_sendMessage b msg : keeps (kind_ok b) (sendMessage msg).
Proof.
  unfold sendMessage. do 8 (apply keeps_bind; [auto with keeps|intros ?]).
  apply keeps_bind; [|intros ?].
  { match goal with |- keeps _ (if ?e then _ else _) => destruct e end.
    - auto 10 with keeps.
    - apply keeps_bind; [apply keeps_address_message|auto with keeps]. }
  apply keeps_bind; [auto with keeps|intros ?]. case_match; auto with keeps.
Qed.

Lemma keeps_updateActivity b : keeps (kind_ok b) updateActivity.
Proof. unfold updateActivity. auto 10 with keeps. Qed.

End methods.

(** A method call on a session keeps the tables. *)
Lemma keeps_on_session {A} n sid (m : js sess_state A) :
  (∀ b, keeps (kind_ok b) m) → keeps (sm_ok n) (on_session sid m).
Proof.
  intros Hm sm (Hwf & Hn & Hs & Hu & Hd1 & Hd2). unfold on_session.
  destruct (sessions sm !! sid) as [s|] eqn:E; [|by split_and!].
  pose proof (Forall_lookup_1 _ _ _ _ Hwf E) as Hws.
  specialize (Hm (_secure s) (s, sm_runtime sm) (conj Hws eq_refl)).
  destruct (m (s, sm_runtime sm)) as [[s' r'] o]. destruct Hm as [Hwf' Hk].
  cbn [fst snd] in Hk, Hwf' |- *.
  assert (∀ b i, (∃ s0, sessions sm !! i = Some s0 ∧ _secure s0 = b) ↔
                 ∃ s0, <[sid:=s']> (sessions sm) !! i = Some s0 ∧ _secure s0 = b) as Hiff.
  { intros b i. destruct (decide (i = sid)) as [->|Hne].
    - rewrite list_lookup_insert_eq by (by eapply lookup_lt_Some). rewrite E.
      split; intros (s0 & H0 & Hb); simplify_eq; eauto.
    - by rewrite list_lookup_insert_ne by done. }
  unfold sm_ok. cbn. rewrite length_insert. split_and!; try done.
  - by apply Forall_insert.
  - intros i. rewrite Hs. apply Hiff.
  - intros i. rewrite Hu. apply Hiff.
Qed.

Lemma session_new_wf local peer secure r r' s :
  Session_new local peer secure r = (r', Ret s) →
  _secure s = secure ∧ (secure = false → peer = UNSECURED_SESSION_ID) → session_wf s.
Proof.
  unfold Session_new. intros H [Hs Hp]. js_inv. subst. unfold session_wf. cbn in *.
  destruct secure; [|by rewrite Hp]. eexists. split; [reflexivity|reflexivity].
Qed.

Lemma Session_new_ret local peer secure r :
  ∃ r' s, Session_new local peer secure r = (r', Ret s) ∧ _secure s = secure ∧
          _localSessionId s = local ∧ _peerSessionId s = peer ∧
          _peerNodeId s = None ∧ s_peerInfo s = None ∧ sent r' = sent r ∧
          1 <= _messageCounter s <= 2 ^ 28 ∧
          cryptoContext s = (if secure then Some SessionCryptoContext_new else None).
Proof.
  unfold Session_new, RandomU32. unfold Random at 1.
  unfold mbind, js_bind, mret, js_ret. cbn beta iota.
  eexists _, _. split; [reflexivity|]. cbn -[Z.land]. split_and!; try done.
  - match goal with |- _ <= Z.land ?x _ + 1 => set (r0 := x) end.
    assert (0 <= Z.land r0 0x0FFFFFFF) by (apply Z.land_nonneg; right; lia). lia.
  - match goal with |- Z.land ?x _ + 1 <= _ => set (r0 := x) end.
    change 0x0FFFFFFF with (Z.ones 28). rewrite Z.land_ones by lia.
    pose proof (Z.mod_pos_bound r0 (2 ^ 28) ltac:(lia)). lia.
Qed.

Lemma newSession_spec local peer secure sm :
  ∃ s r', newSession local peer secure sm =
    (SM (sessions sm ++ [s])
        (if secure then _sessionsSecured sm ++ [length (sessions sm)] else _sessionsSecured sm)
        (if secure then _sessionsUnsecured sm else _sessionsUnsecured sm ++ [length (sessions sm)])
        r', Ret (length (sessions sm))) ∧
    Session_new local peer secure (sm_runtime sm) = (r', Ret s) ∧ _secure s = secure ∧
    _localSessionId s = local ∧ _peerSessionId s = peer ∧ _peerNodeId s = None ∧
    s_peerInfo s = None ∧ sent r' = sent (sm_runtime sm) ∧ 1 <= _messageCounter s <= 2 ^ 28 ∧
    cryptoContext s = (if secure then Some SessionCryptoContext_new else None).
Proof.
  destruct (Session_new_ret local peer secure (sm_runtime sm)) as (r' & s & Hs & Hrest).
  exists s, r'. split; [|by split].
  unfold newSession, zoom, mbind, js_bind. rewrite Hs. done.
Qed.

Lemma sm_ok_grow n sm s r :
  sm_ok n sm → session_wf s →
  sm_ok n (SM (sessions sm ++ [s])
    (if _secure s then _sessionsSecured sm ++ [length (sessions sm)] else _sessionsSecured sm)
    (if _secure s then _sessionsUnsecured sm else _sessionsUnsecured sm ++ [length (sessions sm)])
    r).
Proof.
  intros (Hwf & Hn & Hs & Hu & Hd1 & Hd2) Hws. unfold sm_ok. cbn.
  assert (∀ b i, (∃ s0, (sessions sm ++ [s]) !! i = Some s0 ∧ _secure s0 = b) ↔
    (∃ s0, sessions sm !! i = Some s0 ∧ _secure s0 = b) ∨
    (i = length (sessions sm) ∧ _secure s = b)) as Hiff.
  { intros b i. destruct (decide (i < length (sessions sm))%nat).
    - rewrite lookup_app_l by done. split; [by left|]. intros [?|[-> _]]; [done|lia].
    - rewrite lookup_app_r, (lookup_ge_None_2 (sessions sm)) by lia.
      destruct (i - length (sessions sm))%nat as [|k] eqn:E; cbn.
      + split; [intros (s0 & Heq & Hb); simplify_eq; right; split; [lia|done]|].
        intros [(? & ? & ?)|[_ Hb]]; [done|by eauto].
      + split; [intros (? & ? & ?); done|]. intros [(? & ? & ?)|[-> _]]; [done|lia]. }
  assert (∀ i l, (∀ j, j ∈ l → (j < length (sessions sm))%nat) → NoDup l →
            i = length (sessions sm) → NoDup (l ++ [i])) as Hnd.
  { intros i l Hl Hd ->. apply NoDup_app. split_and!; [done| |apply NoDup_singleton].
    intros j Hj Hj'. apply list_elem_of_singleton in Hj' as ->. apply Hl in Hj. lia. }
  split_and!.
  - apply Forall_app. split; [done|by constructor].
  - rewrite length_app. cbn. lia.
  - intros i. rewrite Hiff, <- Hs. destruct (_secure s); [|naive_solver].
    rewrite elem_of_app, list_elem_of_singleton. naive_solver.
  - intros i. rewrite Hiff, <- Hu. destruct (_secure s); [naive_solver|].
    rewrite elem_of_app, list_elem_of_singleton. naive_solver.
  - destruct (_secure s); [|done]. apply Hnd; [|done|done].
    intros j (s0 & Hj & _)%Hs. by eapply lookup_lt_Some.
  - destruct (_secure s); [done|]. apply Hnd; [|done|done].
    intros j (s0 & Hj & _)%Hu. by eapply lookup_lt_Some.
Qed.

Lemma keeps_newSession n local peer secure :
  (secure = false → peer = UNSECURED_SESSION_ID) →
  keeps (sm_ok n) (newSession local peer secure).
Proof.
  intros Hp sm Hok.
  destruct (newSession_spec local peer secure sm) as (s & r' & -> & Hs & Hsec & _).
  cbn [fst]. rewrite <- Hsec. apply sm_ok_grow; [done|].
  eapply session_new_wf; [done|]. by split.
Qed.

#[export] Hint Resolve keeps_newSession keeps_updateActivity : keeps.
#[export] Hint Extern 1 (keeps (sm_ok _) (on_session _ _)) =>
  (apply keeps_on_session; intros) : keeps.
#[export] Hint Extern 1 (keeps (sm_ok _) (update_session _ _)) =>
  (apply keeps_on_session; intros; apply keeps_update; intros; split_and!; reflexivity) : keeps.
#[export] Hint Extern 1 (keeps (sm_ok _) (get_session _)) =>
  (apply keeps_on_session; intros; apply keeps_self) : keeps.

Lemma keeps_track_peer n sid msg : keeps (sm_ok n) (track_peer sid msg).
Proof. unfold track_peer. auto 20 with keeps. Qed.

#[export] Hint Resolve keeps_track_peer : keeps.

Lemma keeps_onUnsecuredMessage n msg : keeps (sm_ok n) (onUnsecuredMessage msg).
Proof.
  unfold onUnsecuredMessage. do 5 (apply keeps_bind; [auto with keeps|intros ?]).
  apply keeps_bind; [|intros ?; auto 10 with keeps].
  case_match; [apply keeps_bind; [auto with keeps|intros s]; case_match|]; auto 20 with keeps.
Qed.

Section receiving.
Context `{HA : Aead}.

Lemma keeps_onSecureMessage n buf peer : keeps (sm_ok n) (onSecureMessage buf peer).
Proof.
  unfold onSecureMessage. do 2 (apply keeps_bind; [auto with keeps|intros ?]).
  apply keeps_bind; [|intros ?; auto 20 with keeps].
  case_match; [auto with keeps|]. apply keeps_bind; [by apply keeps_newSession|].
  intros ?. auto 20 with keeps.
Qed.

Lemma keeps_onMessage n buf peer : keeps (sm_ok n) (SessionManager_onMessage buf peer).
Proof.
  unfold SessionManager_onMessage. apply keeps_bind; [auto with keeps|intros u].
  apply keeps_if; [apply keeps_onUnsecuredMessage|apply keeps_onSecureMessage].
Qed.

Lemma keeps_exchange_send n e msg : keeps (sm_ok n) (Exchange_sendMessage e msg).
Proof.
  unfold Exchange_sendMessage. do 6 (apply keeps_bind; [auto with keeps|intros ?]).
  apply keeps_on_session. intros b. apply keeps_sendMessage.
Qed.
End receiving.

(** ** The invariant of the exchange manager *)

(** Exchanges refer to sessions that exist, the table to exchanges that exist. *)
Definition em_ok (m : ExchangeManager) : Prop :=
  sm_ok 0 (em_sessions m) ∧
  Forall (λ e, (ex_session e < length (sessions (em_sessions m)))%nat) (exchange_heap m) ∧
  Forall (λ x, (x < length (exchange_heap m))%nat) (_exchanges m) ∧
  NoDup (_exchanges m).

Lemma sm_ok_weaken n sm : sm_ok n sm → sm_ok 0 sm.
Proof. intros (? & _ & ?). split_and!; try done; try lia; naive_solver. Qed.

Lemma sm_ok_now sm : sm_ok 0 sm → sm_ok (length (sessions sm)) sm.
Proof. intros (? & _ & ?). split_and!; try done; try lia; naive_solver. Qed.

(** An operation of the session manager, which never drops a session. *)
Lemma keeps_in_sessions {A} (m : js SessionManager A) :
  (∀ n, keeps (sm_ok n) m) → keeps em_ok (in_sessions m).
Proof.
  intros Hm s (Hsm & He & Ht & Hd). unfold in_sessions, zoom.
  pose proof (Hm _ _ (sm_ok_now _ Hsm)) as H.
  destruct (m (em_sessions s)) as [sm o]. cbn [fst] in *.
  split_and!; cbn; [by eapply sm_ok_weaken| |done|done].
  eapply Forall_impl; [exact He|]. cbn. intros e Hlt.
  destruct H as (_ & Hn & _). lia.
Qed.

Lemma keeps_update_exchange x f :
  (∀ e, ex_session (f e) = ex_session e) → keeps em_ok (update_exchange x f).
Proof.
  intros Hf. apply keeps_modify. intros m (Hsm & He & Ht & Hd).
  split_and!; cbn; [done| |by rewrite length_alter|done].
  apply Forall_alter; [done|]. intros e _ Hlt. by rewrite Hf.
Qed.

(** The invariant, with a session known to exist. *)
Definition em_ok_at (sid : nat) (m : ExchangeManager) : Prop :=
  em_ok m ∧ (sid < length (sessions (em_sessions m)))%nat.

Lemma keeps_update_exchange_at sid x f :
  (∀ e, ex_session (f e) = ex_session e) → keeps (em_ok_at sid) (update_exchange x f).
Proof. intros Hf m [Hm Hs]. split; [by apply keeps_update_exchange|done]. Qed.

Lemma keeps_next_exchange_id sid msg : keeps (em_ok_at sid) (next_exchange_id msg).
Proof. intros m Hm. by destruct msg. Qed.

Lemma keeps_push_exchange sid e :
  ex_session e = sid → keeps (em_ok_at sid) (push_exchange e).
Proof.
  intros <- m [(Hsm & He & Ht & Hd) Hlt]. split; [|done]. split_and!; cbn; [done|..].
  - apply Forall_app. split; [done|by constructor].
  - rewrite length_app. cbn. apply Forall_app. split; [|constructor; [lia|done]].
    eapply Forall_impl; [exact Ht|]. cbn. lia.
  - apply NoDup_app. split_and!; [done| |apply NoDup_singleton].
    intros x Hx Hx'. apply list_elem_of_singleton in Hx' as ->.
    eapply Forall_forall in Ht; [|exact Hx]. cbn in Ht. lia.
Qed.

#[export] Hint Extern 1 (keeps (em_ok_at _) (update_exchange _ _)) =>
  (apply keeps_update_exchange_at; intros; reflexivity) : keeps.

Lemma keeps_newExchange sid msg i : keeps (em_ok_at sid) (newExchange (Some sid) msg i).
Proof.
  unfold newExchange. intros m Hm. unfold mbind at 1, js_bind at 1. cbn.
  revert m Hm. apply keeps_bind; [apply keeps_next_exchange_id|].
  intros id. by apply keeps_push_exchange.
Qed.

Lemma keeps_newExchange_unsecured msg i : keeps em_ok (newExchange None msg i).
Proof.
  intros m Hm. unfold newExchange. unfold mbind at 1, js_bind at 1.
  destruct (newSession_spec UNSECURED_SESSION_ID UNSECURED_SESSION_ID false (em_sessions m))
    as (s & r' & Hn & _).
  pose proof (keeps_in_sessions newUnsecuredSession (λ n, keeps_newSession n _ _ _ (λ _, eq_refl))
                m Hm) as Hm'.
  revert Hm'. unfold in_sessions, zoom, newUnsecuredSession. rewrite Hn. cbn [fst]. intros Hm'.
  assert (em_ok_at (length (sessions (em_sessions m)))
    (set_em_sessions (SM (sessions (em_sessions m) ++ [s]) (_sessionsSecured (em_sessions m))
       (_sessionsUnsecured (em_sessions m) ++ [length (sessions (em_sessions m))]) r') m)) as Hat.
  { split; [exact Hm'|]. cbn. rewrite length_app. cbn. lia. }
  revert Hat. generalize (set_em_sessions (SM (sessions (em_sessions m) ++ [s])
    (_sessionsSecured (em_sessions m))
    (_sessionsUnsecured (em_sessions m) ++ [length (sessions (em_sessions m))]) r') m).
  intros m' Hat.
  enough (keeps (em_ok_at (length (sessions (em_sessions m))))
    (exchangeId ← next_exchange_id msg;
     push_exchange (Exchange_new exchangeId (length (sessions (em_sessions m))) i))) as Hk
    by (by apply Hk).
  apply keeps_bind; [apply keeps_next_exchange_id|]. intros id. by apply keeps_push_exchange.
Qed.

Lemma keeps_onSessionMessage msg sid : keeps (em_ok_at sid) (onSessionMessage msg sid).
Proof.
  unfold onSessionMessage. do 5 (apply keeps_bind; [auto with keeps|intros ?]).
  case_match; [auto 20 with keeps|]. case_match; [|auto with keeps].
  apply keeps_bind; [auto with keeps|intros pid].
  apply keeps_bind; [apply keeps_newExchange|intros x]. auto 30 with keeps.
Qed.

(** A method call that completed was on a session that exists. *)
Lemma on_session_inv {A} sid (m : js sess_state A) sm sm' a :
  on_session sid m sm = (sm', Ret a) →
  ∃ s st', sessions sm !! sid = Some s ∧ m (s, sm_runtime sm) = (st', Ret a) ∧
    sm' = SM (<[sid := st'.1]> (sessions sm)) (_sessionsSecured sm) (_sessionsUnsecured sm) st'.2.
Proof.
  unfold on_session. destruct (sessions sm !! sid) as [s|]; [|done].
  destruct (m (s, sm_runtime sm)) as [[s' r'] o] eqn:E. intros H. injection H as <- ->.
  by exists s, (s', r').
Qed.

Lemma track_peer_valid sid msg sm sm' u :
  track_peer sid msg sm = (sm', Ret u) → (sid < length (sessions sm'))%nat.
Proof.
  unfold track_peer. intros H. js_inv.
  apply on_session_inv in H as (s & st' & Hs & _ & ->). cbn. rewrite length_insert.
  by eapply lookup_lt_Some.
Qed.

Section receive.
Context `{HA : Aead}.

Lemma onMessage_valid buf peer sm sm' msg sid :
  SessionManager_onMessage buf peer sm = (sm', Ret (msg, sid)) →
  (sid < length (sessions sm'))%nat.
Proof.
  unfold SessionManager_onMessage. intros H. js_inv.
  match type of H with (if ?u then _ else _) _ = _ => destruct u end.
  - unfold onUnsecuredMessage in H. js_inv. simplify_eq. by eapply track_peer_valid.
  - unfold onSecureMessage in H. js_inv. simplify_eq. by eapply track_peer_valid.
Qed.

Lemma keeps_receive buf peer : keeps em_ok (receive buf peer).
Proof.
  intros m Hm. unfold receive. unfold mbind, js_bind.
  pose proof (keeps_in_sessions (SessionManager_onMessage buf peer)
                (λ n, keeps_onMessage n buf peer) m Hm) as Hk.
  destruct (in_sessions (SessionManager_onMessage buf peer) m) as [m1 [[msg sid]|e]] eqn:E;
    [|done].
  apply zoom_inv in E as (sm & E & ->). apply onMessage_valid in E.
  apply (keeps_onSessionMessage msg sid). by split.
Qed.

Lemma keeps_send_on x msg : keeps em_ok (send_on x msg).
Proof.
  unfold send_on. apply keeps_bind.
  - intros m Hm. unfold get_exchange. by destruct (exchange_heap m !! x).
  - intros e. apply keeps_in_sessions. intros n. apply keeps_exchange_send.
Qed.
End receive.
