(* ===== verification/MessagingTheorems.v ===== *)
(** * Theorems on the message layer

    Sending on a session (counters and nonces, what the peer decrypts), routing of
    received datagrams to exchanges and protocols, the tables' invariant over
    every run, and the error paths of the receive handlers. *)
From S2P Require Import Prelude JsNumber JsString TlvType TlvWriter Aead MsgCodec Message.
From S2P Require Import MessageTheorems Runtime SessionCryptoContext Session.
From S2P Require Import SessionManager Exchange ExchangeManager MessagingFacts.

(** ** Lemmas: the header a session stamps on a message *)

Definition stamp (peer : json) (counter : Z) (msg : Message) : outcome Message :=
  msg ← set_MessageFlags 0 msg;
  msg ← set_SecurityFlags 0 msg;
  msg ← set_SessionId_js peer msg;
  set_MessageCounter counter msg.

Lemma set_field_ret n off v m m' :
  set_field n off v m = Ret m' →
  fits n v ∧ _encrypted m' = _encrypted m ∧ read_uint_le n (_buffer m') off = Ret v ∧
  ∀ k off', 0 <= off' → off' + Z.of_nat k <= off ∨ off + Z.of_nat n <= off' →
    read_uint_le k (_buffer m') off' = read_uint_le k (_buffer m) off'.
Proof.
  unfold set_field, write_uint_le. intros H.
  destruct ((0 <=? v) && _) eqn:E; [|done]. zbool.
  destruct (store_le n v (_buffer m) off) as [b|] eqn:Hb; [|done]. cbn in H. inv_ret.
  split_and!; [by unfold fits|done|by eapply store_read_same; [|done]|].
  intros k off' H1 H2. cbn. by eapply store_read_other.
Qed.

Lemma set_SessionId_js_ret v m m' :
  set_SessionId_js v m = Ret m' →
  ∀ k off', 0 <= off' → off' + Z.of_nat k <= 1 ∨ 3 <= off' →
    read_uint_le k (_buffer m') off' = read_uint_le k (_buffer m) off'.
Proof.
  unfold set_SessionId_js. intros H. apply outcome_bind_Ret in H as (n & _ & H).
  apply outcome_bind_Ret in H as (b & _ & H).
  destruct (store_le 2 (le_Z b) (_buffer m) 1) as [b'|] eqn:Hb; [|done]. cbn in H. inv_ret.
  intros k off' H1 H2. cbn. eapply store_read_other; [done|done|]. lia.
Qed.

Lemma stamp_flags peer counter msg m4 :
  stamp peer counter msg = Ret m4 →
  MessageFlags m4 = Ret 0 ∧ SecurityFlags m4 = Ret 0 ∧ MessageCounter m4 = Ret counter.
Proof.
  unfold stamp. intros H.
  apply outcome_bind_Ret in H as (m1 & (_ & _ & Hf & _)%set_field_ret & H).
  apply outcome_bind_Ret in H as (m2 & (_ & _ & Hs & Hk2)%set_field_ret & H).
  apply outcome_bind_Ret in H as (m3 & Hk3 & H).
  pose proof (set_SessionId_js_ret _ _ _ Hk3) as Hk3'.
  apply set_field_ret in H as (_ & _ & Hc & Hk4).
  unfold MessageFlags, SecurityFlags, MessageCounter. split_and!.
  - rewrite Hk4, Hk3', Hk2 by lia. done.
  - rewrite Hk4, Hk3' by lia. done.
  - done.
Qed.

Lemma header_size_flags0 b : read_uint_le 1 b 0 = Ret 0 → 0 < blen b → header_size b = 8.
Proof.
  intros H Hb. rewrite read_first in H by done. apply Ret_inj in H.
  unfold header_size. by rewrite H.
Qed.

Section crypto.
Context `{HA : Aead} {HL : AeadLaws HA}.

(** What an encrypted send puts on the wire. *)
Lemma sendMessage_encrypted msg s r st' m4 :
  sendMessage msg (s, r) = (st', Ret tt) →
  stamp (_peerSessionId s) (_messageCounter s) msg = Ret m4 → isEncrypted m4 = Ret true →
  ∃ i key p, Iflag m4 = Ret i ∧ session_key s (if i : bool then kI2RKey else kR2IKey) = Ret key ∧
    s_peerInfo s = Some p ∧
    ∃ buf, encrypt (_buffer m4) key = Ret buf ∧
      sent st'.2 = sent r ++ [Datagram (_transport s) buf (port p) (address p)].
Proof.
  unfold sendMessage, stamp. intros H Hm He. sess_inv.
  repeat match goal with
  | H : set_MessageFlags 0 msg = Ret _ |- _ => rewrite H in Hm; clear H
  | H : set_SecurityFlags 0 _ = Ret _ |- _ => cbn [mbind outcome_bind] in Hm; rewrite H in Hm; clear H
  | H : set_SessionId_js _ _ = Ret _ |- _ => cbn [mbind outcome_bind] in Hm; rewrite H in Hm; clear H
  | H : set_MessageCounter _ _ = Ret _ |- _ => cbn [mbind outcome_bind] in Hm; rewrite H in Hm; clear H
  end.
  apply Ret_inj in Hm. subst m4.
  match goal with H : isEncrypted _ = Ret ?e |- _ => is_var e; rewrite He in H end. inv_ret.
  sess_inv.
  match goal with H : Iflag _ = Ret ?i, H' : session_key _ _ = Ret ?k |- _ =>
    exists i, k end.
  destruct (s_peerInfo _) as [p|] eqn:Hp; [|done]. exists p. split_and!; [done..|].
  sess_inv. match goal with H : send _ _ _ _ _ = _ |- _ => apply js_modify_inv in H; subst end.
  eexists. by split.
Qed.

(** The encrypted message shows the same session as the plaintext. *)
Lemma isUnencrypted_wire m4 buf key enc peer b :
  MessageFlags m4 = Ret 0 → SecurityFlags m4 = Ret 0 → isUnencrypted m4 = Ret b →
  encrypt (_buffer m4) key = Ret buf →
  isUnencrypted (Message_new (Some buf) enc peer) = Ret b.
Proof.
  intros Hf Hs Hu He.
  assert (∀ n off v, read_uint_le n (_buffer m4) off = Ret v → off + Z.of_nat n <= 8 →
            read_uint_le n buf off = Ret v) as Hread.
  { intros n off v Hr Hle. unfold encrypt in He.
    apply outcome_bind_Ret in He as (nonce & _ & He).
    apply outcome_bind_Ret in He as ([x y] & _ & He). inv_ret.
    apply read_prefix; [done|]. pose proof (header_size_ge (_buffer m4)). lia. }
  unfold isUnencrypted, SessionType in *. unfold SecurityFlags, SessionId in *.
  change (_buffer (Message_new (Some buf) enc peer)) with buf. rewrite Hs in Hu. rewrite (Hread _ _ _ Hs) by lia.
  cbn [fmap outcome_fmap mbind outcome_bind] in *. change (Z.land 0 3 =? 0) with true in *.
  destruct (read_uint_le 2 (_buffer m4) 1) as [v|] eqn:Hv; [|done]. cbn in Hu.
  by rewrite (Hread _ _ _ Hv) by lia.
Qed.

Lemma decrypt_stamped peerId counter msg m4 key buf s2 peer :
  stamp peerId counter msg = Ret m4 → isEncrypted m4 = Ret true →
  encrypt (_buffer m4) key = Ret buf → blen key = key_size →
  session_key s2 (if _initiator s2 then kR2IKey else kI2RKey) = Ret key →
  decryptMessage s2 (Message_new (Some buf) (Some buf) peer)
  = Ret (set_buffer (Message_new (Some buf) (Some buf) peer) (_buffer m4)).
Proof.
  intros Hm He Hb Hk Hs2. apply stamp_flags in Hm as (Hf & Hs & Hc).
  assert (isUnencrypted m4 = Ret false) as Hu.
  { unfold isEncrypted in He. destruct (isUnencrypted m4) as [u|]; [|done].
    cbn in He. apply Ret_inj in He. by destruct u. }
  unfold decryptMessage. rewrite (isUnencrypted_wire m4 buf key (Some buf) peer false) by done.
  cbn [mbind outcome_bind]. rewrite Hs2. cbn [mbind outcome_bind Message_new _encrypted].
  assert (blen (_buffer m4) >= 8) as H8.
  { unfold MessageCounter in Hc. apply read_uint_le_ret in Hc. lia. }
  assert (header_size (_buffer m4) = 8) as Hh by (apply header_size_flags0; [done|lia]).
  destruct (decrypt_encrypt (_buffer m4) key buf) as [Hd _]; [lia|done|]. by rewrite Hd.
Qed.
End crypto.

(** ** Lemmas: routing *)

Lemma find_exchange_some m sid msg l x :
  find_exchange m sid msg l = Ret (Some x) → x ∈ l ∧ match_at m sid msg x = Ret true.
Proof.
  induction l as [|y l IH]; [done|]. cbn [find_exchange]. intros H.
  apply outcome_bind_Ret in H as ([] & Hb & H).
  - inv_ret. simplify_eq. split; [by left|done].
  - apply IH in H as [? ?]. split; [by right|done].
Qed.

Lemma find_exchange_app m sid msg l x :
  find_exchange m sid msg l = Ret None → match_at m sid msg x = Ret true →
  find_exchange m sid msg (l ++ [x]) = Ret (Some x).
Proof.
  induction l as [|y l IH]; cbn [find_exchange app]; intros H Hx; [by rewrite Hx|].
  apply outcome_bind_Ret in H as ([] & Hb & H); [by inv_ret|].
  rewrite Hb. cbn. by apply IH.
Qed.

Lemma match_exchange_true e sid local msg :
  match_exchange e sid local msg = Ret true →
  ExchangeId msg = Ret (_exchangeId e) ∧ ex_session e = sid ∧
  ∃ id i, SessionId msg = Ret id ∧ is_number local id = true ∧ Iflag msg = Ret i ∧
          i = negb (_isInitiator e).
Proof.
  unfold match_exchange. intros H. apply outcome_bind_Ret in H as (xid & Hx & H).
  destruct (negb (xid =? _exchangeId e)) eqn:E1; [by inv_ret|].
  apply outcome_bind_Ret in H as (id & Hid & H).
  destruct (negb (is_number local id)) eqn:E2; [by inv_ret|].
  apply outcome_bind_Ret in H as (i & Hi & H). inv_ret.
  apply negb_false_iff in E1, E2. apply Z.eqb_eq in E1. subst.
  match goal with H : negb _ && _ = true |- _ => apply andb_true_iff in H as [H1 H2] end.
  apply Nat.eqb_eq in H2. split_and!; [done|done|]. exists id, i. split_and!; try done.
  by destruct i, (_isInitiator e).
Qed.

(** The exchange an unsolicited message gets, and the state it is added to. *)
Definition unsolicited_exchange (id : Z) (sid : nat) (r : bool) (counter : Z) : Exchange :=
  Exch sid id false r r counter [].

Lemma onSessionMessage_unsolicited msg sid m m' pid x msg' :
  onSessionMessage msg sid m = (m', Ret (ToProtocol pid x msg')) →
  msg' = msg ∧ getExchange sid msg m = Ret None ∧ Iflag msg = Ret true ∧
  ProtocolId msg = Ret pid ∧ x = length (exchange_heap m) ∧
  ∃ id r counter, ExchangeId msg = Ret id ∧ Rflag msg = Ret r ∧
    MessageCounter msg = Ret counter ∧
    m' = EM (em_sessions m) (exchange_heap m ++ [unsolicited_exchange id sid r counter])
            (_exchanges m ++ [x]) (_nextExchangeId m).
Proof.
  unfold onSessionMessage. intros H. js_inv.
  match goal with H : getExchange sid msg m = Ret ?f |- _ => destruct f as [y|]; rename H into Hg end;
    [by js_inv|].
  match type of H with (if ?i then _ else _) _ = _ => destruct i end; js_inv; [|done].
  match goal with H : ToProtocol _ _ _ = ToProtocol _ _ _ |- _ => injection H as -> -> -> end.
  match goal with H : newExchange _ _ _ _ = _ |- _ => rename H into Hn end.
  unfold newExchange, next_exchange_id, push_exchange in Hn. js_inv. subst.
  match goal with H : (_, Ret _) = (_, Ret _) |- _ => injection H as <- <- end.
  split_and!; try done. eexists _, _, _. split_and!; [done..|].
  repeat match goal with H : update_exchange _ _ _ = _ |- _ =>
    apply js_modify_inv in H; cbn [em_sessions exchange_heap _exchanges _nextExchangeId] in H;
    subst end.
  cbn [em_sessions exchange_heap _exchanges _nextExchangeId]. f_equal.
  rewrite !list_alter_alter_eq.
  rewrite <- (Nat.add_0_r (length (exchange_heap m))), alter_app_r. done.
Qed.

(** Matching looks at three fields of a message. *)
Definition same_route (msg1 msg2 : Message) : Prop :=
  ExchangeId msg1 = ExchangeId msg2 ∧ SessionId msg1 = SessionId msg2 ∧ Iflag msg1 = Iflag msg2.

Lemma match_at_route m sid msg1 msg2 x :
  same_route msg1 msg2 → match_at m sid msg1 x = match_at m sid msg2 x.
Proof.
  intros (H1 & H2 & H3). unfold match_at, match_exchange. rewrite H1, H2, H3. done.
Qed.

Lemma find_exchange_grow m sid msg e t n l :
  Forall (λ x, (x < length (exchange_heap m))%nat) l →
  find_exchange (EM (em_sessions m) (exchange_heap m ++ [e]) t n) sid msg l
  = find_exchange m sid msg l.
Proof.
  induction 1 as [|x l Hx _ IH]; [done|]. cbn [find_exchange]. rewrite IH.
  unfold match_at. cbn [exchange_heap em_sessions]. by rewrite lookup_app_l by done.
Qed.

Lemma find_exchange_route m sid msg1 msg2 l :
  same_route msg1 msg2 → find_exchange m sid msg1 l = find_exchange m sid msg2 l.
Proof.
  intros H. induction l as [|x l IH]; [done|]. cbn [find_exchange].
  by rewrite IH, (match_at_route _ _ _ _ _ H).
Qed.

(** ** Runs of the message layer *)

Section runs.
Context `{HA : Aead}.

(** What the node and its protocols do with the two managers: a datagram comes
    in, a message goes out, exchanges and sessions are made and configured.  An
    operation that throws leaves the state it had reached. *)
Inductive em_step : ExchangeManager → ExchangeManager → Prop :=
  | step_receive buf peer m : em_step m (receive buf peer m).1
  | step_send x msg m : em_step m (send_on x msg m).1
  | step_new_exchange sid msg i m :
      (sid < length (sessions (em_sessions m)))%nat →
      em_step m (newExchange (Some sid) msg i m).1
  | step_new_client_exchange msg i m : em_step m (newExchange None msg i m).1
  | step_delete_exchange x m : em_step m (deleteExchange x m).1
  | step_new_session localId peerId m :
      em_step m (in_sessions (newSession localId peerId true) m).1
  | step_listen x l m : em_step m (update_exchange x (add_listener l) m).1
  | step_reliable x b m : em_step m (update_exchange x (set_isReliable b) m).1
  | step_ack x b m : em_step m (update_exchange x (set_isAck b) m).1
  | step_peer sid p m : em_step m (in_sessions (update_session sid (set_PeerInfo p)) m).1
  | step_transport sid t m :
      em_step m (in_sessions (update_session sid (set_Transport t)) m).1.

Lemma em_step_ok m m' : em_ok m → em_step m m' → em_ok m'.
Proof.
  intros Hm Hs. destruct Hs as [buf peer m|x msg m|sid msg i m Hsid|msg i m|x m
    |localId peerId m|x l m|x b m|x b m|sid p m|sid t m].
  - by apply keeps_receive.
  - by apply keeps_send_on.
  - by apply (keeps_newExchange sid).
  - by apply keeps_newExchange_unsecured.
  - destruct Hm as (Hsm & He & Ht & Hd). split_and!; cbn; [done|done|..].
    + destruct (_exchanges m); [done|]. by inversion Ht.
    + destruct (_exchanges m); [done|]. by inversion Hd.
  - apply keeps_in_sessions; [|done]. intros n. by apply keeps_newSession.
  - by apply keeps_update_exchange.
  - by apply keeps_update_exchange.
  - by apply keeps_update_exchange.
  - apply keeps_in_sessions; [|done]. intros n. auto with keeps.
  - apply keeps_in_sessions; [|done]. intros n. auto with keeps.
Qed.

Lemma em_new_ok r : em_ok (ExchangeManager_new (SessionManager_new r)).
Proof.
  split_and!; cbn; [|constructor..]. split_and!; cbn; [constructor|lia|..|constructor|constructor].
  all: intros i; split; [intros H; by apply elem_of_nil in H|intros (s & H & _); done].
Qed.

Definition send_list (msgs : list Message) : js sess_state unit := js_forEach sendMessage msgs.

Lemma send_list_spec msgs s r st' :
  send_list msgs (s, r) = (st', Ret tt) →
  _messageCounter st'.1 = _messageCounter s + Z.of_nat (length msgs) ∧
  (msgs ≠ [] → _messageCounter s + Z.of_nat (length msgs) <= 2 ^ 32) ∧
  ∃ ds, sent st'.2 = sent r ++ ds ∧ length ds = length msgs ∧
    ∀ i d, ds !! i = Some d → has_counter (_messageCounter s + Z.of_nat i) (dg_buf d).
Proof.
  revert s r. induction msgs as [|msg msgs IH]; intros s r H.
  - cbn in H. injection H as <-. cbn. split_and!; [lia|done|]. exists []. rewrite app_nil_r.
    split_and!; [done|done|]. intros i d Hd. by destruct i.
  - unfold send_list in H. cbn [js_forEach] in H.
    apply js_bind_inv in H as ([s1 r1] & [] & H1 & H).
    apply sendMessage_spec in H1 as (Hf & Hc & d & Hd & Hcd). cbn [fst snd] in *.
    apply IH in H as (Hc' & Hb & ds & Hds & Hl & Hall). cbn [length].
    unfold fits in Hf. change (256 ^ Z.of_nat 4) with (2 ^ 32) in Hf. split_and!.
    + lia.
    + intros _. destruct msgs; [cbn; lia|]. specialize (Hb ltac:(done)). cbn [length] in *. lia.
    + exists (d :: ds). split_and!; [by rewrite Hds, Hd, <- app_assoc|cbn; lia|].
      intros [|i] d' Hi; cbn in Hi; simplify_eq.
      * by rewrite Z.add_0_r.
      * replace (_messageCounter s + Z.of_nat (S i)) with (_messageCounter s1 + Z.of_nat i) by lia.
        by apply Hall.
Qed.
End runs.

(** ** Theorems *)

Section theorems.
Context `{HA : Aead}.

(** C16: the datagrams a session sends carry consecutive message counters,
    starting at its current one; the counter never wraps, since a send at 2^32
    throws.  With one key and direction per session, no nonce is used twice. *)
Theorem session_counters (msgs : list Message) (s : Session) (r : runtime) (st' : sess_state) :
  send_list msgs (s, r) = (st', Ret tt) → msgs ≠ [] →
  _messageCounter s + Z.of_nat (length msgs) <= 2 ^ 32 ∧
  ∃ ds, sent st'.2 = sent r ++ ds ∧ length ds = length msgs ∧
    (∀ i d, ds !! i = Some d →
       read_uint_le 4 (dg_buf d) 4 = Ret (_messageCounter s + Z.of_nat i)) ∧
    (∀ i j d, ds !! i = Some d → ds !! j = Some d → i = j).
Proof.
  intros H Hne. apply send_list_spec in H as (_ & Hb & ds & Hs & Hl & Hall).
  split; [by apply Hb|]. exists ds. split_and!; [done..|].
  intros i j d Hi Hj. apply Hall in Hi, Hj. unfold has_counter in *.
  rewrite Hi in Hj. apply Ret_inj in Hj. lia.
Qed.

(** C17: what one end of a secure session sends, the other end, holding the same
    keys and the opposite role, decrypts: the plaintext it gets is the message
    with the header the sender stamped on it. *)
Theorem secure_channel {HL : AeadLaws HA} (msg m4 : Message) (s s2 : Session) (r : runtime)
    (st' : sess_state) (peer : option PeerInfo) :
  sendMessage msg (s, r) = (st', Ret tt) →
  stamp (_peerSessionId s) (_messageCounter s) msg = Ret m4 → isEncrypted m4 = Ret true →
  Iflag m4 = Ret (negb (_initiator s2)) →
  cryptoContext s2 = cryptoContext s →
  (∀ c, cryptoContext s = Some c → Forall (λ k, blen k = key_size) (_keys c)) →
  ∃ d, sent st'.2 = sent r ++ [d] ∧ MessageCounter m4 = Ret (_messageCounter s) ∧
    decryptMessage s2 (Message_new (Some (dg_buf d)) (Some (dg_buf d)) peer)
    = Ret (set_buffer (Message_new (Some (dg_buf d)) (Some (dg_buf d)) peer) (_buffer m4)).
Proof.
  intros H Hm He Hi Hc Hk.
  destruct (sendMessage_encrypted msg s r st' m4 H Hm He)
    as (i & key & p & Hi' & Hkey & _ & buf & Hb & Hs).
  rewrite Hi in Hi'. inv_ret. eexists. split; [exact Hs|]. cbn [dg_buf].
  assert (blen key = key_size) as Hlen.
  { unfold session_key in Hkey. destruct (cryptoContext s) as [c|] eqn:E; [|done].
    destruct (_keys c !! _) as [k|] eqn:Ek; [|done]. inv_ret.
    by eapply (Forall_lookup_1 _ _ _ _ (Hk c eq_refl)). }
  split; [by apply stamp_flags in Hm as (_ & _ & ?)|].
  eapply decrypt_stamped; try done. unfold session_key in *. rewrite Hc.
  by destruct (_initiator s2).
Qed.

(** C18: over every run of the message layer, exceptions included, the tables
    stay well formed: every session is in exactly the table of its kind, secure
    sessions have keys and unsecured ones the id 0, exchanges belong to sessions
    that exist and are listed at most once. *)
Theorem messaging_invariant (r : runtime) (m : ExchangeManager) :
  rtc em_step (ExchangeManager_new (SessionManager_new r)) m → em_ok m.
Proof.
  intros H. eapply (rtc_keeps _ _ em_step_ok _ _ H), em_new_ok.
Qed.

(** C19: a message handed to an exchange belongs to it: the exchange id, the
    session and its local id agree, and the sender has the opposite role; the
    exchange acknowledges that message's counter from then on. *)
Theorem dispatch_to_exchange (msg msg' : Message) (sid x : nat) (m m' : ExchangeManager) :
  onSessionMessage msg sid m = (m', Ret (ToExchange x msg')) →
  msg' = msg ∧ x ∈ _exchanges m ∧
  ∃ e e' s, exchange_heap m !! x = Some e ∧ sessions (em_sessions m) !! sid = Some s ∧
    ExchangeId msg = Ret (_exchangeId e) ∧ ex_session e = sid ∧
    Iflag msg = Ret (negb (_isInitiator e)) ∧
    (∃ id, SessionId msg = Ret id ∧ is_number (_localSessionId s) id = true) ∧
    exchange_heap m' !! x = Some e' ∧ MessageCounter msg = Ret (_ackCounter e').
Proof.
  unfold onSessionMessage. intros H. js_inv.
  match goal with H : getExchange sid msg m = Ret ?f |- _ => destruct f as [y|]; rename H into Hg end.
  - js_inv. match goal with H : ToExchange _ _ = ToExchange _ _ |- _ => injection H as -> -> end.
    apply find_exchange_some in Hg as [Hin Hg]. split_and!; [done|done|].
    unfold match_at in Hg. destruct (exchange_heap m !! y) as [e|] eqn:He; [|done].
    destruct (sessions (em_sessions m) !! ex_session e) as [s|] eqn:Hs; [|done].
    apply match_exchange_true in Hg as (Hx & Hsid & id & i & Hid & Hl & Hi & ->). subst sid.
    match goal with H : MessageCounter msg = Ret ?c |- _ =>
      exists e, (set_ackCounter c e), s end.
    split_and!; try done; [by exists id|].
    match goal with H : update_exchange _ _ _ = _ |- _ => apply js_modify_inv in H; subst end.
    cbn [exchange_heap]. by rewrite list_lookup_alter_eq, He.
  - match type of H with (if ?i then _ else _) _ = _ => destruct i end; js_inv; done.
Qed.

(** C20: a message of an initiator that matches no exchange is handed to the
    protocol it names, on a new exchange in the responder role that acknowledges
    it; and every later message of that exchange, from the same sender, is handed
    to that exchange. *)
Theorem unsolicited_message (msg msg2 : Message) (sid x : nat) (pid : Z) (m m' : ExchangeManager)
    (s : Session) (id : Z) :
  em_ok m → sessions (em_sessions m) !! sid = Some s →
  SessionId msg = Ret id → is_number (_localSessionId s) id = true →
  same_route msg msg2 →
  onSessionMessage msg sid m = (m', Ret (ToProtocol pid x msg)) →
  ProtocolId msg = Ret pid ∧
  (∃ e, exchange_heap m' !! x = Some e ∧ ex_session e = sid ∧
        ExchangeId msg = Ret (_exchangeId e) ∧ _isInitiator e = false ∧
        Rflag msg = Ret (_isReliable e) ∧ _isAck e = _isReliable e ∧
        MessageCounter msg = Ret (_ackCounter e)) ∧
  getExchange sid msg2 m' = Ret (Some x).
Proof.
  intros (_ & _ & Ht & _) Hs Hid Hl Hroute H.
  apply onSessionMessage_unsolicited in H
    as (_ & Hg & Hi & Hp & -> & xid & r & counter & Hx & Hr & Hc & ->).
  split; [done|]. cbn [exchange_heap]. rewrite lookup_app_r, Nat.sub_diag by lia. split.
  - eexists. split; [done|]. by split_and!.
  - unfold getExchange in *. cbn [_exchanges]. apply find_exchange_app.
    + rewrite find_exchange_grow by done. by rewrite <- (find_exchange_route _ _ _ _ _ Hroute).
    + rewrite <- (match_at_route _ _ _ _ _ Hroute). unfold match_at.
      cbn [exchange_heap em_sessions].
      rewrite lookup_app_r, Nat.sub_diag by lia. cbn. rewrite Hs.
      unfold match_exchange. rewrite Hx. cbn. rewrite Z.eqb_refl. cbn.
      rewrite Hid. cbn. rewrite Hl. cbn. rewrite Hi. cbn. by rewrite Nat.eqb_refl.
Qed.

(** A secure message that does not authenticate is still accepted: the
    handler emits it with the received octets as its plaintext, and the session
    takes over the sender's address. *)
Theorem unauthenticated_message_accepted (buf key : buffer) (peer : PeerInfo) (sid : nat)
    (s : Session) (id counter : Z) (sm : SessionManager) :
  SessionId (Message_new (Some buf) (Some buf) (Some peer)) = Ret id →
  isUnencrypted (Message_new (Some buf) (Some buf) (Some peer)) = Ret false →
  MessageCounter (Message_new (Some buf) (Some buf) (Some peer)) = Ret counter →
  getSecureSession id sm = Some sid → sessions sm !! sid = Some s →
  session_key s (if _initiator s then kR2IKey else kI2RKey) = Ret key →
  decrypt buf key = Ret None →
  ∃ sm' s', SessionManager_onMessage buf peer sm
    = (sm', Ret (Message_new (Some buf) (Some buf) (Some peer), sid)) ∧
    sessions sm' !! sid = Some s' ∧ s_peerInfo s' = Some peer ∧
    _peerMessageCounter s' = counter.
Proof.
  intros Hid Hu Hc Hg Hs Hk Hd. unfold SessionManager_onMessage.
  assert (isUnencrypted (Message_new (Some buf) None (Some peer)) = Ret false) as Hu'
    by exact Hu.
  rewrite (js_bind_eq _ _ sm sm false) by (unfold js_lift; by rewrite Hu').
  unfold onSecureMessage.
  rewrite (js_bind_eq _ _ sm sm id) by (unfold js_lift; by rewrite Hid).
  rewrite (js_bind_eq _ _ sm sm sm) by done. rewrite Hg.
  rewrite (js_bind_eq _ _ sm sm sid) by done.
  rewrite (js_bind_eq _ _ sm sm s).
  2:{ unfold get_session, on_session, self. rewrite Hs. cbn [fst].
      rewrite list_insert_id by done. by destruct sm. }
  rewrite (js_bind_eq _ _ sm sm (Message_new (Some buf) (Some buf) (Some peer))).
  2:{ unfold js_lift, decryptMessage. rewrite Hu. cbn [mbind outcome_bind]. rewrite Hk.
      cbn [mbind outcome_bind Message_new _encrypted]. by rewrite Hd. }
  pose proof (lookup_lt_Some _ _ _ Hs) as Hlt.
  eexists _, _. split.
  - unfold track_peer. unfold mbind, js_bind. unfold update_session at 1, on_session at 1.
    rewrite Hs. unfold update at 1, js_modify at 1. cbn [fst snd js_lift]. unfold js_lift.
    rewrite Hc. unfold update_session at 1, on_session at 1. cbn [sessions].
    rewrite list_lookup_insert_eq by done. unfold update at 1, js_modify at 1. cbn [fst snd].
    unfold on_session. cbn [sessions]. rewrite list_insert_insert_eq, list_lookup_insert_eq by done.
    unfold updateActivity, in_runtime, zoom, Date_now, mbind, js_bind, update, js_modify.
    cbn. rewrite list_insert_insert_eq. reflexivity.
  - cbn. rewrite list_lookup_insert_eq by done. done.
Qed.

(** Which session a new one is found under: the id of its peer. *)
Lemma getSecureSession_new (s : Session) (sm : SessionManager) (r : runtime) (z : Z) :
  sm_ok 0 sm → getSecureSession z sm = None →
  getSecureSession z (SM (sessions sm ++ [s]) (_sessionsSecured sm ++ [length (sessions sm)])
                         (_sessionsUnsecured sm) r)
  = if is_number (_peerSessionId s) z then Some (length (sessions sm)) else None.
Proof.
  intros (_ & _ & Hs & _) Hz. unfold getSecureSession in *. cbn [_sessionsSecured].
  set (sm' := SM _ _ _ _). apply fmap_None, list_find_None in Hz.
  rewrite list_find_app_r; [cbn [list_find]|].
  - assert (peer_id_is sm' z (length (sessions sm)) = is_number (_peerSessionId s) z) as ->.
    { unfold peer_id_is, sm'. cbn [sessions]. by rewrite lookup_app_r, Nat.sub_diag by lia. }
    destruct (is_number _ _); [by rewrite decide_True|by rewrite decide_False].
  - apply list_find_None, Forall_forall. intros i Hi. rewrite Forall_forall in Hz.
    specialize (Hz i Hi). apply Hs in Hi as (s0 & Hi & _). unfold peer_id_is, sm' in *.
    cbn [sessions]. rewrite lookup_app_l; [done|]. by eapply lookup_lt_Some.
Qed.

(** Secure sessions are found by the id of the peer: after [newSession] of a session with
    different ids, the lookup with the local id, which is what a received message
    carries, finds nothing, and the lookup with the peer's id finds the session. *)
Theorem lookup_by_peer_id (localId peerId : Z) (sid : nat) (sm sm' : SessionManager) :
  sm_ok 0 sm → localId ≠ peerId →
  newSession (JNum (NInt localId)) (JNum (NInt peerId)) true sm = (sm', Ret sid) →
  getSecureSession localId sm = None → getSecureSession peerId sm = None →
  getSecureSession localId sm' = None ∧ getSecureSession peerId sm' = Some sid.
Proof.
  intros Hok Hne Hn Hl Hp.
  destruct (newSession_spec (JNum (NInt localId)) (JNum (NInt peerId)) true sm)
    as (s & r' & Hn' & _ & _ & _ & Hpeer & _).
  rewrite Hn in Hn'. injection Hn' as -> ->.
  rewrite !getSecureSession_new, Hpeer by done. unfold is_number. cbn [num_val].
  rewrite bool_decide_false by congruence. by rewrite bool_decide_true.
Qed.

(** A datagram of fewer than four octets makes the receive handler throw a
    RangeError and changes nothing; no caller catches it. *)
Theorem short_datagram_throws (buf : buffer) (peer : PeerInfo) (m : ExchangeManager) :
  blen buf < 4 → receive buf peer m = (m, Throw RangeError).
Proof.
  intros Hb.
  assert (SessionManager_onMessage buf peer (em_sessions m)
          = (em_sessions m, Throw RangeError)) as H.
  { unfold SessionManager_onMessage. apply js_bind_throw. unfold js_lift. f_equal.
    unfold isUnencrypted, SessionType, SecurityFlags.
    change (_buffer (Message_new (Some buf) None (Some peer))) with buf.
    unfold read_uint_le. destruct (Z.leb_spec (3 + Z.of_nat 1) (blen buf)); [lia|].
    done. }
  unfold receive. rewrite (js_bind_throw _ _ m m RangeError); [done|].
  unfold in_sessions, zoom. rewrite H. by destruct m.
Qed.
End theorems.

(** ** Instances *)

Definition zero_runtime : runtime := Runtime (λ _, Byte.x00) 0 0 [].

Definition demo_peer : PeerInfo := Peer "::1"%string 5540 0.

(** A session with the test keys, an address, and the peer id 3000. *)
Definition demo_session : Session :=
  Sess (JNum (NInt 1000)) (JNum (NInt 3000)) None (Some demo_peer) 0 false 0 true 1 0 0 Server
    (Some SessionCryptoContext_new).

Definition demo_message : Message :=
  set_buffer blank (alloc 8 ++ [Byte.x01; Byte.x20] ++ alloc 4 ++ [Byte.xff]).

Lemma session_counters_witness :
  ∃ st', send_list [demo_message; demo_message] (demo_session, zero_runtime) = (st', Ret tt) ∧
    1 + 2 <= 2 ^ 32 ∧
    ∃ ds, sent st'.2 = [] ++ ds ∧ length ds = 2%nat ∧
    (∀ i d, ds !! i = Some d → read_uint_le 4 (dg_buf d) 4 = Ret (1 + Z.of_nat i)) ∧
    (∀ i j d, ds !! i = Some d → ds !! j = Some d → i = j).
Proof.
  eexists. split; [vm_compute; reflexivity|].
  eapply (session_counters [demo_message; demo_message] demo_session zero_runtime);
    [vm_compute; reflexivity|discriminate].
Defined.

Lemma secure_channel_witness :
  ∃ st' m4, sendMessage demo_message (demo_session, zero_runtime) = (st', Ret tt) ∧
    stamp (JNum (NInt 3000)) 1 demo_message = Ret m4 ∧
    ∃ d, sent st'.2 = [] ++ [d] ∧ MessageCounter m4 = Ret 1 ∧
    decryptMessage demo_session (Message_new (Some (dg_buf d)) (Some (dg_buf d)) None)
    = Ret (set_buffer (Message_new (Some (dg_buf d)) (Some (dg_buf d)) None) (_buffer m4)).
Proof.
  eexists _, _. split; [vm_compute; reflexivity|]. split; [vm_compute; reflexivity|].
  eapply (secure_channel (HL := toy_aead_laws) demo_message _ demo_session demo_session
            zero_runtime _ None); try (vm_compute; reflexivity).
  intros c Hc. injection Hc as <-. repeat constructor.
Defined.

(** An unsecured message of an initiator: exchange 9, protocol 0, opcode 0x20. *)
Definition demo_datagram : buffer :=
  le_bytes 1 4 ++ le_bytes 2 0 ++ le_bytes 1 0 ++ le_bytes 4 5 ++ le_bytes 8 7
  ++ le_bytes 1 5 ++ le_bytes 1 0x20 ++ le_bytes 2 9 ++ le_bytes 2 0.

Definition demo_em : ExchangeManager :=
  (receive demo_datagram demo_peer (ExchangeManager_new (SessionManager_new zero_runtime))).1.

Lemma messaging_invariant_witness :
  rtc em_step (ExchangeManager_new (SessionManager_new zero_runtime)) demo_em ∧ em_ok demo_em.
Proof.
  assert (rtc em_step (ExchangeManager_new (SessionManager_new zero_runtime)) demo_em) as H
    by (apply rtc_once, step_receive).
  split; [exact H|]. apply (messaging_invariant zero_runtime demo_em H).
Defined.

Definition demo_received : Message := Message_new (Some demo_datagram) None (Some demo_peer).

Lemma dispatch_to_exchange_witness :
  ∃ m', onSessionMessage demo_received 0 demo_em = (m', Ret (ToExchange 0 demo_received)) ∧
    0%nat ∈ _exchanges demo_em.
Proof.
  eexists. split; [vm_compute; reflexivity|].
  eapply (dispatch_to_exchange demo_received demo_received 0 0 demo_em).
  vm_compute. reflexivity.
Defined.

(** The session table right before the exchange manager sees the message. *)
Definition demo_em0 : ExchangeManager :=
  EM (em_sessions demo_em) [] [] 0.

Lemma unsolicited_message_witness :
  ∃ m', onSessionMessage demo_received 0 demo_em0 = (m', Ret (ToProtocol 0 0 demo_received)) ∧
    getExchange 0 demo_received m' = Ret (Some 0%nat).
Proof.
  eexists. split; [vm_compute; reflexivity|].
  eapply (unsolicited_message demo_received demo_received 0 0 0 demo_em0).
  - destruct messaging_invariant_witness as [_ (Hsm & _)].
    split_and!; [exact Hsm|constructor..].
  - vm_compute. reflexivity.
  - vm_compute. reflexivity.
  - vm_compute. reflexivity.
  - split_and!; reflexivity.
  - vm_compute. reflexivity.
Defined.

Definition demo_sm : SessionManager := SM [demo_session] [0%nat] [] zero_runtime.

(** A datagram for session 3000 that no key ever encrypted. *)
Definition forged : buffer := le_bytes 1 0 ++ le_bytes 2 3000 ++ alloc 37.

Lemma unauthenticated_message_accepted_witness :
  ∃ sm' s', SessionManager_onMessage forged demo_peer demo_sm
    = (sm', Ret (Message_new (Some forged) (Some forged) (Some demo_peer), 0%nat)) ∧
    sessions sm' !! 0%nat = Some s' ∧ s_peerInfo s' = Some demo_peer ∧
    _peerMessageCounter s' = 0.
Proof.
  apply (unauthenticated_message_accepted (HA := toy_aead) forged
    (hex_decode (js_str "5eded244e5532b3cdc23409dbad052d2")) demo_peer 0 demo_session 3000 0
    demo_sm); vm_compute; reflexivity.
Defined.

Lemma lookup_by_peer_id_witness :
  ∃ sm', newSession (JNum (NInt 1000)) (JNum (NInt 3000)) true (SessionManager_new zero_runtime)
    = (sm', Ret 0%nat) ∧
    getSecureSession 1000 sm' = None ∧ getSecureSession 3000 sm' = Some 0%nat.
Proof.
  eexists. split; [vm_compute; reflexivity|].
  eapply (lookup_by_peer_id 1000 3000 0 (SessionManager_new zero_runtime));
    [apply (em_new_ok zero_runtime)|discriminate|vm_compute; reflexivity|
     vm_compute; reflexivity|vm_compute; reflexivity].
Defined.

Lemma short_datagram_throws_witness :
  blen [Byte.x00] < 4 ∧
  receive [Byte.x00] demo_peer demo_em = (demo_em, Throw RangeError).
Proof. split; [reflexivity|]. apply (short_datagram_throws [Byte.x00]). reflexivity. Defined.
