(* ===== verification/SecureMessage.v ===== *)
(** * Secure messages, octet by octet

    The layout of a message on a secure session, what the accessors of Message.v read
    in it and store in it, and with that what an exchange on such a session puts on the
    wire and what a node gets from it.  No component of the code is here. *)
From S2P Require Import Prelude JsNumber TlvType TlvWriter Aead MsgCodec Message MessageTheorems.
From S2P Require Import Runtime SessionCryptoContext Session SessionManager Exchange.
From S2P Require Import ExchangeManager MessagingFacts MessagingTheorems.

(** Neither source nor destination, session type 0. *)
Definition secure_header (sid ctr : Z) : buffer :=
  le_bytes 1 0 ++ le_bytes 2 sid ++ le_bytes 1 0 ++ le_bytes 4 ctr.

Definition exchange_header (flags opcode xid pid : Z) : buffer :=
  le_bytes 1 flags ++ le_bytes 1 opcode ++ le_bytes 2 xid ++ le_bytes 2 pid.

Definition secure_message (sid ctr flags opcode xid pid : Z) (rest : buffer) : buffer :=
  secure_header sid ctr ++ exchange_header flags opcode xid pid ++ rest.


(** ** Reading *)

Section read.
Context (sid ctr flags opcode xid pid : Z) (rest : buffer) (m : Message).
Hypothesis Hm : _buffer m = secure_message sid ctr flags opcode xid pid rest.
Hypothesis Hsid : fits 2 sid.
Hypothesis Hctr : fits 4 ctr.
Hypothesis Hflags : fits 1 flags.
Hypothesis Hopcode : fits 1 opcode.
Hypothesis Hxid : fits 2 xid.
Hypothesis Hpid : fits 2 pid.

Lemma secure_layout :
  _buffer m = le_bytes 1 0 ++ le_bytes 2 sid ++ le_bytes 1 0 ++ le_bytes 4 ctr
              ++ exchange_header flags opcode xid pid ++ rest.
Proof. rewrite Hm. unfold secure_message, secure_header. by rewrite <- !app_assoc. Qed.

Lemma secure_MessageFlags : MessageFlags m = Ret 0.
Proof. by eapply header_flags; [exact secure_layout|]. Qed.
Lemma secure_SessionId : SessionId m = Ret sid.
Proof. by eapply header_session; [exact secure_layout|]. Qed.
Lemma secure_SecurityFlags : SecurityFlags m = Ret 0.
Proof. by eapply header_security; [exact secure_layout|]. Qed.
Lemma secure_MessageCounter : MessageCounter m = Ret ctr.
Proof. by eapply header_counter; [exact secure_layout|]. Qed.

Lemma secure_PayloadOffset : PayloadOffset m = Ret 8.
Proof. unfold PayloadOffset, Sflag, Dsiz. by rewrite secure_MessageFlags. Qed.

Lemma secure_Payload :
  Payload m = Ret (le_bytes 1 flags ++ le_bytes 1 opcode ++ le_bytes 2 xid ++ le_bytes 2 pid
                   ++ rest).
Proof.
  unfold Payload. rewrite secure_PayloadOffset, Hm. cbn [fmap outcome_fmap]. f_equal.
  unfold secure_message. rewrite subarray_from_prefix by done.
  unfold exchange_header. by rewrite <- !app_assoc.
Qed.

Lemma secure_ExchangeFlags : ExchangeFlags m = Ret flags.
Proof. unfold ExchangeFlags, payload_field. rewrite secure_Payload. by apply (read_at 1 flags []). Qed.

Lemma secure_ProtocolOpcode : ProtocolOpcode m = Ret opcode.
Proof.
  unfold ProtocolOpcode, payload_field. rewrite secure_Payload.
  by apply (read_at 1 opcode (le_bytes 1 flags)).
Qed.

Lemma secure_ExchangeId : ExchangeId m = Ret xid.
Proof.
  unfold ExchangeId, payload_field. rewrite secure_Payload, (app_assoc (le_bytes 1 flags)).
  by apply (read_at 2 xid (le_bytes 1 flags ++ le_bytes 1 opcode)).
Qed.

Lemma secure_ProtocolId : ProtocolId m = Ret pid.
Proof.
  unfold ProtocolId, payload_field. rewrite secure_Payload, (app_assoc (le_bytes 1 flags)),
    (app_assoc _ (le_bytes 2 xid)).
  by apply (read_at 2 pid ((le_bytes 1 flags ++ le_bytes 1 opcode) ++ le_bytes 2 xid)).
Qed.

Lemma secure_flag mask : exchange_flag mask m = Ret (has_flag flags mask).
Proof. unfold exchange_flag. by rewrite secure_ExchangeFlags. Qed.

Lemma secure_AppPayload (ack payload : buffer) :
  rest = ack ++ payload → blen ack = (if has_flag flags 0x02 then 4 else 0) →
  AppPayload m = Ret payload.
Proof.
  intros Hr Ha. unfold AppPayload, Aflag. rewrite secure_flag, secure_PayloadOffset.
  cbn [mbind outcome_bind]. f_equal. rewrite Hm, Hr. unfold secure_message.
  rewrite (app_assoc (exchange_header _ _ _ _)), app_assoc. apply subarray_from_prefix.
  rewrite !blen_app, Ha. unfold ACK_COUNTER_SIZE. by destruct (has_flag flags 0x02).
Qed.

Lemma secure_isUnencrypted : sid ≠ 0 → isUnencrypted m = Ret false.
Proof.
  intros H0. unfold isUnencrypted, SessionType. rewrite secure_SecurityFlags, secure_SessionId.
  cbn. unfold SESSION_ID_UNSECURED. by destruct (Z.eqb_spec sid 0).
Qed.
End read.

(** ** Writing *)

Lemma set_field_at n off v m pre old post b b' :
  b = pre ++ old ++ post → length old = n → off = blen pre → fits n v →
  b' = pre ++ le_bytes n v ++ post →
  set_field n off v (set_buffer m b) = Ret (set_buffer m b').
Proof.
  intros -> Hl -> [H1 H2] ->. unfold set_field, write_uint_le. cbn [_buffer set_buffer].
  destruct (Z.leb_spec 0 v), (Z.ltb_spec v (256 ^ Z.of_nat n)); try lia. cbn [andb].
  by rewrite store_le_app.
Qed.

Lemma set_payload_field_at n off v m sid ctr pre old post b b' :
  b = pre ++ old ++ post → length old = n → off = blen pre → fits n v →
  b' = pre ++ le_bytes n v ++ post →
  set_payload_field n off v (set_buffer m (secure_header sid ctr ++ b))
  = Ret (set_buffer m (secure_header sid ctr ++ b')).
Proof.
  intros Hb Hl Ho Hv Hb'. unfold set_payload_field.
  assert (PayloadOffset (set_buffer m (secure_header sid ctr ++ b)) = Ret 8) as ->.
  { unfold PayloadOffset, Sflag, Dsiz. erewrite (header_flags 0); [done| |done].
    cbn [_buffer set_buffer]. unfold secure_header. by rewrite <- !app_assoc. }
  cbn [mbind outcome_bind _buffer set_buffer]. rewrite subarray_from_prefix by done.
  pose proof (set_field_at n off v m pre old post b b' Hb Hl Ho Hv Hb') as H.
  unfold set_field in H. cbn [_buffer set_buffer] in H.
  destruct (write_uint_le _ _ _ _) as [x|]; [|done]. cbn in H.
  apply Ret_inj, (f_equal _buffer) in H. cbn in H. subst x. cbn [mbind outcome_bind].
  change 8 with (blen (secure_header sid ctr)). by rewrite subarray_app_l.
Qed.

(** [assoc_done]: both sides are the same octets, up to the grouping of [++]. *)
Ltac assoc_done :=
  unfold secure_message, secure_header, exchange_header; rewrite <- ?app_assoc; reflexivity.

Section write.
Context (sid ctr flags opcode xid pid : Z) (rest : buffer) (m : Message).

Lemma set_MessageFlags_0 :
  set_MessageFlags 0 (set_buffer m (secure_message sid ctr flags opcode xid pid rest))
  = Ret (set_buffer m (secure_message sid ctr flags opcode xid pid rest)).
Proof. by eapply (set_field_at 1 0 0 m [] (le_bytes 1 0)); [assoc_done|..|assoc_done]. Qed.

Lemma set_SecurityFlags_0 :
  set_SecurityFlags 0 (set_buffer m (secure_message sid ctr flags opcode xid pid rest))
  = Ret (set_buffer m (secure_message sid ctr flags opcode xid pid rest)).
Proof.
  by eapply (set_field_at 1 3 0 m (le_bytes 1 0 ++ le_bytes 2 sid) (le_bytes 1 0));
    [assoc_done|..|assoc_done].
Qed.

Lemma set_MessageCounter_at v : fits 4 v →
  set_MessageCounter v (set_buffer m (secure_message sid ctr flags opcode xid pid rest))
  = Ret (set_buffer m (secure_message sid v flags opcode xid pid rest)).
Proof.
  intros Hv. by eapply (set_field_at 4 4 v m (le_bytes 1 0 ++ le_bytes 2 sid ++ le_bytes 1 0)
    (le_bytes 4 ctr)); [assoc_done|..|assoc_done].
Qed.

Lemma set_SessionId_js_at v z : is_number v z = true → fits 2 z →
  set_SessionId_js v (set_buffer m (secure_message sid ctr flags opcode xid pid rest))
  = Ret (set_buffer m (secure_message z ctr flags opcode xid pid rest)).
Proof.
  intros Hv Hz. pose proof Hz as [H1 H2]. destruct v as [| | |n| | | | |]; try done.
  apply bool_decide_eq_true in Hv. unfold set_SessionId_js, write_number_uint.
  cbn [to_numeric mbind outcome_bind]. rewrite Hv. cbn [nval_leb nval_ltb nval_trunc].
  assert (set_field 2 1 z (set_buffer m (secure_message sid ctr flags opcode xid pid rest))
    = Ret (set_buffer m (secure_message z ctr flags opcode xid pid rest))) as H
    by (by eapply (set_field_at 2 1 z m (le_bytes 1 0) (le_bytes 2 sid));
          [assoc_done|..|assoc_done]).
  unfold set_field, write_uint_le in H.
  rewrite (proj2 (Z.leb_le _ _)), (proj2 (Z.ltb_lt _ _)) in H by lia.
  rewrite (proj2 (Z.leb_le _ _)), (proj2 (Z.ltb_ge _ _)) by lia. cbn [negb andb orb mbind outcome_bind].
  by rewrite le_Z_le_bytes_small.
Qed.

Lemma set_ExchangeFlags_at v : fits 1 v →
  set_ExchangeFlags v (set_buffer m (secure_message sid ctr flags opcode xid pid rest))
  = Ret (set_buffer m (secure_message sid ctr v opcode xid pid rest)).
Proof.
  intros Hv. by eapply (set_payload_field_at 1 0 v m sid ctr [] (le_bytes 1 flags));
    [assoc_done|..|assoc_done].
Qed.

Lemma set_ProtocolOpcode_at v : fits 1 v →
  set_ProtocolOpcode v (set_buffer m (secure_message sid ctr flags opcode xid pid rest))
  = Ret (set_buffer m (secure_message sid ctr flags v xid pid rest)).
Proof.
  intros Hv. by eapply (set_payload_field_at 1 1 v m sid ctr (le_bytes 1 flags)
    (le_bytes 1 opcode)); [assoc_done|..|assoc_done].
Qed.

Lemma set_ExchangeId_at v : fits 2 v →
  set_ExchangeId v (set_buffer m (secure_message sid ctr flags opcode xid pid rest))
  = Ret (set_buffer m (secure_message sid ctr flags opcode v pid rest)).
Proof.
  intros Hv. by eapply (set_payload_field_at 2 2 v m sid ctr
    (le_bytes 1 flags ++ le_bytes 1 opcode) (le_bytes 2 xid)); [assoc_done|..|assoc_done].
Qed.

Lemma set_ProtocolId_at v : fits 2 v →
  set_ProtocolId v (set_buffer m (secure_message sid ctr flags opcode xid pid rest))
  = Ret (set_buffer m (secure_message sid ctr flags opcode xid v rest)).
Proof.
  intros Hv. by eapply (set_payload_field_at 2 4 v m sid ctr
    (le_bytes 1 flags ++ le_bytes 1 opcode ++ le_bytes 2 xid) (le_bytes 2 pid));
    [assoc_done|..|assoc_done].
Qed.

Lemma set_AckCounter_at v : fits 1 flags → has_flag flags 0x02 = true → fits 4 v →
  set_AckCounter v (set_buffer m (secure_message sid ctr flags opcode xid pid rest))
  = Ret (set_buffer m (secure_message sid ctr flags opcode xid pid (le_bytes 4 v ++ rest))).
Proof.
  intros Hf Ha Hv. unfold set_AckCounter, Aflag.
  erewrite secure_PayloadOffset, secure_flag by done. rewrite Ha.
  cbn [mbind outcome_bind]. cbn [_buffer set_buffer]. set (hdr := secure_header sid ctr ++
    exchange_header flags opcode xid pid).
  assert (∀ r, secure_message sid ctr flags opcode xid pid r = hdr ++ r) as Hh
    by (intros r; subst hdr; unfold secure_message; by rewrite app_assoc).
  assert (8 + EXCHANGE_HEADER_MIN_SIZE = blen hdr) as ->.
  { subst hdr. by rewrite blen_app. }
  rewrite !Hh. unfold insert_zeros. rewrite subarray_app_l, subarray_from_app.
  by eapply (set_field_at 4 (blen hdr) v m hdr (alloc ACK_COUNTER_SIZE)).
Qed.
End write.

(** ** Sending *)

(** The exchange flags of a message that is not an acknowledgement alone. *)
Definition sent_flags (i r a : bool) : Z :=
  (if i then 1 else 0) + (if r then 4 else 0) + (if a then 2 else 0).

Lemma sent_flags_fits i r a : fits 1 (sent_flags i r a).
Proof. by destruct i, r, a. Qed.

Definition exchange_flags (e : Exchange) : Z :=
  sent_flags (_isInitiator e) (_isReliable e) (_isAck e).

Definition ack_bytes (e : Exchange) : buffer :=
  if _isAck e then le_bytes 4 (_ackCounter e) else [].

Definition add_sent (d : datagram) (r : runtime) : runtime :=
  Runtime (tape r) (drawn r) (now r) (sent r ++ [d]).

(** A session that can send with [key] to [p], under the id [id]. *)
Record can_send (s : Session) (id : Z) (key : buffer) (i : bool) (p : PeerInfo) : Prop := {
  cs_id : is_number (_peerSessionId s) id = true;
  cs_id_fits : fits 2 id;
  cs_secure : id ≠ 0;
  cs_counter : fits 4 (_messageCounter s);
  cs_key : session_key s (if i then kI2RKey else kR2IKey) = Ret key;
  cs_key_size : blen key = key_size;
  cs_peer : s_peerInfo s = Some p }.

Section crypto.
Context `{HA : Aead} {HL : AeadLaws HA}.

Lemma header_size_secure sid ctr flags opcode xid pid rest :
  header_size (secure_message sid ctr flags opcode xid pid rest) = 8.
Proof. reflexivity. Qed.

Lemma header_in_secure sid ctr flags opcode xid pid rest :
  header_size (secure_message sid ctr flags opcode xid pid rest)
  <= blen (secure_message sid ctr flags opcode xid pid rest).
Proof.
  rewrite header_size_secure. unfold secure_message. rewrite blen_app.
  change (blen (secure_header sid ctr)) with 8.
  pose proof (blen_nonneg (exchange_header flags opcode xid pid ++ rest)). lia.
Qed.

(** What the cipher makes of a secure message keeps its header. *)
Lemma encrypted_secure sid ctr flags opcode xid pid rest key b :
  encrypt (secure_message sid ctr flags opcode xid pid rest) key = Ret b →
  ∃ c, b = secure_header sid ctr ++ c ∧
       decrypt b key = Ret (Some (secure_message sid ctr flags opcode xid pid rest)).
Proof.
  intros He. pose proof (header_in_secure sid ctr flags opcode xid pid rest) as Hh.
  destruct (encrypt_parts _ key b Hh He) as (nonce & enc & tag & _ & _ & Hb).
  destruct (decrypt_encrypt _ key b Hh He) as [Hd _].
  exists (enc ++ tag). split; [|done]. rewrite Hb, header_size_secure. unfold secure_message at 1.
  change 8 with (blen (secure_header sid ctr)). by rewrite subarray_app_l.
Qed.

Lemma encrypt_secure sid ctr flags opcode xid pid rest key :
  blen key = key_size → blen rest + 6 < ccm_limit →
  ∃ c, encrypt (secure_message sid ctr flags opcode xid pid rest) key
       = Ret (secure_header sid ctr ++ c).
Proof.
  intros Hk Hr.
  destruct (encrypt_total (secure_message sid ctr flags opcode xid pid rest) key) as [b Hb];
    [apply header_in_secure|done| |].
  - rewrite header_size_secure. unfold secure_message. rewrite !blen_app.
    change (blen (secure_header sid ctr)) with 8.
    change (blen (exchange_header flags opcode xid pid)) with 6. lia.
  - destruct (encrypted_secure _ _ _ _ _ _ _ _ _ Hb) as (c & -> & _). by exists c.
Qed.

(** The payload of a message that fits the cipher's limit, with the protocol header and an
    acknowledgement in front of it *)
Definition one_message (payload : buffer) : Prop := blen payload + 10 < ccm_limit.

Lemma one_message_short payload : blen payload <= 65000 → one_message payload.
Proof. unfold one_message. change ccm_limit with 65536. lia. Qed.

Lemma sendMessage_secure s r m flags opcode xid pid rest id key i p :
  can_send s id key i p → fits 1 flags → has_flag flags 0x01 = i → blen rest + 6 < ccm_limit →
  ∃ d, encrypt (secure_message id (_messageCounter s) flags opcode xid pid rest) key = Ret (dg_buf d) ∧
    dg_port d = port p ∧ dg_host d = address p ∧ dg_transport d = _transport s ∧
    sendMessage (set_buffer m (secure_message 0 0 flags opcode xid pid rest)) (s, r)
    = ((count_tx (next_counter s), add_sent d r), Ret tt).
Proof.
  intros [Hid Hf H0 Hc Hk Hks Hp] Hfl Hi Hl.
  destruct (encrypt_secure id (_messageCounter s) flags opcode xid pid rest key Hks Hl)
    as (c & He).
  exists (Datagram (_transport s) (secure_header id (_messageCounter s) ++ c) (port p) (address p)).
  split_and!; [done..|]. unfold sendMessage.
  rewrite set_MessageFlags_0, js_bind_lift, set_SecurityFlags_0, js_bind_lift.
  rewrite (js_bind_eq self _ _ (s, r) s) by done.
  rewrite (set_SessionId_js_at _ _ _ _ _ _ _ _ _ id), js_bind_lift by done.
  rewrite (js_bind_eq (update _) _ _ (next_counter s, r) tt) by done.
  rewrite set_MessageCounter_at, js_bind_lift by done.
  rewrite (js_bind_eq (update _) _ _ (count_tx (next_counter s), r) tt) by done.
  unfold isEncrypted. erewrite secure_isUnencrypted by done. cbn [fmap outcome_fmap negb].
  rewrite js_bind_lift. unfold Iflag. erewrite secure_flag by done. rewrite Hi.
  erewrite js_bind_eq; [|rewrite js_bind_lift, Hk, js_bind_lift; cbn [_buffer set_buffer]; by rewrite He].
  rewrite (js_bind_eq self _ _ (count_tx (next_counter s), r) (count_tx (next_counter s))) by done.
  cbn [s_peerInfo count_tx next_counter]. by rewrite Hp.
Qed.
Lemma set_exchange_flag_at mask v flags opcode xid pid payload m :
  let flags' := if v : bool then Z.lor flags mask else Z.land flags (Z.lnot mask) in
  fits 1 flags → fits 1 flags' →
  set_exchange_flag mask v (set_buffer m (secure_message 0 0 flags opcode xid pid payload))
  = Ret (set_buffer m (secure_message 0 0 flags' opcode xid pid payload)).
Proof.
  intros flags' Hf Hv. unfold set_exchange_flag. erewrite secure_ExchangeFlags by done.
  by apply set_ExchangeFlags_at.
Qed.

(** The flags before the acknowledgement is added. *)
Definition plain_flags (e : Exchange) : Z :=
  let f := if _isInitiator e then Z.lor 0 1 else Z.land 0 (Z.lnot 1) in
  if _isReliable e then Z.lor f 4 else Z.land f (Z.lnot 4).

Lemma ack_step e m opcode pid payload :
  fits 4 (_ackCounter e) →
  (if _isAck e then
     msg ← set_Aflag true (set_buffer m (secure_message 0 0 (plain_flags e) opcode
                                           (_exchangeId e) pid payload));
     set_AckCounter (_ackCounter e) msg
   else Ret (set_buffer m (secure_message 0 0 (plain_flags e) opcode (_exchangeId e) pid payload)))
  = Ret (set_buffer m (secure_message 0 0 (exchange_flags e) opcode (_exchangeId e) pid
                         (ack_bytes e ++ payload))).
Proof.
  intros Ha. unfold ack_bytes, exchange_flags, set_Aflag, plain_flags.
  destruct (_isAck e); [|by destruct (_isInitiator e), (_isReliable e)].
  rewrite set_exchange_flag_at by (by destruct (_isInitiator e), (_isReliable e)).
  cbn [mbind outcome_bind].
  rewrite set_AckCounter_at by (done || by destruct (_isInitiator e), (_isReliable e)).
  by destruct (_isInitiator e), (_isReliable e).
Qed.

(** Where a session sends to *)
Definition goes_to (d : datagram) (s : Session) (p : PeerInfo) : Prop :=
  dg_port d = port p ∧ dg_host d = address p ∧ dg_transport d = _transport s.

(** The exchange's part: its id, its flags and the counter it acknowledges. *)
Lemma exchange_send_secure e sm s m opcode pid payload id key p :
  sessions sm !! ex_session e = Some s → can_send s id key (_isInitiator e) p →
  fits 1 opcode → fits 2 pid → fits 2 (_exchangeId e) → fits 4 (_ackCounter e) →
  one_message payload →
  ∃ d, encrypt (secure_message id (_messageCounter s) (exchange_flags e) opcode (_exchangeId e)
                  pid (ack_bytes e ++ payload)) key = Ret (dg_buf d) ∧
    goes_to d s p ∧
    Exchange_sendMessage e (set_buffer m (secure_message 0 0 0 opcode 0 pid payload)) sm
    = (SM (<[ex_session e := count_tx (next_counter s)]> (sessions sm)) (_sessionsSecured sm)
          (_sessionsUnsecured sm) (add_sent d (sm_runtime sm)), Ret tt).
Proof.
  intros Hs Hcs Ho Hp Hx Ha Hl.
  destruct (sendMessage_secure s (sm_runtime sm) m (exchange_flags e) opcode (_exchangeId e) pid
              (ack_bytes e ++ payload) id key (_isInitiator e) p Hcs)
    as (d & He & Hport & Hhost & Htr & Hsend).
  { apply sent_flags_fits. }
  { unfold exchange_flags. by destruct (_isInitiator e), (_isReliable e), (_isAck e). }
  { unfold one_message in Hl. rewrite blen_app. unfold ack_bytes.
    destruct (_isAck e); rewrite ?blen_le_bytes, ?blen_nil; lia. }
  exists d. split_and!; [done..|]. unfold Exchange_sendMessage.
  rewrite set_ExchangeId_at, js_bind_lift by done. rewrite set_ExchangeFlags_at, js_bind_lift by done.
  unfold set_Iflag. rewrite set_exchange_flag_at, js_bind_lift by (by destruct (_isInitiator e)).
  unfold set_Rflag. rewrite set_exchange_flag_at, js_bind_lift
    by (by destruct (_isInitiator e), (_isReliable e)).
  change (if _isReliable e then _ else _) with (plain_flags e).
  rewrite ack_step, js_bind_lift by done.
  erewrite secure_SessionId by done. rewrite js_bind_lift.
  unfold on_session. by rewrite Hs, Hsend.
Qed.
End crypto.

(** ** Receiving *)

(** What a received message leaves on its session. *)
Definition heard (peer : PeerInfo) (ctr time : Z) (s : Session) : Session :=
  updateActivity_at time (set_PeerMessageCounter ctr (set_PeerInfo (Some peer) s)).

Definition with_session (sid : nat) (s : Session) (r : runtime) (sm : SessionManager)
    : SessionManager :=
  SM (<[sid := s]> (sessions sm)) (_sessionsSecured sm) (_sessionsUnsecured sm) r.

Lemma on_session_run {A} sid (f : js sess_state A) sm s s' r' o :
  sessions sm !! sid = Some s → f (s, sm_runtime sm) = ((s', r'), o) →
  on_session sid f sm = (with_session sid s' r' sm, o).
Proof. intros Hs Hf. unfold on_session. by rewrite Hs, Hf. Qed.

Lemma with_session_same sid s sm :
  sessions sm !! sid = Some s → with_session sid s (sm_runtime sm) sm = sm.
Proof. intros Hs. destruct sm as [l a b r]. unfold with_session. cbn in *. by rewrite list_insert_id. Qed.

Lemma with_session_twice sid s s' r r' sm :
  with_session sid s' r' (with_session sid s r sm) = with_session sid s' r' sm.
Proof. unfold with_session. cbn. by rewrite list_insert_insert_eq. Qed.

Lemma with_session_lookup sid s s' r sm :
  sessions sm !! sid = Some s → sessions (with_session sid s' r sm) !! sid = Some s'.
Proof. intros Hs. cbn. apply list_lookup_insert_eq. by eapply lookup_lt_Some. Qed.

(** Which session an id finds depends on their ids alone. *)
Lemma getSecureSession_updated sid sm s s' r z :
  sessions sm !! sid = Some s → _peerSessionId s' = _peerSessionId s →
  getSecureSession z (with_session sid s' r sm) = getSecureSession z sm.
Proof.
  intros Hs Hp. unfold getSecureSession. f_equal. apply list_find_ext. intros i.
  unfold peer_id_is. cbn [sessions with_session].
  destruct (decide (i = sid)) as [->|Hi].
  - rewrite list_lookup_insert_eq by (by eapply lookup_lt_Some). by rewrite Hs, Hp.
  - by rewrite list_lookup_insert_ne.
Qed.

Lemma track_peer_run sid msg peer ctr sm s :
  sessions sm !! sid = Some s → MessageCounter msg = Ret ctr → _peerInfo msg = Some peer →
  track_peer sid msg sm
  = (with_session sid (heard peer ctr (now (sm_runtime sm)) s) (sm_runtime sm) sm, Ret tt).
Proof.
  intros Hs Hc Hp. unfold track_peer, update_session.
  erewrite js_bind_eq by (by eapply on_session_run). rewrite Hc, js_bind_lift, Hp.
  erewrite js_bind_eq by (eapply on_session_run; [by eapply with_session_lookup|done]).
  erewrite (on_session_run _ updateActivity);
    [|by eapply with_session_lookup, with_session_lookup|done].
  by rewrite !with_session_twice.
Qed.

(** An open session: the one found for the id [id], with the keys both ways. *)
Record receives_on (sm : SessionManager) (id : Z) (sid : nat) (s : Session) (key : buffer)
    : Prop := {
  ro_found : getSecureSession id sm = Some sid;
  ro_session : sessions sm !! sid = Some s;
  ro_id_fits : fits 2 id;
  ro_secure : id ≠ 0;
  ro_key : session_key s (if _initiator s then kR2IKey else kI2RKey) = Ret key;
  ro_key_size : blen key = key_size }.

Section arrival.
Context `{HA : Aead}.

(** The octets [buf] arrive, for a receiver that deciphers with [key], as a secure message:
    its header is in clear, and the rest is what the key gives, or, for octets that do
    not authenticate, what stands there. *)
Record arrives (id ctr flags opcode xid pid : Z) (rest buf key : buffer) : Prop := {
  ar_header : ∃ c, buf = secure_header id ctr ++ c;
  ar_taken :
    decrypt buf key = Ret (Some (secure_message id ctr flags opcode xid pid rest)) ∨
    (decrypt buf key = Ret None ∧ buf = secure_message id ctr flags opcode xid pid rest) }.

Lemma arrives_sealed {HL : AeadLaws HA} id ctr flags opcode xid pid rest buf key :
  encrypt (secure_message id ctr flags opcode xid pid rest) key = Ret buf → blen key = key_size →
  arrives id ctr flags opcode xid pid rest buf key.
Proof.
  intros (c & -> & Hd)%encrypted_secure _. split; [by exists c|by left].
Qed.

(** A message that nobody has enciphered *)
Lemma arrives_bare id ctr flags opcode xid pid rest key :
  decrypt (secure_message id ctr flags opcode xid pid rest) key = Ret None →
  arrives id ctr flags opcode xid pid rest (secure_message id ctr flags opcode xid pid rest) key.
Proof. intros Hd. split; [by eexists|by right]. Qed.
End arrival.

Section header.
Context (id ctr : Z) (buf c : buffer).
Hypothesis Hbuf : buf = secure_header id ctr ++ c.
Hypothesis Hctr : fits 4 ctr.
Hypothesis Hid : fits 2 id.

Lemma wire_layout : buf = le_bytes 1 0 ++ le_bytes 2 id ++ le_bytes 1 0 ++ le_bytes 4 ctr ++ c.
Proof. rewrite Hbuf. unfold secure_header. by rewrite <- !app_assoc. Qed.

Lemma wire_session m : _buffer m = buf → SessionId m = Ret id.
Proof. intros Hm. apply (header_session 0 id 0 ctr c); [|done]. by rewrite Hm, wire_layout. Qed.

Lemma wire_unencrypted m : id ≠ 0 → _buffer m = buf → isUnencrypted m = Ret false.
Proof.
  intros H0 Hm. unfold isUnencrypted, SessionType. rewrite (wire_session m Hm).
  erewrite (header_security 0 id 0 ctr c) by (done || (by rewrite Hm, wire_layout)).
  cbn. unfold SESSION_ID_UNSECURED. by destruct (Z.eqb_spec id 0).
Qed.

Lemma wire_source m : _buffer m = buf → SourceNodeId m = Ret NODE_ID_ANY.
Proof.
  intros Hm. unfold SourceNodeId, Sflag.
  by erewrite (header_flags 0 id 0 ctr c) by (done || (by rewrite Hm, wire_layout)).
Qed.

Lemma wire_counter m : _buffer m = buf → MessageCounter m = Ret ctr.
Proof. intros Hm. apply (header_counter 0 id 0 ctr c); [|done]. by rewrite Hm, wire_layout. Qed.
(** A message on a session of the table, deciphered to [msg] *)
Lemma onMessage_found `{Aead} sm sid s peer msg :
  id ≠ 0 → getSecureSession id sm = Some sid → sessions sm !! sid = Some s →
  decryptMessage s (Message_new (Some buf) (Some buf) (Some peer)) = Ret msg →
  MessageCounter msg = Ret ctr → _peerInfo msg = Some peer →
  SessionManager_onMessage buf peer sm
  = (with_session sid (heard peer ctr (now (sm_runtime sm)) s) (sm_runtime sm) sm,
     Ret (msg, sid)).
Proof.
  intros H0 Hf Hs Hd Hm Hp. unfold SessionManager_onMessage.
  erewrite wire_unencrypted, js_bind_lift by done. unfold onSecureMessage.
  erewrite wire_session, js_bind_lift by done.
  rewrite (js_bind_eq js_get _ sm sm sm) by done. rewrite Hf, js_bind_ret.
  rewrite (js_bind_eq _ _ sm sm s); [|unfold get_session].
  2:{ erewrite on_session_run by done. by rewrite with_session_same. }
  rewrite Hd, js_bind_lift.
  by erewrite js_bind_eq by (by eapply track_peer_run).
Qed.

(** The session that is made up for an id which the table does not have *)
Definition make_session : js SessionManager nat :=
  sid ← newSession (JNum (NInt id)) (JNum (NInt id)) true;
  update_session sid (set_PeerNodeId (Some NODE_ID_ANY)) ;; mret sid.

Definition made_up (sm : SessionManager) : SessionManager := (make_session sm).1.

Lemma made_up_spec sm : sm_ok 0 sm → getSecureSession id sm = None →
  let sid := length (sessions sm) in
  ∃ s, make_session sm = (made_up sm, Ret sid) ∧ sm_ok 0 (made_up sm) ∧
    sessions (made_up sm) = sessions sm ++ [s] ∧ getSecureSession id (made_up sm) = Some sid ∧
    sent (sm_runtime (made_up sm)) = sent (sm_runtime sm) ∧
    _initiator s = false ∧ _transport s = Server ∧ 1 <= _messageCounter s <= 2 ^ 28 ∧
    cryptoContext s = Some SessionCryptoContext_new.
Proof.
  intros Hok Hg sid.
  destruct (newSession_spec (JNum (NInt id)) (JNum (NInt id)) true sm)
    as (s0 & r & Hn & Hnew & Hsec & _ & Hp & _ & _ & Hsent & Hcnt & Hcr).
  pose proof (keeps_newSession 0 (JNum (NInt id)) (JNum (NInt id)) true ltac:(done) sm Hok) as Hok1.
  rewrite Hn in Hok1. cbn [fst] in Hok1. set (sm1 := SM _ _ _ r) in *.
  assert (sessions sm1 !! sid = Some s0) as Hs0 by (by apply list_lookup_middle).
  set (s := set_PeerNodeId (Some NODE_ID_ANY) s0).
  assert (update_session sid (set_PeerNodeId (Some NODE_ID_ANY)) sm1
          = (with_session sid s r sm1, Ret tt)) as Hu by (by apply (on_session_run _ _ _ s0)).
  assert (make_session sm = (with_session sid s r sm1, Ret sid)) as Hmake.
  { unfold make_session. erewrite js_bind_eq by exact Hn. by erewrite js_bind_eq by exact Hu. }
  assert (sessions (with_session sid s r sm1) = sessions sm ++ [s]) as Hss.
  { cbn. unfold sid. by rewrite insert_app_r_alt, Nat.sub_diag. }
  exists s. unfold made_up. rewrite Hmake. cbn [fst]. split_and!; try done; try lia.
  - assert (keeps (sm_ok 0) (update_session sid (set_PeerNodeId (Some NODE_ID_ANY)))) as Hk
      by auto with keeps.
    specialize (Hk sm1 Hok1). by rewrite Hu in Hk.
  - pose proof (getSecureSession_new s sm r id Hok Hg) as H.
    unfold with_session, sm1. cbn [sessions _sessionsSecured _sessionsUnsecured] in *.
    rewrite <- Hss in H. unfold with_session, sm1 in H. cbn [sessions] in H. rewrite H.
    change (_peerSessionId s) with (_peerSessionId s0). rewrite Hp. unfold is_number. cbn [num_val].
    by rewrite bool_decide_true.
  - change (_initiator s) with (_initiator s0). unfold Session_new in Hnew. js_inv. by simplify_eq.
  - change (_transport s) with (_transport s0). unfold Session_new in Hnew. js_inv. by simplify_eq.
  - exact (proj1 Hcnt).
  - exact (proj2 Hcnt).
Qed.

(** A message under such an id is received as if the session had been there. *)
Lemma onMessage_unknown `{Aead} sm peer :
  id ≠ 0 → sm_ok 0 sm → getSecureSession id sm = None →
  SessionManager_onMessage buf peer sm = SessionManager_onMessage buf peer (made_up sm).
Proof.
  intros H0 Hok Hg. destruct (made_up_spec sm Hok Hg) as (s & Hm & _ & _ & Hg' & _).
  unfold SessionManager_onMessage. erewrite wire_unencrypted, !js_bind_lift by done.
  unfold onSecureMessage. erewrite wire_session, !js_bind_lift by done.
  rewrite (js_bind_eq js_get _ sm sm sm), (js_bind_eq js_get _ (made_up sm) _ (made_up sm)) by done.
  rewrite Hg, Hg', js_bind_ret.
  rewrite (js_bind_eq _ _ sm (made_up sm) (length (sessions sm))); [done|].
  rewrite <- Hm. unfold make_session.
  destruct (newSession_spec (JNum (NInt id)) (JNum (NInt id)) true sm) as (s0 & r & Hn & _).
  erewrite js_bind_eq by exact Hn. erewrite wire_source, js_bind_lift by done.
  unfold mbind, js_bind. by rewrite Hn.
Qed.
End header.

Section receive.
Context `{HA : Aead}.
Context (id ctr flags opcode xid pid : Z) (rest buf key : buffer).
Hypothesis Hbuf : arrives id ctr flags opcode xid pid rest buf key.
Hypothesis Hctr : fits 4 ctr.
Hypothesis Hid : fits 2 id.
Hypothesis H0 : id ≠ 0.

Lemma decrypt_wire s peer :
  session_key s (if _initiator s then kR2IKey else kI2RKey) = Ret key →
  decryptMessage s (Message_new (Some buf) (Some buf) peer)
  = Ret (set_buffer (Message_new (Some buf) (Some buf) peer)
           (secure_message id ctr flags opcode xid pid rest)).
Proof.
  intros Hk. destruct Hbuf as [[c Hc] Hd]. unfold decryptMessage.
  erewrite wire_unencrypted by done. cbn [mbind outcome_bind]. rewrite Hk.
  cbn [mbind outcome_bind Message_new _encrypted].
  destruct Hd as [->|[-> Hp]]; [done|]. cbn [mbind outcome_bind]. by rewrite <- Hp.
Qed.

Lemma onMessage_secure sm sid s peer :
  receives_on sm id sid s key →
  SessionManager_onMessage buf peer sm
  = (with_session sid (heard peer ctr (now (sm_runtime sm)) s) (sm_runtime sm) sm,
     Ret (set_buffer (Message_new (Some buf) (Some buf) (Some peer))
            (secure_message id ctr flags opcode xid pid rest), sid)).
Proof.
  intros [Hf Hs _ _ Hk _]. destruct (ar_header _ _ _ _ _ _ _ _ _ Hbuf) as [c Hc].
  apply (onMessage_found id ctr buf c); try done.
  - by apply decrypt_wire.
  - by eapply secure_MessageCounter.
Qed.
End receive.

(** ** Dispatch to a new exchange *)

(** No exchange of ours answers to the id [xid] of the peer on this session. *)
Definition fresh_exchange (m : ExchangeManager) (sid : nat) (xid : Z) : Prop :=
  ∀ y e, y ∈ _exchanges m → exchange_heap m !! y = Some e →
    _exchangeId e = xid → _isInitiator e = false → ex_session e ≠ sid.

Lemma find_exchange_fresh m sid xid id msg l :
  Forall (λ e, (ex_session e < length (sessions (em_sessions m)))%nat) (exchange_heap m) →
  Forall (λ x, (x < length (exchange_heap m))%nat) l →
  (∀ y e, y ∈ l → exchange_heap m !! y = Some e →
     _exchangeId e = xid → _isInitiator e = false → ex_session e ≠ sid) →
  ExchangeId msg = Ret xid → SessionId msg = Ret id → Iflag msg = Ret true →
  find_exchange m sid msg l = Ret None.
Proof.
  intros He Hl Hfresh Hx Hid Hi. induction Hl as [|y l Hy _ IH]; [done|]. cbn [find_exchange].
  apply lookup_lt_is_Some in Hy as [e Hy].
  assert (match_at m sid msg y = Ret false) as ->; [|apply IH; intros y' e' Hin; apply Hfresh; by right].
  unfold match_at. rewrite Hy. rewrite Forall_lookup in He. pose proof (He _ _ Hy) as Hs.
  apply lookup_lt_is_Some in Hs as [s Hs]. rewrite Hs. unfold match_exchange.
  rewrite Hx, Hid, Hi. cbn [mbind outcome_bind].
  destruct (Z.eqb_spec xid (_exchangeId e)) as [E|]; [|done]. cbn [negb].
  destruct (is_number _ _); [|done]. cbn [negb]. destruct (_isInitiator e) eqn:Ei; [done|]. cbn.
  destruct (Nat.eqb_spec sid (ex_session e)); [|done]. exfalso. eapply Hfresh; eauto. by left.
Qed.

(** The exchange that answers a peer's message. *)
Definition answering (sid : nat) (xid : Z) (reliable : bool) (ctr : Z) : Exchange :=
  Exch sid xid false reliable reliable ctr [].

Definition after_receive (m : ExchangeManager) (sm : SessionManager) (e : Exchange)
    : ExchangeManager :=
  EM sm (exchange_heap m ++ [e]) (_exchanges m ++ [length (exchange_heap m)]) (_nextExchangeId m).

Lemma onSessionMessage_fresh m sid id ctr xid pid reliable msg :
  Forall (λ e, (ex_session e < length (sessions (em_sessions m)))%nat) (exchange_heap m) →
  Forall (λ x, (x < length (exchange_heap m))%nat) (_exchanges m) →
  fresh_exchange m sid xid →
  SessionId msg = Ret id → ExchangeId msg = Ret xid → Iflag msg = Ret true →
  ProtocolId msg = Ret pid → Rflag msg = Ret reliable → MessageCounter msg = Ret ctr →
  onSessionMessage msg sid m
  = (after_receive m (em_sessions m) (answering sid xid reliable ctr),
     Ret (ToProtocol pid (length (exchange_heap m)) msg)).
Proof.
  intros He Hl Hfresh Hid Hx Hi Hp Hr Hc. unfold onSessionMessage.
  rewrite Hid, js_bind_lift, Hx, js_bind_lift, Hi, js_bind_lift.
  rewrite (js_bind_eq js_get _ m m m) by done. unfold getExchange.
  rewrite (find_exchange_fresh m sid xid id) by done. rewrite js_bind_lift, Hp, js_bind_lift.
  erewrite js_bind_eq; [|unfold newExchange; rewrite js_bind_ret; cbn [next_exchange_id];
                         by rewrite Hx, js_bind_lift].
  assert (∀ f e, update_exchange (length (exchange_heap m)) f (after_receive m (em_sessions m) e)
                 = (after_receive m (em_sessions m) (f e), Ret tt)) as Hu.
  { intros f e. unfold update_exchange, js_modify, after_receive. cbn. do 3 f_equal.
    by rewrite <- (Nat.add_0_r (length _)), alter_app_r. }
  fold (after_receive m (em_sessions m) (Exchange_new xid sid true)).
  rewrite (js_bind_eq _ _ _ _ _ (Hu _ _)), Hr, js_bind_lift.
  rewrite (js_bind_eq _ _ _ _ _ (Hu _ _)), (js_bind_eq _ _ _ _ _ (Hu _ _)), Hc, js_bind_lift.
  by rewrite (js_bind_eq _ _ _ _ _ (Hu _ _)).
Qed.

(** A peer's first message of an exchange, through both managers. *)
Lemma receive_secure `{HA : Aead} (m : ExchangeManager) (buf key rest : buffer)
    (peer : PeerInfo) (sid : nat) (s : Session) (id ctr opcode xid pid : Z) (reliable : bool) :
  let flags := sent_flags true reliable false in
  let msg := set_buffer (Message_new (Some buf) (Some buf) (Some peer))
               (secure_message id ctr flags opcode xid pid rest) in
  let r := sm_runtime (em_sessions m) in
  em_ok m → receives_on (em_sessions m) id sid s key → fresh_exchange m sid xid →
  fits 4 ctr → fits 1 opcode → fits 2 xid → fits 2 pid →
  arrives id ctr flags opcode xid pid rest buf key →
  receive buf peer m
  = (after_receive m (with_session sid (heard peer ctr (now r) s) r (em_sessions m))
       (answering sid xid reliable ctr),
     Ret (ToProtocol pid (length (exchange_heap m)) msg)).
Proof.
  intros flags msg r (_ & He & Hx & _) Hr Hfresh Hc Ho Hxid Hp Hbuf.
  pose proof Hr as [_ Hs Hid H0 _ _].
  pose proof (onMessage_secure id ctr flags opcode xid pid rest buf key Hbuf Hc Hid H0 _ _ _
                peer Hr) as Hm.
  unfold receive. erewrite js_bind_eq; [|unfold in_sessions, zoom; by rewrite Hm]. cbn [fst snd].
  assert (fits 1 flags) as Hfl by apply sent_flags_fits.
  pose proof (onSessionMessage_fresh (set_em_sessions
    (with_session sid (heard peer ctr (now r) s) r (em_sessions m)) m) sid id ctr xid pid reliable
    msg) as H. apply H.
  - cbn. by rewrite length_insert.
  - done.
  - exact Hfresh.
  - by eapply secure_SessionId.
  - by eapply secure_ExchangeId.
  - unfold Iflag. erewrite secure_flag by done. by destruct reliable.
  - by eapply secure_ProtocolId.
  - unfold Rflag. erewrite secure_flag by done. by destruct reliable.
  - by eapply secure_MessageCounter.
Qed.
