(* ===== verification/JsValue.v ===== *)
(** * JavaScript values in the clients of the TLV code

    What the protocols do with values of a peer besides reading them: objects built
    for the writer, conversion to a string, property lookup in the tables of the
    program, [forEach], [JSON.stringify]. *)
From stdpp Require Import pretty.
From S2P Require Import Prelude JsNumber JsString TlvType TlvReader.

(** ** Objects for the writer

    What the template functions return; an absent parameter is [undefined]. *)

Definition field (t : Z) (ty : string) (v : json) : json :=
  JObj (Entry (Some t) (Some ty) None v None).
Definition struct_of (l : list json) : json :=
  JObj (Entry None (Some "struct"%string) None (JArr l) None).
Definition number (z : Z) : json := JNum (NInt z).

(** ** Reading a decoded message *)

(** [result[0].value[i].value] *)
Definition field_value (result : json) (i : nat) : outcome json :=
  outer ← js_index result 0;
  fields ← js_value outer;
  e ← js_index fields i;
  js_value e.

(** ** Strings *)

(** [l.join(",")] *)
Fixpoint join_commas (l : list jsstr) : jsstr :=
  match l with
  | [] => []
  | [s] => s
  | s :: l' => s ++ js_str "," ++ join_commas l'
  end.

(** [v.toString("hex")] for a value of a peer: a Buffer is converted, a string is
    itself, a number takes the argument for a radix and throws a RangeError. *)
Definition js_toString_hex (v : json) : outcome jsstr :=
  match v with
  | JUndef | JNull => Throw TypeError
  | JBool b => Ret (js_str (if b then "true" else "false"))
  | JNum _ | JBig _ => Throw RangeError
  | JStr s => Ret s
  | JBuf b => Ret (hex_encode b)
  | JObj _ => Ret (js_str "[object Object]")
  | JArr l =>
      join_commas <$> mapM (λ j, match j with
                                 | JObj _ => Ret (js_str "[object Object]")
                                 | _ => Throw OutOfModel
                                 end) l
  end.

(** The value as a property name.  [None] is the text of a Number that is no
    integer or is beyond the safe ones: no table of the program has such a name. *)
Definition property_key (v : json) : outcome (option jsstr) :=
  match v with
  | JUndef => Ret (Some (js_str "undefined"))
  | JNull => Ret (Some (js_str "null"))
  | JBig z => Ret (Some (js_str (pretty z)))
  | JNum n => Ret match num_val n with
                  | VInt z => if Z.abs z <? 2 ^ 53 then Some (js_str (pretty z)) else None
                  | _ => None
                  end
  | JBuf b => Ret (Some (utf8_decode b))
  | JBool _ | JStr _ | JArr _ | JObj _ => Some <$> js_toString_hex v
  end.

(** ** Tables

    An object literal used as a table.  A name that every object inherits
    would find a built-in; that is left out. *)
Abbreviation table A := (list (string * A)).

Definition object_prototype : list string :=
  ["constructor"; "toString"; "toLocaleString"; "valueOf"; "hasOwnProperty";
   "isPrototypeOf"; "propertyIsEnumerable"; "__proto__"; "__defineGetter__";
   "__defineSetter__"; "__lookupGetter__"; "__lookupSetter__"]%string.

Fixpoint own_property {A} (t : table A) (k : jsstr) : option A :=
  match t with
  | [] => None
  | (name, a) :: t' => if bool_decide (js_str name = k) then Some a else own_property t' k
  end.

(** The text of a number is never an inherited name. *)
Definition inherited (v : json) (k : jsstr) : bool :=
  match v with
  | JNum _ | JBig _ => false
  | _ => existsb (λ s, bool_decide (js_str s = k)) object_prototype
  end.

(** [t[v]]; [None] is [undefined]. *)
Definition lookup_property {A} (t : table A) (v : json) : outcome (option A) :=
  k ← property_key v;
  match k with
  | None => Ret None
  | Some k => if inherited v k then Throw OutOfModel else Ret (own_property t k)
  end.

(** ** Other operations *)

(** [v == undefined] *)
Definition nullish (v : json) : bool :=
  match v with JUndef | JNull => true | _ => false end.

(** [v == k] for an integer constant other than 0. *)
Definition equals_number (v : json) (k : Z) : outcome bool :=
  match v with
  | JUndef | JNull | JArr _ | JObj _ => Ret false
  | JBool b => Ret ((if b then 1 else 0) =? k)
  | JNum n => Ret (bool_decide (num_val n = VInt k))
  | JBig z => Ret (z =? k)
  | JStr _ | JBuf _ => Throw OutOfModel
  end.

(** The elements [v.forEach] visits. *)
Definition each (v : json) : outcome (list json) :=
  match v with
  | JArr l => Ret l
  | JBuf b => Ret ((λ x, JNum (NInt (byte_Z x))) <$> b)
  | _ => Throw TypeError
  end.

(** [JSON.stringify(v)] throws on a BigInt. *)
Fixpoint has_bigint (v : json) : bool :=
  match v with
  | JBig _ => true
  | JArr l => existsb has_bigint l
  | JObj e => has_bigint (value e)
  | _ => false
  end.

Definition stringify (v : json) : outcome unit :=
  if has_bigint v then Throw TypeError else Ret tt.
