(* ===== verification/TlvWire.v ===== *)
(** * Messages of TLV on the wire

    An object for the writer whose abstract elements are known has a known encoding,
    and the reader gives the elements back.  Lemmas for the members of message
    templates. *)
From S2P Require Import Prelude JsNumber JsString JsValue TlvType TlvCodec TlvWriter TlvReader.
From S2P Require Import TlvElement TlvFacts TlvWriterFacts TlvReaderFacts TlvTheorems.

(** ** Templates on the wire *)

Lemma encode_elems (j : json) (l : list elem) :
  elems_of j = Some l → encode_new j = Ret (elems_bytes l).
Proof. intros H. unfold encode_new, encode. by rewrite (encode_at_spec j None l TlvWriter_new H). Qed.

Lemma encode_decode (j : json) (l : list elem) :
  elems_of j = Some l → elems_ascii l →
  ∃ b, encode_new j = Ret b ∧ decode_json b = Ret (JArr (elem_json <$> l)).
Proof.
  intros H Ha. exists (elems_bytes l). split; [by apply encode_elems|].
  apply decode_json_elems; [by eapply elems_at_ok|done].
Qed.

(** A payload that decodes to one structure with these members. *)
Definition decodes_to (b : buffer) (fields : list entry) : Prop :=
  ∃ e, decode_json b = Ret (JArr [JObj e]) ∧ value e = JArr (JObj <$> fields).

(** An entry with a context tag, whatever its type is called. *)
Definition has_field (t : Z) (v : json) (e : entry) : Prop :=
  tag e = Some t ∧ value e = v ∧ tagName e = None.

Lemma prim_buffer_buf b : blen b <= UINT32_MAX → prim_buffer (JBuf b) = Some (PBytes b).
Proof. intros H. cbn. by rewrite (proj2 (Z.leb_le _ _) H). Qed.

Lemma prim_buffer_hex b : blen b <= UINT32_MAX → prim_buffer (JStr (hex_encode b)) = Some (PBytes b).
Proof. intros H. cbn. by rewrite hex_decode_encode, (proj2 (Z.leb_le _ _) H). Qed.

Lemma prim_unsigned_u16 z : 0 <= z < 65536 → prim_unsigned (number z) = Some (PUint z).
Proof.
  intros H. cbn. unfold in_uint64, UINT64_MAX.
  rewrite (proj2 (Z.leb_le 0 z)), (proj2 (Z.ltb_lt z _)) by lia. done.
Qed.

Lemma prim_json_u16 z : 0 <= z < 65536 → prim_json (PUint z) = number z.
Proof.
  intros H. cbn. unfold uint_log. zcases; try done. all: unfold UINT8_MAX, UINT16_MAX, UINT32_MAX in *; lia.
Qed.

(** The values a template member may hold, with the element and the value read back. *)
Inductive wire_value : string → json → prim → json → Prop :=
  | wire_buf b : blen b <= UINT32_MAX → wire_value "Buffer" (JBuf b) (PBytes b) (JBuf b)
  | wire_hex b : blen b <= UINT32_MAX →
      wire_value "Buffer" (JStr (hex_encode b)) (PBytes b) (JBuf b)
  | wire_u16 z : 0 <= z < 65536 → wire_value "uint16" (number z) (PUint z) (number z)
  | wire_u32 z : 0 <= z < 65536 → wire_value "uint32" (number z) (PUint z) (number z)
  | wire_bool v : wire_value "boolean" v (PBool (truthy v)) (JBool (truthy v)).

Lemma wire_value_json ty v p v' : wire_value ty v p v' → prim_json p = v'.
Proof. intros []; try done; by apply prim_json_u16. Qed.

Lemma elems_at_field t ty v p v' :
  0 <= t <= 255 → wire_value ty v p v' →
  elems_at None (field t ty v) = Some [Prim (TagContext t) p].
Proof.
  intros Ht Hw. cbn [elems_at field]. unfold tagform_of, UINT8_MAX.
  rewrite (proj2 (Z.leb_le 0 t)), (proj2 (Z.leb_le t 255)) by lia. cbn [andb mbind option_bind].
  destruct Hw as [b Hb|b Hb|z Hz|z Hz|v].
  - change (Some [Prim (TagContext t) (PBytes b)]) with ((λ x, [Prim (TagContext t) x]) <$> Some (PBytes b)).
    by rewrite <- (prim_buffer_buf b Hb).
  - change (Some [Prim (TagContext t) (PBytes b)]) with ((λ x, [Prim (TagContext t) x]) <$> Some (PBytes b)).
    by rewrite <- (prim_buffer_hex b Hb).
  - change (Some [Prim (TagContext t) (PUint z)]) with ((λ x, [Prim (TagContext t) x]) <$> Some (PUint z)).
    by rewrite <- (prim_unsigned_u16 z Hz).
  - change (Some [Prim (TagContext t) (PUint z)]) with ((λ x, [Prim (TagContext t) x]) <$> Some (PUint z)).
    by rewrite <- (prim_unsigned_u16 z Hz).
  - done.
Qed.

(** A member of a template: a value, or a structure of values. *)
Inductive wire_field : json → elem → json → Prop :=
  | wire_leaf t ty v p v' : 0 <= t <= 255 → wire_value ty v p v' →
      wire_field (field t ty v) (Prim (TagContext t) p) (JObj (mk_entry (TagContext t) (prim_type p) v'))
  | wire_struct t fs es vs : 0 <= t <= 255 → wire_fields fs es vs →
      wire_field (field t "struct" (JArr fs)) (Cont (TagContext t) KStruct es)
        (JObj (mk_entry (TagContext t) TLV_TYPE_STRUCTURE (JArr vs)))
with wire_fields : list json → list elem → list json → Prop :=
  | wire_nil : wire_fields [] [] []
  | wire_cons f fs e es v vs :
      wire_field f e v → wire_fields fs es vs → wire_fields (f :: fs) (e :: es) (v :: vs).

Scheme wire_field_ind' := Minimality for wire_field Sort Prop
  with wire_fields_ind' := Minimality for wire_fields Sort Prop.
Combined Scheme wire_both_ind from wire_field_ind', wire_fields_ind'.

Lemma wire_elems :
  (∀ f e v, wire_field f e v → elems_at None f = Some [e] ∧ elem_json e = v ∧ elem_ascii e) ∧
  (∀ fs es vs, wire_fields fs es vs →
     elems_at None (JArr fs) = Some es ∧ elem_json <$> es = vs ∧ Forall id (elem_ascii <$> es)).
Proof.
  apply wire_both_ind.
  - intros t ty v p v' Ht Hw. split_and!; [by eapply elems_at_field| |by destruct Hw].
    cbn. by rewrite (wire_value_json _ _ _ _ Hw).
  - intros t fs es vs Ht _ (IH & Hj & Ha). split_and!; [|cbn; by rewrite Hj|done].
    unfold field. cbn [elems_at] in *. unfold tagform_of, UINT8_MAX.
    rewrite (proj2 (Z.leb_le 0 t)), (proj2 (Z.leb_le t 255)) by lia. cbn [andb mbind option_bind].
    change (kind_of_type (Some "struct"%string)) with (Some KStruct). cbn iota.
    rewrite IH. done.
  - split_and!; [done|done|constructor].
  - intros f fs e es v vs _ (Hf & Hj & Ha) _ (Hfs & Hjs & Has).
    split_and!; [|by cbn; rewrite Hj, Hjs|by constructor].
    cbn [elems_at] in *. rewrite Hf, Hfs. done.
Qed.

Lemma struct_decodes fs es vs :
  wire_fields fs es vs →
  ∃ b, encode_new (struct_of fs) = Ret b ∧
    decode_json b = Ret (JArr [JObj (mk_entry TagAnon TLV_TYPE_STRUCTURE (JArr vs))]).
Proof.
  intros H. apply wire_elems in H as (He & Hj & Ha).
  destruct (encode_decode (struct_of fs) [Cont TagAnon KStruct es]) as (b & Hb & Hd).
  - unfold elems_of, struct_of. cbn [elems_at] in *. cbn [tagform_of mbind option_bind].
    change (kind_of_type (Some "struct"%string)) with (Some KStruct). cbn iota. by rewrite He.
  - by repeat constructor.
  - exists b. split; [done|]. rewrite Hd. cbn. by rewrite Hj.
Qed.
