(* ===== verification/Spake.v ===== *)
(** * SPAKE2+ as an interface

    [PaseSession] calls the packages [spake2] and [elliptic] and Node's
    [pbkdf2Sync]; none is part of the repository.  The class holds the calls it
    makes, on JavaScript values where it passes on what a peer sent.  The random
    scalar a side draws is the [seed] of the call that starts it. *)
From S2P Require Import Prelude JsNumber JsString TlvType.

Class Spake : Type := {
  spake_verifier : Type;
  spake_server : Type;
  spake_client : Type;
  spake_secret : Type;
  (* crypto.pbkdf2Sync(passcode, salt, iterations, keyLen, 'sha256') *)
  pbkdf2 (passcode : buffer) (salt iterations : json) (keyLen : Z) : outcome buffer;
  (* methods of spake2Plus({ suite, context }) *)
  computeVerifierFromSecret (context w0s w1s : buffer) : outcome spake_verifier;
  startServer (context : buffer) (v : spake_verifier) (seed : buffer) : outcome spake_server;
  startClient (context : buffer) (v : spake_verifier) (seed : buffer) : outcome spake_client;
  (* getMessage(), finish(message) *)
  server_message : spake_server → buffer;
  server_finish : spake_server → json → outcome spake_secret;
  client_message : spake_client → buffer;
  client_finish : spake_client → json → outcome spake_secret;
  (* cipherSuite.mac(message, key) *)
  spake_mac (message : json) (key : buffer) : outcome buffer;
  (* the shared secret *)
  Ke : spake_secret → buffer;
  KcA : spake_secret → buffer;
  KcB : spake_secret → buffer;
  verifyHash : spake_secret → json → outcome unit;
  (* ec.decodePoint(point, 'hex').encode(): the uncompressed octets *)
  decodePoint (point : buffer) : outcome buffer }.

(** What the two ends rely on: the salt may be given as a string or as its
    octets; points and confirmations have their fixed sizes; two ends that start from verifiers of the same password share and the
    same context, and finish on each other's point, hold the same secret; and the
    initiator's confirmation [HMAC(KcA, pB)] passes the responder's check. *)
Class SpakeLaws (S : Spake) : Prop := {
  pbkdf2_salt_text passcode salt iterations keyLen :
    pbkdf2 passcode (JStr salt) iterations keyLen
    = pbkdf2 passcode (JBuf (utf8_encode salt)) iterations keyLen;
  finish_agree context v seedA seedB cl sv pA pB kA kB :
    startClient context v seedA = Ret cl → startServer context v seedB = Ret sv →
    decodePoint (client_message cl) = Ret pA → decodePoint (server_message sv) = Ret pB →
    client_finish cl (JBuf pB) = Ret kA → server_finish sv (JBuf pA) = Ret kB →
    Ke kA = Ke kB ∧ KcA kA = KcA kB ∧ KcB kA = KcB kB;
  point_length p e : decodePoint p = Ret e → blen e = 65;
  mac_length message key b : spake_mac message key = Ret b → blen b = 32;
  verify_confirmation context v seed sv pB peer k cA :
    startServer context v seed = Ret sv → decodePoint (server_message sv) = Ret pB →
    server_finish sv peer = Ret k → spake_mac (JBuf pB) (KcA k) = Ret cA →
    verifyHash k (JBuf cA) = Ret () }.

(** ** A toy instance

    The "point" of a side is its seed and the secret is made of the two points
    and the password shares in the order client, server. *)
Record toy_end : Type := ToyEnd { toy_context : buffer; toy_share : buffer; toy_seed : buffer }.
Record toy_keys : Type := ToyKeys { toy_key : buffer; toy_expected : option buffer }.

Definition toy_bytes (j : json) : outcome buffer :=
  match j with JBuf b => Ret b | JStr s => Ret (utf8_encode s) | _ => Throw TypeError end.

Definition toy_digest (n : nat) (b : buffer) : buffer :=
  le_bytes n (foldr (λ x acc, byte_Z x + 257 * acc) 1 b).

#[global] Arguments toy_digest : simpl never.

Definition toy_mac (message : json) (key : buffer) : outcome buffer :=
  m ← toy_bytes message; Ret (toy_digest 32 (m ++ key)).

Definition toy_point (p : buffer) : buffer := take 65 (p ++ alloc 65).

#[global] Arguments toy_point : simpl never.

Definition toy_secret (context share pA pB : buffer) : buffer :=
  toy_digest 16 (context ++ share ++ pA ++ pB).

Definition toy_pbkdf2 (passcode : buffer) (salt iterations : json) (keyLen : Z)
    : outcome buffer :=
  s ← toy_bytes salt;
  match iterations with
  | JNum (NInt n) => if 0 <? n then Ret (toy_digest (Z.to_nat keyLen) (passcode ++ s))
                     else Throw RangeError
  | _ => Throw TypeError
  end.

#[export] Instance toy_spake : Spake := {|
  spake_verifier := buffer;
  spake_server := toy_end;
  spake_client := toy_end;
  spake_secret := toy_keys;
  pbkdf2 := toy_pbkdf2;
  computeVerifierFromSecret _ w0s w1s := Ret (w0s ++ w1s);
  startServer context v seed := Ret (ToyEnd context v (toy_point seed));
  startClient context v seed := Ret (ToyEnd context v (toy_point seed));
  server_message sv := toy_seed sv;
  server_finish sv peer :=
    pA ← toy_bytes peer;
    let k := toy_secret (toy_context sv) (toy_share sv) pA (toy_seed sv) in
    Ret (ToyKeys k (Some (toy_digest 32 (toy_seed sv ++ k))));
  client_message cl := toy_seed cl;
  client_finish cl peer :=
    pB ← toy_bytes peer;
    Ret (ToyKeys (toy_secret (toy_context cl) (toy_share cl) (toy_seed cl) pB) None);
  spake_mac := toy_mac;
  Ke k := toy_key k;
  KcA k := toy_key k;
  KcB k := toy_key k;
  verifyHash k c :=
    b ← toy_bytes c;
    if bool_decide (toy_expected k = Some b) then Ret () else Throw (Thrown "invalid hash"%string);
  decodePoint p := Ret (toy_point p) |}.

Lemma blen_toy_point p : blen (toy_point p) = 65.
Proof.
  unfold toy_point, blen, alloc. rewrite length_take, length_app, length_replicate. lia.
Qed.

Lemma toy_point_idem p : toy_point (toy_point p) = toy_point p.
Proof.
  unfold toy_point at 1. pose proof (blen_toy_point p) as H. unfold blen in H.
  rewrite take_app_le by lia. apply take_ge. lia.
Qed.

#[export] Instance toy_spake_laws : SpakeLaws toy_spake.
Proof.
  split.
  - done.
  - intros * H1 H2 H3 H4 H5 H6. cbn in *. inv_ret. subst. cbn. by rewrite !toy_point_idem.
  - intros * H. cbn in H. inv_ret. apply blen_toy_point.
  - intros * H. cbn in H. unfold toy_mac in H. inv_ret. apply blen_le_bytes.
  - intros * H1 H2 H3 H4. cbn in *. unfold toy_mac in H4.
    destruct (toy_bytes peer) as [pA|] eqn:E; [|done]. cbn in *. inv_ret. subst. cbn.
    rewrite toy_point_idem.
    by rewrite bool_decide_true.
Qed.
