(* ===== verification/Pase.v ===== *)
(** * Passcode-authenticated sessions (src/protocols/session/)

    [SessionProtocol] opens a [PaseSession] for every exchange that starts with a
    parameter request, and a shell command opens one as client.  A handler that
    awaits is cut at its [await]s: what follows is a pending job, and jobs of
    several handlers may resume in any order.  An exception of an [async] handler
    is a rejection, not an exception of the caller.

    The constants are those of SessionProtocolConst.js; [StatusReport] is in
    StatusReport.js. *)
From S2P Require Import Prelude JsNumber JsString TlvType TlvWriter TlvReader TlvParser Aead.
From S2P Require Import JsValue Message Runtime SessionCryptoContext Session SessionManager.
From S2P Require Import Exchange ExchangeManager Spake.

(** ** Constants *)

Definition PROTOCOL_ID : Z := 0x0000.
Definition Command_MrpStandaloneAck : Z := 0x10.
Definition Command_StatusReport : Z := 0x40.
Definition ParamRequest : Z := 0x20.
Definition ParamResponse : Z := 0x21.
Definition Pake1 : Z := 0x22.
Definition Pake2 : Z := 0x23.
Definition Pake3 : Z := 0x24.
Definition PakeError : Z := 0x2F.
Definition Sigma1 : Z := 0x30.

Definition SESSION_ESTABLISHMENT_SUCCESS : Z := 0x0000.
Definition GeneralCode_SUCCESS : Z := 0.

Definition RESPONSE_TIMEOUT : Z := 10000.
Definition PBKDF_ITERATIONS_MIN : Z := 1000.
Definition DEFAULT_PINCODE : Z := 20202021.
Definition PASE_CONTEXT_SALT : buffer := buf_str "CHIP PAKE V1 Commissioning".

(** [PaseSession.State] and [PaseSession.Role] *)
Inductive pase_state : Type :=
  | IDLE | AWAIT_PBKDF_PARAM_RSP | AWAIT_PAKE1 | AWAIT_PAKE2 | AWAIT_PAKE3.

Inductive pase_role : Type := INITIATOR | RESPONDER.

#[export] Instance pase_state_eq_dec : EqDecision pase_state.
Proof. solve_decision. Defined.

(** ** Message templates

    The objects the [TemplateMsg...] functions return; an absent parameter is
    [undefined]. *)

Definition TemplateMsgPasePbkdfParamRequest
    (initiatorRandom initiatorSessionId passcodeId hasPbkdfParameters
     sleepyIdleInterval sleepyActiveInterval : json) : json :=
  struct_of
    [field 1 "Buffer" initiatorRandom; field 2 "uint16" initiatorSessionId;
     field 3 "uint16" passcodeId; field 4 "boolean" hasPbkdfParameters;
     field 5 "struct" (JArr [field 1 "uint32" sleepyIdleInterval;
                             field 2 "uint32" sleepyActiveInterval])].

Definition MapMsgPasePbkdfParamRequest : gmap Z string :=
  list_to_map [(1, "initiatorRandom"); (2, "initiatorSessionId"); (3, "passcodeId");
               (4, "hasPbkdfParameters"); (5, "initiatorSedParameters")]%string.

Definition TemplateMsgPasePbkdfParamResponse
    (initiatorRandom responderRandom responderSessionId iterations salt : json) : json :=
  struct_of
    [field 1 "Buffer" initiatorRandom; field 2 "Buffer" responderRandom;
     field 3 "uint16" responderSessionId;
     field 4 "struct" (JArr [field 1 "uint16" iterations; field 2 "Buffer" salt])].

Definition MapMsgPasePbkdfParamResponse : gmap Z string :=
  list_to_map [(1, "initiatorRandom"); (2, "responderRandom"); (3, "responderSessionId");
               (4, "pbkdfParameters")]%string.

Definition TemplateMsgPasePake1 (pA : json) : json := struct_of [field 1 "Buffer" pA].
Definition TemplateMsgPasePake2 (pB cB : json) : json :=
  struct_of [field 1 "Buffer" pB; field 2 "Buffer" cB].
Definition TemplateMsgPasePake3 (cA : json) : json := struct_of [field 1 "Buffer" cA].

(** A message of this protocol: [new Message()], the protocol id, the opcode and
    the payload. *)
Definition protocol_message (opcode : Z) (payload : buffer) : outcome Message :=
  msg ← set_ProtocolId PROTOCOL_ID (Message_new None None None);
  msg ← set_ProtocolOpcode opcode msg;
  Ret (set_AppPayload payload msg).

(** [StatusReport.sendStatus]: all three fields are written at offset 0. *)
Definition status_payload (generalCode protocolId protocolCode : Z)
    (protocolData : option buffer) : outcome buffer :=
  let payload := alloc 8 in
  payload ← write_uint_le 2 generalCode payload 0;
  payload ← write_uint_le 4 protocolId payload 0;
  payload ← write_uint_le 2 protocolCode payload 0;
  Ret (match protocolData with Some d => payload ++ d | None => payload end).

Section pase.
Context `{Aead} `{Kdf} `{Spake}.

(** ** The session object *)

Record PaseSession : Type := Pase {
  ps_exchange : nat;
  _state : pase_state;
  _stateTimeout : option nat;
  _paramPaircode : Z;
  _paramIterations : json;
  _paramSalt : json;
  _paramSaltHex : jsstr;
  _localRole : pase_role;
  _initiatorRandom : json;
  _initiatorSessionId : json;
  _passcodeId : json;
  _responderRandom : json;
  _responderSessionId : json;
  _pA : json;
  _pB : json;
  _cA : json;
  _cB : json;
  _pbkdfRequest : option buffer;
  _pbkdfResponse : option buffer;
  _spake2 : option buffer;
  _spakeContext : option buffer;
  _spakeVerifier : option spake_verifier;
  _spakeServer : option spake_server;
  _spakeClient : option spake_client;
  secret : option spake_secret }.

Definition set_state (v : pase_state) (s : PaseSession) : PaseSession :=
  Pase (ps_exchange s) v (_stateTimeout s) (_paramPaircode s) (_paramIterations s)
    (_paramSalt s) (_paramSaltHex s) (_localRole s) (_initiatorRandom s)
    (_initiatorSessionId s) (_passcodeId s) (_responderRandom s) (_responderSessionId s)
    (_pA s) (_pB s) (_cA s) (_cB s) (_pbkdfRequest s) (_pbkdfResponse s) (_spake2 s)
    (_spakeContext s) (_spakeVerifier s) (_spakeServer s) (_spakeClient s) (secret s).

Definition set_stateTimeout (v : option nat) (s : PaseSession) : PaseSession :=
  Pase (ps_exchange s) (_state s) v (_paramPaircode s) (_paramIterations s) (_paramSalt s)
    (_paramSaltHex s) (_localRole s) (_initiatorRandom s) (_initiatorSessionId s)
    (_passcodeId s) (_responderRandom s) (_responderSessionId s) (_pA s) (_pB s) (_cA s)
    (_cB s) (_pbkdfRequest s) (_pbkdfResponse s) (_spake2 s) (_spakeContext s)
    (_spakeVerifier s) (_spakeServer s) (_spakeClient s) (secret s).

Definition set_paramIterations (v : json) (s : PaseSession) : PaseSession :=
  Pase (ps_exchange s) (_state s) (_stateTimeout s) (_paramPaircode s) v (_paramSalt s)
    (_paramSaltHex s) (_localRole s) (_initiatorRandom s) (_initiatorSessionId s)
    (_passcodeId s) (_responderRandom s) (_responderSessionId s) (_pA s) (_pB s) (_cA s)
    (_cB s) (_pbkdfRequest s) (_pbkdfResponse s) (_spake2 s) (_spakeContext s)
    (_spakeVerifier s) (_spakeServer s) (_spakeClient s) (secret s).

Definition set_paramSalt (v : json) (s : PaseSession) : PaseSession :=
  Pase (ps_exchange s) (_state s) (_stateTimeout s) (_paramPaircode s) (_paramIterations s)
    v (_paramSaltHex s) (_localRole s) (_initiatorRandom s) (_initiatorSessionId s)
    (_passcodeId s) (_responderRandom s) (_responderSessionId s) (_pA s) (_pB s) (_cA s)
    (_cB s) (_pbkdfRequest s) (_pbkdfResponse s) (_spake2 s) (_spakeContext s)
    (_spakeVerifier s) (_spakeServer s) (_spakeClient s) (secret s).

Definition set_localRole (v : pase_role) (s : PaseSession) : PaseSession :=
  Pase (ps_exchange s) (_state s) (_stateTimeout s) (_paramPaircode s) (_paramIterations s)
    (_paramSalt s) (_paramSaltHex s) v (_initiatorRandom s) (_initiatorSessionId s)
    (_passcodeId s) (_responderRandom s) (_responderSessionId s) (_pA s) (_pB s) (_cA s)
    (_cB s) (_pbkdfRequest s) (_pbkdfResponse s) (_spake2 s) (_spakeContext s)
    (_spakeVerifier s) (_spakeServer s) (_spakeClient s) (secret s).

Definition set_initiatorRandom (v : json) (s : PaseSession) : PaseSession :=
  Pase (ps_exchange s) (_state s) (_stateTimeout s) (_paramPaircode s) (_paramIterations s)
    (_paramSalt s) (_paramSaltHex s) (_localRole s) v (_initiatorSessionId s)
    (_passcodeId s) (_responderRandom s) (_responderSessionId s) (_pA s) (_pB s) (_cA s)
    (_cB s) (_pbkdfRequest s) (_pbkdfResponse s) (_spake2 s) (_spakeContext s)
    (_spakeVerifier s) (_spakeServer s) (_spakeClient s) (secret s).

Definition set_initiatorSessionId (v : json) (s : PaseSession) : PaseSession :=
  Pase (ps_exchange s) (_state s) (_stateTimeout s) (_paramPaircode s) (_paramIterations s)
    (_paramSalt s) (_paramSaltHex s) (_localRole s) (_initiatorRandom s) v (_passcodeId s)
    (_responderRandom s) (_responderSessionId s) (_pA s) (_pB s) (_cA s) (_cB s)
    (_pbkdfRequest s) (_pbkdfResponse s) (_spake2 s) (_spakeContext s) (_spakeVerifier s)
    (_spakeServer s) (_spakeClient s) (secret s).

Definition set_passcodeId (v : json) (s : PaseSession) : PaseSession :=
  Pase (ps_exchange s) (_state s) (_stateTimeout s) (_paramPaircode s) (_paramIterations s)
    (_paramSalt s) (_paramSaltHex s) (_localRole s) (_initiatorRandom s)
    (_initiatorSessionId s) v (_responderRandom s) (_responderSessionId s) (_pA s) (_pB s)
    (_cA s) (_cB s) (_pbkdfRequest s) (_pbkdfResponse s) (_spake2 s) (_spakeContext s)
    (_spakeVerifier s) (_spakeServer s) (_spakeClient s) (secret s).

Definition set_responderRandom (v : json) (s : PaseSession) : PaseSession :=
  Pase (ps_exchange s) (_state s) (_stateTimeout s) (_paramPaircode s) (_paramIterations s)
    (_paramSalt s) (_paramSaltHex s) (_localRole s) (_initiatorRandom s)
    (_initiatorSessionId s) (_passcodeId s) v (_responderSessionId s) (_pA s) (_pB s)
    (_cA s) (_cB s) (_pbkdfRequest s) (_pbkdfResponse s) (_spake2 s) (_spakeContext s)
    (_spakeVerifier s) (_spakeServer s) (_spakeClient s) (secret s).

Definition set_responderSessionId (v : json) (s : PaseSession) : PaseSession :=
  Pase (ps_exchange s) (_state s) (_stateTimeout s) (_paramPaircode s) (_paramIterations s)
    (_paramSalt s) (_paramSaltHex s) (_localRole s) (_initiatorRandom s)
    (_initiatorSessionId s) (_passcodeId s) (_responderRandom s) v (_pA s) (_pB s) (_cA s)
    (_cB s) (_pbkdfRequest s) (_pbkdfResponse s) (_spake2 s) (_spakeContext s)
    (_spakeVerifier s) (_spakeServer s) (_spakeClient s) (secret s).

Definition set_pA (v : json) (s : PaseSession) : PaseSession :=
  Pase (ps_exchange s) (_state s) (_stateTimeout s) (_paramPaircode s) (_paramIterations s)
    (_paramSalt s) (_paramSaltHex s) (_localRole s) (_initiatorRandom s)
    (_initiatorSessionId s) (_passcodeId s) (_responderRandom s) (_responderSessionId s) v
    (_pB s) (_cA s) (_cB s) (_pbkdfRequest s) (_pbkdfResponse s) (_spake2 s)
    (_spakeContext s) (_spakeVerifier s) (_spakeServer s) (_spakeClient s) (secret s).

Definition set_pB (v : json) (s : PaseSession) : PaseSession :=
  Pase (ps_exchange s) (_state s) (_stateTimeout s) (_paramPaircode s) (_paramIterations s)
    (_paramSalt s) (_paramSaltHex s) (_localRole s) (_initiatorRandom s)
    (_initiatorSessionId s) (_passcodeId s) (_responderRandom s) (_responderSessionId s)
    (_pA s) v (_cA s) (_cB s) (_pbkdfRequest s) (_pbkdfResponse s) (_spake2 s)
    (_spakeContext s) (_spakeVerifier s) (_spakeServer s) (_spakeClient s) (secret s).

Definition set_cA (v : json) (s : PaseSession) : PaseSession :=
  Pase (ps_exchange s) (_state s) (_stateTimeout s) (_paramPaircode s) (_paramIterations s)
    (_paramSalt s) (_paramSaltHex s) (_localRole s) (_initiatorRandom s)
    (_initiatorSessionId s) (_passcodeId s) (_responderRandom s) (_responderSessionId s)
    (_pA s) (_pB s) v (_cB s) (_pbkdfRequest s) (_pbkdfResponse s) (_spake2 s)
    (_spakeContext s) (_spakeVerifier s) (_spakeServer s) (_spakeClient s) (secret s).

Definition set_cB (v : json) (s : PaseSession) : PaseSession :=
  Pase (ps_exchange s) (_state s) (_stateTimeout s) (_paramPaircode s) (_paramIterations s)
    (_paramSalt s) (_paramSaltHex s) (_localRole s) (_initiatorRandom s)
    (_initiatorSessionId s) (_passcodeId s) (_responderRandom s) (_responderSessionId s)
    (_pA s) (_pB s) (_cA s) v (_pbkdfRequest s) (_pbkdfResponse s) (_spake2 s)
    (_spakeContext s) (_spakeVerifier s) (_spakeServer s) (_spakeClient s) (secret s).

Definition set_pbkdfRequest (v : option buffer) (s : PaseSession) : PaseSession :=
  Pase (ps_exchange s) (_state s) (_stateTimeout s) (_paramPaircode s) (_paramIterations s)
    (_paramSalt s) (_paramSaltHex s) (_localRole s) (_initiatorRandom s)
    (_initiatorSessionId s) (_passcodeId s) (_responderRandom s) (_responderSessionId s)
    (_pA s) (_pB s) (_cA s) (_cB s) v (_pbkdfResponse s) (_spake2 s) (_spakeContext s)
    (_spakeVerifier s) (_spakeServer s) (_spakeClient s) (secret s).

Definition set_pbkdfResponse (v : option buffer) (s : PaseSession) : PaseSession :=
  Pase (ps_exchange s) (_state s) (_stateTimeout s) (_paramPaircode s) (_paramIterations s)
    (_paramSalt s) (_paramSaltHex s) (_localRole s) (_initiatorRandom s)
    (_initiatorSessionId s) (_passcodeId s) (_responderRandom s) (_responderSessionId s)
    (_pA s) (_pB s) (_cA s) (_cB s) (_pbkdfRequest s) v (_spake2 s) (_spakeContext s)
    (_spakeVerifier s) (_spakeServer s) (_spakeClient s) (secret s).

Definition set_spake2 (v : option buffer) (s : PaseSession) : PaseSession :=
  Pase (ps_exchange s) (_state s) (_stateTimeout s) (_paramPaircode s) (_paramIterations s)
    (_paramSalt s) (_paramSaltHex s) (_localRole s) (_initiatorRandom s)
    (_initiatorSessionId s) (_passcodeId s) (_responderRandom s) (_responderSessionId s)
    (_pA s) (_pB s) (_cA s) (_cB s) (_pbkdfRequest s) (_pbkdfResponse s) v (_spakeContext s)
    (_spakeVerifier s) (_spakeServer s) (_spakeClient s) (secret s).

Definition set_spakeContext (v : option buffer) (s : PaseSession) : PaseSession :=
  Pase (ps_exchange s) (_state s) (_stateTimeout s) (_paramPaircode s) (_paramIterations s)
    (_paramSalt s) (_paramSaltHex s) (_localRole s) (_initiatorRandom s)
    (_initiatorSessionId s) (_passcodeId s) (_responderRandom s) (_responderSessionId s)
    (_pA s) (_pB s) (_cA s) (_cB s) (_pbkdfRequest s) (_pbkdfResponse s) (_spake2 s) v
    (_spakeVerifier s) (_spakeServer s) (_spakeClient s) (secret s).

Definition set_spakeVerifier (v : option spake_verifier) (s : PaseSession) : PaseSession :=
  Pase (ps_exchange s) (_state s) (_stateTimeout s) (_paramPaircode s) (_paramIterations s)
    (_paramSalt s) (_paramSaltHex s) (_localRole s) (_initiatorRandom s)
    (_initiatorSessionId s) (_passcodeId s) (_responderRandom s) (_responderSessionId s)
    (_pA s) (_pB s) (_cA s) (_cB s) (_pbkdfRequest s) (_pbkdfResponse s) (_spake2 s)
    (_spakeContext s) v (_spakeServer s) (_spakeClient s) (secret s).

Definition set_spakeServer (v : option spake_server) (s : PaseSession) : PaseSession :=
  Pase (ps_exchange s) (_state s) (_stateTimeout s) (_paramPaircode s) (_paramIterations s)
    (_paramSalt s) (_paramSaltHex s) (_localRole s) (_initiatorRandom s)
    (_initiatorSessionId s) (_passcodeId s) (_responderRandom s) (_responderSessionId s)
    (_pA s) (_pB s) (_cA s) (_cB s) (_pbkdfRequest s) (_pbkdfResponse s) (_spake2 s)
    (_spakeContext s) (_spakeVerifier s) v (_spakeClient s) (secret s).

Definition set_spakeClient (v : option spake_client) (s : PaseSession) : PaseSession :=
  Pase (ps_exchange s) (_state s) (_stateTimeout s) (_paramPaircode s) (_paramIterations s)
    (_paramSalt s) (_paramSaltHex s) (_localRole s) (_initiatorRandom s)
    (_initiatorSessionId s) (_passcodeId s) (_responderRandom s) (_responderSessionId s)
    (_pA s) (_pB s) (_cA s) (_cB s) (_pbkdfRequest s) (_pbkdfResponse s) (_spake2 s)
    (_spakeContext s) (_spakeVerifier s) (_spakeServer s) v (secret s).

Definition set_secret (v : option spake_secret) (s : PaseSession) : PaseSession :=
  Pase (ps_exchange s) (_state s) (_stateTimeout s) (_paramPaircode s) (_paramIterations s)
    (_paramSalt s) (_paramSaltHex s) (_localRole s) (_initiatorRandom s)
    (_initiatorSessionId s) (_passcodeId s) (_responderRandom s) (_responderSessionId s)
    (_pA s) (_pB s) (_cA s) (_cB s) (_pbkdfRequest s) (_pbkdfResponse s) (_spake2 s)
    (_spakeContext s) (_spakeVerifier s) (_spakeServer s) (_spakeClient s) v.

(** [new PaseSession(sessionMgr)] on an exchange *)
Definition PaseSession_new (exchange : nat) : PaseSession :=
  Pase exchange IDLE None DEFAULT_PINCODE (number PBKDF_ITERATIONS_MIN)
    (JStr (js_str "SPAKE2P Key Salt"))
    (hex_encode (buf_str "SPAKE2P Key Salt")) INITIATOR
    JUndef JUndef JUndef JUndef JUndef JUndef JUndef JUndef JUndef
    None None None None None None None None.

(** ** The state of the protocol

    [AfterSecret] awaits [computeVerifierFromSecret], [AfterVerifier] awaits
    [generateVerifier], [AfterStart] awaits [startServer] or [startClient]. *)
Inductive job : Type :=
  | AfterSecret (role : pase_role) (p : nat) (context w0s w1s : buffer)
  | AfterVerifier (role : pase_role) (p : nat) (verifier : spake_verifier)
  | AfterStart (role : pase_role) (p : nat) (context : buffer) (verifier : spake_verifier).

Record PaseWorld : Type := PW {
  w_em : ExchangeManager;
  pases : list PaseSession;
  _paseSessions : list nat;
  _pairingCodes : gmap string (option bool);
  timers : list (nat * nat);
  next_timer : nat;
  jobs : list job;
  rejections : list js_error }.

Definition PaseWorld_new (em : ExchangeManager) : PaseWorld := PW em [] [] ∅ [] 0 [] [].

Definition set_em (em : ExchangeManager) (w : PaseWorld) : PaseWorld :=
  PW em (pases w) (_paseSessions w) (_pairingCodes w) (timers w) (next_timer w) (jobs w)
    (rejections w).
Definition set_pases (l : list PaseSession) (w : PaseWorld) : PaseWorld :=
  PW (w_em w) l (_paseSessions w) (_pairingCodes w) (timers w) (next_timer w) (jobs w)
    (rejections w).
Definition set_pairingCodes (c : gmap string (option bool)) (w : PaseWorld) : PaseWorld :=
  PW (w_em w) (pases w) (_paseSessions w) c (timers w) (next_timer w) (jobs w) (rejections w).
Definition set_timers (t : list (nat * nat)) (n : nat) (w : PaseWorld) : PaseWorld :=
  PW (w_em w) (pases w) (_paseSessions w) (_pairingCodes w) t n (jobs w) (rejections w).
Definition set_jobs (j : list job) (w : PaseWorld) : PaseWorld :=
  PW (w_em w) (pases w) (_paseSessions w) (_pairingCodes w) (timers w) (next_timer w) j
    (rejections w).
Definition set_rejections (e : list js_error) (w : PaseWorld) : PaseWorld :=
  PW (w_em w) (pases w) (_paseSessions w) (_pairingCodes w) (timers w) (next_timer w) (jobs w) e.

Definition in_em {A} (m : js ExchangeManager A) : js PaseWorld A := zoom w_em set_em m.
Definition in_random {A} (m : js runtime A) : js PaseWorld A :=
  in_em (in_sessions (zoom sm_runtime set_sm_runtime m)).

(** [this]: the fields of the session object [p]. *)
Definition this (p : nat) : js PaseWorld PaseSession := λ w,
  match pases w !! p with Some s => (w, Ret s) | None => (w, Throw TypeError) end.

Definition assign (p : nat) (f : PaseSession → PaseSession) : js PaseWorld unit :=
  js_modify (λ w, set_pases (alter f p (pases w)) w).

(** An [async] function: its exception becomes a rejection. *)
Definition async (m : js PaseWorld unit) : js PaseWorld unit := λ w,
  match m w with
  | (w', Ret _) => (w', Ret tt)
  | (w', Throw e) => (set_rejections (rejections w' ++ [e]) w', Ret tt)
  end.

Definition await (j : job) : js PaseWorld unit :=
  js_modify (λ w, set_jobs (jobs w ++ [j]) w).

(** ** Timers and states *)

(** [clearTimeout()]: the timer is stopped, its handle is kept. *)
Definition pase_clearTimeout (p : nat) : js PaseWorld unit :=
  s ← this p;
  match _stateTimeout s with
  | Some t => js_modify (λ w,
      set_timers (filter (λ x, x.1 ≠ t) (timers w)) (next_timer w) w)
  | None => mret tt
  end.

(** [setTimeout(interval)] *)
Definition pase_setTimeout (p : nat) (interval : Z) : js PaseWorld unit :=
  pase_clearTimeout p ;;
  w ← js_get;
  js_put (set_timers (timers w ++ [(next_timer w, p)]) (S (next_timer w)) w) ;;
  assign p (set_stateTimeout (Some (next_timer w))).

(** [setState(state)] *)
Definition setState (p : nat) (state : pase_state) : js PaseWorld unit :=
  assign p (set_state state) ;;
  if bool_decide (state = IDLE) then pase_clearTimeout p
  else pase_setTimeout p RESPONSE_TIMEOUT.

(** The callback of the timer [t]. *)
Definition fire_timer (t : nat) : js PaseWorld unit :=
  w ← js_get;
  match list_find (λ x, x.1 = t) (timers w) with
  | Some (_, (_, p)) =>
      js_put (set_timers (filter (λ x, x.1 ≠ t) (timers w)) (next_timer w) w) ;;
      setState p IDLE
  | None => mret tt
  end.

(** ** Sending *)

(** [this.Exchange.sendMessage(msg)] of a message with this payload, in state
    [state]; [prepare] is what the caller does to the exchange in between. *)
Definition send_in_state (p : nat) (opcode : Z) (payload : buffer) (state : pase_state)
    (prepare : Exchange → Exchange) : js PaseWorld unit :=
  msg ← js_lift (protocol_message opcode payload);
  setState p state ;;
  s ← this p;
  in_em (update_exchange (ps_exchange s) prepare) ;;
  in_em (send_on (ps_exchange s) msg).

(** [sendPbkdfParamRequest()]: the parameter object has [havePbkdfParameters]
    where the template reads [hasPbkdfParameters]. *)
Definition sendPbkdfParamRequest (p : nat) : js PaseWorld unit :=
  assign p (set_localRole INITIATOR) ;;
  id ← in_random RandomU16;
  assign p (set_initiatorSessionId (number id)) ;;
  r ← in_random (Random 32);
  assign p (set_initiatorRandom (JBuf r)) ;;
  assign p (set_passcodeId (number 0)) ;;
  payload ← js_lift (encode_new (TemplateMsgPasePbkdfParamRequest
    (JBuf r) (number id) (number 0) JUndef (number 4000) (number 300)));
  assign p (set_pbkdfRequest (Some payload)) ;;
  send_in_state p ParamRequest payload AWAIT_PBKDF_PARAM_RSP (λ e, e).

(** [startPase(host, port, passcode)]: the arguments are not used. *)
Definition startPase (p : nat) : js PaseWorld unit :=
  s ← this p;
  if bool_decide (_state s = IDLE) then sendPbkdfParamRequest p else mret tt.

(** [sendPbkdfParamResponse()] *)
Definition sendPbkdfParamResponse (p : nat) : js PaseWorld unit :=
  r ← in_random (Random 32);
  assign p (set_responderRandom (JBuf r)) ;;
  id ← in_random RandomU16;
  assign p (set_responderSessionId (number id)) ;;
  s ← this p;
  initiatorRandom ← js_lift (js_toString_hex (_initiatorRandom s));
  payload ← js_lift (encode_new (TemplateMsgPasePbkdfParamResponse
    (JStr initiatorRandom) (JStr (hex_encode r)) (number id) (_paramIterations s)
    (JStr (_paramSaltHex s))));
  msg ← js_lift (protocol_message ParamResponse payload);
  assign p (set_pbkdfResponse (Some payload)) ;;
  setState p AWAIT_PAKE1 ;;
  in_em (send_on (ps_exchange s) msg).

(** [sendPake1()], [sendPake2()] *)
Definition sendPake1 (p : nat) : js PaseWorld unit :=
  s ← this p;
  payload ← js_lift (encode_new (TemplateMsgPasePake1 (_pA s)));
  send_in_state p Pake1 payload AWAIT_PAKE2 (set_isAck true).

Definition sendPake2 (p : nat) : js PaseWorld unit :=
  s ← this p;
  payload ← js_lift (encode_new (TemplateMsgPasePake2 (_pB s) (_cB s)));
  send_in_state p Pake2 payload AWAIT_PAKE3 (λ e, e).

(** [initPaseSession(session)] and [createSecureSession()] *)
Definition initPaseSession (p : nat) (session : nat) : js PaseWorld unit :=
  s ← this p;
  k ← js_lift (from_option Ret (Throw TypeError) (secret s));
  in_em (in_sessions (
    x ← get_session session;
    x ← js_lift (Session_initFromSecret (Ke k) [] (buf_str "SessionKeys") x);
    update_session session (λ _, x))).

Definition createSecureSession (p : nat) : js PaseWorld unit :=
  s ← this p;
  session ← in_em (in_sessions (match _localRole s with
    | INITIATOR => newSession (_initiatorSessionId s) (_responderSessionId s) true
    | RESPONDER => newSession (_responderSessionId s) (_initiatorSessionId s) true
    end));
  initPaseSession p session.

Definition sendPake3 (p : nat) : js PaseWorld unit :=
  s ← this p;
  payload ← js_lift (encode_new (TemplateMsgPasePake3 (_cA s)));
  send_in_state p Pake3 payload IDLE (λ e, e) ;;
  createSecureSession p.

(** [StatusReport.sendSuccess(exchange, protocolId, protocolCode)] *)
Definition sendStatus (exchange : nat) (generalCode protocolId protocolCode : Z)
    (protocolData : option buffer) : js PaseWorld unit :=
  payload ← js_lift (status_payload generalCode protocolId protocolCode protocolData);
  msg ← js_lift (protocol_message Command_StatusReport payload);
  in_em (send_on exchange msg).

Definition sendSuccess (exchange : nat) (protocolId protocolCode : Z)
    (protocolData : option buffer) : js PaseWorld unit :=
  sendStatus exchange GeneralCode_SUCCESS protocolId protocolCode protocolData.

(** ** Handlers *)

Definition is_missing (v : json) : bool :=
  match v with JUndef | JNull => true | _ => false end.

(** [computeContext()] *)
Definition computeContext (p : nat) : js PaseWorld buffer :=
  s ← this p;
  match _pbkdfRequest s, _pbkdfResponse s with
  | Some req, Some rsp =>
      let context := sha256 (PASE_CONTEXT_SALT ++ req ++ rsp) in
      assign p (set_spakeContext (Some context)) ;; mret context
  | _, _ => js_throw TypeError
  end.

(** [generateVerifier(iterations, salt)] up to its [await]. *)
Definition generateVerifier (role : pase_role) (p : nat) (iterations salt : json)
    : js PaseWorld unit :=
  (if is_missing iterations then mret tt else assign p (set_paramIterations iterations)) ;;
  (if is_missing salt then mret tt else assign p (set_paramSalt salt)) ;;
  s ← this p;
  passcode ← js_lift (write_uint_le 4 (_paramPaircode s) (alloc 4) 0);
  let keyLen := 80 in
  w0sw1s ← js_lift (pbkdf2 passcode (_paramSalt s) (_paramIterations s) keyLen);
  context ← js_lift (from_option Ret (Throw TypeError) (_spake2 s));
  await (AfterSecret role p context (subarray w0sw1s 0 (keyLen `div` 2))
                     (subarray w0sw1s (keyLen `div` 2) keyLen)).

(** [onPbkdfParamRequest(msg)] *)
Definition onPbkdfParamRequest (p : nat) (msg : Message) : js PaseWorld unit :=
  s ← this p;
  if bool_decide (_state s ≠ IDLE) then mret tt
  else
    tlv ← js_lift (AppPayload msg);
    result ← js_lift (decode_json tlv);
    outer ← js_lift (js_index result 0);
    tlvJson ← js_lift (js_value outer);
    tlvJson ← js_lift (mapFields tlvJson MapMsgPasePbkdfParamRequest);
    v ← js_lift (get tlvJson "initiatorRandom");
    assign p (set_initiatorRandom v) ;;
    v ← js_lift (get tlvJson "initiatorSessionId");
    assign p (set_initiatorSessionId v) ;;
    v ← js_lift (get tlvJson "passcodeId");
    assign p (set_passcodeId v) ;;
    assign p (set_localRole RESPONDER) ;;
    assign p (set_pbkdfRequest (Some tlv)) ;;
    s ← this p;
    _ ← js_lift (js_toString_hex (_initiatorRandom s));
    sendPbkdfParamResponse p.

(** [onPbkdfParamResponse(msg)] up to its first [await]; it does not look at the
    state. *)
Definition onPbkdfParamResponse (p : nat) (msg : Message) : js PaseWorld unit :=
  tlv ← js_lift (AppPayload msg);
  assign p (set_pbkdfResponse (Some tlv)) ;;
  result ← js_lift (decode_json tlv);
  outer ← js_lift (js_index result 0);
  tlvJson ← js_lift (js_value outer);
  tlvJson ← js_lift (mapFields tlvJson MapMsgPasePbkdfParamResponse);
  v ← js_lift (get tlvJson "responderSessionId");
  assign p (set_responderSessionId v) ;;
  pbkdfParameters ← js_lift (get tlvJson "pbkdfParameters");
  e ← js_lift (js_index pbkdfParameters 0);
  iterations ← js_lift (js_value e);
  e ← js_lift (js_index pbkdfParameters 1);
  salt ← js_lift (js_value e);
  context ← computeContext p;
  assign p (set_spake2 (Some context)) ;;
  generateVerifier INITIATOR p iterations salt.

(** [onPake1(msg)] up to its first [await] *)
Definition onPake1 (p : nat) (msg : Message) : js PaseWorld unit :=
  s ← this p;
  if bool_decide (_state s ≠ AWAIT_PAKE1) then mret tt
  else
    tlv ← js_lift (AppPayload msg);
    result ← js_lift (decode_json tlv);
    pA ← js_lift (field_value result 0);
    assign p (set_pA pA) ;;
    context ← computeContext p;
    assign p (set_spake2 (Some context)) ;;
    _ ← js_lift (js_toString_hex pA);
    generateVerifier RESPONDER p JUndef JUndef.

(** [onPake2(msg)] *)
Definition onPake2 (p : nat) (msg : Message) : js PaseWorld unit :=
  s ← this p;
  if bool_decide (_state s ≠ AWAIT_PAKE2) then mret tt
  else
    tlv ← js_lift (AppPayload msg);
    result ← js_lift (decode_json tlv);
    pB ← js_lift (field_value result 0);
    assign p (set_pB pB) ;;
    cB ← js_lift (field_value result 1);
    assign p (set_cB cB) ;;
    client ← js_lift (from_option Ret (Throw TypeError) (_spakeClient s));
    k ← js_lift (client_finish client pB);
    assign p (set_secret (Some k)) ;;
    cA ← js_lift (spake_mac pB (KcA k));
    assign p (set_cA (JStr (hex_encode cA))) ;;
    _ ← js_lift (js_toString_hex pB);
    _ ← js_lift (js_toString_hex cB);
    _ ← js_lift (js_toString_hex (_pA s));
    sendPake3 p.

(** [onPake3(msg)] *)
Definition onPake3 (p : nat) (msg : Message) : js PaseWorld unit :=
  s ← this p;
  if bool_decide (_state s ≠ AWAIT_PAKE3) then mret tt
  else
    tlv ← js_lift (AppPayload msg);
    result ← js_lift (decode_json tlv);
    cA ← js_lift (field_value result 0);
    assign p (set_cA cA) ;;
    _ ← js_lift (js_toString_hex cA);
    k ← js_lift (from_option Ret (Throw TypeError) (secret s));
    js_lift (verifyHash k cA) ;;
    sendSuccess (ps_exchange s) PROTOCOL_ID SESSION_ESTABLISHMENT_SUCCESS None ;;
    createSecureSession p ;;
    setState p IDLE.

(** ** What follows an [await] *)

(** The rest of [generateVerifier] after [computeVerifierFromSecret]. *)
Definition after_secret (role : pase_role) (p : nat) (context w0s w1s : buffer)
    : js PaseWorld unit :=
  verifier ← js_lift (computeVerifierFromSecret context w0s w1s);
  assign p (set_spakeVerifier (Some verifier)) ;;
  await (AfterVerifier role p verifier).

(** The handler after [generateVerifier]: [startServer] or [startClient] of the
    [_spake2] object there is by then. *)
Definition after_verifier (role : pase_role) (p : nat) (verifier : spake_verifier)
    : js PaseWorld unit :=
  s ← this p;
  context ← js_lift (from_option Ret (Throw TypeError) (_spake2 s));
  await (AfterStart role p context verifier).

(** The end of [onPake1] *)
Definition pake1_started (p : nat) (server : spake_server) : js PaseWorld unit :=
  assign p (set_spakeServer (Some server)) ;;
  e ← js_lift (decodePoint (server_message server));
  assign p (set_pB (JStr (hex_encode e))) ;;
  s ← this p;
  k ← js_lift (server_finish server (_pA s));
  assign p (set_secret (Some k)) ;;
  cB ← js_lift (spake_mac (_pA s) (KcB k));
  assign p (set_cB (JStr (hex_encode cB))) ;;
  sendPake2 p.

(** The end of [onPbkdfParamResponse] *)
Definition response_started (p : nat) (client : spake_client) : js PaseWorld unit :=
  assign p (set_spakeClient (Some client)) ;;
  e ← js_lift (decodePoint (client_message client));
  assign p (set_pA (JStr (hex_encode e))) ;;
  sendPake1 p.

Definition after_start (role : pase_role) (p : nat) (context : buffer)
    (verifier : spake_verifier) (seed : buffer) : js PaseWorld unit :=
  match role with
  | RESPONDER => server ← js_lift (startServer context verifier seed); pake1_started p server
  | INITIATOR => client ← js_lift (startClient context verifier seed); response_started p client
  end.

Definition run_job (j : job) (seed : buffer) : js PaseWorld unit :=
  match j with
  | AfterSecret role p context w0s w1s => after_secret role p context w0s w1s
  | AfterVerifier role p verifier => after_verifier role p verifier
  | AfterStart role p context verifier => after_start role p context verifier seed
  end.

(** The pending job at [i] resumes; [seed] is what its library call draws. *)
Definition resume (i : nat) (seed : buffer) : js PaseWorld unit :=
  w ← js_get;
  match jobs w !! i with
  | Some j => js_put (set_jobs (delete i (jobs w)) w) ;; async (run_job j seed)
  | None => mret tt
  end.

(** ** Dispatch *)

(** [onExchangeMessage(msg, exchange)] *)
Definition onExchangeMessage (p : nat) (msg : Message) : js PaseWorld unit :=
  opcode ← js_lift (ProtocolOpcode msg);
  _ ← js_lift (ExchangeId msg);
  if opcode =? ParamRequest then onPbkdfParamRequest p msg
  else if opcode =? ParamResponse then async (onPbkdfParamResponse p msg)
  else if opcode =? Pake1 then async (onPake1 p msg)
  else if opcode =? Pake2 then async (onPake2 p msg)
  else if opcode =? Pake3 then onPake3 p msg
  else mret tt.

(** [PaseSession.create(exchange, sessionMgr)] and [SessionProtocol.newPase] *)
Definition newPase (exchange : nat) : js PaseWorld nat :=
  w ← js_get;
  let p := length (pases w) in
  js_put (PW (w_em w) (pases w ++ [PaseSession_new exchange]) (_paseSessions w)
             (_pairingCodes w) (timers w) (next_timer w) (jobs w) (rejections w)) ;;
  in_em (update_exchange exchange (set_isReliable true)) ;;
  in_em (update_exchange exchange (add_listener p)) ;;
  js_modify (λ w, PW (w_em w) (pases w) (_paseSessions w ++ [p]) (_pairingCodes w) (timers w)
                     (next_timer w) (jobs w) (rejections w)) ;;
  mret p.

(** [SessionProtocol.getPase(exchange)] *)
Definition getPase (exchange : nat) (w : PaseWorld) : option nat :=
  snd <$> list_find (λ p, (ps_exchange <$> pases w !! p) = Some exchange) (_paseSessions w).

(** [SessionProtocol.pairingCodeAdd], [pairingCodeRemove] *)
Definition pairingCodeAdd (code : string) : js PaseWorld unit :=
  js_modify (λ w, set_pairingCodes (<[code := Some true]> (_pairingCodes w)) w).
Definition pairingCodeRemove (code : string) : js PaseWorld unit :=
  js_modify (λ w, set_pairingCodes (<[code := None]> (_pairingCodes w)) w).

(** [SessionProtocol.onProtocolMessage(msg, exchange)] *)
Definition onProtocolMessage (msg : Message) (exchange : nat) : js PaseWorld unit :=
  opcode ← js_lift (ProtocolOpcode msg);
  _ ← js_lift (ExchangeId msg);
  w ← js_get;
  if opcode =? ParamRequest then
    match getPase exchange w with
    | None => p ← newPase exchange; onExchangeMessage p msg
    | Some _ => mret tt
    end
  else mret tt.

(** The shell's [pase] command: a client session to a host and port. *)
Definition doPase (ipPort : Z) (ipHost : string) : js PaseWorld unit :=
  x ← in_em (newExchange None None true);
  e ← in_em (get_exchange x);
  in_em (in_sessions (update_session (ex_session e) (set_Transport Client))) ;;
  in_em (in_sessions (update_session (ex_session e)
    (set_PeerInfo (Some (Peer ipHost ipPort Client))))) ;;
  p ← newPase x;
  startPase p.

(** A datagram received: the listeners of the exchange it belongs to, or the
    protocol it opens an exchange for. *)
Definition pase_deliver (d : dispatch) : js PaseWorld unit :=
  match d with
  | ToExchange x msg =>
      e ← in_em (get_exchange x);
      js_forEach (λ p, onExchangeMessage p msg) (listeners e)
  | ToProtocol protocolId x msg =>
      if protocolId =? PROTOCOL_ID then onProtocolMessage msg x else mret tt
  | Dropped => mret tt
  end.

Definition pase_receive (buf : buffer) (peer : PeerInfo) : js PaseWorld unit :=
  d ← in_em (receive buf peer);
  pase_deliver d.
End pase.
