(* ===== verification/PaseFacts.v ===== *)
(** * Facts about the PASE handlers

    What a handler that completes has done to
    its session object; which world components an operation leaves alone. *)
From S2P Require Import Prelude JsNumber JsString JsValue TlvType TlvCodec TlvWriter TlvReader TlvElement.
From S2P Require Import TlvParser TlvWriterFacts TlvReaderFacts TlvTheorems TlvWire Aead Message.
From S2P Require Import Runtime.
From S2P Require Import SessionCryptoContext Session SessionManager Exchange ExchangeManager.
From S2P Require Import MessagingFacts Spake Pase.

(** ** Taking runs apart *)

Section runs.
Context `{HA : Aead} `{HK : Kdf} `{HP : Spake}.

Lemma this_inv p w w' s : this p w = (w', Ret s) → w' = w ∧ pases w !! p = Some s.
Proof. unfold this. destruct (pases w !! p) eqn:E; intros H; [by injection H as <- <-|done]. Qed.

Lemma assign_inv p f w w' u :
  assign p f w = (w', Ret u) → w' = set_pases (alter f p (pases w)) w.
Proof. intros H. by injection H as <-. Qed.

Lemma await_inv j w w' u : await j w = (w', Ret u) → w' = set_jobs (jobs w ++ [j]) w.
Proof. intros H. by injection H as <-. Qed.

Lemma in_em_inv {A} (m : js ExchangeManager A) w w' a :
  in_em m w = (w', Ret a) → ∃ em, m (w_em w) = (em, Ret a) ∧ w' = set_em em w.
Proof. apply zoom_inv. Qed.

Lemma from_option_inv {A} (o : option A) e a :
  from_option Ret (Throw e) o = Ret a → o = Some a.
Proof. destruct o; intros H; [by injection H as <-|done]. Qed.
End runs.

(** Takes a successful run of a PASE operation apart. *)
Ltac pase_inv1 :=
  match goal with
  | H : this _ _ = (_, Ret _) |- _ => apply this_inv in H as [-> H]
  | H : assign _ _ _ = (_, Ret _) |- _ => apply assign_inv in H as ->
  | H : await _ _ = (_, Ret _) |- _ => apply await_inv in H as ->
  | H : in_em _ _ = (_, Ret _) |- _ => apply in_em_inv in H as (? & H & ->)
  | H : from_option Ret (Throw _) _ = Ret _ |- _ => apply from_option_inv in H
  | H : (_ ≫= _) _ = (_, Ret _) |- _ => apply js_bind_inv in H as (? & ? & ? & H)
  | H : js_lift _ _ = (_, Ret _) |- _ => apply js_lift_inv in H as [-> H]
  | H : js_get _ = (_, Ret _) |- _ => apply js_get_inv in H as [-> ->]
  | H : js_modify _ _ = (_, Ret _) |- _ => apply js_modify_inv in H as ->
  | H : js_put _ _ = (_, Ret _) |- _ => apply js_put_inv in H as ->
  | H : @mret (js _) _ _ _ _ = (_, Ret _) |- _ => apply js_mret_inv in H as [-> H]; subst
  | H : js_throw _ _ = (_, Ret _) |- _ => discriminate H
  end.

(** The same, with lookups of the session object resolved: [alter] at [p] is
    read through, and a test of the state already known is decided. *)
Ltac pase_look :=
  cbn [pases w_em jobs rejections timers next_timer _paseSessions set_pases set_em set_jobs
       set_timers set_rejections] in *;
  repeat match goal with
  | H : alter _ ?p _ !! ?p = Some _ |- _ => rewrite list_lookup_alter_eq in H
  | H : _ <$> Some _ = Some _ |- _ => cbn in H; injection H as H; try subst
  | H1 : pases ?w !! ?p = Some ?s, H2 : pases ?w !! ?p = Some ?s' |- _ =>
      assert (s' = s) by congruence; subst s'; clear H2
  | H1 : pases ?w !! ?p = Some ?s, H2 : _ <$> pases ?w !! ?p = Some _ |- _ => rewrite H1 in H2
  end.

Section handlers.
Context `{HA : Aead} `{HK : Kdf} `{HP : Spake}.

Lemma pase_clearTimeout_inv p w w' u :
  pase_clearTimeout p w = (w', Ret u) → ∃ ts, w' = set_timers ts (next_timer w) w.
Proof.
  unfold pase_clearTimeout. intros H. repeat pase_inv1. case_match; repeat pase_inv1; [by eexists|].
  exists (timers w). by destruct w.
Qed.

(** [setState] changes the state and the timers, and nothing else. *)
Lemma setState_inv p st w w' u :
  setState p st w = (w', Ret u) →
  ∃ ts n h, w' = set_timers ts n (set_pases (alter h p (pases w)) w) ∧
    ∀ s, ∃ t, h s = set_stateTimeout t (set_state st s).
Proof.
  unfold setState. intros H. repeat pase_inv1. case_bool_decide.
  - apply pase_clearTimeout_inv in H as (ts & ->). cbn. eexists ts, _, (set_state st).
    split; [reflexivity|]. intros s. exists (_stateTimeout s). by destruct s.
  - unfold pase_setTimeout in H. repeat pase_inv1.
    match goal with H : pase_clearTimeout _ _ = _ |- _ =>
      apply pase_clearTimeout_inv in H as (ts & ->) end.
    cbn. unfold set_timers, set_pases. cbn.
    eexists _, _, (λ s, set_stateTimeout (Some (next_timer w)) (set_state st s)).
    split; [|intros s; by eexists]. f_equal. by rewrite list_alter_alter_eq.
Qed.

Lemma send_in_state_inv p opcode payload st prepare w w' u s :
  pases w !! p = Some s → send_in_state p opcode payload st prepare w = (w', Ret u) →
  ∃ t, pases w' !! p = Some (set_stateTimeout t (set_state st s)) ∧
       jobs w' = jobs w ∧ rejections w' = rejections w ∧
       ∃ em msg, protocol_message opcode payload = Ret msg ∧
         send_on (ps_exchange s) msg em = (w_em w', Ret u).
Proof.
  unfold send_in_state. intros Hs H. repeat pase_inv1.
  match goal with H : setState _ _ _ = _ |- _ =>
    apply setState_inv in H as (ts & n & h & -> & Hh) end.
  destruct (Hh s) as [t Ht]. pase_look. rewrite list_lookup_alter_eq, Hs in *. cbn in *.
  exists t. rewrite Ht in *. split_and!; [done..|]. by eexists _, _.
Qed.

Lemma in_random_inv {A} (m : js runtime A) w w' a :
  in_random m w = (w', Ret a) →
  (∃ em, w' = set_em em w) ∧ ∃ r r', m r = (r', Ret a).
Proof.
  unfold in_random, in_sessions. intros H. repeat pase_inv1.
  apply zoom_inv in H as (sm & H & ->). apply zoom_inv in H as (r & H & ->).
  split; [by eexists|by eexists _, _].
Qed.

Lemma RandomU16_range r r' id : RandomU16 r = (r', Ret id) → 0 <= id < 65536.
Proof.
  unfold RandomU16. intros H. repeat pase_inv1.
  match goal with H : Random _ _ = _ |- _ => apply Random_ret in H as (Hl & _ & _) end.
  match goal with |- _ <= be_Z ?b < _ => pose proof (be_Z_range b) as Hb end.
  unfold blen in Hb. rewrite Hl in Hb. lia.
Qed.

Lemma request_template r id :
  blen r <= UINT32_MAX → 0 <= id < 65536 →
  ∃ b e1 e2 e3 e4 e5,
    encode_new (TemplateMsgPasePbkdfParamRequest
      (JBuf r) (number id) (number 0) JUndef (number 4000) (number 300)) = Ret b ∧
    decodes_to b [e1; e2; e3; e4; e5] ∧
    has_field 1 (JBuf r) e1 ∧ has_field 2 (number id) e2 ∧ has_field 3 (number 0) e3 ∧
    has_field 4 (JBool false) e4 ∧ tag e5 = Some 5 ∧ tagName e5 = None.
Proof.
  intros Hr Hid. edestruct struct_decodes as (b & Hb & Hd).
  { apply wire_cons; [apply (wire_leaf 1); [lia|by apply wire_buf]|].
    apply wire_cons; [apply (wire_leaf 2); [lia|by apply (wire_u16 id)]|].
    apply wire_cons; [apply (wire_leaf 3); [lia|by apply (wire_u16 0)]|].
    apply wire_cons; [apply (wire_leaf 4); [lia|by apply (wire_bool JUndef)]|].
    apply wire_cons; [apply (wire_struct 5); [lia|]|apply wire_nil].
    apply wire_cons; [apply (wire_leaf 1); [lia|by apply (wire_u32 4000)]|].
    apply wire_cons; [apply (wire_leaf 2); [lia|by apply (wire_u32 300)]|apply wire_nil]. }
  eexists b, _, _, _, _, _. split; [exact Hb|]. split.
  { eexists. split; [exact Hd|]. reflexivity. }
  by split_and!.
Qed.

Lemma response_template r1 r2 id iterations salt :
  blen r1 <= UINT32_MAX → blen r2 <= UINT32_MAX → 0 <= id < 65536 → 0 <= iterations < 65536 →
  blen salt <= UINT32_MAX →
  ∃ b e1 e2 e3 e4 f1 f2,
    encode_new (TemplateMsgPasePbkdfParamResponse
      (JStr (hex_encode r1)) (JStr (hex_encode r2)) (number id) (number iterations)
      (JStr (hex_encode salt))) = Ret b ∧
    decodes_to b [e1; e2; e3; e4] ∧
    has_field 1 (JBuf r1) e1 ∧ has_field 2 (JBuf r2) e2 ∧ has_field 3 (number id) e3 ∧
    has_field 4 (JArr [JObj f1; JObj f2]) e4 ∧
    has_field 1 (number iterations) f1 ∧ has_field 2 (JBuf salt) f2.
Proof.
  intros Hr1 Hr2 Hid Hi Hs. edestruct struct_decodes as (b & Hb & Hd).
  { apply wire_cons; [apply (wire_leaf 1); [lia|by apply (wire_hex r1)]|].
    apply wire_cons; [apply (wire_leaf 2); [lia|by apply (wire_hex r2)]|].
    apply wire_cons; [apply (wire_leaf 3); [lia|by apply (wire_u16 id)]|].
    apply wire_cons; [apply (wire_struct 4); [lia|]|apply wire_nil].
    apply wire_cons; [apply (wire_leaf 1); [lia|by apply (wire_u16 iterations)]|].
    apply wire_cons; [apply (wire_leaf 2); [lia|by apply (wire_hex salt)]|apply wire_nil]. }
  eexists b, _, _, _, _, _, _. split; [exact Hb|]. split.
  { eexists. split; [exact Hd|]. reflexivity. }
  by split_and!.
Qed.

(** ** Handlers, when they complete *)

(** The session object [p] is [s], up to the handle of its timer. *)
Definition is_pase (p : nat) (s : PaseSession) (w : PaseWorld) : Prop :=
  ∃ t, pases w !! p = Some (set_stateTimeout t s).

Definition same_queues (w w' : PaseWorld) : Prop :=
  jobs w' = jobs w ∧ rejections w' = rejections w.

Lemma same_queues_trans w1 w2 w3 : same_queues w1 w2 → same_queues w2 w3 → same_queues w1 w3.
Proof. unfold same_queues. intros [] []. split; congruence. Qed.

Lemma same_queues_refl w : same_queues w w.
Proof. done. Qed.

Lemma run_this {A} p s (k : PaseSession → js PaseWorld A) w :
  pases w !! p = Some s → (this p ≫= k) w = k s w.
Proof. intros H. unfold mbind, js_bind, this. by rewrite H. Qed.

Lemma assign_step {A} p f s (k : unit → js PaseWorld A) w r :
  pases w !! p = Some s → (assign p f ≫= k) w = r →
  ∃ w1, pases w1 !! p = Some (f s) ∧ (same_queues w w1 ∧ w_em w1 = w_em w) ∧ k tt w1 = r.
Proof.
  intros Hs H. eexists. split; [|split; [|exact H]]; [|by split].
  cbn. by rewrite list_lookup_alter_eq, Hs.
Qed.

Lemma random_step {A B} p s (m : js runtime A) (k : A → js PaseWorld B) w w' b :
  pases w !! p = Some s → (in_random m ≫= k) w = (w', Ret b) →
  ∃ w1 a, pases w1 !! p = Some s ∧ same_queues w w1 ∧ (∃ r r', m r = (r', Ret a)) ∧
    k a w1 = (w', Ret b).
Proof.
  intros Hs H. apply js_bind_inv in H as (w1 & a & E & H).
  apply in_random_inv in E as ((em & ->) & Hm). exists (set_em em w), a. split_and!; [exact Hs|done|exact Hm|exact H].
Qed.

Lemma lift_step {A B} (o : outcome A) (k : A → js PaseWorld B) w w' b :
  (js_lift o ≫= k) w = (w', Ret b) → ∃ a, o = Ret a ∧ k a w = (w', Ret b).
Proof. intros H. apply js_bind_inv in H as (w1 & a & E & H). apply js_lift_inv in E as [-> ?]. eauto. Qed.

Lemma em_step_inv {A B} (m : js ExchangeManager A) (k : A → js PaseWorld B) w w' b :
  (in_em m ≫= k) w = (w', Ret b) →
  ∃ w1 a, pases w1 = pases w ∧ same_queues w w1 ∧ m (w_em w) = (w_em w1, Ret a) ∧
    k a w1 = (w', Ret b).
Proof.
  intros H. apply js_bind_inv in H as (w1 & a & E & H).
  apply in_em_inv in E as (em & Hm & ->). exists (set_em em w), a. split_and!; done.
Qed.
End handlers.

(** Executes the deterministic steps at the front of a run on the session object
    that [Hs] describes. *)
Ltac run1 H Hs :=
  lazymatch type of H with
  | (this _ ≫= _) _ = _ => rewrite (run_this _ _ _ _ Hs) in H; cbv beta in H
  | (assign _ _ ≫= _) _ = _ =>
      let w := fresh "w" in let Hw := fresh "Hw" in let F := fresh "F" in
      destruct (assign_step _ _ _ _ _ _ Hs H) as (w & Hw & F & ?); clear H Hs;
      rename Hw into Hs; match goal with H' : _ w = _ |- _ => rename H' into H end;
      cbv beta in H
  end.
Ltac run H Hs := repeat run1 H Hs.

(** The next step is a pure computation with result [x]. *)
Tactic Notation "take" hyp(H) "as" ident(x) ident(E) :=
  apply lift_step in H as (x & E & H); cbv beta in H.

(** The queues of a chain of worlds. *)
Ltac queues :=
  unfold same_queues in *;
  cbn [w_em jobs rejections set_em set_pases set_timers set_jobs set_rejections] in *;
  intuition congruence.

Section handlers.
Context `{HA : Aead} `{HK : Kdf} `{HP : Spake}.

Lemma sendPbkdfParamRequest_spec p w w' s :
  pases w !! p = Some s → sendPbkdfParamRequest p w = (w', Ret tt) →
  ∃ r id payload, 0 <= id < 65536 ∧ blen r = 32 ∧
    encode_new (TemplateMsgPasePbkdfParamRequest
      (JBuf r) (number id) (number 0) JUndef (number 4000) (number 300)) = Ret payload ∧
    is_pase p (set_state AWAIT_PBKDF_PARAM_RSP (set_pbkdfRequest (Some payload)
      (set_passcodeId (number 0) (set_initiatorRandom (JBuf r)
      (set_initiatorSessionId (number id) (set_localRole INITIATOR s)))))) w' ∧
    same_queues w w'.
Proof.
  unfold sendPbkdfParamRequest. intros Hs H. run H Hs.
  destruct (random_step _ _ _ _ _ _ _ Hs H) as (w1 & id & Hs1 & Q1 & (r1 & r1' & Hid) & H1).
  apply RandomU16_range in Hid. run H1 Hs1.
  destruct (random_step _ _ _ _ _ _ _ Hs1 H1) as (w3 & r & Hs3 & Q3 & (r2 & r2' & Hr) & H3).
  apply Random_ret in Hr as (Hr & _ & _). run H3 Hs3. take H3 as payload Hp. run H3 Hs3.
  apply (send_in_state_inv _ _ _ _ _ _ _ _ _ Hs3) in H3 as (t & Ht & Hj & He & _).
  exists r, id, payload. split_and!; try done; try lia.
  - unfold blen. by rewrite Hr.
  - by exists t.
  - queues.
Qed.

(** The names [mapFields] gives to the members of the two parameter messages. *)
Lemma request_names e1 e2 e3 e4 e5 v1 v2 v3 v4 :
  has_field 1 v1 e1 → has_field 2 v2 e2 → has_field 3 v3 e3 → has_field 4 v4 e4 →
  tag e5 = Some 5 →
  let j := JArr (JObj <$> (map_entry MapMsgPasePbkdfParamRequest <$> [e1; e2; e3; e4; e5])) in
  get j "initiatorRandom" = Ret v1 ∧ get j "initiatorSessionId" = Ret v2 ∧
  get j "passcodeId" = Ret v3.
Proof.
  destruct e1, e2, e3, e4, e5. unfold has_field. cbn [TlvType.tag TlvType.value TlvType.tagName].
  intros (-> & -> & ->) (-> & -> & ->) (-> & -> & ->) (-> & -> & ->) ->.
  by split_and!.
Qed.

Lemma response_names e1 e2 e3 e4 v1 v2 v3 v4 :
  has_field 1 v1 e1 → has_field 2 v2 e2 → has_field 3 v3 e3 → has_field 4 v4 e4 →
  let j := JArr (JObj <$> (map_entry MapMsgPasePbkdfParamResponse <$> [e1; e2; e3; e4])) in
  get j "responderSessionId" = Ret v3 ∧ get j "pbkdfParameters" = Ret v4.
Proof.
  destruct e1, e2, e3, e4. unfold has_field. cbn [TlvType.tag TlvType.value TlvType.tagName].
  intros (-> & -> & ->) (-> & -> & ->) (-> & -> & ->) (-> & -> & ->).
  by split_and!.
Qed.

(** Reads the outer structure of a payload. *)
Lemma outer_step {A} b es (k : json → js PaseWorld A) w w' a :
  decodes_to b es →
  (result ← js_lift (decode_json b); outer ← js_lift (js_index result 0);
   tlvJson ← js_lift (js_value outer); k tlvJson) w = (w', Ret a) →
  k (JArr (JObj <$> es)) w = (w', Ret a).
Proof.
  intros (e & Hd & Hv) H. take H as j1 E1. rewrite Hd in E1. injection E1 as <-.
  take H as j2 E2. injection E2 as <-. take H as j3 E3. injection E3 as <-. by rewrite <- Hv.
Qed.

Lemma fields_step {A} b es i e (k : json → js PaseWorld A) w w' a :
  decodes_to b es → es !! i = Some e →
  (result ← js_lift (decode_json b); v ← js_lift (field_value result i); k v) w = (w', Ret a) →
  k (value e) w = (w', Ret a).
Proof.
  intros (e0 & Hd & Hv) He H. take H as j1 E1. rewrite Hd in E1. injection E1 as <-.
  take H as j2 E2. unfold field_value in E2. cbn in E2. rewrite Hv in E2. cbn in E2.
  rewrite list_lookup_fmap, He in E2. cbn in E2. injection E2 as <-. done.
Qed.

Lemma sendPbkdfParamResponse_spec p w w' s r1 z salt :
  pases w !! p = Some s → _initiatorRandom s = JBuf r1 → _paramIterations s = number z →
  _paramSaltHex s = hex_encode salt →
  sendPbkdfParamResponse p w = (w', Ret tt) →
  ∃ r id payload, 0 <= id < 65536 ∧ blen r = 32 ∧
    encode_new (TemplateMsgPasePbkdfParamResponse (JStr (hex_encode r1)) (JStr (hex_encode r))
      (number id) (number z) (JStr (hex_encode salt))) = Ret payload ∧
    is_pase p (set_state AWAIT_PAKE1 (set_pbkdfResponse (Some payload)
      (set_responderSessionId (number id) (set_responderRandom (JBuf r) s)))) w' ∧
    same_queues w w'.
Proof.
  unfold sendPbkdfParamResponse. intros Hs Hr1 Hz Hsalt H.
  destruct (random_step _ _ _ _ _ _ _ Hs H) as (w1 & r & Hs1 & Q1 & (q1 & q1' & Hr) & H1).
  apply Random_ret in Hr as (Hr & _ & _). run H1 Hs1.
  destruct (random_step _ _ _ _ _ _ _ Hs1 H1) as (w3 & id & Hs3 & Q3 & (q2 & q2' & Hid) & H3).
  apply RandomU16_range in Hid. run H3 Hs3. cbn in H3. rewrite Hr1, Hz, Hsalt in H3.
  take H3 as ir Hir. injection Hir as <-. take H3 as payload Hp. take H3 as msg Hm. run H3 Hs3.
  apply js_bind_inv in H3 as (w6 & [] & Hset & H3).
  apply setState_inv in Hset as (ts & n & h & -> & Hh).
  apply in_em_inv in H3 as (em & _ & ->).
  exists r, id, payload. split_and!; try done; try lia.
  - unfold blen. by rewrite Hr.
  - match type of Hs3 with _ = Some ?s3 => destruct (Hh s3) as [t Ht] end.
    exists t. cbn. by rewrite list_lookup_alter_eq, Hs3, <- Ht.
  - queues.
Qed.

Lemma onPbkdfParamRequest_spec p msg w w' s e1 e2 e3 e4 e5 r1 id1 v3 v4 req z salt :
  pases w !! p = Some s → _state s = IDLE → AppPayload msg = Ret req →
  decodes_to req [e1; e2; e3; e4; e5] →
  has_field 1 (JBuf r1) e1 → has_field 2 (number id1) e2 → has_field 3 v3 e3 →
  has_field 4 v4 e4 → tag e5 = Some 5 →
  _paramIterations s = number z → _paramSaltHex s = hex_encode salt →
  onPbkdfParamRequest p msg w = (w', Ret tt) →
  ∃ r id payload, 0 <= id < 65536 ∧ blen r = 32 ∧
    encode_new (TemplateMsgPasePbkdfParamResponse (JStr (hex_encode r1)) (JStr (hex_encode r))
      (number id) (number z) (JStr (hex_encode salt))) = Ret payload ∧
    is_pase p (set_state AWAIT_PAKE1 (set_pbkdfResponse (Some payload)
      (set_responderSessionId (number id) (set_responderRandom (JBuf r)
      (set_pbkdfRequest (Some req) (set_localRole RESPONDER (set_passcodeId v3
      (set_initiatorSessionId (number id1) (set_initiatorRandom (JBuf r1) s))))))))) w' ∧
    same_queues w w'.
Proof.
  unfold onPbkdfParamRequest. intros Hs Hst Hreq Hd F1 F2 F3 F4 F5 Hz Hsalt H. run H Hs.
  rewrite bool_decide_false in H by (rewrite Hst; auto).
  rewrite Hreq in H. take H as tlv E. injection E as <-. apply (outer_step _ _ _ _ _ _ Hd) in H.
  cbv beta in H.
  rewrite mapFields_entries in H. take H as j E. apply Ret_inj in E as <-.
  destruct (request_names _ _ _ _ _ _ _ _ _ F1 F2 F3 F4 F5) as (G1 & G2 & G3).
  rewrite G1 in H. take H as x E. injection E as <-. run H Hs.
  rewrite G2 in H. take H as x E. injection E as <-. run H Hs.
  rewrite G3 in H. take H as x E. injection E as <-. run H Hs.
  cbn in H. take H as x E.
  eapply (sendPbkdfParamResponse_spec _ _ _ _ r1 z salt Hs) in H as
    (r & id & payload & Hid & Hr & Hp & Hpase & Q); [|done..].
  exists r, id, payload. split_and!; try done; try lia. queues.
Qed.

(** Both handlers that compute the verifier leave one job behind. *)
Lemma computeContext_step {A} p s req rsp (k : buffer → js PaseWorld A) w w' a :
  pases w !! p = Some s → _pbkdfRequest s = Some req → _pbkdfResponse s = Some rsp →
  (computeContext p ≫= k) w = (w', Ret a) →
  let context := sha256 (PASE_CONTEXT_SALT ++ req ++ rsp) in
  ∃ w1, pases w1 !! p = Some (set_spakeContext (Some context) s) ∧ same_queues w w1 ∧
        w_em w1 = w_em w ∧ k context w1 = (w', Ret a).
Proof.
  intros Hs Hq Hr H. apply js_bind_inv in H as (w1 & c & E & H).
  unfold computeContext in E. run E Hs. rewrite Hq, Hr in E. run E Hs.
  apply js_mret_inv in E as [-> ->]. eexists. split_and!; [exact Hs|queues|queues|exact H].
Qed.

Lemma assign_unless_step {A} p s (b : bool) f (k : unit → js PaseWorld A) w r :
  pases w !! p = Some s → ((if b then mret tt else assign p f) ≫= k) w = r →
  ∃ w1, pases w1 !! p = Some (if b then s else f s) ∧ (same_queues w w1 ∧ w_em w1 = w_em w) ∧
        k tt w1 = r.
Proof.
  intros Hs H. destruct b; [by exists w|]. exact (assign_step _ _ _ _ _ _ Hs H).
Qed.

(** The parameters [generateVerifier] has stored by the time it uses them. *)
Definition with_params (iterations salt : json) (s : PaseSession) : PaseSession :=
  let s := if is_missing iterations then s else set_paramIterations iterations s in
  if is_missing salt then s else set_paramSalt salt s.

Lemma generateVerifier_spec role p s iterations salt w w' :
  pases w !! p = Some s → generateVerifier role p iterations salt w = (w', Ret tt) →
  let s' := with_params iterations salt s in
  ∃ passcode b context,
    write_uint_le 4 (_paramPaircode s') (alloc 4) 0 = Ret passcode ∧
    pbkdf2 passcode (_paramSalt s') (_paramIterations s') 80 = Ret b ∧
    _spake2 s' = Some context ∧ pases w' !! p = Some s' ∧
    jobs w' = jobs w ++ [AfterSecret role p context (subarray b 0 40) (subarray b 40 80)] ∧
    rejections w' = rejections w ∧ w_em w' = w_em w.
Proof.
  unfold generateVerifier. intros Hs H.
  apply (assign_unless_step _ _ _ _ _ _ _ Hs) in H as (w1 & Hs1 & F1 & H).
  apply (assign_unless_step _ _ _ _ _ _ _ Hs1) in H as (w2 & Hs2 & F2 & H).
  run H Hs2. take H as passcode Hp. take H as b Hb. take H as context Hc.
  change (80 `div` 2) with 40 in H. apply from_option_inv in Hc. apply await_inv in H as ->.
  exists passcode, b, context. split_and!; try done; queues.
Qed.

(** The context hash of the two parameter messages. *)
Definition pase_context (req rsp : buffer) : buffer := sha256 (PASE_CONTEXT_SALT ++ req ++ rsp).

(** The job a handler leaves and what its password shares are made from. *)
Definition awaits_secret (role : pase_role) (p : nat) (s : PaseSession) (context : buffer)
    (w w' : PaseWorld) : Prop :=
  ∃ passcode b, write_uint_le 4 (_paramPaircode s) (alloc 4) 0 = Ret passcode ∧
    pbkdf2 passcode (_paramSalt s) (_paramIterations s) 80 = Ret b ∧
    jobs w' = jobs w ++ [AfterSecret role p context (subarray b 0 40) (subarray b 40 80)] ∧
    rejections w' = rejections w.

Lemma onPbkdfParamResponse_spec p msg w w' s e1 e2 e3 e4 f1 f2 v1 v2 id req rsp z salt :
  pases w !! p = Some s → _pbkdfRequest s = Some req → AppPayload msg = Ret rsp →
  decodes_to rsp [e1; e2; e3; e4] →
  has_field 1 v1 e1 → has_field 2 v2 e2 → has_field 3 (number id) e3 →
  has_field 4 (JArr [JObj f1; JObj f2]) e4 →
  has_field 1 (number z) f1 → has_field 2 (JBuf salt) f2 →
  onPbkdfParamResponse p msg w = (w', Ret tt) →
  let context := pase_context req rsp in
  let s' := set_paramSalt (JBuf salt) (set_paramIterations (number z)
    (set_spake2 (Some context) (set_spakeContext (Some context)
    (set_responderSessionId (number id) (set_pbkdfResponse (Some rsp) s))))) in
  pases w' !! p = Some s' ∧ awaits_secret INITIATOR p s' context w w'.
Proof.
  unfold onPbkdfParamResponse. intros Hs Hreq Hrsp Hd F1 F2 F3 F4 (_ & G1 & _) (_ & G2 & _) H.
  rewrite Hrsp in H. take H as tlv E. injection E as <-. run H Hs.
  apply (outer_step _ _ _ _ _ _ Hd) in H. cbv beta in H.
  rewrite mapFields_entries in H. take H as j E. apply Ret_inj in E as <-.
  destruct (response_names _ _ _ _ _ _ _ _ F1 F2 F3 F4) as (N1 & N2).
  rewrite N1 in H. take H as x E. apply Ret_inj in E as <-. run H Hs.
  rewrite N2 in H. take H as x E. apply Ret_inj in E as <-.
  take H as y1 E. apply Ret_inj in E as <-. take H as y2 E. apply Ret_inj in E as <-.
  take H as y3 E. apply Ret_inj in E as <-. take H as y4 E. apply Ret_inj in E as <-.
  apply (computeContext_step _ _ req rsp _ _ _ _ Hs) in H as (w3 & Hs3 & Q3 & _ & H); [|done..].
  cbv beta in H. run H Hs3. rewrite G1, G2 in H.
  apply (generateVerifier_spec _ _ _ _ _ _ _ Hs3) in H as
    (passcode & b & ctx & Hp & Hb & Hc & Hs' & Hj & Hr & _).
  assert (pase_context req rsp = ctx) as <- by (by apply (inj Some)). clear Hc.
  split; [exact Hs'|].
  exists passcode, b. split_and!; try done; [rewrite Hj|rewrite Hr]; queues.
Qed.

Lemma onPake1_spec p msg w w' s e1 e t req rsp :
  pases w !! p = Some s → _state s = AWAIT_PAKE1 → AppPayload msg = Ret t →
  decodes_to t [e1] → has_field 1 (JBuf e) e1 →
  _pbkdfRequest s = Some req → _pbkdfResponse s = Some rsp →
  onPake1 p msg w = (w', Ret tt) →
  let context := pase_context req rsp in
  let s' := set_spake2 (Some context) (set_spakeContext (Some context) (set_pA (JBuf e) s)) in
  pases w' !! p = Some s' ∧ awaits_secret RESPONDER p s' context w w'.
Proof.
  unfold onPake1. intros Hs Hst Ht Hd (_ & F1 & _) Hreq Hrsp H. run H Hs.
  rewrite bool_decide_false in H by (rewrite Hst; auto).
  rewrite Ht in H. take H as tlv E. injection E as <-.
  apply (fields_step _ _ 0 e1 _ _ _ _ Hd) in H; [|done]. cbv beta in H. rewrite F1 in H. run H Hs.
  apply (computeContext_step _ _ req rsp _ _ _ _ Hs) in H as (w3 & Hs3 & Q3 & _ & H); [|done..].
  cbv beta in H. run H Hs3. take H as x E.
  apply (generateVerifier_spec _ _ _ _ _ _ _ Hs3) in H as
    (passcode & b & ctx & Hp & Hb & Hc & Hs' & Hj & Hr & _).
  assert (pase_context req rsp = ctx) as <- by (by apply (inj Some)). clear Hc.
  split; [exact Hs'|].
  exists passcode, b. split_and!; try done; [rewrite Hj|rewrite Hr]; queues.
Qed.

(** ** Jobs *)

(** The first pending job resumes and its handler does not reject. *)
Definition resumes (seed : buffer) (w w' : PaseWorld) : Prop :=
  ∃ j js, jobs w = j :: js ∧ run_job j seed (set_jobs js w) = (w', Ret tt).

Lemma resume_resumes seed w w' : resumes seed w w' → resume 0 seed w = (w', Ret tt).
Proof.
  intros (j & js & Hj & H). unfold resume, mbind, js_bind, js_get, js_put. rewrite Hj.
  cbn [lookup list_lookup delete list_delete]. unfold async. by rewrite H.
Qed.

(** The three jobs of one handler, up to the call that starts its end. *)
Lemma jobs_run role p s context w0s w1s seed0 seed1 seed w w1 w2 w3 :
  pases w !! p = Some s → _spake2 s = Some context →
  jobs w = [AfterSecret role p context w0s w1s] →
  resumes seed0 w w1 → resumes seed1 w1 w2 → resumes seed w2 w3 →
  ∃ v w', computeVerifierFromSecret context w0s w1s = Ret v ∧
    pases w' !! p = Some (set_spakeVerifier (Some v) s) ∧ jobs w' = [] ∧
    rejections w' = rejections w ∧ w_em w' = w_em w ∧
    after_start role p context v seed w' = (w3, Ret tt).
Proof.
  intros Hs Hc Hj (j1 & js1 & E1 & H1) (j2 & js2 & E2 & H2) (j3 & js3 & E3 & H3).
  rewrite Hj in E1. injection E1 as <- <-. cbn [run_job] in H1. unfold after_secret in H1.
  take H1 as v Hv.
  assert (Hs0 : pases (set_jobs [] w) !! p = Some s) by exact Hs. run H1 Hs0.
  match type of Hs0 with pases ?x !! _ = _ => rename x into w4 end.
  apply await_inv in H1 as ->. destruct F as [F F'].
  assert (E2' : jobs w4 ++ [AfterVerifier role p v] = j2 :: js2) by exact E2.
  destruct F as [Fj Fr]. rewrite Fj in E2'. injection E2' as <- <-.
  cbn [run_job] in H2. unfold after_verifier in H2.
  assert (Hs1 : pases (set_jobs [] (set_jobs (jobs w4 ++ [AfterVerifier role p v]) w4)) !! p
                = Some (set_spakeVerifier (Some v) s)) by exact Hs0.
  run H2 Hs1. take H2 as c Hc2. apply from_option_inv in Hc2.
  assert (context = c) as <- by (apply (inj Some); by rewrite <- Hc, <- Hc2).
  apply await_inv in H2 as ->. cbn in E3. injection E3 as <- <-. cbn [run_job] in H3.
  eexists v, _. split; [exact Hv|]. split; [|split; [|split; [|split; [|exact H3]]]].
  - exact Hs0.
  - done.
  - exact Fr.
  - exact F'.
Qed.

(** ** The ends of the handlers that awaited, and the last handlers *)

Lemma response_started_spec p client w w' s :
  pases w !! p = Some s → response_started p client w = (w', Ret tt) →
  ∃ e payload, decodePoint (client_message client) = Ret e ∧
    encode_new (TemplateMsgPasePake1 (JStr (hex_encode e))) = Ret payload ∧
    is_pase p (set_state AWAIT_PAKE2 (set_pA (JStr (hex_encode e))
      (set_spakeClient (Some client) s))) w' ∧ same_queues w w'.
Proof.
  unfold response_started, sendPake1. intros Hs H. run H Hs. take H as e He. run H Hs.
  take H as payload Hp.
  apply (send_in_state_inv _ _ _ _ _ _ _ _ _ Hs) in H as (t & Ht & Hj & Hr & _).
  exists e, payload. split_and!; try done; [by exists t|queues].
Qed.

Lemma pake1_started_spec p server w w' s :
  pases w !! p = Some s → pake1_started p server w = (w', Ret tt) →
  ∃ e k cB payload, decodePoint (server_message server) = Ret e ∧
    server_finish server (_pA s) = Ret k ∧ spake_mac (_pA s) (KcB k) = Ret cB ∧
    encode_new (TemplateMsgPasePake2 (JStr (hex_encode e)) (JStr (hex_encode cB))) = Ret payload ∧
    is_pase p (set_state AWAIT_PAKE3 (set_cB (JStr (hex_encode cB)) (set_secret (Some k)
      (set_pB (JStr (hex_encode e)) (set_spakeServer (Some server) s))))) w' ∧ same_queues w w'.
Proof.
  unfold pake1_started, sendPake2. intros Hs H. run H Hs. take H as e He. run H Hs.
  take H as k Hk. run H Hs. take H as cB HcB. run H Hs. take H as payload Hp.
  apply (send_in_state_inv _ _ _ _ _ _ _ _ _ Hs) in H as (t & Ht & Hj & Hr & _).
  exists e, k, cB, payload. split_and!; try done; [by exists t|queues].
Qed.

(** The session [createSecureSession] appends. *)
Definition created_session (s : PaseSession) (k : spake_secret) (x : Session) : Prop :=
  ∃ b, hkdf (Ke k) [] (buf_str "SessionKeys") 48 = Ret b ∧
  _localSessionId x = match _localRole s with INITIATOR => _initiatorSessionId s
                      | RESPONDER => _responderSessionId s end ∧
  _peerSessionId x = match _localRole s with INITIATOR => _responderSessionId s
                     | RESPONDER => _initiatorSessionId s end ∧
  _secure x = true ∧
  cryptoContext x = Some (CryptoContext [subarray b 0 16; subarray b 16 32; subarray_from b 32]) ∧
  _initiator x = false ∧ 1 <= _messageCounter x <= 2 ^ 28.

Definition node_sessions (w : PaseWorld) : list Session := sessions (em_sessions (w_em w)).

Lemma createSecureSession_spec p w w' s :
  pases w !! p = Some s → createSecureSession p w = (w', Ret tt) →
  ∃ k x, secret s = Some k ∧ created_session s k x ∧
    node_sessions w' = node_sessions w ++ [x] ∧ pases w' = pases w ∧ same_queues w w'.
Proof.
  unfold createSecureSession, initPaseSession. intros Hs H. run H Hs.
  apply em_step_inv in H as (w1 & sid & Hp1 & Q1 & Hn & H).
  rewrite <- Hp1 in Hs. run H Hs. take H as k Hk. apply from_option_inv in Hk.
  apply in_em_inv in H as (em & H & ->). apply zoom_inv in H as (sm & H & ->).
  apply js_bind_inv in H as (sm1 & x & Hx & H).
  apply on_session_inv in Hx as (x0 & st & Hx0 & Hself & ->). injection Hself as <- <-.
  apply js_bind_inv in H as (sm2 & x1 & Hx1 & H). apply js_lift_inv in Hx1 as [-> Hx1].
  apply on_session_inv in H as (x2 & st & Hx2 & Hup & ->). injection Hup as <-.
  apply zoom_inv in Hn as (sm3 & Hn & Hem). rewrite Hem in *. cbn in Hx0, Hx2, Hx1, Hn |- *.
  rewrite list_insert_id in Hx2 by done. assert (x0 = x2) as -> by congruence. clear Hx2.
  set (local := match _localRole s with INITIATOR => _initiatorSessionId s
                | RESPONDER => _responderSessionId s end).
  set (peer := match _localRole s with INITIATOR => _responderSessionId s
               | RESPONDER => _initiatorSessionId s end).
  assert (newSession local peer true (em_sessions (w_em w)) = (sm3, Ret sid)) as Hn'
    by (subst local peer; by destruct (_localRole s)).
  destruct (newSession_spec local peer true (em_sessions (w_em w)))
    as (x0 & r' & Hn2 & Hnew & Hsec & Hl & Hp & _ & _ & _ & Hctr & Hcr).
  rewrite Hn2 in Hn'. injection Hn' as <- <-. cbn [sessions] in *.
  rewrite list_lookup_middle in Hx0 by done. injection Hx0 as <-.
  unfold Session_initFromSecret in Hx1. rewrite Hcr in Hx1.
  apply outcome_bind_Ret in Hx1 as (c & Hc & Hx1). apply Ret_inj in Hx1 as <-.
  unfold initFromSecret in Hc. apply outcome_bind_Ret in Hc as (b & Hb & Hc).
  apply Ret_inj in Hc as <-. exists k. eexists. split; [exact Hk|]. split; [|split; [|by split]].
  2: { by rewrite list_insert_insert_eq, insert_app_r_alt, Nat.sub_diag. }
  exists b. split; [done|]. do 4 (split; [done|]). split; [|exact Hctr].
  cbn. unfold Session_new in Hnew. js_inv. by simplify_eq.
Qed.

Lemma sendPake3_spec p w w' s :
  pases w !! p = Some s → sendPake3 p w = (w', Ret tt) →
  ∃ payload k x, encode_new (TemplateMsgPasePake3 (_cA s)) = Ret payload ∧
    secret s = Some k ∧ created_session s k x ∧ is_pase p (set_state IDLE s) w' ∧
    (∃ l, node_sessions w' = l ++ [x]) ∧ same_queues w w'.
Proof.
  unfold sendPake3. intros Hs H. run H Hs. take H as payload Hp.
  apply js_bind_inv in H as (w1 & [] & Hsend & H).
  apply (send_in_state_inv _ _ _ _ _ _ _ _ _ Hs) in Hsend as (t & Ht & Hj & Hr & _).
  apply (createSecureSession_spec _ _ _ _ Ht) in H as (k & x & Hk & Hx & Hn & Hps & Q).
  exists payload, k, x. split_and!; try done; [|by eexists|queues].
  exists t. by rewrite Hps.
Qed.

Lemma onPake2_spec p msg w w' s client e1 e2 pB cB payload :
  pases w !! p = Some s → _state s = AWAIT_PAKE2 → AppPayload msg = Ret payload →
  decodes_to payload [e1; e2] → has_field 1 (JBuf pB) e1 → has_field 2 (JBuf cB) e2 →
  _spakeClient s = Some client →
  onPake2 p msg w = (w', Ret tt) →
  ∃ k cA payload' x, client_finish client (JBuf pB) = Ret k ∧
    spake_mac (JBuf pB) (KcA k) = Ret cA ∧
    encode_new (TemplateMsgPasePake3 (JStr (hex_encode cA))) = Ret payload' ∧
    created_session s k x ∧
    is_pase p (set_state IDLE (set_cA (JStr (hex_encode cA)) (set_secret (Some k)
      (set_cB (JBuf cB) (set_pB (JBuf pB) s))))) w' ∧
    (∃ l, node_sessions w' = l ++ [x]) ∧ same_queues w w'.
Proof.
  unfold onPake2. intros Hs Hst Ht Hd (_ & F1 & _) (_ & F2 & _) Hc H. run H Hs.
  rewrite bool_decide_false in H by (rewrite Hst; auto).
  rewrite Ht in H. take H as tlv E. injection E as <-.
  take H as result Hres. destruct Hd as (e0 & Hd & Hv). rewrite Hd in Hres. injection Hres as <-.
  assert (∀ i e, [e1; e2] !! i = Some e →
    field_value (JArr [JObj e0]) i = Ret (value e)) as Hf.
  { intros i e He. unfold field_value. cbn. rewrite Hv. cbn.
    change (JObj <$> [e1; e2]) with (JObj <$> [e1; e2]).
    pose proof (list_lookup_fmap JObj [e1; e2] i) as Hl. rewrite He in Hl. cbn in Hl.
    rewrite Hl. done. }
  rewrite (Hf 0%nat e1 eq_refl), F1 in H. take H as x1 E. apply Ret_inj in E as <-. run H Hs.
  rewrite (Hf 1%nat e2 eq_refl), F2 in H. take H as x2 E. apply Ret_inj in E as <-. run H Hs.
  rewrite Hc in H. take H as cl E. apply Ret_inj in E as <-. take H as k Hk. run H Hs.
  take H as cA HcA. run H Hs. take H as y1 E1. take H as y2 E2. take H as y3 E3.
  apply (sendPake3_spec _ _ _ _ Hs) in H as (payload' & k' & x & Hp & Hk' & Hx & His & Hl & Q).
  assert (k = k') as <- by (by apply (inj Some)).
  exists k, cA, payload', x. split_and!; try done. queues.
Qed.

Lemma onPake3_spec p msg w w' s k e1 cA payload :
  pases w !! p = Some s → _state s = AWAIT_PAKE3 → AppPayload msg = Ret payload →
  decodes_to payload [e1] → has_field 1 (JBuf cA) e1 → secret s = Some k →
  onPake3 p msg w = (w', Ret tt) →
  verifyHash k (JBuf cA) = Ret () ∧
  ∃ x, created_session s k x ∧ is_pase p (set_state IDLE (set_cA (JBuf cA) s)) w' ∧
    (∃ l, node_sessions w' = l ++ [x]) ∧ same_queues w w'.
Proof.
  unfold onPake3. intros Hs Hst Ht Hd (_ & F1 & _) Hk H. run H Hs.
  rewrite bool_decide_false in H by (rewrite Hst; auto).
  rewrite Ht in H. take H as tlv E. injection E as <-.
  apply (fields_step _ _ 0 e1 _ _ _ _ Hd) in H; [|done]. cbv beta in H. rewrite F1 in H. run H Hs.
  take H as y E. rewrite Hk in H. take H as k' E'. apply Ret_inj in E' as <-. take H as u Hver.
  destruct u. split; [done|].
  apply js_bind_inv in H as (w1 & [] & Hsend & H).
  unfold sendSuccess, sendStatus in Hsend. take Hsend as pl Hpl. take Hsend as m Hm.
  apply in_em_inv in Hsend as (em & _ & ->).
  assert (Hs1 : pases (set_em em w0) !! p = Some (set_cA (JBuf cA) s)) by exact Hs.
  apply js_bind_inv in H as (w2 & [] & Hcr & H).
  apply (createSecureSession_spec _ _ _ _ Hs1) in Hcr as (k' & x & Hk' & Hx & Hn & Hps & Q).
  assert (k = k') as <- by (apply (inj Some); by rewrite <- Hk, <- Hk').
  apply setState_inv in H as (ts & n & h & -> & Hh).
  exists x. split_and!; [done| |by eexists|queues].
  destruct (Hh (set_cA (JBuf cA) s)) as [t Heq]. exists t. cbn.
  by rewrite list_lookup_alter_eq, Hps, Hs1, <- Heq.
Qed.

(** The three key exchange messages on the wire. *)
Lemma pake_template e :
  blen e <= UINT32_MAX →
  ∃ b e1, encode_new (struct_of [field 1 "Buffer" (JStr (hex_encode e))]) = Ret b ∧
    decodes_to b [e1] ∧ has_field 1 (JBuf e) e1.
Proof.
  intros He. edestruct struct_decodes as (b & Hb & Hd).
  { apply wire_cons; [apply (wire_leaf 1); [lia|by apply (wire_hex e)]|apply wire_nil]. }
  eexists b, _. split; [exact Hb|]. split.
  { eexists. split; [exact Hd|]. reflexivity. }
  by split_and!.
Qed.

Lemma pake2_template pB cB :
  blen pB <= UINT32_MAX → blen cB <= UINT32_MAX →
  ∃ b e1 e2, encode_new (TemplateMsgPasePake2 (JStr (hex_encode pB)) (JStr (hex_encode cB))) = Ret b ∧
    decodes_to b [e1; e2] ∧ has_field 1 (JBuf pB) e1 ∧ has_field 2 (JBuf cB) e2.
Proof.
  intros H1 H2. edestruct struct_decodes as (b & Hb & Hd).
  { apply wire_cons; [apply (wire_leaf 1); [lia|by apply (wire_hex pB)]|].
    apply wire_cons; [apply (wire_leaf 2); [lia|by apply (wire_hex cB)]|apply wire_nil]. }
  eexists b, _, _. split; [exact Hb|]. split.
  { eexists. split; [exact Hd|]. reflexivity. }
  by split_and!.
Qed.
End handlers.
