(* ===== verification/PaseInvariant.v ===== *)
(** * Invariants of the PASE protocol

    Which predicates of the message layer the handlers keep; the pairing of
    states and timers; the steps a node takes. *)
From S2P Require Import Prelude JsNumber JsString JsValue TlvType TlvWriter TlvReader TlvParser Aead.
From S2P Require Import MsgCodec Message Runtime SessionCryptoContext Session SessionManager.
From S2P Require Import Exchange ExchangeManager MessagingFacts MessagingTheorems Spake Pase.
From S2P Require Import PaseFacts.

(** ** Predicates of the message layer *)

Section em_predicates.
Context `{HA : Aead} `{HK : Kdf} `{HP : Spake}.
Context (Q : ExchangeManager → Prop).
Hypothesis Q_send : ∀ x m, keeps Q (send_on x m).
Hypothesis Q_exchange : ∀ x f, (∀ e, ex_session (f e) = ex_session e) → keeps Q (update_exchange x f).
Hypothesis Q_random : ∀ A (m : js runtime A),
  keeps Q (in_sessions (zoom sm_runtime set_sm_runtime m)).

Definition on_em (w : PaseWorld) : Prop := Q (w_em w).

Lemma keeps_in_em {A} (m : js ExchangeManager A) : keeps Q m → keeps on_em (in_em m).
Proof. intros Hm. by apply (keeps_zoom _ _ _ Q). Qed.

Lemma keeps_in_random {A} (m : js runtime A) : keeps on_em (in_random m).
Proof. apply keeps_in_em, Q_random. Qed.

Lemma keeps_this p : keeps on_em (this p).
Proof. intros w Hw. unfold this. by destruct (pases w !! p). Qed.

Lemma keeps_assign p f : keeps on_em (assign p f).
Proof. by intros w Hw. Qed.

Lemma keeps_await j : keeps on_em (await j).
Proof. by intros w Hw. Qed.

Lemma keeps_async m : keeps on_em m → keeps on_em (async m).
Proof. intros Hm w Hw. specialize (Hm w Hw). unfold async. by destruct (m w) as [w' []]. Qed.

Lemma keeps_send x msg : keeps on_em (in_em (send_on x msg)).
Proof. apply keeps_in_em, Q_send. Qed.

Lemma keeps_prepare x f :
  (∀ e, ex_session (f e) = ex_session e) → keeps on_em (in_em (update_exchange x f)).
Proof. intros Hf. by apply keeps_in_em, Q_exchange. Qed.

Local Hint Resolve keeps_in_random keeps_this keeps_assign keeps_await keeps_async keeps_send
  keeps_prepare : keeps.
Local Hint Extern 1 (∀ e, ex_session _ = ex_session e) => (intros; reflexivity) : keeps.
Local Hint Extern 3 (keeps on_em (_ ≫= _)) => (apply keeps_bind; [|intros ?]) : keeps.
Local Hint Extern 4 (keeps on_em (match ?x with _ => _ end)) => destruct x : keeps.

Lemma keeps_clearTimeout p : keeps on_em (pase_clearTimeout p).
Proof.
  unfold pase_clearTimeout. apply keeps_bind; [auto with keeps|intros s].
  destruct (_stateTimeout s); [|auto with keeps]. by apply keeps_modify.
Qed.

Lemma keeps_setState p st : keeps on_em (setState p st).
Proof.
  unfold setState. apply keeps_bind; [auto with keeps|intros u].
  apply keeps_if; [apply keeps_clearTimeout|]. unfold pase_setTimeout.
  apply keeps_bind; [apply keeps_clearTimeout|intros u']. intros w Hw.
  unfold mbind, js_bind, js_get, js_put. cbn. exact Hw.
Qed.

Local Hint Resolve keeps_setState : keeps.

Lemma keeps_send_in_state p o payload st f :
  (∀ e, ex_session (f e) = ex_session e) → keeps on_em (send_in_state p o payload st f).
Proof. intros Hf. unfold send_in_state. auto 12 with keeps. Qed.

Local Hint Resolve keeps_send_in_state : keeps.

(** The handlers that create no session. *)
Lemma keeps_sendPbkdfParamRequest p : keeps on_em (sendPbkdfParamRequest p).
Proof. unfold sendPbkdfParamRequest. auto 20 with keeps. Qed.

Lemma keeps_startPase p : keeps on_em (startPase p).
Proof.
  unfold startPase. apply keeps_bind; [auto with keeps|intros s].
  apply keeps_if; [apply keeps_sendPbkdfParamRequest|auto with keeps].
Qed.

Lemma keeps_sendPbkdfParamResponse p : keeps on_em (sendPbkdfParamResponse p).
Proof. unfold sendPbkdfParamResponse. auto 20 with keeps. Qed.

Local Hint Resolve keeps_sendPbkdfParamResponse : keeps.

Lemma keeps_onPbkdfParamRequest p msg : keeps on_em (onPbkdfParamRequest p msg).
Proof.
  unfold onPbkdfParamRequest. apply keeps_bind; [auto with keeps|intros s].
  apply keeps_if; auto 40 with keeps.
Qed.

Lemma keeps_computeContext p : keeps on_em (computeContext p).
Proof. unfold computeContext. auto 10 with keeps. Qed.

Lemma keeps_generateVerifier role p i s : keeps on_em (generateVerifier role p i s).
Proof. unfold generateVerifier. auto 20 with keeps. Qed.

Local Hint Resolve keeps_computeContext keeps_generateVerifier : keeps.

Lemma keeps_onPbkdfParamResponse p msg : keeps on_em (onPbkdfParamResponse p msg).
Proof. unfold onPbkdfParamResponse. auto 40 with keeps. Qed.

Lemma keeps_onPake1 p msg : keeps on_em (onPake1 p msg).
Proof.
  unfold onPake1. apply keeps_bind; [auto with keeps|intros s].
  apply keeps_if; auto 20 with keeps.
Qed.

Lemma keeps_run_job j seed : keeps on_em (run_job j seed).
Proof.
  destruct j; cbn [run_job]; unfold after_secret, after_verifier, after_start; auto 10 with keeps.
  destruct role; unfold response_started, pake1_started, sendPake1, sendPake2; auto 30 with keeps.
Qed.

Lemma keeps_resume i seed : keeps on_em (resume i seed).
Proof.
  intros w Hw. unfold resume, mbind, js_bind, js_get. destruct (jobs w !! i) as [j|]; [|done].
  cbn. apply (keeps_async _ (keeps_run_job j seed)). exact Hw.
Qed.

Lemma keeps_fire_timer t : keeps on_em (fire_timer t).
Proof.
  intros w Hw. unfold fire_timer, mbind, js_bind, js_get. cbn.
  destruct (list_find _ (timers w)) as [[i [t' p]]|]; [|done]. cbn.
  by apply keeps_setState.
Qed.

(** The handlers that create one. *)
Hypothesis Q_session : ∀ l p, keeps Q (in_sessions (newSession l p true)).
Hypothesis Q_keys : ∀ sid secret salt info, keeps Q (in_sessions (
  x ← get_session sid; x ← js_lift (Session_initFromSecret secret salt info x);
  update_session sid (λ _, x))).

Lemma keeps_createSecureSession p : keeps on_em (createSecureSession p).
Proof.
  unfold createSecureSession, initPaseSession. apply keeps_bind; [auto with keeps|intros s].
  apply keeps_bind; [apply keeps_in_em; destruct (_localRole s); apply Q_session|intros sid].
  apply keeps_bind; [auto with keeps|intros s']. apply keeps_bind; [auto with keeps|intros k].
  apply keeps_in_em, Q_keys.
Qed.

Local Hint Resolve keeps_createSecureSession : keeps.

Lemma keeps_onPake2 p msg : keeps on_em (onPake2 p msg).
Proof.
  unfold onPake2, sendPake3. apply keeps_bind; [auto with keeps|intros s].
  apply keeps_if; auto 40 with keeps.
Qed.

Lemma keeps_onPake3 p msg : keeps on_em (onPake3 p msg).
Proof.
  unfold onPake3, sendSuccess, sendStatus. apply keeps_bind; [auto with keeps|intros s].
  apply keeps_if; auto 30 with keeps.
Qed.

Lemma keeps_onExchangeMessage p msg : keeps on_em (onExchangeMessage p msg).
Proof.
  unfold onExchangeMessage. apply keeps_bind; [auto with keeps|intros o].
  apply keeps_bind; [auto with keeps|intros x].
  repeat (apply keeps_if; [first [apply keeps_onPbkdfParamRequest
    |apply keeps_async, keeps_onPbkdfParamResponse|apply keeps_async, keeps_onPake1
    |apply keeps_async, keeps_onPake2|apply keeps_onPake3]|]).
  auto with keeps.
Qed.

Lemma keeps_newPase x : keeps on_em (newPase x).
Proof.
  unfold newPase. intros w Hw. unfold mbind at 1, js_bind at 1, js_get. cbn.
  match goal with |- on_em (?m w).1 => enough (keeps on_em m) as Hk by exact (Hk w Hw) end.
  apply keeps_bind; [by intros w' Hw'|intros u].
  apply keeps_bind; [auto with keeps|intros u']. apply keeps_bind; [auto with keeps|intros u2].
  apply keeps_bind; [by apply keeps_modify|auto with keeps].
Qed.
End em_predicates.

(** ** The number of sessions *)

Definition em_count (n : nat) (m : ExchangeManager) : Prop :=
  length (sessions (em_sessions m)) = n.

Definition sm_count (n : nat) (sm : SessionManager) : Prop := length (sessions sm) = n.

Lemma count_on_session {A} n sid (m : js sess_state A) : keeps (sm_count n) (on_session sid m).
Proof.
  intros sm Hn. unfold on_session. destruct (sessions sm !! sid) as [s|]; [|done].
  destruct (m (s, sm_runtime sm)) as [[s' r'] o]. unfold sm_count. cbn. by rewrite length_insert.
Qed.

Lemma count_in_sessions {A} n (m : js SessionManager A) :
  keeps (sm_count n) m → keeps (em_count n) (in_sessions m).
Proof. intros Hm. by apply (keeps_zoom _ _ _ (sm_count n)). Qed.

Section counting.
Context `{HA : Aead} `{HK : Kdf} `{HP : Spake}.
Context (n : nat).

Lemma count_send x msg : keeps (em_count n) (send_on x msg).
Proof.
  unfold send_on. apply keeps_bind.
  - intros m Hm. unfold get_exchange. by destruct (exchange_heap m !! x).
  - intros e. apply count_in_sessions. unfold Exchange_sendMessage.
    do 6 (apply keeps_bind; [auto with keeps|intros ?]). apply count_on_session.
Qed.

Lemma count_exchange x f :
  (∀ e, ex_session (f e) = ex_session e) → keeps (em_count n) (update_exchange x f).
Proof. intros _. by apply keeps_modify. Qed.

Lemma count_random A (m : js runtime A) :
  keeps (em_count n) (in_sessions (zoom sm_runtime set_sm_runtime m)).
Proof. apply count_in_sessions. by apply (keeps_zoom _ _ _ (λ _, True)). Qed.

(** A computation that keeps the number of sessions is not what changed it. *)
Lemma count_bind {A} (m : js PaseWorld A) (f : A → js PaseWorld unit) w :
  keeps (on_em (em_count n)) m → on_em (em_count n) w →
  ¬ on_em (em_count n) ((m ≫= f) w).1 →
  ∃ w1 a, m w = (w1, Ret a) ∧ on_em (em_count n) w1 ∧ ¬ on_em (em_count n) (f a w1).1.
Proof.
  intros Hm Hw Hn. specialize (Hm w Hw). unfold mbind, js_bind in Hn.
  destruct (m w) as [w1 [a|e]]; [by exists w1, a|]. by destruct Hn.
Qed.

Lemma count_assign_bind p f (k : unit → js PaseWorld unit) w :
  ((assign p f ≫= k) w) = k tt (set_pases (alter f p (pases w)) w).
Proof. done. Qed.

(** What must have happened when a message makes a responder create a session. *)
Lemma onPake3_creates p msg w :
  on_em (em_count n) w → ¬ on_em (em_count n) (onPake3 p msg w).1 →
  ∃ s k tlv result cA, pases w !! p = Some s ∧ _state s = AWAIT_PAKE3 ∧ secret s = Some k ∧
    AppPayload msg = Ret tlv ∧ decode_json tlv = Ret result ∧ field_value result 0 = Ret cA ∧
    verifyHash k cA = Ret ().
Proof.
  intros Hw H. unfold onPake3 in H.
  assert (∀ q, keeps (on_em (em_count n)) (this q)) as Kt by (apply keeps_this).
  assert (∀ A (o : outcome A), keeps (on_em (em_count n)) (js_lift o)) as Kl by (intros; apply keeps_lift).
  apply (count_bind _ _ _ (Kt p) Hw) in H as (w1 & s & Hs & Hw1 & H).
  apply this_inv in Hs as [-> Hs]. case_bool_decide as Hst; [by destruct H|].
  apply (count_bind _ _ _ (Kl _ _) Hw) in H as (w1 & tlv & E & _ & H). apply js_lift_inv in E as [-> Ht].
  apply (count_bind _ _ _ (Kl _ _) Hw) in H as (w1 & res & E & _ & H). apply js_lift_inv in E as [-> Hr].
  apply (count_bind _ _ _ (Kl _ _) Hw) in H as (w1 & cA & E & _ & H). apply js_lift_inv in E as [-> Hc].
  rewrite count_assign_bind in H. set (w0 := set_pases _ w) in H.
  assert (Hw0 : on_em (em_count n) w0) by exact Hw.
  apply (count_bind _ _ _ (Kl _ _) Hw0) in H as (w1 & x & E & _ & H). apply js_lift_inv in E as [-> Hx].
  apply (count_bind _ _ _ (Kl _ _) Hw0) in H as (w1 & k & E & _ & H). apply js_lift_inv in E as [-> Hk].
  apply from_option_inv in Hk.
  apply (count_bind _ _ _ (Kl _ _) Hw0) in H as (w1 & [] & E & _ & H). apply js_lift_inv in E as [-> Hv].
  by exists s, k, tlv, res, cA.
Qed.

Lemma onPake2_creates p msg w :
  on_em (em_count n) w → ¬ on_em (em_count n) (onPake2 p msg w).1 →
  ∃ s, pases w !! p = Some s ∧ _state s = AWAIT_PAKE2.
Proof.
  intros Hw H. unfold onPake2 in H.
  apply (count_bind _ _ _ (keeps_this _ p) Hw) in H as (w1 & s & Hs & Hw1 & H).
  apply this_inv in Hs as [-> Hs]. exists s. split; [done|].
  case_bool_decide as Hst; [by destruct H|done].
Qed.
End counting.

(** ** States and timers *)

(** A session that waits for a message has exactly one live timer, the one its
    handle names; every live timer belongs to a session that waits. *)
Definition timers_ok `{Spake} (w : PaseWorld) : Prop :=
  (∀ p s, pases w !! p = Some s → _state s ≠ IDLE →
     ∃ t, _stateTimeout s = Some t ∧ (t, p) ∈ timers w) ∧
  (∀ t p, (t, p) ∈ timers w →
     ∃ s, pases w !! p = Some s ∧ _stateTimeout s = Some t ∧ _state s ≠ IDLE) ∧
  (∀ p s t, pases w !! p = Some s → _stateTimeout s = Some t → (t < next_timer w)%nat) ∧
  (∀ p p' s s' t, pases w !! p = Some s → pases w !! p' = Some s' →
     _stateTimeout s = Some t → _stateTimeout s' = Some t → p = p').

Section timers.
Context `{HA : Aead} `{HK : Kdf} `{HP : Spake}.

(** A change of a session object that its timer does not see. *)
Definition timer_neutral (f : PaseSession → PaseSession) : Prop :=
  ∀ s, _state (f s) = _state s ∧ _stateTimeout (f s) = _stateTimeout s.

Lemma timers_assign p f : timer_neutral f → keeps timers_ok (assign p f).
Proof.
  intros Hf w (H1 & H2 & H3 & H4). unfold assign, js_modify. cbn.
  assert (∀ q s, alter f p (pases w) !! q = Some s →
    ∃ s0, pases w !! q = Some s0 ∧ _state s0 = _state s ∧ _stateTimeout s0 = _stateTimeout s) as Hl.
  { intros q s Hs. destruct (decide (p = q)) as [->|Hne].
    - rewrite list_lookup_alter_eq in Hs. destruct (pases w !! q) as [s0|]; [|done].
      injection Hs as <-. exists s0. destruct (Hf s0) as [-> ->]. done.
    - rewrite list_lookup_alter_ne in Hs by done. by exists s. }
  split_and!; cbn.
  - intros q s Hs Hne. destruct (Hl q s Hs) as (s0 & Hs0 & E & E0). rewrite <- E0.
    eapply H1; [done|congruence].
  - intros t q Hin. destruct (H2 t q Hin) as (s0 & Hs0 & Ht & Hne).
    destruct (decide (p = q)) as [->|Hpq].
    + exists (f s0). rewrite list_lookup_alter_eq, Hs0. destruct (Hf s0) as [-> ->]. done.
    + exists s0. by rewrite list_lookup_alter_ne.
  - intros q s t Hs Ht. destruct (Hl q s Hs) as (s0 & Hs0 & _ & E). eapply H3; [done|congruence].
  - intros q q' s s' t Hs Hs' Ht Ht'. destruct (Hl q s Hs) as (s0 & Hs0 & _ & E).
    destruct (Hl q' s' Hs') as (s0' & Hs0' & _ & E'). apply (H4 q q' s0 s0' t); [done|done|congruence|congruence].
Qed.

Lemma set_state_run p st s w :
  pases w !! p = Some s →
  let old := from_option (λ t, filter (λ x, x.1 ≠ t) (timers w)) (timers w) (_stateTimeout s) in
  ∃ w', setState p st w = (w', Ret tt) ∧ w_em w' = w_em w ∧
    (if bool_decide (st = IDLE)
     then pases w' = alter (set_state st) p (pases w) ∧ timers w' = old ∧
          next_timer w' = next_timer w
     else pases w' = alter (set_stateTimeout (Some (next_timer w)))
                       p (alter (set_state st) p (pases w)) ∧
          timers w' = old ++ [(next_timer w, p)] ∧ next_timer w' = S (next_timer w)).
Proof.
  intros Hs old. subst old. unfold setState, pase_setTimeout, pase_clearTimeout.
  unfold mbind, js_bind, assign, js_modify, this. cbn.
  destruct (bool_decide (st = IDLE)); cbn; rewrite list_lookup_alter_eq, Hs; cbn;
    destruct (_stateTimeout s) as [t|]; cbn; eexists; split; try reflexivity; by split_and!.
Qed.

Lemma timers_cleared w p s :
  timers_ok w → pases w !! p = Some s →
  ∀ t q, (t, q) ∈ from_option (λ t, filter (λ x, x.1 ≠ t) (timers w)) (timers w) (_stateTimeout s) ↔
         (t, q) ∈ timers w ∧ q ≠ p.
Proof.
  intros (H1 & H2 & H3 & H4) Hs t q. destruct (_stateTimeout s) as [t0|] eqn:E; cbn.
  - rewrite list_elem_of_filter. cbn. split.
    + intros [Hne Hin]. split; [done|]. intros ->. destruct (H2 t p Hin) as (s' & Hs' & Ht & _).
      congruence.
    + intros [Hin Hne]. split; [|done]. intros ->. destruct (H2 t0 q Hin) as (s' & Hs' & Ht & _).
      by apply Hne, (H4 q p s' s t0).
  - split; [|naive_solver]. intros Hin. split; [done|]. intros ->.
    destruct (H2 t p Hin) as (s' & Hs' & Ht & _). congruence.
Qed.

Lemma timers_idle w w' p s :
  timers_ok w → pases w !! p = Some s → pases w' = alter (set_state IDLE) p (pases w) →
  next_timer w' = next_timer w → (∀ t q, (t, q) ∈ timers w' ↔ (t, q) ∈ timers w ∧ q ≠ p) →
  timers_ok w'.
Proof.
  intros (H1 & H2 & H3 & H4) Hs Hp Hn Ht.
  assert (∀ q s0, pases w' !! q = Some s0 →
    (q = p ∧ s0 = set_state IDLE s) ∨ (q ≠ p ∧ pases w !! q = Some s0)) as Hl.
  { intros q s0. rewrite Hp. destruct (decide (p = q)) as [->|Hne].
    - rewrite list_lookup_alter_eq, Hs. intros [= <-]. by left.
    - rewrite list_lookup_alter_ne by done. by right. }
  split_and!.
  - intros q s0 Hq Hne. destruct (Hl q s0 Hq) as [[-> ->]|[Hqp Hq0]]; [done|].
    destruct (H1 q s0 Hq0 Hne) as (t & Hst & Hin). exists t. split; [done|]. by apply Ht.
  - intros t q Hin. apply Ht in Hin as [Hin Hne]. destruct (H2 t q Hin) as (s0 & Hs0 & ?).
    exists s0. by rewrite Hp, list_lookup_alter_ne.
  - intros q s0 t Hq E. rewrite Hn. destruct (Hl q s0 Hq) as [[-> ->]|[_ Hq0]]; [|by eapply H3].
    by apply (H3 p s t).
  - intros q q' s0 s0' t Hq Hq' E E'. destruct (Hl q s0 Hq) as [[-> ->]|[_ Hq0]],
      (Hl q' s0' Hq') as [[-> ->]|[_ Hq0']]; [done|..].
    + by apply (H4 p q' s s0' t). + by apply (H4 q p s0 s t). + by apply (H4 q q' s0 s0' t).
Qed.

Lemma timers_wait w w' p s st :
  timers_ok w → pases w !! p = Some s → st ≠ IDLE →
  pases w' = alter (set_stateTimeout (Some (next_timer w))) p (alter (set_state st) p (pases w)) →
  next_timer w' = S (next_timer w) →
  (∀ t q, (t, q) ∈ timers w' ↔ ((t, q) ∈ timers w ∧ q ≠ p) ∨ (t = next_timer w ∧ q = p)) →
  timers_ok w'.
Proof.
  intros (H1 & H2 & H3 & H4) Hs Hst Hp Hn Ht.
  assert (∀ q s0, pases w' !! q = Some s0 →
    (q = p ∧ s0 = set_stateTimeout (Some (next_timer w)) (set_state st s)) ∨
    (q ≠ p ∧ pases w !! q = Some s0)) as Hl.
  { intros q s0. rewrite Hp, list_alter_alter_eq. destruct (decide (p = q)) as [->|Hne].
    - rewrite list_lookup_alter_eq, Hs. intros [= <-]. by left.
    - rewrite list_lookup_alter_ne by done. by right. }
  split_and!.
  - intros q s0 Hq Hne. destruct (Hl q s0 Hq) as [[-> ->]|[Hqp Hq0]].
    + exists (next_timer w). split; [done|]. apply Ht. by right.
    + destruct (H1 q s0 Hq0 Hne) as (t & E & Hin). exists t. split; [done|]. apply Ht. by left.
  - intros t q Hin. apply Ht in Hin as [[Hin Hne]|[-> ->]].
    + destruct (H2 t q Hin) as (s0 & Hs0 & ?). exists s0. split; [|done].
      by rewrite Hp, list_alter_alter_eq, list_lookup_alter_ne.
    + eexists. rewrite Hp, list_alter_alter_eq, list_lookup_alter_eq, Hs. by split_and!.
  - intros q s0 t Hq E. rewrite Hn. destruct (Hl q s0 Hq) as [[-> ->]|[_ Hq0]].
    + injection E as <-. lia. + pose proof (H3 q s0 t Hq0 E). lia.
  - intros q q' s0 s0' t Hq Hq' E E'. destruct (Hl q s0 Hq) as [[-> ->]|[_ Hq0]],
      (Hl q' s0' Hq') as [[-> ->]|[_ Hq0']]; [done|..].
    + injection E as <-. pose proof (H3 q' s0' _ Hq0' E'). lia.
    + injection E' as <-. pose proof (H3 q s0 _ Hq0 E). lia.
    + by apply (H4 q q' s0 s0' t).
Qed.

Lemma timers_setState p st : keeps timers_ok (setState p st).
Proof.
  intros w Hw. destruct (pases w !! p) as [s|] eqn:Hs.
  - destruct (set_state_run p st s w Hs) as (w' & -> & _ & Hrest). cbn [fst].
    case_bool_decide as Hst.
    + destruct Hrest as (Hp & Ht & Hn). subst st. eapply timers_idle; [done..|].
      rewrite Ht. by apply timers_cleared.
    + destruct Hrest as (Hp & Ht & Hn). eapply timers_wait; [done..|].
      intros t q. rewrite Ht, elem_of_app, list_elem_of_singleton, (timers_cleared w p s Hw Hs).
      naive_solver.
  - assert (alter (set_state st) p (pases w) = pases w) as E.
    { apply list_eq. intros i. destruct (decide (p = i)) as [->|Hne].
      - by rewrite list_lookup_alter_eq, Hs. - by rewrite list_lookup_alter_ne. }
    unfold setState, pase_setTimeout, pase_clearTimeout, mbind, js_bind, assign, js_modify, this.
    cbn. destruct (bool_decide (st = IDLE)); cbn; rewrite E, Hs; cbn; by destruct w.
Qed.

Lemma timers_frame w w' :
  pases w' = pases w → timers w' = timers w → next_timer w' = next_timer w →
  timers_ok w → timers_ok w'.
Proof. unfold timers_ok. by intros -> -> ->. Qed.

Lemma timers_in_em {A} (m : js ExchangeManager A) : keeps timers_ok (in_em m).
Proof.
  intros w Hw. unfold in_em, zoom. destruct (m (w_em w)) as [em o]. by eapply timers_frame.
Qed.

Lemma timers_this p : keeps timers_ok (this p).
Proof. intros w Hw. unfold this. by destruct (pases w !! p). Qed.

Lemma timers_await j : keeps timers_ok (await j).
Proof. intros w Hw. by eapply timers_frame. Qed.

Lemma timers_async m : keeps timers_ok m → keeps timers_ok (async m).
Proof.
  intros Hm w Hw. specialize (Hm w Hw). unfold async. destruct (m w) as [w' []]; [done|].
  by eapply timers_frame.
Qed.

(** The timer of a waiting session fires. *)
Lemma fire_timer_run w t p s :
  timers_ok w → pases w !! p = Some s → _stateTimeout s = Some t → (t, p) ∈ timers w →
  ∃ w', fire_timer t w = (w', Ret tt) ∧ pases w' = alter (set_state IDLE) p (pases w) ∧
    next_timer w' = next_timer w ∧ ∀ t' q, (t', q) ∈ timers w' ↔ (t', q) ∈ timers w ∧ q ≠ p.
Proof.
  intros Hok Hs Ht Hin. pose proof Hok as (H1 & H2 & H3 & H4).
  unfold fire_timer, mbind, js_bind, js_get. cbn.
  destruct (list_find _ (timers w)) as [[i [t' p']]|] eqn:E.
  2: { eapply list_find_None, Forall_forall in E; [|exact Hin]. by cbn in E. }
  apply list_find_Some in E as (Hin' & Heq & _). cbn in Heq. subst t'.
  apply list_elem_of_lookup_2 in Hin'. destruct (H2 t p' Hin') as (s' & Hs' & Ht' & _).
  assert (p' = p) as -> by (by apply (H4 p' p s' s t)). cbn.
  set (w0 := set_timers _ _ w). assert (pases w0 !! p = Some s) as Hs0 by exact Hs.
  destruct (set_state_run p IDLE s w0 Hs0) as (w' & Hw' & _ & Hp & Hts & Hn).
  exists w'. split_and!; [exact Hw'|exact Hp|exact Hn|].
  intros t' q. rewrite Hts, Ht. cbn. rewrite !list_elem_of_filter. cbn.
  pose proof (timers_cleared w p s Hok Hs t' q) as Hc.
  rewrite Ht in Hc. cbn in Hc. rewrite list_elem_of_filter in Hc. cbn in Hc. tauto.
Qed.

Lemma fire_timer_spec w t p s :
  timers_ok w → pases w !! p = Some s → _stateTimeout s = Some t → (t, p) ∈ timers w →
  _state <$> pases (fire_timer t w).1 !! p = Some IDLE ∧
  ∀ t', (t', p) ∉ timers (fire_timer t w).1.
Proof.
  intros Hok Hs Ht Hin. destruct (fire_timer_run w t p s Hok Hs Ht Hin) as (w' & -> & Hp & _ & Hts).
  cbn [fst]. split; [by rewrite Hp, list_lookup_alter_eq, Hs|]. intros t' [_ Hne]%Hts. done.
Qed.

Lemma timers_fire t : keeps timers_ok (fire_timer t).
Proof.
  intros w Hw. destruct (list_find (λ x, x.1 = t) (timers w)) as [[i [t' p]]|] eqn:E.
  - apply list_find_Some in E as (Hin & Heq & _). cbn in Heq. subst t'.
    apply list_elem_of_lookup_2 in Hin. pose proof Hw as (_ & H2 & _).
    destruct (H2 t p Hin) as (s & Hs & Ht & _).
    destruct (fire_timer_run w t p s Hw Hs Ht Hin) as (w' & -> & Hp & Hn & Hts).
    by apply (timers_idle w w' p s).
  - unfold fire_timer, mbind, js_bind, js_get. cbn. by rewrite E.
Qed.
End timers.

#[export] Hint Resolve timers_in_em timers_this timers_await timers_async timers_setState : keeps.
#[export] Hint Extern 1 (keeps timers_ok (assign _ _)) =>
  (apply timers_assign; intros ?; split; reflexivity) : keeps.
#[export] Hint Extern 3 (keeps timers_ok (_ ≫= _)) => (apply keeps_bind; [|intros ?]) : keeps.
#[export] Hint Extern 4 (keeps timers_ok (match ?x with _ => _ end)) => destruct x : keeps.
#[export] Hint Extern 2 (keeps timers_ok (in_random _)) => (apply timers_in_em) : keeps.

Section timers_handlers.
Context `{HA : Aead} `{HK : Kdf} `{HP : Spake}.

Lemma timers_send_in_state p o payload st f : keeps timers_ok (send_in_state p o payload st f).
Proof. unfold send_in_state. auto 12 with keeps. Qed.

Local Hint Resolve timers_send_in_state : keeps.

Lemma timers_startPase p : keeps timers_ok (startPase p).
Proof.
  unfold startPase, sendPbkdfParamRequest. apply keeps_bind; [auto with keeps|intros s].
  apply keeps_if; auto 20 with keeps.
Qed.

Lemma timers_onPbkdfParamRequest p msg : keeps timers_ok (onPbkdfParamRequest p msg).
Proof.
  unfold onPbkdfParamRequest, sendPbkdfParamResponse. apply keeps_bind; [auto with keeps|intros s].
  apply keeps_if; auto 40 with keeps.
Qed.

Lemma timers_computeContext p : keeps timers_ok (computeContext p).
Proof. unfold computeContext. auto 10 with keeps. Qed.

Lemma timers_generateVerifier role p i s : keeps timers_ok (generateVerifier role p i s).
Proof. unfold generateVerifier. auto 20 with keeps. Qed.

Lemma timers_createSecureSession p : keeps timers_ok (createSecureSession p).
Proof. unfold createSecureSession, initPaseSession. auto 10 with keeps. Qed.

Local Hint Resolve timers_computeContext timers_generateVerifier timers_createSecureSession : keeps.

Lemma timers_onPbkdfParamResponse p msg : keeps timers_ok (onPbkdfParamResponse p msg).
Proof. unfold onPbkdfParamResponse. auto 40 with keeps. Qed.

Lemma timers_onPake1 p msg : keeps timers_ok (onPake1 p msg).
Proof.
  unfold onPake1. apply keeps_bind; [auto with keeps|intros s]. apply keeps_if; auto 20 with keeps.
Qed.

Lemma timers_onPake2 p msg : keeps timers_ok (onPake2 p msg).
Proof.
  unfold onPake2, sendPake3. apply keeps_bind; [auto with keeps|intros s].
  apply keeps_if; auto 40 with keeps.
Qed.

Lemma timers_onPake3 p msg : keeps timers_ok (onPake3 p msg).
Proof.
  unfold onPake3, sendSuccess, sendStatus. apply keeps_bind; [auto with keeps|intros s].
  apply keeps_if; auto 30 with keeps.
Qed.

Lemma timers_onExchangeMessage p msg : keeps timers_ok (onExchangeMessage p msg).
Proof.
  unfold onExchangeMessage. apply keeps_bind; [auto with keeps|intros o].
  apply keeps_bind; [auto with keeps|intros x].
  repeat (apply keeps_if; [first [apply timers_onPbkdfParamRequest
    |apply timers_async, timers_onPbkdfParamResponse|apply timers_async, timers_onPake1
    |apply timers_async, timers_onPake2|apply timers_onPake3]|]).
  auto with keeps.
Qed.

Lemma timers_resume i seed : keeps timers_ok (resume i seed).
Proof.
  intros w Hw. unfold resume, mbind, js_bind, js_get. destruct (jobs w !! i) as [j|]; [|done].
  cbn. apply timers_async; [|by eapply timers_frame].
  destruct j as [| |role p c v]; cbn [run_job]; unfold after_secret, after_verifier, after_start;
    auto 10 with keeps.
  destruct role; unfold response_started, pake1_started, sendPake1, sendPake2; auto 30 with keeps.
Qed.

(** A new session object is idle and has no timer. *)
Lemma newPase_run x w :
  ∃ em, newPase x w =
    (PW em (pases w ++ [PaseSession_new x]) (_paseSessions w ++ [length (pases w)])
        (_pairingCodes w) (timers w) (next_timer w) (jobs w) (rejections w),
     Ret (length (pases w))).
Proof.
  unfold newPase, mbind, js_bind, js_get, js_put, js_modify, in_em, zoom, update_exchange.
  cbn. eexists. reflexivity.
Qed.

Lemma timers_newPase x : keeps timers_ok (newPase x).
Proof.
  intros w (H1 & H2 & H3 & H4). destruct (newPase_run x w) as (em & ->). cbn [fst].
  assert (∀ q s, (pases w ++ [PaseSession_new x]) !! q = Some s →
            pases w !! q = Some s ∨ (_state s = IDLE ∧ _stateTimeout s = None)) as Hl.
  { intros q s Hs. apply lookup_snoc_Some in Hs as [[_ Hs]|[_ <-]]; [by left|by right]. }
  split_and!; cbn.
  - intros q s Hs Hne. destruct (Hl q s Hs) as [Hs'|[? _]]; [by eapply H1|done].
  - intros t q Hin. destruct (H2 t q Hin) as (s & Hs & ?). exists s. split; [|done].
    by apply lookup_app_l_Some.
  - intros q s t Hs E. destruct (Hl q s Hs) as [Hs'|[_ ?]]; [by eapply H3|congruence].
  - intros q q' s s' t Hs Hs' E E'. destruct (Hl q s Hs) as [?|[_ ?]]; [|congruence].
    destruct (Hl q' s' Hs') as [?|[_ ?]]; [|congruence]. by apply (H4 q q' s s' t).
Qed.

Lemma keeps_js_forEach {S A} (P : S → Prop) (f : A → js S unit) l :
  (∀ a, keeps P (f a)) → keeps P (js_forEach f l).
Proof. intros Hf s Hs. apply js_forEach_inv; [|done]. intros a s'. apply Hf. Qed.

(** ** Runs of a node *)

(** A datagram comes in, a timer fires, a pending job resumes, the shell opens a
    client session, or another protocol uses the message layer. *)
Inductive pase_step : PaseWorld → PaseWorld → Prop :=
  | pase_step_receive buf peer w : pase_step w (pase_receive buf peer w).1
  | pase_step_timer t w : pase_step w (fire_timer t w).1
  | pase_step_resume i seed w : pase_step w (resume i seed w).1
  | pase_step_shell port host w : pase_step w (doPase port host w).1
  | pase_step_other em w : em_step (w_em w) em → pase_step w (set_em em w).

Definition pase_ok (w : PaseWorld) : Prop := em_ok (w_em w) ∧ timers_ok w.

Lemma keeps_onProtocolMessage (P : PaseWorld → Prop) msg x :
  (∀ x, keeps P (newPase x)) → (∀ p, keeps P (onExchangeMessage p msg)) →
  keeps P (onProtocolMessage msg x).
Proof.
  intros Hn Hm. unfold onProtocolMessage. apply keeps_bind; [auto with keeps|intros o].
  apply keeps_bind; [auto with keeps|intros e]. apply keeps_bind; [auto with keeps|intros w].
  apply keeps_if; [|auto with keeps]. destruct (getPase x w); [auto with keeps|].
  by apply keeps_bind.
Qed.

Lemma timers_deliver d : keeps timers_ok (pase_deliver d).
Proof.
  destruct d as [x msg|pid x msg|]; cbn [pase_deliver]; [| |auto with keeps].
  - apply keeps_bind; [auto with keeps|intros e].
    apply keeps_js_forEach. intros p. apply timers_onExchangeMessage.
  - apply keeps_if; [|auto with keeps].
    apply keeps_onProtocolMessage; [apply timers_newPase|intros; apply timers_onExchangeMessage].
Qed.

Lemma timers_receive buf peer : keeps timers_ok (pase_receive buf peer).
Proof.
  unfold pase_receive. apply keeps_bind; [auto with keeps|intros d]. apply timers_deliver.
Qed.

Lemma timers_doPase port host : keeps timers_ok (doPase port host).
Proof.
  unfold doPase. do 4 (apply keeps_bind; [auto with keeps|intros ?]).
  apply keeps_bind; [apply timers_newPase|intros p]. apply timers_startPase.
Qed.

(** The message layer's invariant is one of the predicates the handlers keep. *)
Lemma em_ok_random A (m : js runtime A) :
  keeps em_ok (in_sessions (zoom sm_runtime set_sm_runtime m)).
Proof.
  apply keeps_in_sessions. intros n sm Hsm. unfold zoom. destruct (m (sm_runtime sm)) as [r o].
  exact Hsm.
Qed.

(** Storing derived keys, as one method call on the session. *)
Lemma keys_on_session sid secret salt info sm :
  (x ← get_session sid; x ← js_lift (Session_initFromSecret secret salt info x);
   update_session sid (λ _, x)) sm =
  on_session sid (s ← self; x ← js_lift (Session_initFromSecret secret salt info s);
                  update (λ _, x)) sm.
Proof.
  unfold get_session, update_session, mbind, js_bind, on_session, self, js_lift.
  destruct (sessions sm !! sid) as [x|] eqn:Hx; [|done]. cbn. rewrite list_insert_id by done.
  destruct (Session_initFromSecret secret salt info x) as [x'|e]; cbn.
  - by rewrite Hx.
  - by rewrite ?list_insert_id.
Qed.

Lemma kind_ok_keys b secret salt info :
  keeps (kind_ok b) (s ← self; x ← js_lift (Session_initFromSecret secret salt info s);
                     update (λ _, x)).
Proof.
  intros [s r] [Hwf Hb]. unfold mbind, js_bind, self, js_lift. cbn in *.
  destruct (Session_initFromSecret secret salt info s) as [x|e] eqn:E; [|done]. cbn.
  unfold Session_initFromSecret in E. destruct (cryptoContext s) as [c0|] eqn:Hc0; [|done].
  apply outcome_bind_Ret in E as (c & Hc & E). apply Ret_inj in E as <-.
  unfold initFromSecret in Hc. apply outcome_bind_Ret in Hc as (k & _ & Hc).
  apply Ret_inj in Hc as <-. unfold kind_ok, session_wf in *. cbn. rewrite Hc0 in Hwf.
  destruct (_secure s) eqn:Hs; [|by destruct Hwf]. split; [|done]. by eexists.
Qed.

Lemma em_ok_keys sid secret salt info : keeps em_ok (in_sessions (
  x ← get_session sid; x ← js_lift (Session_initFromSecret secret salt info x);
  update_session sid (λ _, x))).
Proof.
  apply keeps_in_sessions. intros n sm Hsm. rewrite keys_on_session.
  apply keeps_on_session; [|done]. intros b. apply kind_ok_keys.
Qed.

Lemma em_ok_session l p : keeps em_ok (in_sessions (newSession l p true)).
Proof. apply keeps_in_sessions. intros n. by apply keeps_newSession. Qed.

(** ** What the message layer promises to the protocols

    A predicate that every operation a protocol may use keeps.  Whatever a handler
    does, it does through these operations. *)
Class KeptByMessaging (Q : ExchangeManager → Prop) : Prop := {
  kept_receive buf peer : keeps Q (receive buf peer);
  kept_send x msg : keeps Q (send_on x msg);
  kept_client : keeps Q (newExchange None None true);
  kept_exchange x f : (∀ e, ex_session (f e) = ex_session e) → keeps Q (update_exchange x f);
  kept_random A (m : js runtime A) : keeps Q (in_sessions (zoom sm_runtime set_sm_runtime m));
  kept_session l p : keeps Q (in_sessions (newSession l p true));
  kept_keys sid secret salt info : keeps Q (in_sessions (
    x ← get_session sid; x ← js_lift (Session_initFromSecret secret salt info x);
    update_session sid (λ _, x)));
  kept_read sid : keeps Q (in_sessions (get_session sid));
  kept_transport sid t : keeps Q (in_sessions (update_session sid (set_Transport t)));
  kept_peer sid p : keeps Q (in_sessions (update_session sid (set_PeerInfo p))) }.

#[export] Instance em_ok_kept : KeptByMessaging em_ok.
Proof.
  split; auto using keeps_receive, keeps_send_on, keeps_newExchange_unsecured,
    keeps_update_exchange, em_ok_random, em_ok_session, em_ok_keys.
  all: intros; apply keeps_in_sessions; intros n; auto with keeps.
Qed.

Section kept.
Context (Q : ExchangeManager → Prop) {HQ : KeptByMessaging Q}.

Lemma kept_get_exchange x : keeps Q (get_exchange x).
Proof. intros m Hm. unfold get_exchange. by destruct (exchange_heap m !! x). Qed.

Lemma kept_onExchangeMessage p msg : keeps (on_em Q) (onExchangeMessage p msg).
Proof.
  apply keeps_onExchangeMessage; auto using kept_send, kept_exchange, kept_random, kept_session,
    kept_keys.
Qed.

Lemma kept_newPase x : keeps (on_em Q) (newPase x).
Proof. apply keeps_newPase. auto using kept_exchange. Qed.

Lemma kept_deliver d : keeps (on_em Q) (pase_deliver d).
Proof.
  destruct d as [x msg|pid x msg|]; cbn [pase_deliver]; [| |auto with keeps].
  - apply keeps_bind; [apply keeps_in_em, kept_get_exchange|intros e].
    apply keeps_js_forEach. intros p. apply kept_onExchangeMessage.
  - apply keeps_if; [|auto with keeps].
    apply keeps_onProtocolMessage; auto using kept_newPase, kept_onExchangeMessage.
Qed.

Lemma kept_pase_receive buf peer : keeps (on_em Q) (pase_receive buf peer).
Proof.
  apply keeps_bind; [apply keeps_in_em, kept_receive|intros d]. apply kept_deliver.
Qed.

Lemma kept_doPase port host : keeps (on_em Q) (doPase port host).
Proof.
  unfold doPase. apply keeps_bind; [apply keeps_in_em, kept_client|intros x].
  apply keeps_bind; [apply keeps_in_em, kept_get_exchange|intros e].
  apply keeps_bind; [apply keeps_in_em, kept_transport|intros u].
  apply keeps_bind; [apply keeps_in_em, kept_peer|intros u'].
  apply keeps_bind; [apply kept_newPase|intros p].
  apply keeps_startPase; auto using kept_send, kept_exchange, kept_random.
Qed.

Lemma kept_resume i seed : keeps (on_em Q) (resume i seed).
Proof. apply keeps_resume; auto using kept_send, kept_exchange, kept_random. Qed.

Lemma kept_fire_timer t : keeps (on_em Q) (fire_timer t).
Proof. apply keeps_fire_timer; auto using kept_send, kept_exchange, kept_random. Qed.
End kept.

Lemma pase_step_ok w w' : pase_ok w → pase_step w w' → pase_ok w'.
Proof.
  intros [Hem Ht] Hs.
  destruct Hs as [buf peer w|t w|i seed w|port host w|em w Hstep].
  - split; [by apply (kept_pase_receive em_ok)|by apply timers_receive].
  - split; [by apply (kept_fire_timer em_ok)|by apply timers_fire].
  - split; [by apply (kept_resume em_ok)|by apply timers_resume].
  - split; [by apply (kept_doPase em_ok)|by apply timers_doPase].
  - split; [by eapply em_step_ok|]. by eapply timers_frame.
Qed.

Lemma pase_new_ok r : pase_ok (PaseWorld_new (ExchangeManager_new (SessionManager_new r))).
Proof.
  split; [apply em_new_ok|]. split_and!; cbn; try done; intros *; rewrite ?lookup_nil; try done.
  intros H. by apply elem_of_nil in H.
Qed.
End timers_handlers.
