(* ===== verification/PaseTheorems.v ===== *)
(** * Theorems about PASE

    Agreement of the two ends of a handshake; what a session is created from; the
    invariant of the states and timers; what the client leaves unchecked. *)
From S2P Require Import Prelude JsNumber JsString JsValue TlvType TlvCodec TlvWriter TlvReader TlvElement.
From S2P Require Import TlvParser TlvWire Aead MsgCodec Message Runtime SessionCryptoContext Session.
From S2P Require Import SessionManager Exchange ExchangeManager MessagingFacts MessagingTheorems.
From S2P Require Import Spake Pase PaseFacts PaseInvariant.

(** ** A handshake *)

Section handshake.
Context `{HA : Aead} `{HK : Kdf} `{HP : Spake}.

(** [m] carries the payload that the session object [p] of [w] has sent. *)
Definition carries (w : PaseWorld) (p : nat) (payload : PaseSession → outcome buffer)
    (m : Message) : Prop :=
  ∃ s b, pases w !! p = Some s ∧ payload s = Ret b ∧ AppPayload m = Ret b.

Definition request_payload (s : PaseSession) : outcome buffer :=
  from_option Ret (Throw TypeError) (_pbkdfRequest s).
Definition response_payload (s : PaseSession) : outcome buffer :=
  from_option Ret (Throw TypeError) (_pbkdfResponse s).
Definition pake1_payload (s : PaseSession) : outcome buffer :=
  encode_new (TemplateMsgPasePake1 (_pA s)).
Definition pake2_payload (s : PaseSession) : outcome buffer :=
  encode_new (TemplateMsgPasePake2 (_pB s) (_cB s)).
Definition pake3_payload (s : PaseSession) : outcome buffer :=
  encode_new (TemplateMsgPasePake3 (_cA s)).

(** A handshake between [p] of node [c] and [q] of node [s] over a network that
    delivers what is sent, up to the last message [m5]: the client ends in [c'],
    the responder waits for [m5] in [s'].  Receiving a message changes the message
    layer first ([em1] to [em3] are what it becomes). *)
Inductive handshake (p q : nat) (c s c' s' : PaseWorld) (m5 : Message) : Prop :=
  | Handshake (m1 m2 m3 m4 : Message) (c1 c2 c3 c4 c5 s1 s2 s3 s4 : PaseWorld)
      (a0 a1 seedA b0 b1 seedB : buffer) (em1 em2 em3 : ExchangeManager)
      (Hc1 : sendPbkdfParamRequest p c = (c1, Ret tt)) (Hm1 : carries c1 p request_payload m1)
      (Hs1 : onPbkdfParamRequest q m1 s = (s1, Ret tt)) (Hm2 : carries s1 q response_payload m2)
      (Hc2 : onPbkdfParamResponse p m2 (set_em em1 c1) = (c2, Ret tt))
      (Hc3 : resumes a0 c2 c3) (Hc4 : resumes a1 c3 c4) (Hc5 : resumes seedA c4 c5)
      (Hm3 : carries c5 p pake1_payload m3)
      (Hs2 : onPake1 q m3 (set_em em2 s1) = (s2, Ret tt))
      (Hs3 : resumes b0 s2 s3) (Hs4 : resumes b1 s3 s4) (Hs5 : resumes seedB s4 s')
      (Hm4 : carries s' q pake2_payload m4)
      (Hc6 : onPake2 p m4 (set_em em3 c5) = (c', Ret tt)) (Hm5 : carries c' p pake3_payload m5).

(** The parameters of a responder that a client can follow. *)
Definition responder_ready (s : PaseSession) : Prop :=
  _state s = IDLE ∧
  (∃ z, _paramIterations s = number z ∧ 0 <= z < 65536) ∧
  ∃ salt, _paramSalt s = JStr salt ∧ _paramSaltHex s = hex_encode (utf8_encode salt) ∧
          blen (utf8_encode salt) <= UINT32_MAX.

(** Reads a field of a session object written by setters. *)
Ltac payload_field :=
  unfold request_payload, response_payload, pake1_payload, pake2_payload, pake3_payload; cbn;
  reflexivity.

Lemma carries_is_pase w p payload m s :
  carries w p payload m → is_pase p s w →
  (∀ t, payload (set_stateTimeout t s) = payload s) →
  ∃ b, payload s = Ret b ∧ AppPayload m = Ret b.
Proof.
  intros (s0 & b & Hs0 & Hb & Hm) (t & Ht) Hp. exists b. split; [|done].
  rewrite Hs0 in Ht. injection Ht as ->. by rewrite <- (Hp t).
Qed.

Lemma client_to_pake1 p c c1 m1 sc :
  pases c !! p = Some sc → jobs c = [] →
  sendPbkdfParamRequest p c = (c1, Ret tt) → carries c1 p request_payload m1 →
  ∃ id1 r1 req e1 e2 e3 e4 e5,
    0 <= id1 < 65536 ∧ AppPayload m1 = Ret req ∧ decodes_to req [e1; e2; e3; e4; e5] ∧
    blen r1 = 32 ∧ has_field 1 (JBuf r1) e1 ∧ has_field 2 (number id1) e2 ∧
    has_field 3 (number 0) e3 ∧ has_field 4 (JBool false) e4 ∧ tag e5 = Some 5 ∧
    jobs c1 = [] ∧
    ∃ sc1, pases c1 !! p = Some sc1 ∧ _pbkdfRequest sc1 = Some req ∧ _localRole sc1 = INITIATOR ∧
      _initiatorSessionId sc1 = number id1 ∧ _paramPaircode sc1 = _paramPaircode sc.
Proof.
  intros Hs Hj H Hm.
  apply (sendPbkdfParamRequest_spec _ _ _ _ Hs) in H as (r & id & payload & Hid & Hr & Hp & His & Q).
  edestruct carries_is_pase as (b & Hb & Hmb);
    [exact Hm|exact His|intros tm0; payload_field|].
  cbn in Hb. injection Hb as <-. destruct His as [t Ht].
  edestruct (request_template r id) as (b & e1 & e2 & e3 & e4 & e5 & Hb & Hd & F1 & F2 & F3 & F4 & F5 & _);
    [rewrite Hr; done|done|].
  rewrite Hp in Hb. injection Hb as <-.
  exists id, r, payload, e1, e2, e3, e4, e5. split_and!; try done; try lia.
  - destruct Q as [-> _]. done.
  - eexists. split; [exact Ht|]. by split_and!.
Qed.

Lemma server_to_response q s s1 m1 m2 ss id1 r1 req e1 e2 e3 e4 e5 v3 v4 z salt :
  pases s !! q = Some ss → _state ss = IDLE → jobs s = [] →
  _paramIterations ss = number z → 0 <= z < 65536 → _paramSaltHex ss = hex_encode salt →
  blen salt <= UINT32_MAX →
  AppPayload m1 = Ret req → decodes_to req [e1; e2; e3; e4; e5] → blen r1 = 32 →
  has_field 1 (JBuf r1) e1 → has_field 2 (number id1) e2 → has_field 3 v3 e3 →
  has_field 4 v4 e4 → tag e5 = Some 5 →
  onPbkdfParamRequest q m1 s = (s1, Ret tt) → carries s1 q response_payload m2 →
  ∃ id2 r2 rsp g1 g2 g3 g4 f1 f2,
    AppPayload m2 = Ret rsp ∧ decodes_to rsp [g1; g2; g3; g4] ∧
    has_field 1 (JBuf r1) g1 ∧ has_field 2 (JBuf r2) g2 ∧ has_field 3 (number id2) g3 ∧
    has_field 4 (JArr [JObj f1; JObj f2]) g4 ∧ has_field 1 (number z) f1 ∧
    has_field 2 (JBuf salt) f2 ∧ jobs s1 = [] ∧
    ∃ ss1, pases s1 !! q = Some ss1 ∧ _state ss1 = AWAIT_PAKE1 ∧
      _pbkdfRequest ss1 = Some req ∧ _pbkdfResponse ss1 = Some rsp ∧ _localRole ss1 = RESPONDER ∧
      _initiatorSessionId ss1 = number id1 ∧ _responderSessionId ss1 = number id2 ∧
      _paramPaircode ss1 = _paramPaircode ss ∧ _paramIterations ss1 = number z ∧
      _paramSalt ss1 = _paramSalt ss.
Proof.
  intros Hs Hst Hj Hz Hzr Hsalt Hlen Hm1 Hd Hr1 F1 F2 F3 F4 F5 H Hm.
  eapply (onPbkdfParamRequest_spec _ _ _ _ _ _ _ _ _ _ r1 id1 _ _ _ z salt Hs) in H as
    (r & id & payload & Hid & Hr & Hp & His & Q); [|done..].
  edestruct carries_is_pase as (b & Hb & Hmb);
    [exact Hm|exact His|intros tm0; payload_field|].
  cbn in Hb. injection Hb as <-. destruct His as [t Ht].
  edestruct (response_template r1 r id z salt) as
    (b & g1 & g2 & g3 & g4 & f1 & f2 & Hb & Hdb & G1 & G2 & G3 & G4 & G5 & G6);
    [rewrite Hr1; done|rewrite Hr; done|lia|lia|done|].
  rewrite Hp in Hb. injection Hb as <-.
  exists id, r, payload, g1, g2, g3, g4, f1, f2. split_and!; try done.
  - destruct Q as [-> _]. done.
  - eexists. split; [exact Ht|]. by split_and!.
Qed.

(** From the parameter response to the first key exchange message: the client
    derives its shares from the parameters it was sent. *)
Lemma client_to_key p c1 c2 c3 c4 c5 m2 m3 sc1 req rsp id2 r1 r2 g1 g2 g3 g4 f1 f2 z salt
    a0 a1 seed (HL : SpakeLaws HP) :
  pases c1 !! p = Some sc1 → jobs c1 = [] → _pbkdfRequest sc1 = Some req →
  AppPayload m2 = Ret rsp → decodes_to rsp [g1; g2; g3; g4] →
  has_field 1 (JBuf r1) g1 → has_field 2 (JBuf r2) g2 → has_field 3 (number id2) g3 →
  has_field 4 (JArr [JObj f1; JObj f2]) g4 → has_field 1 (number z) f1 →
  has_field 2 (JBuf salt) f2 →
  onPbkdfParamResponse p m2 c1 = (c2, Ret tt) →
  resumes a0 c2 c3 → resumes a1 c3 c4 → resumes seed c4 c5 → carries c5 p pake1_payload m3 →
  let context := pase_context req rsp in
  ∃ passcode b v cl e x,
    write_uint_le 4 (_paramPaircode sc1) (alloc 4) 0 = Ret passcode ∧
    pbkdf2 passcode (JBuf salt) (number z) 80 = Ret b ∧
    computeVerifierFromSecret context (subarray b 0 40) (subarray b 40 80) = Ret v ∧
    startClient context v seed = Ret cl ∧ decodePoint (client_message cl) = Ret e ∧
    (∃ t, AppPayload m3 = Ret t ∧ decodes_to t [x]) ∧ has_field 1 (JBuf e) x ∧
    ∃ sc5, pases c5 !! p = Some sc5 ∧ _state sc5 = AWAIT_PAKE2 ∧ _spakeClient sc5 = Some cl ∧
      _localRole sc5 = _localRole sc1 ∧ _initiatorSessionId sc5 = _initiatorSessionId sc1 ∧
      _responderSessionId sc5 = number id2.
Proof.
  intros Hs Hj Hreq Hm2 Hd G1 G2 G3 G4 G5 G6 H R1 R2 R3 Hm context.
  eapply (onPbkdfParamResponse_spec _ _ _ _ _ _ _ _ _ _ _ _ _ id2 req rsp z salt Hs) in H as
    (Hs2 & passcode & b & Hp & Hb & Hj2 & _); [|done..].
  rewrite Hj in Hj2. cbn [app] in Hj2.
  destruct (jobs_run _ _ _ _ _ _ _ _ _ _ _ _ _ Hs2 eq_refl Hj2 R1 R2 R3)
    as (v & w & Hv & Hs3 & _ & _ & _ & Hstart).
  unfold after_start in Hstart. take Hstart as cl Hcl.
  apply (response_started_spec _ _ _ _ _ Hs3) in Hstart as (e & payload & He & Hpl & His & _).
  edestruct carries_is_pase as (t & Ht & Hmt);
    [exact Hm|exact His|intros tm0; payload_field|].
  unfold pake1_payload in Ht. cbn in Ht.
  destruct (pake_template e) as (t' & x & Ht' & Hdx & Fx); [by rewrite (point_length _ _ He)|].
  assert (t = t') as <- by (apply Ret_inj; rewrite <- Ht, <- Ht'; reflexivity).
  destruct His as [tm His]. exists passcode, b, v, cl, e, x. split_and!; try done; [by exists t|].
  eexists. split; [exact His|]. by split_and!.
Qed.

Lemma server_to_pake3 q s1 s2 s3 s4 s' m3 m4 ss1 req rsp e x t b0 b1 seed (HL : SpakeLaws HP) :
  pases s1 !! q = Some ss1 → jobs s1 = [] → _state ss1 = AWAIT_PAKE1 →
  _pbkdfRequest ss1 = Some req → _pbkdfResponse ss1 = Some rsp →
  AppPayload m3 = Ret t → decodes_to t [x] → has_field 1 (JBuf e) x →
  onPake1 q m3 s1 = (s2, Ret tt) →
  resumes b0 s2 s3 → resumes b1 s3 s4 → resumes seed s4 s' → carries s' q pake2_payload m4 →
  let context := pase_context req rsp in
  ∃ passcode b v sv eB k cB y1 y2,
    write_uint_le 4 (_paramPaircode ss1) (alloc 4) 0 = Ret passcode ∧
    pbkdf2 passcode (_paramSalt ss1) (_paramIterations ss1) 80 = Ret b ∧
    computeVerifierFromSecret context (subarray b 0 40) (subarray b 40 80) = Ret v ∧
    startServer context v seed = Ret sv ∧ decodePoint (server_message sv) = Ret eB ∧
    server_finish sv (JBuf e) = Ret k ∧
    (∃ t, AppPayload m4 = Ret t ∧ decodes_to t [y1; y2]) ∧ has_field 1 (JBuf eB) y1 ∧
    has_field 2 (JBuf cB) y2 ∧
    ∃ ss', pases s' !! q = Some ss' ∧ _state ss' = AWAIT_PAKE3 ∧ secret ss' = Some k ∧
      _localRole ss' = _localRole ss1 ∧ _initiatorSessionId ss' = _initiatorSessionId ss1 ∧
      _responderSessionId ss' = _responderSessionId ss1.
Proof.
  intros Hs Hj Hst Hreq Hrsp Hm3 Hd Fx H R1 R2 R3 Hm context.
  eapply (onPake1_spec _ _ _ _ _ _ e _ req rsp Hs) in H as
    (Hs2 & passcode & b & Hp & Hb & Hj2 & _); [|done..].
  rewrite Hj in Hj2. cbn [app] in Hj2.
  destruct (jobs_run _ _ _ _ _ _ _ _ _ _ _ _ _ Hs2 eq_refl Hj2 R1 R2 R3)
    as (v & w & Hv & Hs3 & _ & _ & _ & Hstart).
  unfold after_start in Hstart. take Hstart as sv Hsv.
  apply (pake1_started_spec _ _ _ _ _ Hs3) in Hstart as
    (eB & k & cB & payload & He & Hk & HcB & Hpl & His & _).
  edestruct carries_is_pase as (t' & Ht & Hmt);
    [exact Hm|exact His|intros tm0; payload_field|].
  unfold pake2_payload in Ht. cbn in Ht.
  destruct (pake2_template eB cB) as (t2 & y1 & y2 & Ht2 & Hdy & F1 & F2).
  { by rewrite (point_length _ _ He). } { by rewrite (mac_length _ _ _ HcB). }
  assert (t' = t2) as <- by (apply Ret_inj; rewrite <- Ht, <- Ht2; reflexivity).
  destruct His as [tm His]. exists passcode, b, v, sv, eB, k, cB, y1, y2.
  split_and!; try done; [by exists t'|].
  eexists. split; [exact His|]. by split_and!.
Qed.

(** C25: over a network that delivers what is sent, a client and a responder with
    the same passcode agree: the confirmation the client sends last passes the
    responder's check, and the secure sessions both create hold the same keys and
    each other's ids. *)
Theorem pase_agreement {HL : SpakeLaws HP} (p q : nat) (c s c' s' : PaseWorld)
    (sc ss : PaseSession) (m5 : Message) :
  pases c !! p = Some sc → pases s !! q = Some ss → jobs c = [] → jobs s = [] →
  _paramPaircode sc = _paramPaircode ss → responder_ready ss →
  handshake p q c s c' s' m5 →
  (∃ ss' kB cA, pases s' !! q = Some ss' ∧ _state ss' = AWAIT_PAKE3 ∧ secret ss' = Some kB ∧
     verifyHash kB (JBuf cA) = Ret () ∧
     ∃ t x, AppPayload m5 = Ret t ∧ decodes_to t [x] ∧ has_field 1 (JBuf cA) x) ∧
  ∀ em s'', onPake3 q m5 (set_em em s') = (s'', Ret tt) →
    ∃ lc ls xc xs, node_sessions c' = lc ++ [xc] ∧ node_sessions s'' = ls ++ [xs] ∧
      _secure xc = true ∧ _secure xs = true ∧
      cryptoContext xc = cryptoContext xs ∧ is_Some (cryptoContext xc) ∧
      _localSessionId xc = _peerSessionId xs ∧ _peerSessionId xc = _localSessionId xs ∧
      _state <$> pases c' !! p = Some IDLE ∧ _state <$> pases s'' !! q = Some IDLE.
Proof.
  intros Hc Hs Hjc Hjs Hcode (Hidle & (z & Hz & Hzr) & salt & Hsalt & Hhex & Hslen) Hrun.
  destruct Hrun.
  destruct (client_to_pake1 _ _ _ _ _ Hc Hjc Hc1 Hm1) as
    (id1 & r1 & req & e1 & e2 & e3 & e4 & e5 & Hid1 & Hm1' & Hd1 & Hr1 & F1 & F2 & F3 & F4 & F5 &
     Hjc1 & sc1 & Hsc1 & Hreq & Hrole & Hlid & Hcode1).
  destruct (server_to_response _ _ _ _ _ _ _ _ _ _ _ _ _ _ _ _ z _ Hs Hidle Hjs Hz Hzr Hhex Hslen
              Hm1' Hd1 Hr1 F1 F2 F3 F4 F5 Hs1 Hm2) as
    (id2 & r2 & rsp & g1 & g2 & g3 & g4 & f1 & f2 & Hm2' & Hd2 & G1 & G2 & G3 & G4 & G5 & G6 & Hjs1 &
     ss1 & Hss1 & Hst1 & Hq1 & Hp1 & Hrole1 & Hi1 & Hl1 & Hcode2 & Hz1 & Hsalt1).
  destruct (client_to_key _ (set_em em1 c1) _ _ _ _ _ _ _ _ _ _ _ _ _ _ _ _ _ _ _ _ _ _ _ HL Hsc1 Hjc1 Hreq Hm2' Hd2
              G1 G2 G3 G4 G5 G6 Hc2 Hc3 Hc4 Hc5 Hm3) as
    (pc & b & v & cl & e & x & Hpc & Hb & Hv & Hcl & He & (t3 & Hm3' & Hd3) & Fx &
     sc5 & Hsc5 & Hst5 & Hclient & Hrole5 & Hlid5 & Hpid5).
  destruct (server_to_pake3 _ (set_em em2 s1) _ _ _ _ _ _ _ _ _ _ _ _ _ _ _ HL Hss1 Hjs1 Hst1 Hq1 Hp1 Hm3' Hd3 Fx
              Hs2 Hs3 Hs4 Hs5 Hm4) as
    (pc' & b' & v' & sv & eB & kB & cB & y1 & y2 & Hpc' & Hb' & Hv' & Hsv & HeB & HkB &
     (t4 & Hm4' & Hd4) & Y1 & Y2 & ss' & Hss' & Hst' & Hsec & Hrole' & Hi' & Hl').
  assert (pc' = pc) as -> by (apply Ret_inj; rewrite <- Hpc, <- Hpc'; congruence).
  rewrite Hsalt1, Hsalt, Hz1, pbkdf2_salt_text in Hb'.
  assert (b' = b) as -> by (apply Ret_inj; by rewrite <- Hb, <- Hb').
  assert (v' = v) as -> by (apply Ret_inj; by rewrite <- Hv, <- Hv').
  apply (onPake2_spec _ _ (set_em em3 c5) _ _ cl y1 y2 eB cB t4 Hsc5 Hst5 Hm4' Hd4 Y1 Y2 Hclient) in Hc6 as
    (kA & cA & t5 & xc & HkA & HcA & Ht5 & Hxc & Hisc & (lc & Hlc) & _).
  destruct (finish_agree _ _ _ _ _ _ _ _ _ _ Hcl Hsv He HeB HkA HkB) as (HKe & HKcA & _).
  rewrite HKcA in HcA.
  pose proof (verify_confirmation _ _ _ _ _ _ _ _ Hsv HeB HkB HcA) as Hver.
  edestruct carries_is_pase as (t5' & Ht & Hm5');
    [exact Hm5|exact Hisc|intros tm0; payload_field|].
  unfold pake3_payload in Ht. cbn in Ht.
  destruct (pake_template cA) as (t6 & x5 & Ht6 & Hd5 & F5'); [by rewrite (mac_length _ _ _ HcA)|].
  assert (t5' = t6) as -> by (apply Ret_inj; rewrite <- Ht, <- Ht6; reflexivity).
  split; [by eexists ss', kB, cA; split_and!; [..|eexists t6, x5]|].
  intros em s'' Hfin.
  apply (onPake3_spec _ _ (set_em em s') _ _ kB x5 cA t6 Hss' Hst' Hm5' Hd5 F5' Hsec) in Hfin as
    (_ & xs & Hxs & Hiss & (ls & Hls) & _).
  destruct Hxc as (bc & Hkc & Hxcl & Hxcp & Hxcs & Hxck & _), Hxs as (bs & Hks & Hxsl & Hxsp & Hxss & Hxsk & _).
  rewrite HKe in Hkc. assert (bc = bs) as -> by (apply Ret_inj; by rewrite <- Hkc, <- Hks).
  rewrite Hrole5, Hrole in Hxcl, Hxcp. rewrite Hrole', Hrole1 in Hxsl, Hxsp.
  exists lc, ls, xc, xs. rewrite Hxck, Hxsk.
  split_and!; try done; try congruence.
  - destruct Hisc as [tm ->]. done.
  - destruct Hiss as [tm ->]. done.
Qed.
End handshake.

(** ** Sessions, states and timers *)

Section safety.
Context `{HA : Aead} `{HK : Kdf} `{HP : Spake}.

(** C26: a PASE handler creates a session only for a client that waits for the
    responder's point, or for a responder that waits for the confirmation and has
    verified it against its secret; a resumed job or a timer creates none. *)
Theorem session_needs_confirmation (p : nat) (msg : Message) (w : PaseWorld) :
  (length (node_sessions (onExchangeMessage p msg w).1) ≠ length (node_sessions w) →
   ∃ s, pases w !! p = Some s ∧
     ((ProtocolOpcode msg = Ret Pake2 ∧ _state s = AWAIT_PAKE2) ∨
      (ProtocolOpcode msg = Ret Pake3 ∧ _state s = AWAIT_PAKE3 ∧
       ∃ k tlv result cA, secret s = Some k ∧ AppPayload msg = Ret tlv ∧
         decode_json tlv = Ret result ∧ field_value result 0 = Ret cA ∧
         verifyHash k cA = Ret ()))) ∧
  (∀ i seed, length (node_sessions (resume i seed w).1) = length (node_sessions w)) ∧
  (∀ t, length (node_sessions (fire_timer t w).1) = length (node_sessions w)).
Proof.
  set (n := length (node_sessions w)). assert (Hw : on_em (em_count n) w) by done.
  pose proof (count_send n) as Ks. pose proof (count_exchange n) as Ke.
  pose proof (count_random n) as Kr.
  split; [|split].
  2: { intros i seed. by apply (keeps_resume (em_count n)). }
  2: { intros t. by apply (keeps_fire_timer (em_count n)). }
  intros Hne. unfold onExchangeMessage, mbind, js_bind, js_lift in Hne.
  destruct (ProtocolOpcode msg) as [o|]; [|done]. destruct (ExchangeId msg) as [x|]; [|done].
  destruct (Z.eqb_spec o ParamRequest); [by destruct Hne; apply (keeps_onPbkdfParamRequest (em_count n))|].
  destruct (Z.eqb_spec o ParamResponse).
  { destruct Hne. by apply (keeps_async (em_count n)), Hw; apply keeps_onPbkdfParamResponse. }
  destruct (Z.eqb_spec o Pake1).
  { destruct Hne. by apply (keeps_async (em_count n)), Hw; apply keeps_onPake1. }
  destruct (Z.eqb_spec o Pake2) as [->|].
  { destruct (onPake2_creates n p msg w Hw) as (s & Hs & Hst); [|by exists s; split; [|left]].
    intros Hk. apply Hne. unfold async. destruct (onPake2 p msg w) as [w' []]; exact Hk. }
  destruct (Z.eqb_spec o Pake3) as [->|]; [|done].
  destruct (onPake3_creates n p msg w Hw Hne) as (s & k & tlv & res & cA & Hs & Hst & Hk & Ht & Hr & Hc & Hv).
  exists s. split; [done|]. right. split_and!; [done..|]. by exists k, tlv, res, cA.
Qed.

(** C27: in every state a node can reach, a PASE session that waits for a message
    has exactly one live timer, and that timer's firing makes it idle; an idle
    session has none.  So no handshake waits forever. *)
Theorem pase_times_out (r : runtime) (w : PaseWorld) (p : nat) (s : PaseSession) :
  rtc pase_step (PaseWorld_new (ExchangeManager_new (SessionManager_new r))) w →
  pases w !! p = Some s →
  if bool_decide (_state s = IDLE) then ∀ t, (t, p) ∉ timers w
  else ∃ t, (∀ t', (t', p) ∈ timers w ↔ t' = t) ∧
    _state <$> pases (fire_timer t w).1 !! p = Some IDLE ∧
    ∀ t', (t', p) ∉ timers (fire_timer t w).1.
Proof.
  intros Hr Hs. assert (pase_ok w) as [_ Hok].
  { apply (rtc_keeps _ _ pase_step_ok _ _ Hr), pase_new_ok. }
  pose proof Hok as (H1 & H2 & _). case_bool_decide as Hst.
  - intros t Hin. destruct (H2 t p Hin) as (s' & Hs' & _ & Hne). congruence.
  - destruct (H1 p s Hs Hst) as (t & Ht & Hin). exists t.
    destruct (fire_timer_spec w t p s Hok Hs Ht Hin) as (Hp & Hts). split_and!; [|done|done].
    intros t'. split; [|by intros ->]. intros Hin'. destruct (H2 t' p Hin') as (s' & Hs' & E & _).
    congruence.
Qed.
End safety.

(** ** What the client leaves unchecked *)

Section unchecked.
Context `{HA : Aead} `{HK : Kdf} `{HP : Spake}.
Context (p : nat).

(** Two worlds that differ in the confirmation [_cB] of [p] only, and computations
    that cannot tell them apart. *)
Definition cB_apart (w1 w2 : PaseWorld) : Prop :=
  ∃ c, w2 = set_pases (alter (set_cB c) p (pases w1)) w1.

Definition alike {A} (m1 m2 : js PaseWorld A) : Prop :=
  ∀ w1 w2, cB_apart w1 w2 → (m1 w1).2 = (m2 w2).2 ∧ cB_apart (m1 w1).1 (m2 w2).1.

Lemma run_lift {A B} (o : outcome A) a (k : A → js PaseWorld B) w :
  o = Ret a → (js_lift o ≫= k) w = k a w.
Proof. by intros ->. Qed.

Lemma run_assign {B} q f (k : unit → js PaseWorld B) w :
  (assign q f ≫= k) w = k tt (set_pases (alter f q (pases w)) w).
Proof. done. Qed.

Lemma alike_lift {A} (o : outcome A) : alike (js_lift o) (js_lift o).
Proof. by intros w1 w2 H. Qed.

Lemma alike_ret {A} (a : A) : alike (mret a) (mret a).
Proof. by intros w1 w2 H. Qed.

Lemma alike_bind {A B} (m1 m2 : js PaseWorld A) (f1 f2 : A → js PaseWorld B) :
  alike m1 m2 → (∀ a, alike (f1 a) (f2 a)) → alike (m1 ≫= f1) (m2 ≫= f2).
Proof.
  intros Hm Hf w1 w2 Hw. unfold mbind, js_bind. destruct (Hm w1 w2 Hw) as [Ho Hr].
  destruct (m1 w1) as [v1 o1], (m2 w2) as [v2 o2]. cbn in *. subst o2.
  destruct o1; [by apply Hf|done].
Qed.

Lemma alike_this {B} (f1 f2 : PaseSession → js PaseWorld B) :
  (∀ s c, alike (f1 s) (f2 (set_cB c s))) → alike (this p ≫= f1) (this p ≫= f2).
Proof.
  intros Hf w1 w2 (c & ->). unfold mbind, js_bind, this. cbn. rewrite list_lookup_alter_eq.
  destruct (pases w1 !! p) as [s|]; cbn; [apply Hf; by exists c|split; [done|by exists c]].
Qed.

Lemma alike_assign f :
  (∀ s c, f (set_cB c s) = set_cB c (f s)) → alike (assign p f) (assign p f).
Proof.
  intros Hf w1 w2 (c & ->). split; [done|]. exists c. cbn. unfold set_pases. cbn. f_equal.
  rewrite !list_alter_alter_eq. apply list_alter_ext; [|done]. intros s _. apply Hf.
Qed.

Lemma alike_in_em {A} (m : js ExchangeManager A) : alike (in_em m) (in_em m).
Proof.
  intros w1 w2 (c & ->). unfold in_em, zoom. cbn. destruct (m (w_em w1)) as [em o].
  split; [done|]. by exists c.
Qed.

Lemma alike_timers f :
  alike (js_modify (λ w, set_timers (f (timers w) (next_timer w)).1 (f (timers w) (next_timer w)).2 w))
        (js_modify (λ w, set_timers (f (timers w) (next_timer w)).1 (f (timers w) (next_timer w)).2 w)).
Proof. intros w1 w2 (c & ->). split; [done|]. by exists c. Qed.

Lemma alike_clearTimeout : alike (pase_clearTimeout p) (pase_clearTimeout p).
Proof.
  apply alike_this. intros s c. change (_stateTimeout (set_cB c s)) with (_stateTimeout s).
  destruct (_stateTimeout s) as [t|]; [|apply alike_ret].
  apply (alike_timers (λ ts n, (filter (λ x, x.1 ≠ t) ts, n))).
Qed.

Lemma alike_setState st : alike (setState p st) (setState p st).
Proof.
  unfold setState. apply alike_bind; [by apply alike_assign|intros u].
  destruct (bool_decide (st = IDLE)); [apply alike_clearTimeout|]. unfold pase_setTimeout.
  apply alike_bind; [apply alike_clearTimeout|intros u']. intros w1 w2 (c & ->).
  split; [done|]. exists c. unfold mbind, js_bind, js_get, js_put, assign, js_modify. cbn.
  unfold set_pases, set_timers. cbn. f_equal. rewrite !list_alter_alter_eq.
  by apply list_alter_ext.
Qed.

Lemma alike_createSecureSession : alike (createSecureSession p) (createSecureSession p).
Proof.
  apply alike_this. intros s c. cbn. apply alike_bind; [apply alike_in_em|intros sid].
  apply alike_this. intros s' c'. cbn. apply alike_bind; [apply alike_lift|intros k].
  apply alike_in_em.
Qed.

Lemma alike_sendPake3 : alike (sendPake3 p) (sendPake3 p).
Proof.
  apply alike_this. intros s c. change (_cA (set_cB c s)) with (_cA s).
  apply alike_bind; [apply alike_lift|intros payload].
  apply alike_bind; [|intros u; apply alike_createSecureSession]. unfold send_in_state.
  apply alike_bind; [apply alike_lift|intros msg].
  apply alike_bind; [apply alike_setState|intros u]. apply alike_this. intros s' c'.
  change (ps_exchange (set_cB c' s')) with (ps_exchange s').
  apply alike_bind; [apply alike_in_em|intros u']. apply alike_in_em.
Qed.
End unchecked.

Section client.
Context `{HA : Aead} `{HK : Kdf} `{HP : Spake}.

(** C28: the client takes the responder's confirmation from the message and never
    checks it: whatever value stands there, it sends its own confirmation and
    creates the same session. *)
Theorem client_ignores_confirmation (p : nat) (w : PaseWorld) (msg1 msg2 : Message)
    (b1 b2 : buffer) (j1 j2 pB c1 c2 : json) (h1 h2 : jsstr) :
  AppPayload msg1 = Ret b1 → decode_json b1 = Ret j1 →
  AppPayload msg2 = Ret b2 → decode_json b2 = Ret j2 →
  field_value j1 0 = Ret pB → field_value j2 0 = Ret pB →
  field_value j1 1 = Ret c1 → field_value j2 1 = Ret c2 →
  js_toString_hex c1 = Ret h1 → js_toString_hex c2 = Ret h2 →
  (onPake2 p msg1 w).2 = (onPake2 p msg2 w).2 ∧
  w_em (onPake2 p msg1 w).1 = w_em (onPake2 p msg2 w).1.
Proof.
  intros Hb1 Hj1 Hb2 Hj2 Hp1 Hp2 Hc1 Hc2 Hh1 Hh2. unfold onPake2.
  destruct (pases w !! p) as [s|] eqn:Hs; [|by unfold mbind, js_bind, this; rewrite Hs].
  rewrite !(run_this _ _ _ _ Hs). destruct (bool_decide (_state s ≠ AWAIT_PAKE2)); [done|].
  rewrite (run_lift _ _ _ _ Hb1), (run_lift _ _ _ _ Hj1), (run_lift _ _ _ _ Hp1), run_assign.
  rewrite (run_lift _ _ _ _ Hc1), run_assign.
  rewrite (run_lift _ _ _ _ Hb2), (run_lift _ _ _ _ Hj2), (run_lift _ _ _ _ Hp2), run_assign.
  rewrite (run_lift _ _ _ _ Hc2), run_assign.
  match goal with |- (?m1 ?v1).2 = (?m2 ?v2).2 ∧ _ =>
    enough (alike p m1 m2 ∧ cB_apart p v1 v2) as [Ha Hv]
      by (destruct (Ha v1 v2 Hv) as [Ho [c Hw]]; split; [exact Ho|by rewrite Hw]) end.
  split.
  - apply alike_bind; [apply alike_lift|intros client].
    apply alike_bind; [apply alike_lift|intros k]. apply alike_bind; [by apply alike_assign|intros u].
    apply alike_bind; [apply alike_lift|intros cA]. apply alike_bind; [by apply alike_assign|intros u'].
    apply alike_bind; [apply alike_lift|intros x]. rewrite Hh1, Hh2.
    intros w1 w2 Hw. rewrite !(run_lift _ _ _ _ eq_refl). revert w1 w2 Hw.
    change (alike p (_ ← js_lift (js_toString_hex (_pA s)); sendPake3 p)
                    (_ ← js_lift (js_toString_hex (_pA s)); sendPake3 p)).
    apply alike_bind; [apply alike_lift|intros y]. apply alike_sendPake3.
  - exists c2. unfold set_pases. cbn. f_equal. rewrite !list_alter_alter_eq.
    by apply list_alter_ext.
Qed.

(** The three fields of a status report are written over each other: what is
    sent is the protocol code, the upper half of the protocol id and four zero
    octets, whatever the general code. *)
Theorem status_fields_overlap (generalCode protocolId protocolCode : Z) (data : option buffer) :
  0 <= generalCode < 65536 → 0 <= protocolId < 2 ^ 32 → 0 <= protocolCode < 65536 →
  status_payload generalCode protocolId protocolCode data =
  Ret (le_bytes 2 protocolCode ++ drop 2 (le_bytes 4 protocolId) ++ alloc 4 ++ default [] data).
Proof.
  intros Hg Hi Hc. unfold status_payload, write_uint_le.
  change (256 ^ Z.of_nat 2) with 65536. change (256 ^ Z.of_nat 4) with (2 ^ 32).
  rewrite !(proj2 (Z.leb_le 0 _)), !(proj2 (Z.ltb_lt _ _)) by lia. cbn [andb].
  destruct data as [d|]; cbn -[Z_byte Z.div]; reflexivity.
Qed.
End client.

(** ** Concrete runs

    Two nodes, with the toy primitives, on the datagrams they send each other. *)

Lemma carries_of `{Spake} w p payload m :
  from_option payload (Throw TypeError) (pases w !! p) = AppPayload m →
  is_ret (AppPayload m) = true → carries w p payload m.
Proof.
  destruct (pases w !! p) as [s|] eqn:Hs; cbn; intros Hp Hr; [|by rewrite <- Hp in Hr].
  destruct (AppPayload m) as [b|] eqn:Hb; [|done]. by exists s, b.
Qed.

Lemma resumes_of `{Aead} `{Kdf} `{Spake} seed w :
  match jobs w with j :: js => is_ret (run_job j seed (set_jobs js w)).2 | [] => false end = true →
  resumes seed w (resume 0 seed w).1.
Proof.
  destruct (jobs w) as [|j js] eqn:Hj; [done|]. intros Hr. exists j, js. split; [done|].
  unfold resume, mbind, js_bind, js_get, js_put. rewrite Hj.
  cbn [lookup list_lookup delete list_delete]. unfold async.
  by destruct (run_job j seed (set_jobs js w)) as [w' [[]|e]].
Qed.

Lemma run_of {S} (m : js S unit) s : is_ret (m s).2 = true → m s = ((m s).1, Ret tt).
Proof. by destruct (m s) as [s' [[]|e]]. Qed.

Definition demo_node (step : Z) : PaseWorld :=
  PaseWorld_new (ExchangeManager_new (SessionManager_new
    (Runtime (λ i, Z_byte (Z.of_nat i * step + 3)) 0 0 []))).

Definition last_datagram (w : PaseWorld) : buffer :=
  default [] (dg_buf <$> last (sent (sm_runtime (em_sessions (w_em w))))).

Definition message_of (d : outcome dispatch) : Message :=
  match d with
  | Ret (ToExchange _ m) | Ret (ToProtocol _ _ m) => m
  | _ => Message_new None None None
  end.

Definition at_client : PeerInfo := Peer "::1"%string 5540 Client.
Definition at_server : PeerInfo := Peer "::2"%string 50000 Server.

(** What [doPase] does before it starts the handshake. *)
Definition demo_open : js PaseWorld nat :=
  x ← in_em (newExchange None None true);
  e ← in_em (get_exchange x);
  in_em (in_sessions (update_session (ex_session e) (set_Transport Client))) ;;
  in_em (in_sessions (update_session (ex_session e) (set_PeerInfo (Some at_client)))) ;;
  newPase x.

Definition hear (buf : buffer) (peer : PeerInfo) (w : PaseWorld) : ExchangeManager * outcome dispatch :=
  receive buf peer (w_em w).

Definition d_c0 : PaseWorld := (demo_open (demo_node 7)).1.
Definition d_c1 : PaseWorld := (sendPbkdfParamRequest 0 d_c0).1.
Definition d_h1 := hear (last_datagram d_c1) at_server (demo_node 11).
Definition d_s0 : PaseWorld := (newPase 0 (set_em d_h1.1 (demo_node 11))).1.
Definition d_s1 : PaseWorld := (onPbkdfParamRequest 0 (message_of d_h1.2) d_s0).1.
Definition d_h2 := hear (last_datagram d_s1) at_client d_c1.
Definition d_c2 : PaseWorld := (onPbkdfParamResponse 0 (message_of d_h2.2) (set_em d_h2.1 d_c1)).1.
Definition d_c3 : PaseWorld := (resume 0 [] d_c2).1.
Definition d_c4 : PaseWorld := (resume 0 [] d_c3).1.
Definition d_c5 : PaseWorld := (resume 0 (buf_str "client point") d_c4).1.
Definition d_h3 := hear (last_datagram d_c5) at_server d_s1.
Definition d_s2 : PaseWorld := (onPake1 0 (message_of d_h3.2) (set_em d_h3.1 d_s1)).1.
Definition d_s3 : PaseWorld := (resume 0 [] d_s2).1.
Definition d_s4 : PaseWorld := (resume 0 [] d_s3).1.
Definition d_s5 : PaseWorld := (resume 0 (buf_str "server point") d_s4).1.
Definition d_h4 := hear (last_datagram d_s5) at_client d_c5.
Definition d_c6 : PaseWorld := (onPake2 0 (message_of d_h4.2) (set_em d_h4.1 d_c5)).1.
Definition d_h5 := hear (last_datagram d_c6) at_server d_s5.
Definition d_s6 : PaseWorld := (onPake3 0 (message_of d_h5.2) (set_em d_h5.1 d_s5)).1.

Lemma demo_handshake : handshake 0 0 d_c0 d_s0 d_c6 d_s5 (message_of d_h5.2).
Proof.
  apply (Handshake 0 0 d_c0 d_s0 d_c6 d_s5 _ (message_of d_h1.2) (message_of d_h2.2)
    (message_of d_h3.2) (message_of d_h4.2) d_c1 d_c2 d_c3 d_c4 d_c5 d_s1 d_s2 d_s3 d_s4
    [] [] (buf_str "client point") [] [] (buf_str "server point") d_h2.1 d_h3.1 d_h4.1).
  - refine (run_of (sendPbkdfParamRequest 0) d_c0 _). vm_compute. reflexivity.
  - apply carries_of; vm_compute; reflexivity.
  - refine (run_of (onPbkdfParamRequest 0 (message_of d_h1.2)) d_s0 _). vm_compute. reflexivity.
  - apply carries_of; vm_compute; reflexivity.
  - refine (run_of (onPbkdfParamResponse 0 (message_of d_h2.2)) (set_em d_h2.1 d_c1) _).
    vm_compute. reflexivity.
  - refine (resumes_of [] d_c2 _). vm_compute. reflexivity.
  - refine (resumes_of [] d_c3 _). vm_compute. reflexivity.
  - refine (resumes_of (buf_str "client point") d_c4 _). vm_compute. reflexivity.
  - apply carries_of; vm_compute; reflexivity.
  - refine (run_of (onPake1 0 (message_of d_h3.2)) (set_em d_h3.1 d_s1) _).
    vm_compute. reflexivity.
  - refine (resumes_of [] d_s2 _). vm_compute. reflexivity.
  - refine (resumes_of [] d_s3 _). vm_compute. reflexivity.
  - refine (resumes_of (buf_str "server point") d_s4 _). vm_compute. reflexivity.
  - apply carries_of; vm_compute; reflexivity.
  - refine (run_of (onPake2 0 (message_of d_h4.2)) (set_em d_h4.1 d_c5) _).
    vm_compute. reflexivity.
  - apply carries_of; vm_compute; reflexivity.
Qed.

Lemma pase_agreement_witness :
  handshake 0 0 d_c0 d_s0 d_c6 d_s5 (message_of d_h5.2) ∧
  ∃ lc ls xc xs, node_sessions d_c6 = lc ++ [xc] ∧ node_sessions d_s6 = ls ++ [xs] ∧
    cryptoContext xc = cryptoContext xs ∧ _localSessionId xc = _peerSessionId xs.
Proof.
  split; [exact demo_handshake|].
  destruct (pase_agreement (HA := toy_aead) (HK := toy_kdf) (HP := toy_spake) (HL := toy_spake_laws)
              0 0 d_c0 d_s0 d_c6 d_s5 (PaseSession_new 0) (PaseSession_new 0) (message_of d_h5.2))
    as [_ H].
  - reflexivity.
  - reflexivity.
  - reflexivity.
  - reflexivity.
  - reflexivity.
  - split; [reflexivity|]. split; [exists 1000; split; [reflexivity|lia]|].
    exists (js_str "SPAKE2P Key Salt"). split_and!; [reflexivity|vm_compute; reflexivity|].
    vm_compute. discriminate.
  - exact demo_handshake.
  - destruct (H d_h5.1 d_s6) as (lc & ls & xc & xs & H1 & H2 & _ & _ & H3 & _ & H4 & _).
    { refine (run_of (onPake3 0 (message_of d_h5.2)) (set_em d_h5.1 d_s5) _).
      vm_compute. reflexivity. }
    exists lc, ls, xc, xs. split_and!; assumption.
Defined.

Lemma session_needs_confirmation_witness :
  length (node_sessions (onExchangeMessage 0 (message_of d_h5.2) (set_em d_h5.1 d_s5)).1)
    ≠ length (node_sessions (set_em d_h5.1 d_s5)) ∧
  ∃ s, pases (set_em d_h5.1 d_s5) !! 0%nat = Some s.
Proof.
  assert (length (node_sessions (onExchangeMessage 0 (message_of d_h5.2) (set_em d_h5.1 d_s5)).1)
    ≠ length (node_sessions (set_em d_h5.1 d_s5))) as Hne by (vm_compute; discriminate).
  split; [exact Hne|].
  destruct (session_needs_confirmation (HA := toy_aead) (HK := toy_kdf) (HP := toy_spake) 0
              (message_of d_h5.2) (set_em d_h5.1 d_s5)) as [H _].
  destruct (H Hne) as (s & Hs & _). exists s. exact Hs.
Defined.

Definition demo_r : runtime := Runtime (λ _, Byte.x05) 0 0 [].
Definition demo_waiting : PaseWorld :=
  (doPase 5540 "::1" (PaseWorld_new (ExchangeManager_new (SessionManager_new demo_r)))).1.

Lemma pase_times_out_witness :
  ∃ t, (∀ t', (t', 0%nat) ∈ timers demo_waiting ↔ t' = t) ∧
    _state <$> pases (fire_timer t demo_waiting).1 !! 0%nat = Some IDLE.
Proof.
  assert (match pases demo_waiting !! 0%nat with
          | Some s => bool_decide (_state s = IDLE) | None => true end = false) as Hst
    by (vm_compute; reflexivity).
  destruct (pases demo_waiting !! 0%nat) as [s|] eqn:Hs; [|discriminate].
  pose proof (pase_times_out (HA := toy_aead) (HK := toy_kdf) (HP := toy_spake) demo_r
                demo_waiting 0 s
                (rtc_once _ _ (pase_step_shell 5540 "::1"%string _)) Hs) as H.
  rewrite Hst in H. destruct H as (t & H1 & H2 & _). exists t. split; assumption.
Defined.

(** Two second messages with the same point and different confirmations. *)
Definition pake2_of (cB : json) : Message :=
  match (payload ← encode_new (TemplateMsgPasePake2 (JBuf (toy_point (buf_str "server point"))) cB);
         protocol_message Pake2 payload) with
  | Ret m => m
  | Throw _ => Message_new None None None
  end.
Definition payload_of (m : Message) : buffer :=
  match AppPayload m with Ret b => b | Throw _ => [] end.
Definition json_in (m : Message) : json :=
  match decode_json (payload_of m) with Ret j => j | Throw _ => JUndef end.

Lemma client_ignores_confirmation_witness :
  (onPake2 0 (pake2_of (JBuf (alloc 32))) d_c5).2
  = (onPake2 0 (pake2_of (JBuf (buf_str "forged"))) d_c5).2 ∧
  (onPake2 0 (pake2_of (JBuf (alloc 32))) d_c5).2 = Ret tt.
Proof.
  split; [|vm_compute; reflexivity].
  refine (proj1 (client_ignores_confirmation (HA := toy_aead) (HK := toy_kdf) (HP := toy_spake)
    0 d_c5 (pake2_of (JBuf (alloc 32))) (pake2_of (JBuf (buf_str "forged")))
    (payload_of (pake2_of (JBuf (alloc 32)))) (payload_of (pake2_of (JBuf (buf_str "forged"))))
    (json_in (pake2_of (JBuf (alloc 32)))) (json_in (pake2_of (JBuf (buf_str "forged"))))
    (JBuf (toy_point (buf_str "server point"))) (JBuf (alloc 32)) (JBuf (buf_str "forged"))
    (hex_encode (alloc 32)) (hex_encode (buf_str "forged")) _ _ _ _ _ _ _ _ _ _));
    vm_compute; reflexivity.
Defined.

Lemma status_fields_overlap_witness :
  status_payload 1 0x00010000 0x0003 None
  = Ret (le_bytes 2 0x0003 ++ drop 2 (le_bytes 4 0x00010000) ++ alloc 4 ++ []).
Proof. apply (status_fields_overlap 1 0x00010000 0x0003 None); lia. Defined.
