(* ===== verification/PaseSessions.v ===== *)
(** * The session after a PASE handshake

    What happens to the first message a peer sends on the session that a responder has
    just created for it: the message layer (SecureMessage.v) after the PASE handlers
    (PaseFacts.v). *)
From S2P Require Import Prelude JsNumber JsString TlvType Aead MsgCodec Message MessageTheorems.
From S2P Require Import Runtime SessionCryptoContext Session SessionManager Exchange.
From S2P Require Import ExchangeManager MessagingFacts MessagingTheorems SecureMessage JsValue.
From S2P Require Import Spake Pase PaseFacts PaseInvariant.

(** The key for messages to the responder of every session that the manager makes up. *)
Definition test_i2r : buffer := default [] (test_keys !! kI2RKey).

Lemma is_number_number' z k : is_number (number z) k = (z =? k).
Proof.
  unfold is_number, number. cbn [num_val]. destruct (Z.eqb_spec z k) as [->|H].
  - by rewrite bool_decide_true.
  - apply bool_decide_false. congruence.
Qed.

Section lookup.
Context `{HA : Aead} {HL : AeadLaws HA}.

(** A secure message under an id that no peer has chosen: a session with the test keys
    is made up for it, and if these do not open the message its octets are passed on. *)
Lemma onMessage_made_up (sm : SessionManager) (id ctr flags opcode xid pid : Z)
    (rest buf key : buffer) (peer : PeerInfo) :
  sm_ok 0 sm → getSecureSession id sm = None →
  fits 2 id → id ≠ 0 → fits 4 ctr → blen key = key_size →
  encrypt (secure_message id ctr flags opcode xid pid rest) key = Ret buf →
  decrypt buf test_i2r = Ret None →
  ∃ sm' s', SessionManager_onMessage buf peer sm
    = (sm', Ret (Message_new (Some buf) (Some buf) (Some peer), length (sessions sm))) ∧
    sessions sm' = sessions sm ++ [s'] ∧ cryptoContext s' = Some SessionCryptoContext_new ∧
    getSecureSession id sm' = Some (length (sessions sm)).
Proof.
  intros Hok Hg Hid H0 Hc Hk He Hd.
  destruct (arrives_sealed id ctr flags opcode xid pid rest buf key He Hk) as [[c Hb] _].
  destruct (made_up_spec id sm Hok Hg) as (s & _ & Hok' & Hs & Hg' & _ & Hi & _ & _ & Hcr).
  set (sid := length (sessions sm)) in *. set (sm1 := made_up id sm) in *.
  assert (sessions sm1 !! sid = Some s) as Hlook by (rewrite Hs; by apply list_lookup_middle).
  assert (decryptMessage s (Message_new (Some buf) (Some buf) (Some peer))
          = Ret (Message_new (Some buf) (Some buf) (Some peer))) as Hdm.
  { unfold decryptMessage. erewrite wire_unencrypted by done. cbn [mbind outcome_bind]. rewrite Hi.
    assert (session_key s kI2RKey = Ret test_i2r) as ->
      by (unfold session_key; by rewrite Hcr).
    cbn [mbind outcome_bind Message_new _encrypted]. by rewrite Hd. }
  rewrite (onMessage_unknown id ctr buf c Hb Hid sm peer) by done. fold sm1.
  rewrite (onMessage_found id ctr buf c Hb Hid sm1 sid s peer _ H0 Hg' Hlook Hdm)
    by (done || by eapply wire_counter).
  eexists _, (heard peer ctr _ s). split; [reflexivity|]. split_and!.
  - cbn. rewrite Hs. unfold sid. by rewrite insert_app_r_alt, Nat.sub_diag.
  - exact Hcr.
  - by rewrite (getSecureSession_updated _ _ s).
Qed.
End lookup.

Section pase.
Context `{HA : Aead} {HL : AeadLaws HA} `{HK : Kdf} {HKL : KdfLaws HK} `{HP : Spake}.

(** The lookup of an id in the tables of a manager with one more session. *)
Lemma getSecureSession_grown (sm sm' : SessionManager) (x : Session) (z : Z) :
  sm_ok 0 sm → sm_ok 0 sm' → sessions sm' = sessions sm ++ [x] →
  getSecureSession z sm = None → is_number (_peerSessionId x) z = false →
  getSecureSession z sm' = None.
Proof.
  intros (_ & _ & Hs & _) (_ & _ & Hs' & _) Hl Hz Hx. unfold getSecureSession in *.
  apply fmap_None, list_find_None in Hz. apply fmap_None, list_find_None, Forall_forall.
  rewrite Forall_forall in Hz. intros i (y & Hi & Hsec)%Hs'. unfold peer_id_is.
  rewrite Hi. rewrite Hl in Hi. apply lookup_app_Some in Hi as [Hi|[Hge Hi]].
  - assert (i ∈ _sessionsSecured sm) as Hin by (apply Hs; eauto).
    specialize (Hz _ Hin). unfold peer_id_is in Hz. by rewrite Hi in Hz.
  - apply list_lookup_singleton_Some in Hi as [_ <-]. by rewrite Hx.
Qed.

Lemma getSecureSession_appended (sm sm' : SessionManager) (x : Session) (z : Z) :
  sm_ok 0 sm → sm_ok 0 sm' → sessions sm' = sessions sm ++ [x] → _secure x = true →
  getSecureSession z sm = None → is_number (_peerSessionId x) z = true →
  getSecureSession z sm' = Some (length (sessions sm)).
Proof.
  intros (_ & _ & Hs & _) (_ & _ & Hs' & _) Hl Hsec Hz Hx. unfold getSecureSession in *.
  apply fmap_None, list_find_None in Hz. rewrite Forall_forall in Hz.
  assert (sessions sm' !! length (sessions sm) = Some x) as Hlook
    by (rewrite Hl; by apply list_lookup_middle).
  destruct (list_find _ _) as [[k i]|] eqn:Hf; cbn.
  - f_equal. apply list_find_Some in Hf as (Hk & Hp & _).
    apply list_elem_of_lookup_2, Hs' in Hk as (y & Hy & Hys). rewrite Hl in Hy.
    apply lookup_app_Some in Hy as [Hy|[Hge Hy]]; [|apply list_lookup_singleton_Some in Hy; lia].
    assert (i ∈ _sessionsSecured sm) as Hin by (apply Hs; eauto).
    exfalso. apply (Hz _ Hin). unfold peer_id_is in *.
    rewrite Hl, lookup_app_l in Hp by (by eapply lookup_lt_Some). by rewrite Hy in *.
  - apply list_find_None in Hf. rewrite Forall_forall in Hf.
    exfalso. apply (Hf (length (sessions sm))); [apply Hs'; by exists x|].
    unfold peer_id_is. by rewrite Hlook, Hx.
Qed.

(** The session of a responder, and what its own id finds afterwards. *)
Lemma responder_session p w w' s local remote :
  em_ok (w_em w) → pases w !! p = Some s → _localRole s = RESPONDER →
  _responderSessionId s = number local → _initiatorSessionId s = number remote →
  getSecureSession local (em_sessions (w_em w)) = None → local ≠ remote →
  createSecureSession p w = (w', Ret tt) →
  ∃ x key, node_sessions w' = node_sessions w ++ [x] ∧ _localSessionId x = number local ∧
    session_key x kI2RKey = Ret key ∧ blen key = key_size ∧ em_ok (w_em w') ∧
    getSecureSession local (em_sessions (w_em w')) = None.
Proof.
  intros Hem Hs Hrole Hlocal Hremote Hg Hne H.
  assert (em_ok (w_em w')) as Hem'.
  { pose proof (keeps_createSecureSession em_ok kept_session kept_keys p w Hem) as Hk.
    by rewrite H in Hk. }
  destruct (createSecureSession_spec p w w' s Hs H)
    as (k & x & _ & (b & Hb & Hl & Hr & _ & Hc & _) & Hn & _).
  rewrite Hrole in Hl, Hr. exists x, (subarray b 0 16). split_and!; try done.
  - congruence.
  - unfold session_key. by rewrite Hc.
  - destruct (initFromSecret_keys (Ke k) [] (buf_str "SessionKeys")
      (CryptoContext [subarray b 0 16; subarray b 16 32; subarray_from b 32]))
      as (_ & _ & _ & Hf & _); [|by inversion Hf].
    unfold initFromSecret. by rewrite Hb.
  - destruct Hem as [Hsm _], Hem' as [Hsm' _].
    eapply getSecureSession_grown; [exact Hsm|done|exact Hn|done|].
    rewrite Hr, Hremote, is_number_number'. by apply Z.eqb_neq.
Qed.

(** When the two ends have chosen the same id, the peer's messages find the session, and
    it has the keys of the handshake. *)
Lemma pase_session_found p w w' s id :
  em_ok (w_em w) → pases w !! p = Some s →
  _responderSessionId s = number id → _initiatorSessionId s = number id →
  getSecureSession id (em_sessions (w_em w)) = None →
  createSecureSession p w = (w', Ret tt) →
  ∃ x i2r r2i, em_ok (w_em w') ∧ node_sessions w' = node_sessions w ++ [x] ∧
    getSecureSession id (em_sessions (w_em w')) = Some (length (node_sessions w)) ∧
    _initiator x = false ∧ fits 4 (_messageCounter x) ∧
    session_key x kI2RKey = Ret i2r ∧ session_key x kR2IKey = Ret r2i ∧
    blen i2r = key_size ∧ blen r2i = key_size.
Proof.
  intros Hem Hs Hr Hi Hg H.
  assert (em_ok (w_em w')) as Hem'.
  { pose proof (keeps_createSecureSession em_ok kept_session kept_keys p w Hem) as Hk.
    by rewrite H in Hk. }
  destruct (createSecureSession_spec p w w' s Hs H)
    as (k & x & _ & (b & Hb & _ & Hp & Hsec & Hc & Hini & Hctr) & Hn & _).
  destruct (initFromSecret_keys (Ke k) [] (buf_str "SessionKeys")
      (CryptoContext [subarray b 0 16; subarray b 16 32; subarray_from b 32]))
      as (_ & _ & _ & Hf & _); [unfold initFromSecret; by rewrite Hb|].
  inversion Hf as [|? ? Hk1 Hf1]; subst. inversion Hf1 as [|? ? Hk2 _]; subst.
  exists x, (subarray b 0 16), (subarray b 16 32). split_and!; try done.
  - destruct Hem as [Hsm _], Hem' as [Hsm' _].
    eapply getSecureSession_appended; [exact Hsm|done|exact Hn|done|done|].
    rewrite Hp. destruct (_localRole s); rewrite ?Hr, ?Hi, is_number_number'; apply Z.eqb_refl.
  - unfold fits. change (256 ^ Z.of_nat 4) with (2 ^ 32). lia.
  - unfold session_key. by rewrite Hc.
  - unfold session_key. by rewrite Hc.
Qed.

(** C24: a responder's session is not found by the messages of its peer.  When the ids
    of the two ends differ, the first message that the peer sends on the session which the
    handshake has set up, with the right id and the right key, is not deciphered with
    that key: the manager makes up another session under the id, with the test keys,
    and, unless these happen to open the message, hands its ciphertext to the
    exchanges as plaintext.  From then on the id belongs to the made-up session. *)
Theorem pase_session_missed (p : nat) (w w' : PaseWorld) (s : PaseSession) (local remote : Z) :
  em_ok (w_em w) → pases w !! p = Some s → _localRole s = RESPONDER →
  _responderSessionId s = number local → _initiatorSessionId s = number remote →
  0 < local < 65536 → local ≠ remote →
  getSecureSession local (em_sessions (w_em w)) = None →
  createSecureSession p w = (w', Ret tt) →
  ∃ x key, node_sessions w' = node_sessions w ++ [x] ∧ _localSessionId x = number local ∧
    session_key x kI2RKey = Ret key ∧
    ∀ ctr flags opcode xid pid rest buf peer,
      fits 4 ctr → encrypt (secure_message local ctr flags opcode xid pid rest) key = Ret buf →
      decrypt buf test_i2r = Ret None →
      ∃ sm y, SessionManager_onMessage buf peer (em_sessions (w_em w'))
        = (sm, Ret (Message_new (Some buf) (Some buf) (Some peer), S (length (node_sessions w)))) ∧
        sessions sm = node_sessions w ++ [x; y] ∧
        cryptoContext y = Some SessionCryptoContext_new ∧
        getSecureSession local sm = Some (S (length (node_sessions w))).
Proof.
  intros Hem Hs Hrole Hlocal Hremote Hrange Hne Hg H.
  destruct (responder_session p w w' s local remote Hem Hs Hrole Hlocal Hremote Hg Hne H)
    as (x & key & Hn & Hl & Hk & Hsize & [Hsm _] & Hg').
  exists x, key. split_and!; try done. intros ctr flags opcode xid pid rest buf peer Hc He Hd.
  destruct (onMessage_made_up (em_sessions (w_em w')) local ctr flags opcode xid pid rest buf key peer)
    as (sm & y & Hm & Hy & Hcr & Hfound); try done; [|lia|].
  { unfold fits. change (256 ^ Z.of_nat 2) with 65536. lia. }
  assert (length (sessions (em_sessions (w_em w'))) = S (length (node_sessions w))) as Hlen
    by (unfold node_sessions in *; by rewrite Hn, length_app, Nat.add_1_r).
  rewrite Hlen in *. exists sm, y. split_and!; [done| |done|done].
  unfold node_sessions in *. by rewrite Hy, Hn, <- app_assoc.
Qed.
End pase.

(** A responder with id 1 whose peer chose id 2. *)
Definition resp_session : PaseSession (H1 := toy_spake) :=
  set_secret (Some (ToyKeys (buf_str "shared secret") None))
    (set_initiatorSessionId (number 2) (set_responderSessionId (number 1)
      (set_localRole RESPONDER (PaseSession_new 0)))).
Definition resp_world : PaseWorld (H1 := toy_spake) :=
  set_pases [resp_session]
    (PaseWorld_new (ExchangeManager_new (SessionManager_new (Runtime (λ _, Byte.x05) 0 0 [])))).
Definition resp_after : PaseWorld (H1 := toy_spake) :=
  (createSecureSession (H0 := toy_kdf) 0 resp_world).1.
Definition resp_key : buffer :=
  match node_sessions resp_after !! 0%nat with
  | Some x => match session_key x kI2RKey with Ret k => k | Throw _ => [] end
  | None => []
  end.
Definition resp_peer : PeerInfo := Peer "::1" 5540 Server.
Definition resp_buf : buffer :=
  match encrypt (secure_message 1 7 5 34 9 1 []) resp_key with Ret b => b | Throw _ => [] end.

Lemma pase_session_missed_witness :
  ∃ sm y, SessionManager_onMessage resp_buf (resp_peer) (em_sessions (w_em resp_after))
    = (sm, Ret (Message_new (Some resp_buf) (Some resp_buf) (Some (resp_peer)), 1%nat)) ∧
    cryptoContext y = Some SessionCryptoContext_new ∧ getSecureSession 1 sm = Some 1%nat.
Proof.
  destruct (pase_session_missed (HA := toy_aead) (HK := toy_kdf) (HP := toy_spake) 0 resp_world
              resp_after resp_session 1 2) as (x & key & Hn & _ & Hk & H).
  1-9: first [exact (em_new_ok _) | reflexivity | lia].
  assert (Some key = Some resp_key) as [= ->].
  { unfold resp_key. rewrite Hn. cbn. rewrite Hk. reflexivity. }
  destruct (H 7 5 34 9 1 [] resp_buf (resp_peer)) as (sm & y & H1 & _ & H2 & H3).
  - unfold fits. lia.
  - vm_compute. reflexivity.
  - vm_compute. reflexivity.
  - exists sm, y. split_and!; assumption.
Defined.
