(* ===== verification/ImConst.v ===== *)
(** * Interaction Model: constants, templates and paths

    ImConst.js, AttributePath.js and CommandPath.js, and the tag maps at the top of
    ImCommandMixin.js and ImReadMixin.js (src/protocols/interaction_model/).  The
    ids in a path are what a peer's TLV holds, so they are JavaScript values. *)
From S2P Require Import Prelude JsNumber JsString JsValue TlvType TlvWriter TlvReader.

Definition IM_PROTOCOL_ID : Z := 0x0001.
Definition IM_VERSION : Z := 1.
Definition RESP_MAX : Z := 900.
Definition ImRevision : Z := 0xFF.

(** [ImConst.Command] *)
Definition StatusResponse : Z := 1.
Definition ReadRequest : Z := 2.
Definition SubscribeRequest : Z := 3.
Definition SubscribeResponse : Z := 4.
Definition ReportData : Z := 5.
Definition WriteRequest : Z := 6.
Definition WriteResponse : Z := 7.
Definition CommandRequest : Z := 8.
Definition CommandResponse : Z := 9.
Definition TimedRequest : Z := 10.

(** ** Message templates

    The parameter of [TemplateMsgStatusResponse] is [params] and its body reads
    [param]. *)
Definition TemplateMsgStatusResponse (status : json) : outcome json := Throw ReferenceError.
Definition TemplateMsgReadRequest : json := struct_of [].
Definition TemplateMsgReportData : json := struct_of [].
Definition TemplateMsgSubscribeRequest : json := struct_of [].
Definition TemplateMsgSubscribeResponse (subscriptionId minInterval maxInterval : json) : json :=
  struct_of [field 0 "uint32" subscriptionId; field 1 "uint16" minInterval;
             field 2 "uint16" maxInterval].
Definition TemplateMsgWriteRequest (status : json) : json := struct_of [field 0 "uint32" status].
Definition TemplateMsgWriteResponse : json := struct_of [].
Definition TemplateMsgTimedRequest (contextTag : json) : json :=
  struct_of [field 0 "uint16" contextTag].

(** [ImConst.CommandDataIB] and [CommandStatusIB]: the same object, with a
    placeholder for the data. *)
Definition ConstCommandDataIB (endpointId clusterId commandId : json) : json :=
  struct_of
    [field 0 "list" (JArr [field 0 "uint16" endpointId; field 1 "uint16" clusterId;
                           field 2 "uint16" commandId]);
     field 1 "struct" (JStr (js_str "{{commandData}}"))].
Definition ConstCommandStatusIB := ConstCommandDataIB.

(** ** Tag maps *)

Definition StatusIB_Status : Z := 0.
Definition CommandDataIB_Path : Z := 0.
Definition CommandDataIB_Data : Z := 1.
Definition CommandStatusIB_Path : Z := 0.
Definition CommandStatusIB_Status : Z := 1.
Definition InvokeResponseIB_Data : Z := 0.
Definition InvokeResponseIB_Status : Z := 1.
Definition InvokeRequest_SuppressResponse : Z := 0.
Definition InvokeRequest_TimedRequest : Z := 1.
Definition InvokeRequest_CommandList : Z := 2.
Definition InvokeResponse_SuppressResponse : Z := 0.
Definition InvokeResponse_CommandResponses : Z := 1.
Definition ReadRequest_AttributeRequests : Z := 0.
Definition ReportData_AttributeReports : Z := 1.

(** ** Attribute paths *)

Record AttributePath : Type := APath {
  EnableTagCompression : json;
  NodeId : json;
  a_EndpointId : json;
  a_ClusterId : json;
  AttributeId : json }.

(** [new AttributePath(pathTlv)] *)
Definition AttributePath_new (pathTlv : json) : outcome AttributePath :=
  if nullish pathTlv then Ret (APath JUndef JUndef JUndef JUndef JUndef)
  else
    compression ← findTag pathTlv 0;
    node ← findTag pathTlv 1;
    endpoint ← findTag pathTlv 2;
    cluster ← findTag pathTlv 3;
    attribute ← findTag pathTlv 4;
    Ret (APath compression node endpoint cluster attribute).

(** [path.EndpointId = v] *)
Definition set_a_EndpointId (v : json) (p : AttributePath) : AttributePath :=
  APath (EnableTagCompression p) (NodeId p) v (a_ClusterId p) (AttributeId p).

Definition put_id (v : json) (t : Z) : js buffer unit :=
  if nullish v then mret tt else putUnsignedInt v (Some t) None.

(** [serialize(writer, tag)] *)
Definition AttributePath_serialize (p : AttributePath) (t : Z) : js buffer unit :=
  putListStart (Some t) None ;;
  put_id (NodeId p) 1 ;;
  put_id (a_EndpointId p) 2 ;;
  put_id (a_ClusterId p) 3 ;;
  put_id (AttributeId p) 4 ;;
  putContainerEnd.

(** ** Command paths *)

Record CommandPath : Type := CPath {
  c_EndpointId : json;
  c_ClusterId : json;
  CommandId : json }.

(** [new CommandPath(pathTlv)] *)
Definition CommandPath_new (pathTlv : json) : outcome CommandPath :=
  if nullish pathTlv then Ret (CPath JUndef JUndef JUndef)
  else
    endpoint ← findTag pathTlv 0;
    cluster ← findTag pathTlv 1;
    command ← findTag pathTlv 2;
    Ret (CPath endpoint cluster command).

(** [path.CommandId = v] *)
Definition set_CommandId (v : json) (p : CommandPath) : CommandPath :=
  CPath (c_EndpointId p) (c_ClusterId p) v.

(** [serialize(writer, tag)]: it writes [this.AttributeId], which a command path
    does not have, for the command id. *)
Definition CommandPath_serialize (p : CommandPath) (t : Z) : js buffer unit :=
  putListStart (Some t) None ;;
  put_id (c_EndpointId p) 0 ;;
  put_id (c_ClusterId p) 1 ;;
  (if nullish (CommandId p) then mret tt else putUnsignedInt JUndef (Some 2) None) ;;
  putContainerEnd.

(** [template(tag)] *)
Definition CommandPath_template (p : CommandPath) (t : Z) : json :=
  field t "list" (JArr [field 0 "uint16" (c_EndpointId p); field 1 "uint16" (c_ClusterId p);
                        field 2 "uint16" (CommandId p)]).
