(* ===== verification/ImCommand.v ===== *)
(** * Interaction Model: answering commands

    The sending half of ImCommandMixin.js: what the clusters call to answer a
    command.  The state is the exchange manager, and an answer goes out on the
    exchange the command came in on. *)
From S2P Require Import Prelude JsNumber JsString JsValue TlvType TlvWriter Aead Message.
From S2P Require Import Session SessionManager Exchange ExchangeManager ImConst.

(** [new Message()] with the protocol id, the opcode and the payload. *)
Definition im_message (opcode : Z) (payload : buffer) : outcome Message :=
  msg ← set_ProtocolId IM_PROTOCOL_ID (Message_new None None None);
  msg ← set_ProtocolOpcode opcode msg;
  Ret (set_AppPayload payload msg).

(** The frame both response templates share: one entry of an InvokeResponseMessage. *)
Definition invoke_response (suppressResponse : json) (t : Z) (ib : list json) : json :=
  struct_of
    [field InvokeResponse_SuppressResponse "boolean" suppressResponse;
     field InvokeResponse_CommandResponses "array" (JArr [struct_of [field t "struct" (JArr ib)]]);
     field ImRevision "uint8" (number IM_VERSION)].

(** [TemplateMsgCommandResponseStatus(params)]: it reads [params.supressedResponse],
    which no caller sets. *)
Definition TemplateMsgCommandResponseStatus (supressedResponse : json) (commandPath : CommandPath)
    (commandStatus : json) : json :=
  invoke_response supressedResponse InvokeResponseIB_Status
    [CommandPath_template commandPath CommandStatusIB_Path;
     field CommandStatusIB_Status "struct"
       (JArr [JObj (Entry (Some StatusIB_Status) None None commandStatus None)])].

(** [TemplateMsgCommandResponseData(params)] *)
Definition TemplateMsgCommandResponseData (suppressResponse : json) (commandPath : CommandPath)
    (commandData : list json) : json :=
  invoke_response suppressResponse InvokeResponseIB_Data
    [CommandPath_template commandPath CommandDataIB_Path;
     field CommandDataIB_Data "struct" (JArr commandData)].

Section crypto.
Context `{Aead}.

(** A message of this protocol on an exchange. *)
Definition im_send (exchange : nat) (opcode : Z) (payload : buffer) : js ExchangeManager unit :=
  msg ← js_lift (im_message opcode payload);
  send_on exchange msg.

(** [sendInvokeCommandResponseRaw(exchange, commandPayload)] *)
Definition sendInvokeCommandResponseRaw (exchange : nat) (commandPayload : buffer)
    : js ExchangeManager unit :=
  im_send exchange CommandResponse commandPayload.

(** Encode, print for the trace, send. *)
Definition send_response (exchange : nat) (j : json) : js ExchangeManager unit :=
  payload ← js_lift (encode_new j);
  _ ← js_lift (stringify j);
  sendInvokeCommandResponseRaw exchange payload.

(** [sendInvokeCommandResponseStatus(exchange, commandPath, statusCode)] *)
Definition sendInvokeCommandResponseStatus (exchange : nat) (commandPath : CommandPath)
    (statusCode : Z) : js ExchangeManager unit :=
  send_response exchange
    (TemplateMsgCommandResponseStatus JUndef commandPath (number statusCode)).

(** [sendInvokeCommandResponseData(exchange, commandPath, commandData)] *)
Definition sendInvokeCommandResponseData (exchange : nat) (commandPath : CommandPath)
    (commandData : list json) : js ExchangeManager unit :=
  send_response exchange (TemplateMsgCommandResponseData (JBool false) commandPath commandData).
End crypto.
