(* ===== verification/Clusters.v ===== *)
(** * The clusters: data

    The attribute tables and command templates of the four clusters the node
    serves (src/clusters/).  Every attribute is [readonly] and [nosubscribe]; one
    without a ["value"] has [undefined] for it. *)
From S2P Require Import Prelude JsNumber JsString JsValue TlvType.

Record Attribute : Type := Attr {
  attr_name : string;
  attr_type : string;
  attr_nullable : bool;
  attr_nosubscribe : bool;
  attr_readonly : bool;
  attr_value : json }.

Definition attribute (name ty : string) (v : json) : Attribute := Attr name ty false true true v.
Definition nullable_attribute (name ty : string) (v : json) : Attribute :=
  Attr name ty true true true v.

(** ** ClusterBasicServer (ClusterBasicServer.js) *)

Module ClusterBasicServer.

(** [Command] *)
Definition Basic_Command : table Z :=
  [("MfgSpecificPing", 0)]%string.

(** [Attribute] *)
Definition Basic_Attribute : table Z :=
  [("DataModelRevision", 0); ("VendorName", 1); ("VendorID", 2); ("ProductName", 3);
   ("ProductID", 4); ("NodeLabel", 5); ("Location", 6); ("HardwareVersion", 7);
   ("HardwareVersionString", 8); ("SoftwareVersion", 9); ("SoftwareVersionString", 10);
   ("ManufacturingDate", 11); ("PartNumber", 12); ("ProductURL", 13); ("ProductLabel", 14);
   ("SerialNumber", 15); ("LocalConfigDisabled", 16); ("Reachable", 17); ("UniqueID", 18);
   ("CapabilityMinima", 19); ("GeneratedCommandList", 65528); ("AcceptedCommandList", 65529);
   ("AttributeList", 65531); ("FeatureMap", 65532); ("ClusterRevision", 65533)]%string.

(** [this._attributes] *)
Definition Basic_attributes : table Attribute :=
  [("0", attribute "DataModelRevision" "int16u" JUndef);
   ("1", attribute "VendorName" "char_string" JUndef);
   ("2", attribute "VendorID" "vendor_id" (number 0xFFF1));
   ("3", attribute "ProductName" "char_string" JUndef);
   ("4", attribute "ProductID" "int16u" (number 0x8001));
   ("5", attribute "NodeLabel" "char_string" JUndef);
   ("6", attribute "Location" "char_string" JUndef);
   ("7", attribute "HardwareVersion" "int16u" JUndef);
   ("8", attribute "HardwareVersionString" "char_string" JUndef);
   ("9", attribute "SoftwareVersion" "int32u" JUndef);
   ("10", attribute "SoftwareVersionString" "char_string" JUndef);
   ("11", attribute "ManufacturingDate" "char_string" JUndef);
   ("12", attribute "PartNumber" "char_string" JUndef);
   ("13", attribute "ProductURL" "long_char_string" JUndef);
   ("14", attribute "ProductLabel" "char_string" JUndef);
   ("15", attribute "SerialNumber" "char_string" JUndef);
   ("16", attribute "LocalConfigDisabled" "boolean" JUndef);
   ("17", attribute "Reachable" "boolean" JUndef);
   ("18", attribute "UniqueID" "char_string" JUndef);
   ("19", attribute "CapabilityMinima" "CapabilityMinimaStruct" JUndef);
   ("65528", attribute "GeneratedCommandList" "array" JUndef);
   ("65529", attribute "AcceptedCommandList" "array" JUndef);
   ("65531", attribute "AttributeList" "array" JUndef);
   ("65532", attribute "FeatureMap" "bitmap32" JUndef);
   ("65533", attribute "ClusterRevision" "int16u" JUndef)]%string.

(** Command templates *)
Definition TemplateCommandMfgSpecificPing : list json := [].

End ClusterBasicServer.

(** ** ClusterGeneralCommissioningServer (ClusterGeneralCommissioningServer.js) *)

Module ClusterGeneralCommissioningServer.

(** [Command] *)
Definition GeneralCommissioning_Command : table Z :=
  [("ArmFailSafe", 0); ("ArmFailSafeResponse", 1); ("SetRegulatoryConfig", 2);
   ("SetRegulatoryConfigResponse", 3); ("CommissioningComplete", 4);
   ("CommissioningCompleteResponse", 5)]%string.

(** [Attribute] *)
Definition GeneralCommissioning_Attribute : table Z :=
  [("Breadcrumb", 0); ("BasicCommissioningInfo", 1); ("RegulatoryConfig", 2);
   ("LocationCapability", 3); ("SupportsConcurrentConnection", 4);
   ("GeneratedCommandList", 65528); ("AcceptedCommandList", 65529); ("AttributeList", 65531);
   ("FeatureMap", 65532); ("ClusterRevision", 65533)]%string.

(** The value of [BasicCommissioningInfo]: fail-safe expiry length and its maximum. *)
Definition basicCommissioningInfo : json :=
  JObj (Entry None (Some "struct"%string) None
    (JArr [JObj (Entry (Some 0) None None (number 60) None);
           JObj (Entry (Some 1) None None (number 900) None)]) None).

(** [this._attributes] *)
Definition GeneralCommissioning_attributes : table Attribute :=
  [("0", attribute "Breadcrumb" "int64u" (number 0));
   ("1", attribute "BasicCommissioningInfo" "BasicCommissioningInfo" basicCommissioningInfo);
   ("2", attribute "RegulatoryConfig" "RegulatoryLocationType" (number 0));
   ("3", attribute "LocationCapability" "RegulatoryLocationType" (number 2));
   ("4", attribute "SupportsConcurrentConnection" "boolean" JUndef);
   ("65528", attribute "GeneratedCommandList" "array" JUndef);
   ("65529", attribute "AcceptedCommandList" "array" JUndef);
   ("65531", attribute "AttributeList" "array" JUndef);
   ("65532", attribute "FeatureMap" "bitmap32" (number 0));
   ("65533", attribute "ClusterRevision" "int16u" (number 0))]%string.

(** Command templates *)
Definition TemplateCommandArmFailSafe (ExpiryLengthSeconds Breadcrumb : json) : list json :=
  [field 0 "uint16_t" ExpiryLengthSeconds;
   field 1 "uint64_t" Breadcrumb].

Definition TemplateCommandArmFailSafeResponse (ErrorCode DebugText : json) : list json :=
  [field 0 "uint8_t" ErrorCode;
   field 1 "string" DebugText].

Definition TemplateCommandSetRegulatoryConfig (NewRegulatoryConfig CountryCode Breadcrumb : json)
    : list json :=
  [field 0 "uint8_t" NewRegulatoryConfig;
   field 1 "string" CountryCode;
   field 2 "uint64_t" Breadcrumb].

Definition TemplateCommandSetRegulatoryConfigResponse (ErrorCode DebugText : json)
    : list json :=
  [field 0 "uint8_t" ErrorCode;
   field 1 "string" DebugText].

Definition TemplateCommandCommissioningComplete : list json := [].

Definition TemplateCommandCommissioningCompleteResponse (ErrorCode DebugText : json)
    : list json :=
  [field 0 "uint8_t" ErrorCode;
   field 1 "string" DebugText].

End ClusterGeneralCommissioningServer.

(** ** ClusterNetworkCommissioningServer (ClusterNetworkCommissioningServer.js) *)

Module ClusterNetworkCommissioningServer.

(** [Command] *)
Definition NetworkCommissioning_Command : table Z :=
  [("ScanNetworks", 0); ("ScanNetworksResponse", 1); ("AddOrUpdateWiFiNetwork", 2);
   ("AddOrUpdateThreadNetwork", 3); ("RemoveNetwork", 4); ("NetworkConfigResponse", 5);
   ("ConnectNetwork", 6); ("ConnectNetworkResponse", 7); ("ReorderNetwork", 8)]%string.

(** [Attribute] *)
Definition NetworkCommissioning_Attribute : table Z :=
  [("MaxNetworks", 0); ("Networks", 1); ("ScanMaxTimeSeconds", 2);
   ("ConnectMaxTimeSeconds", 3); ("InterfaceEnabled", 4); ("LastNetworkingStatus", 5);
   ("LastNetworkID", 6); ("LastConnectErrorValue", 7); ("GeneratedCommandList", 65528);
   ("AcceptedCommandList", 65529); ("AttributeList", 65531); ("FeatureMap", 65532);
   ("ClusterRevision", 65533)]%string.

(** [this._attributes] *)
Definition NetworkCommissioning_attributes : table Attribute :=
  [("0", attribute "MaxNetworks" "int8u" JUndef);
   ("1", attribute "Networks" "array" JUndef);
   ("2", attribute "ScanMaxTimeSeconds" "int8u" JUndef);
   ("3", attribute "ConnectMaxTimeSeconds" "int8u" (number 0));
   ("4", attribute "InterfaceEnabled" "boolean" JUndef);
   ("5", nullable_attribute "LastNetworkingStatus" "NetworkCommissioningStatus" JUndef);
   ("6", nullable_attribute "LastNetworkID" "octet_string" JUndef);
   ("7", nullable_attribute "LastConnectErrorValue" "int32s" JUndef);
   ("65528", attribute "GeneratedCommandList" "array" JUndef);
   ("65529", attribute "AcceptedCommandList" "array" JUndef);
   ("65531", attribute "AttributeList" "array" JUndef);
   ("65532", attribute "FeatureMap" "bitmap32" (number 4));
   ("65533", attribute "ClusterRevision" "int16u" JUndef)]%string.

(** Command templates *)
Definition TemplateCommandScanNetworks (Ssid Breadcrumb : json) : list json :=
  [field 0 "chip::ByteSpan" Ssid;
   field 1 "uint64_t" Breadcrumb].

Definition TemplateCommandScanNetworksResponse (NetworkingStatus DebugText : json)
    : list json :=
  [field 0 "uint8_t" NetworkingStatus;
   field 1 "chip::CharSpan" DebugText;
   field 2 "array" (JArr []);
   field 3 "array" (JArr [])].

Definition TemplateCommandAddOrUpdateWiFiNetwork (Ssid Credentials Breadcrumb : json)
    : list json :=
  [field 0 "chip::ByteSpan" Ssid;
   field 1 "chip::ByteSpan" Credentials;
   field 2 "uint64_t" Breadcrumb].

Definition TemplateCommandAddOrUpdateThreadNetwork (OperationalDataset Breadcrumb : json)
    : list json :=
  [field 0 "chip::ByteSpan" OperationalDataset;
   field 1 "uint64_t" Breadcrumb].

Definition TemplateCommandRemoveNetwork (NetworkID Breadcrumb : json) : list json :=
  [field 0 "chip::ByteSpan" NetworkID;
   field 1 "uint64_t" Breadcrumb].

Definition TemplateCommandNetworkConfigResponse (NetworkingStatus DebugText NetworkIndex : json)
    : list json :=
  [field 0 "uint8_t" NetworkingStatus;
   field 1 "chip::CharSpan" DebugText;
   field 2 "uint8_t" NetworkIndex].

Definition TemplateCommandConnectNetwork (NetworkID Breadcrumb : json) : list json :=
  [field 0 "chip::ByteSpan" NetworkID;
   field 1 "uint64_t" Breadcrumb].

Definition TemplateCommandConnectNetworkResponse (NetworkingStatus DebugText ErrorValue : json)
    : list json :=
  [field 0 "uint8_t" NetworkingStatus;
   field 1 "chip::CharSpan" DebugText;
   field 2 "int32_t" ErrorValue].

Definition TemplateCommandReorderNetwork (NetworkID NetworkIndex Breadcrumb : json)
    : list json :=
  [field 0 "chip::ByteSpan" NetworkID;
   field 1 "uint8_t" NetworkIndex;
   field 2 "uint64_t" Breadcrumb].

End ClusterNetworkCommissioningServer.

(** ** ClusterOperationalCredentialsServer (ClusterOperationalCredentialsServer.js) *)

Module ClusterOperationalCredentialsServer.

(** [Command] *)
Definition OperationalCredentials_Command : table Z :=
  [("AttestationRequest", 0); ("AttestationResponse", 1); ("CertificateChainRequest", 2);
   ("CertificateChainResponse", 3); ("CsrRequest", 4); ("CsrResponse", 5); ("AddNoc", 6);
   ("UpdateNoc", 7); ("NocResponse", 8); ("UpdateFabricLabel", 9); ("RemoveFabric", 10);
   ("AddTrustedRootCertificate", 11); ("RemoveTrustedRootCertificate", 12)]%string.

(** [Attribute] *)
Definition OperationalCredentials_Attribute : table Z :=
  [("NOCs", 0); ("Fabrics", 1); ("SupportedFabrics", 2); ("CommissionedFabrics", 3);
   ("TrustedRootCertificates", 4); ("CurrentFabricIndex", 5); ("GeneratedCommandList", 65528);
   ("AcceptedCommandList", 65529); ("AttributeList", 65531); ("FeatureMap", 65532);
   ("ClusterRevision", 65533)]%string.

(** [this._attributes] *)
Definition OperationalCredentials_attributes : table Attribute :=
  [("0", attribute "NOCs" "array" JUndef);
   ("1", attribute "Fabrics" "array" JUndef);
   ("2", attribute "SupportedFabrics" "int8u" JUndef);
   ("3", attribute "CommissionedFabrics" "int8u" JUndef);
   ("4", attribute "TrustedRootCertificates" "array" JUndef);
   ("5", attribute "CurrentFabricIndex" "fabric_idx" JUndef);
   ("65528", attribute "GeneratedCommandList" "array" JUndef);
   ("65529", attribute "AcceptedCommandList" "array" JUndef);
   ("65531", attribute "AttributeList" "array" JUndef);
   ("65532", attribute "FeatureMap" "bitmap32" JUndef);
   ("65533", attribute "ClusterRevision" "int16u" JUndef)]%string.

(** Command templates *)
Definition TemplateCommandAttestationRequest (attestationNonce : json) : list json :=
  [field 0 "Buffer" attestationNonce].

Definition TemplateCommandAttestationResponse (attestationElements attestationSignature : json)
    : list json :=
  [field 0 "Buffer" attestationElements;
   field 1 "Buffer" attestationSignature].

Definition TemplateCommandCertificateChainRequest (certificateType : json) : list json :=
  [field 0 "uint8" certificateType].

Definition TemplateCommandCertificateChainResponse (certificate : json) : list json :=
  [field 0 "Buffer" certificate].

Definition TemplateCommandCsrRequest (csrNonce : json) : list json :=
  [field 0 "Buffer" csrNonce].

Definition TemplateCommandCsrResponse (nocsrElements attestationSignature : json)
    : list json :=
  [field 0 "Buffer" nocsrElements;
   field 1 "Buffer" attestationSignature].

Definition TemplateCommandAddNOC (NOCValue ICACValue IPKValue CaseAdminNode AdminVendorId : json)
    : list json :=
  [field 0 "Buffer" NOCValue;
   field 1 "Buffer" ICACValue;
   field 2 "Buffer" IPKValue;
   field 3 "chip::NodeId" CaseAdminNode;
   field 4 "chip::VendorId" AdminVendorId].

Definition TemplateCommandUpdateNOC (NOCValue ICACValue : json) : list json :=
  [field 0 "Buffer" NOCValue;
   field 1 "Buffer" ICACValue].

Definition TemplateCommandNocResponse (statusCode fabricIndex : json) : list json :=
  [field 0 "uint8" statusCode;
   field 1 "uint8" fabricIndex].

Definition TemplateCommandUpdateFabricLabel (Label : json) : list json :=
  [field 0 "chip::CharSpan" Label].

Definition TemplateCommandRemoveFabric (FabricIndex : json) : list json :=
  [field 0 "chip::FabricIndex" FabricIndex].

Definition TemplateCommandAddTrustedRootCertificate (RootCertificate : json) : list json :=
  [field 0 "Buffer" RootCertificate].

Definition TemplateCommandRemoveTrustedRootCertificate (TrustedRootIdentifier : json)
    : list json :=
  [field 0 "Buffer" TrustedRootIdentifier].

Definition TemplateAttestationElements (certificationDecl attestationNonce timestamp : json)
    : json :=
  struct_of
    [field 1 "Buffer" certificationDecl;
     field 2 "Buffer" attestationNonce;
     field 3 "uint32" timestamp].

Definition TemplateNocsrElements (csr csrNonce : json) : json :=
  struct_of
    [field 1 "Buffer" csr;
     field 2 "Buffer" csrNonce].

End ClusterOperationalCredentialsServer.
