(* ===== verification/ExampleCerts.v ===== *)
(** * Example certificates (src/crypto/ExampleCerts.js)

    The credentials of developer builds, from their hexadecimal literals. *)
From S2P Require Import Prelude JsString.

Definition TEST_PAI_CERTIFICATE : buffer := hex_decode (js_str (
  "308201cb30820171a003020102020856ad8222ad945b64300a06082a8648ce3d0403023030311830" ++
  "1606035504030c0f4d617474657220546573742050414131143012060a2b0601040182a27c02010c" ++
  "04464646313020170d3232303230353030303030305a180f39393939313233313233353935395a30" ++
  "3d3125302306035504030c1c4d6174746572204465762050414920307846464631206e6f20504944" ++
  "31143012060a2b0601040182a27c02010c04464646313059301306072a8648ce3d020106082a8648" ++
  "ce3d03010703420004419a9315c2173e0c8c876d03ccfc944852647f7fec5e5082f4059928eca894" ++
  "c594151309ac631e4cb03392af684b0bafb7e65b3b8162c2f52bf931b8e77aaa82a3663064301206" ++
  "03551d130101ff040830060101ff020100300e0603551d0f0101ff040403020106301d0603551d0e" ++
  "0416041463540e47f64b1c38d13884a462d16c195d8ffb3c301f0603551d230418301680146afd22" ++
  "771f511fecbf1641976710dcdc31a1717e300a06082a8648ce3d0403020348003045022100b2ef27" ++
  "f49ae9b50fb91eeac94c4d0bdbb8d7929c6cb88face529368d12054c0c0220655dc92b86bd909882" ++
  "a6c62177b825d7d05edbe7c22f9fea71220e7ea703f891")%string).

Definition TEST_DAC_CERTIFICATE : buffer := hex_decode (js_str (
  "308201e73082018ea003020102020869cdf10de9e54ed1300a06082a8648ce3d040302303d312530" ++
  "2306035504030c1c4d6174746572204465762050414920307846464631206e6f2050494431143012" ++
  "060a2b0601040182a27c02010c04464646313020170d3232303230353030303030305a180f393939" ++
  "39313233313233353935395a30533125302306035504030c1c4d6174746572204465762044414320" ++
  "3078464646312f30783830303131143012060a2b0601040182a27c02010c04464646313114301206" ++
  "0a2b0601040182a27c02020c04383030313059301306072a8648ce3d020106082a8648ce3d030107" ++
  "03420004463ac69342910a0e5588fc6ff56bb63e62eccecb148f7d4eb03ee552601415767d16a5c6" ++
  "63f793e49123260b8297a7cd7e7cfc7b316b39d98e90d29377738e82a360305e300c0603551d1301" ++
  "01ff04023000300e0603551d0f0101ff040403020780301d0603551d0e0416041488dde7b3003829" ++
  "32cff734c04624810f44168a6f301f0603551d2304183016801463540e47f64b1c38d13884a462d1" ++
  "6c195d8ffb3c300a06082a8648ce3d040302034700304402200127a27b4b44610ee2fcdc4d2b7885" ++
  "563660bc0f76f17219ed6a08dfb2b3c1cd02206b59e0af45f3eb2a85b919d35731528c6028c41523" ++
  "9545e108e4e54e70971353")%string).

Definition TEST_DAC_PRIVKEY : buffer := hex_decode (js_str (
  "aab600ae8ae8aab7d73627c217b7c204709ca6946af5f2f7530833a52b44fbff")%string).

Definition TEST_CERTIFICATION_DECLARATION : buffer := hex_decode (js_str (
  "3082021906092a864886f70d010702a082020a30820206020103310d300b06096086480165030402" ++
  "013082017106092a864886f70d010701a08201620482015e152400012501f1ff3602050080050180" ++
  "050280050380050480050580050680050780050880050980050a80050b80050c80050d80050e8005" ++
  "0f80051080051180051280051380051480051580051680051780051880051980051a80051b80051c" ++
  "80051d80051e80051f80052080052180052280052380052480052580052680052780052880052980" ++
  "052a80052b80052c80052d80052e80052f8005308005318005328005338005348005358005368005" ++
  "3780053880053980053a80053b80053c80053d80053e80053f800540800541800542800543800544" ++
  "80054580054680054780054880054980054a80054b80054c80054d80054e80054f80055080055180" ++
  "055280055380055480055580055680055780055880055980055a80055b80055c80055d80055e8005" ++
  "5f80056080056180056280056380182403162c04135a494732303134325a423333303030332d3234" ++
  "2405002406002507942624080018317d307b020103801462fa823359acfaa9963e1cfa140addf504" ++
  "f37160300b0609608648016503040201300a06082a8648ce3d04030204473045022024e5d1f47a7d" ++
  "7b0d206a26ef699b7c9757b72d469089de3192e678c745e7f60c022100f8aa2fa711fcb79b97e397" ++
  "ceda667bae464e2bd3ffdfc3cced7aa8ca5f4c1a7c")%string).

Definition TEST_PAI_PUBKEY : buffer := hex_decode (js_str (
  "04419a9315c2173e0c8c876d03ccfc944852647f7fec5e5082f4059928eca894c594151309ac631e" ++
  "4cb03392af684b0bafb7e65b3b8162c2f52bf931b8e77aaa82")%string).

Definition TEST_PAI_PRIVKEY : buffer := hex_decode (js_str (
  "c1ab5fe284b4c18940a53161f806944050a1697b71761d385337a8a3cd095c34")%string).

Definition TEST_DAC_PUBKEY : buffer := hex_decode (js_str (
  "04463ac69342910a0e5588fc6ff56bb63e62eccecb148f7d4eb03ee552601415767d16a5c663f793" ++
  "e49123260b8297a7cd7e7cfc7b316b39d98e90d29377738e82")%string).

Definition TEST_DAC_CERTIFICATE_8000 : buffer := hex_decode (js_str (
  "308201e93082018ea0030201020208238a647bbc4c30dd300a06082a8648ce3d040302303d312530" ++
  "2306035504030c1c4d6174746572204465762050414920307846464631206e6f2050494431143012" ++
  "060a2b0601040182a27c02010c04464646313020170d3232303230353030303030305a180f393939" ++
  "39313233313233353935395a30533125302306035504030c1c4d6174746572204465762044414320" ++
  "3078464646312f30783830303031143012060a2b0601040182a27c02010c04464646313114301206" ++
  "0a2b0601040182a27c02020c04383030303059301306072a8648ce3d020106082a8648ce3d030107" ++
  "0342000462db16badea326a6db84814a063fc6c7e9e2b101b721648eba4e5ac840f5da301ee61812" ++
  "4eb4180e2fc3a2047a564ba9bcfa0bf71f60ce8930f1e7f66ec8d728a360305e300c0603551d1301" ++
  "01ff04023000300e0603551d0f0101ff040403020780301d0603551d0e04160414bcf7b007497063" ++
  "606a26be4e087c595687745a5a301f0603551d2304183016801463540e47f64b1c38d13884a462d1" ++
  "6c195d8ffb3c300a06082a8648ce3d0403020349003046022100979711ec9e7618ce41801132c250" ++
  "db707674630cd58c12c6e2315f08d01ee178022100ecfc1306bd2a133d122a278610ea3dca47f05c" ++
  "7a8b805fa71c6ff41538a864c8")%string).

Definition TEST_DAC_PUBKEY_8000 : buffer := hex_decode (js_str (
  "0462db16badea326a6db84814a063fc6c7e9e2b101b721648eba4e5ac840f5da301ee618124eb418" ++
  "0e2fc3a2047a564ba9bcfa0bf71f60ce8930f1e7f66ec8d728")%string).

Definition TEST_DAC_PRIVKEY_8000 : buffer := hex_decode (js_str (
  "cccf9dc7050ef5d90be45707b90e1f875d59be1fa942e8ed2e427203f6c2ee3d")%string).

#[global] Arguments TEST_PAI_CERTIFICATE : simpl never.
#[global] Arguments TEST_DAC_CERTIFICATE : simpl never.
#[global] Arguments TEST_DAC_PRIVKEY : simpl never.
#[global] Arguments TEST_CERTIFICATION_DECLARATION : simpl never.
#[global] Arguments TEST_PAI_PUBKEY : simpl never.
#[global] Arguments TEST_PAI_PRIVKEY : simpl never.
#[global] Arguments TEST_DAC_PUBKEY : simpl never.
#[global] Arguments TEST_DAC_CERTIFICATE_8000 : simpl never.
#[global] Arguments TEST_DAC_PUBKEY_8000 : simpl never.
#[global] Arguments TEST_DAC_PRIVKEY_8000 : simpl never.

(** Each certificate holds the public key it is listed with. *)
Definition contains_at (b part : buffer) (off : Z) : bool :=
  bool_decide (subarray b off (off + blen part) = part).

Lemma certificates_hold_keys :
  contains_at TEST_PAI_CERTIFICATE TEST_PAI_PUBKEY 208 = true ∧
  contains_at TEST_DAC_CERTIFICATE TEST_DAC_PUBKEY 243 = true ∧
  contains_at TEST_DAC_CERTIFICATE_8000 TEST_DAC_PUBKEY_8000 243 = true.
Proof. vm_compute. auto. Qed.
