(* ===== verification/Ecdsa.v ===== *)
(** * Signatures (src/crypto/Crypto.js)

    [Crypto.Sign], [Crypto.Verify] and the generation of keys and of a signing
    request call the packages elliptic and @peculiar/x509 and Node's [crypto]; the
    class collects what they use of them. *)
From S2P Require Import Prelude Aead.

(** [ec_sign] is [ec.keyFromPrivate(key).sign(digest)], with [r] and [s] as
    [toBuffer()] writes them; [ec_verify] is [keyFromPublic(...).verify(...)].
    [ec_private] is the private key Node generates from fresh octets and [ec_public]
    the public key that belongs to a private one; [ec_csr] is what the generator of
    PKCS#10 requests answers, also from fresh octets.  [ec_valid] tells the octets that
    are a private key of the curve: Node refuses others. *)
Class Ecdsa : Type := {
  ec_sign (digest privateKey : buffer) : outcome (buffer * buffer);
  ec_verify (digest r s publicKey : buffer) : bool;
  ec_private (seed : buffer) : buffer;
  ec_public (privateKey : buffer) : buffer;
  ec_valid (privateKey : buffer) : bool;
  ec_csr (privateKey seed : buffer) : outcome buffer }.

(** A signature verifies under the public key that belongs to the private one; both
    its numbers are below 2^256 and written without leading zeros. *)
Class EcdsaLaws (E : Ecdsa) : Prop := {
  sign_size digest key r s :
    ec_sign digest key = Ret (r, s) → blen r <= 32 ∧ blen s <= 32;
  sign_verify digest key r s :
    ec_sign digest key = Ret (r, s) → ec_verify digest r s (ec_public key) = true }.

Section crypto.
Context `{Kdf} `{Ecdsa}.

(** [Crypto.GenerateKeyPair()], the private and the public key *)
Definition GenerateKeyPair (seed : buffer) : buffer * buffer :=
  (ec_private seed, ec_public (ec_private seed)).

(** [Crypto.PublicFromPrivate(privateKey)] *)
Definition PublicFromPrivate (privateKey : buffer) : outcome buffer :=
  if ec_valid privateKey then Ret (ec_public privateKey)
  else Throw (Thrown "Private key is not valid for specified curve.").

(** [Crypto.Sign(message, privateKey)] *)
Definition Sign (message privateKey : buffer) : outcome buffer :=
  '(r, s) ← ec_sign (sha256 message) privateKey;
  Ret (r ++ s).

(** [Crypto.Verify(message, signature, publicKey)] *)
Definition Verify (message signature publicKey : buffer) : bool :=
  ec_verify (sha256 message) (subarray signature 0 32) (subarray_from signature 32) publicKey.

(** A signature that [Sign] makes is accepted when it is 64 octets long. *)
Lemma Verify_Sign `{!EcdsaLaws _} message key signature :
  Sign message key = Ret signature → blen signature = 64 →
  Verify message signature (ec_public key) = true.
Proof.
  unfold Sign. intros HS Hl. apply outcome_bind_Ret in HS as ([r s] & Hrs & HS).
  apply Ret_inj in HS. subst signature. destruct (sign_size _ _ _ _ Hrs).
  rewrite blen_app in Hl. assert (blen r = 32) as Hr by lia. unfold Verify.
  rewrite <- Hr, subarray_app_l, subarray_from_app. by apply sign_verify.
Qed.
End crypto.

(** ** A toy instance: a signature is the digest itself, and the key, padded. *)
#[export] Instance toy_ecdsa : Ecdsa := {|
  ec_sign digest key := Ret (le_bytes 32 (le_Z digest), le_bytes 32 (le_Z key));
  ec_verify digest r s key := bool_decide (r = le_bytes 32 (le_Z digest) ∧ s = key);
  ec_private seed := seed;
  ec_public key := le_bytes 32 (le_Z key);
  ec_valid key := (0 <? blen key) && (blen key <=? 32);
  ec_csr key seed := Ret (key ++ seed) |}.

#[export] Instance toy_ecdsa_laws : EcdsaLaws toy_ecdsa.
Proof.
  split.
  - intros * H. apply Ret_inj in H. simplify_eq. rewrite !blen_le_bytes. lia.
  - intros * H. apply Ret_inj in H. simplify_eq. by apply bool_decide_eq_true.
Qed.
