(* ===== verification/Keys.v ===== *)
(** * Derived keys (src/crypto/)

    [Crypto.GenerateCompressedFabricId], GroupKey.js, and the key derivation of
    CaseSession.js, all instances of HKDF. *)
From S2P Require Import Prelude JsString Aead Session.

Definition CRYPTO_SYMMETRIC_KEY_LENGTH_BYTES : Z := 16.
Definition kSaltZero : buffer := [].
Definition kGroupKeyInfo : buffer := buf_str "GroupKey v1.0".
Definition kGroupKeyHashInfo : buffer := buf_str "GroupKeyHash".
Definition kPrivacyKeyInfo : buffer := buf_str "PrivacyKey".

Section keys.
Context `{HK : Kdf}.

(** [Crypto.Kdf(inputKey, salt, info, length)] *)
Definition Crypto_Kdf (inputKey salt info : buffer) (length : Z) : outcome buffer :=
  hkdf inputKey salt info length.

(** [Crypto.GenerateCompressedFabricId(rootPublicKey, fabricId)]: the id is written as 8
    octets, big-endian, which throws when it does not fit. *)
Definition GenerateCompressedFabricId (rootPublicKey : buffer) (fabricId : Z) : outcome buffer :=
  if (0 <=? fabricId) && (fabricId <? 2 ^ 64)
  then Crypto_Kdf rootPublicKey (be_bytes 8 fabricId) (buf_str "CompressedFabric") 8
  else Throw RangeError.

(** [GroupKey.DeriveGroupKey], [DeriveGroupKeyHash], [DerivePrivacyKey] *)
Definition DeriveGroupKey (epochKey compressedFabricId : buffer) : outcome buffer :=
  Crypto_Kdf epochKey compressedFabricId kGroupKeyInfo CRYPTO_SYMMETRIC_KEY_LENGTH_BYTES.

Definition DeriveGroupKeyHash (groupKey : buffer) : outcome buffer :=
  groupKeyHash ← Crypto_Kdf groupKey kSaltZero kGroupKeyHashInfo CRYPTO_SYMMETRIC_KEY_LENGTH_BYTES;
  Ret (subarray groupKeyHash 0 2).

Definition DerivePrivacyKey (groupKey : buffer) : outcome buffer :=
  Crypto_Kdf groupKey kSaltZero kPrivacyKeyInfo CRYPTO_SYMMETRIC_KEY_LENGTH_BYTES.

(** [CaseSession]: nothing assigns [#secret], so it is [undefined]. *)
Record CaseSession : Type := Case { case_secret : option buffer }.
Definition CaseSession_new : CaseSession := Case None.

Definition initCaseSession (c : CaseSession) (session : Session) : outcome Session :=
  secret ← from_option Ret (Throw TypeError) (case_secret c);
  Session_initFromSecret secret [] (buf_str "SessionResumptionKeys") session.

Definition resumeCaseSession (c : CaseSession) (session : Session) : outcome Session :=
  initCaseSession c session.

(** ** Sizes *)

Context `{!KdfLaws HK}.

(** A group session id is a 16-bit number, a key has 16 octets. *)
Lemma derived_sizes epochKey fabric groupKey key hash privacy :
  DeriveGroupKey epochKey fabric = Ret key → DeriveGroupKeyHash groupKey = Ret hash →
  DerivePrivacyKey groupKey = Ret privacy →
  blen key = key_size ∧ blen hash = 2 ∧ 0 <= be_Z hash < 2 ^ 16 ∧ blen privacy = key_size.
Proof.
  unfold DeriveGroupKey, DeriveGroupKeyHash, DerivePrivacyKey, Crypto_Kdf.
  intros H1 H2 H3. apply hkdf_length in H1; [|done]. apply hkdf_length in H3; [|done].
  apply outcome_bind_Ret in H2 as (b & Hb & H2). apply hkdf_length in Hb; [|done]. inv_ret.
  assert (blen (subarray b 0 2) = 2) as Hl.
  { rewrite subarray_nonneg by lia. unfold blen in *. rewrite length_take, length_drop.
    unfold CRYPTO_SYMMETRIC_KEY_LENGTH_BYTES in Hb. lia. }
  split_and!; [done|done| | |done].
  - unfold be_Z. apply le_Z_bound.
  - unfold be_Z. pose proof (le_Z_bound (reverse (subarray b 0 2))) as Hr.
    unfold blen in *. rewrite length_reverse in Hr. rewrite Hl in Hr. lia.
Qed.

(** A fabric id out of 64 bits is refused; others give 8 octets. *)
Lemma compressed_fabric_size root fabricId b :
  GenerateCompressedFabricId root fabricId = Ret b → 0 <= fabricId < 2 ^ 64 ∧ blen b = 8.
Proof.
  unfold GenerateCompressedFabricId. destruct (_ && _) eqn:E; [|done]. zbool.
  intros H. split; [lia|]. by eapply hkdf_length; [|exact H].
Qed.

(** A CASE session cannot be initialised. *)
Lemma case_throws s : initCaseSession CaseSession_new s = Throw TypeError.
Proof. done. Qed.
End keys.
