(* ===== verification/Certificate.v ===== *)
(** * Certificates (src/crypto/Certificate.js, src/crypto/CertificateTlv.js)

    Matter keeps certificates as TLV; [CertificateTlv.decode] reads the fields of one
    by name and hands them to @peculiar/x509, which builds the X.509 certificate.  That
    package and the key import of WebCrypto are the class [X509].  The awaits of
    [decode] separate steps of which only the last one changes the object, so it is one
    computation here. *)
From S2P Require Import Prelude JsNumber JsString TlvType TlvReader TlvParser JsValue SessionManager.

(** ** The parameters of the packages *)

Inductive x509_name : Type :=
  | NameText (s : jsstr)
  | NameJson (l : list (string * jsstr)).

(** A [Date]: milliseconds since 1970, or [None] for an invalid one. *)
Abbreviation date := (option Z).

(** The argument of [X509CertificateGenerator.create]. *)
Record create_params (PK SK E : Type) : Type := CreateParams {
  p_version : option Z;
  p_serialNumber : jsstr;
  p_subject : x509_name;
  p_issuer : x509_name;
  p_notBefore : date;
  p_notAfter : date;
  p_extensions : option (list E);
  p_publicKey : PK;
  p_signingKey : option SK;
  p_signature : json }.
Arguments CreateParams {PK SK E}.

(** The argument of [X509CertificateGenerator.createSelfSigned]. *)
Record self_params (K : Type) : Type := SelfParams {
  sp_version : Z;
  sp_serialNumber : jsstr;
  sp_keys : K;
  sp_name : jsstr;
  sp_notBefore : date;
  sp_notAfter : date }.
Arguments SelfParams {K}.

(** The signing algorithm is [Certificate.Algorithm] in every call; the random numbers
    of a call are its [seed]. *)
Class X509 : Type := {
  public_key : Type;
  private_key : Type;
  extension : Type;
  certificate : Type;
  Version_v3 : Z;
  generateKey (seed : buffer) : outcome (public_key * private_key);
  importKey (raw : json) : outcome public_key;
  exportKey_spki (k : public_key) : outcome buffer;
  BasicConstraintsExtension (isCa pathLength : json) (critical : bool) : outcome extension;
  KeyUsagesExtension (usages : json) (critical : bool) : outcome extension;
  ExtendedKeyUsageExtension (usages : list (option string)) (critical : bool) : outcome extension;
  SubjectKeyIdentifierExtension (id : jsstr) : outcome extension;
  AuthorityKeyIdentifierExtension (id : jsstr) : outcome extension;
  X509_create (p : create_params public_key private_key extension) (seed : buffer)
    : outcome certificate;
  X509_createSelfSigned (p : self_params (public_key * private_key)) (seed : buffer)
    : outcome certificate;
  X509_fromPem (pem : jsstr) : outcome certificate;
  (* JSON.stringify(c), c.subjectName.asn[0][0].value, c.subjectName.asn[1][0].value and
     c.publicKey.rawData.toString('hex'), which are logged *)
  logged_fields (c : certificate) : outcome unit;
  subject (c : certificate) : jsstr }.

(** ** Text *)

(** [z.toString(16)] *)
Definition hex_length (z : Z) : nat := S (Z.to_nat (Z.log2 z / 4)).

Fixpoint hex_digits (n : nat) (z : Z) : jsstr :=
  match n with
  | O => []
  | S n' => hex_digits n' (z `div` 16) ++ [hex_digit (z `mod` 16)]
  end.

Definition toString_16 (z : Z) : jsstr :=
  if z <? 0 then js_str "-" ++ hex_digits (hex_length (- z)) (- z) else hex_digits (hex_length z) z.

(** [s.toUpperCase()] of ASCII text *)
Definition upper_unit (u : Z) : Z := if (97 <=? u) && (u <=? 122) then u - 32 else u.
Definition toUpperCase (s : jsstr) : outcome jsstr :=
  if forallb (λ u, u <? 0x80) s then Ret (upper_unit <$> s) else Throw OutOfModel.

(** [v.toString(16)]: a Buffer knows no encoding of this name; the argument is a
    radix to numbers and nothing to other values. *)
Definition js_toString_16 (v : json) : outcome jsstr :=
  match v with
  | JUndef | JNull | JBuf _ => Throw TypeError
  | JBig z => Ret (toString_16 z)
  | JNum n =>
      match num_val n with
      | VInt z => if Z.abs z <? 2 ^ 53 then Ret (toString_16 z) else Throw OutOfModel
      | VNaN => Ret (js_str "NaN")
      | VInf neg => Ret (js_str (if neg then "-Infinity" else "Infinity"))
      | VBetween _ => Throw OutOfModel
      end
  | JBool _ | JStr _ | JArr _ | JObj _ => js_toString_hex v
  end.

(** [v.toString(16).toUpperCase()] *)
Definition upper_hex (v : json) : outcome jsstr := s ← js_toString_16 v; toUpperCase s.

(** [b.toString('base64')] *)
Definition base64_digit (d : Z) : Z :=
  if d <? 26 then 65 + d else if d <? 52 then 71 + d else if d <? 62 then d - 4
  else if d =? 62 then 43 else 47.

Fixpoint base64_encode (b : buffer) : jsstr :=
  match b with
  | [] => []
  | [x] => [base64_digit (byte_Z x `div` 4); base64_digit (byte_Z x `mod` 4 * 16); 61; 61]
  | [x; y] => [base64_digit (byte_Z x `div` 4);
               base64_digit (byte_Z x `mod` 4 * 16 + byte_Z y `div` 16);
               base64_digit (byte_Z y `mod` 16 * 4); 61]
  | x :: y :: z :: b' =>
      base64_digit (byte_Z x `div` 4)
        :: base64_digit (byte_Z x `mod` 4 * 16 + byte_Z y `div` 16)
        :: base64_digit (byte_Z y `mod` 16 * 4 + byte_Z z `div` 64)
        :: base64_digit (byte_Z z `mod` 64) :: base64_encode b'
  end.

(** [s.match(/.{0,64}/g)] of a text on one line: pieces of 64 units, and the empty
    match at its end. *)
Fixpoint match_lines (fuel : nat) (s : jsstr) : list jsstr :=
  match fuel, s with
  | S fuel', _ :: _ => take 64 s :: match_lines fuel' (drop 64 s)
  | _, _ => [[]]
  end.

(** [lines.join(sep)] *)
Fixpoint join (sep : jsstr) (l : list jsstr) : jsstr :=
  match l with
  | [] => []
  | [s] => s
  | s :: l' => s ++ sep ++ join sep l'
  end.

Module Certificate.

(** [epochSec(tSec)]: [Date] is invalid beyond 8.64e15 milliseconds, which is
    within the integers a Number holds exactly. *)
Definition epochMs : Z := 946684800000.
Definition new_Date (ms : Z) : date :=
  if Z.abs ms <=? 8640000000000000 then Some ms else None.

Definition epochSec (tSec : json) : outcome date :=
  match tSec with
  | JUndef | JObj _ => Ret None
  | JNull => Ret (new_Date epochMs)
  | JBool b => Ret (new_Date (epochMs + (if b then 1000 else 0)))
  | JNum n =>
      match num_val n with
      | VInt z => Ret (new_Date (epochMs + z * 1000))
      | VNaN | VInf _ => Ret None
      | VBetween _ => Throw OutOfModel
      end
  | JBig _ => Throw TypeError
  | JStr _ | JBuf _ | JArr _ => Throw OutOfModel
  end.

Definition pem_prefix : jsstr := js_str "-----BEGIN CERTIFICATE-----" ++ [10].
Definition pem_postfix : jsstr := js_str "-----END CERTIFICATE-----".

(** [DerToPem(der)] *)
Definition DerToPem (der : buffer) : jsstr :=
  let b64encoded := base64_encode der in
  pem_prefix ++ join [10] (match_lines (length b64encoded) b64encoded) ++ pem_postfix.

Section x509.
Context `{X : X509}.

Definition Certificate_GenerateKeyPair (seed : buffer) : outcome (public_key * private_key) :=
  generateKey seed.

(** 24 * 60 * 60 * 1000 * 365 *)
Definition year : Z := 31536000000.

(** [GeneratePAA(caKeys, entityName, lifetime)] at the time [now]; an argument that is
    [None] takes its default. *)
Definition GeneratePAA (now : Z) (caKeys : public_key * private_key)
    (entityName : option jsstr) (lifetime : option Z) (seed : buffer) : outcome certificate :=
  X509_createSelfSigned
    (SelfParams 2 (js_str "01") caKeys (default (js_str "CN=Matter Test PAA") entityName)
       (new_Date now) (new_Date (now + default 10 lifetime * year)))
    seed.

(** The certificate of a leaf, as [GeneratePAI] and [GenerateDAC] create it. *)
Definition generate_leaf (name : string) (now : Z) (leafKeys : public_key * private_key)
    (caCert : certificate) (caKeys : public_key * private_key) (entityName : option jsstr)
    (lifetime : option Z) (seed : buffer) : outcome certificate :=
  X509_create
    (CreateParams None (js_str "02") (NameText (default (js_str name) entityName))
       (NameText (subject caCert)) (new_Date now) (new_Date (now + default 10 lifetime * year))
       None leafKeys.1 (Some caKeys.2) JUndef)
    seed.

Definition GeneratePAI := generate_leaf "CN=Matter Test PAI".
Definition GenerateDAC := generate_leaf "CN=Matter Test DAC".

Definition fromPem (pem : jsstr) : outcome certificate := X509_fromPem pem.
End x509.
End Certificate.

Module CertificateTlv.
Import Certificate.

Definition MapTagStructure : gmap Z string :=
  list_to_map [(1, "SerialNumber"); (2, "SignatureAlgorithm"); (3, "Issuer"); (4, "NotBefore");
               (5, "NotAfter"); (6, "Subject"); (7, "PublicKeyAlgorithm");
               (8, "EllipticCurveId"); (9, "PublicKey"); (10, "Extensions");
               (11, "Signature")]%string.

Definition MapTagExtensions : gmap Z string :=
  list_to_map [(1, "BasicConstraints"); (2, "KeyUsage"); (3, "ExtendedKeyUsage");
               (4, "SubjectKeyId"); (5, "AuthorityKeyId"); (6, "FutureExtension")]%string.

Definition MapTagBasicConstraints : gmap Z string :=
  list_to_map [(1, "IsCa"); (2, "PathLength")]%string.

Definition MapTagDn : gmap Z string :=
  list_to_map [(1, "CommonName"); (2, "Surname"); (3, "SerialNumber"); (4, "CountryName");
               (5, "LocalityName"); (6, "StateOrProvinceName"); (7, "OrgName");
               (8, "OrgUnitName"); (9, "Title"); (10, "Name"); (11, "GivenName");
               (12, "Initials"); (13, "GenQualifier"); (14, "DnQualifier"); (15, "Pseudonym");
               (16, "DomainComponent"); (17, "NodeId"); (18, "FirmwareSigningId");
               (19, "IcacId"); (20, "RcacId"); (21, "FabricId"); (22, "NocCat")]%string.

Definition MapTagDnToOid : table string :=
  [("NodeId", "1.3.6.1.4.1.37244.1.1"); ("FirmwareSigningId", "1.3.6.1.4.1.37244.1.2");
   ("IcacId", "1.3.6.1.4.1.37244.1.3"); ("RcacId", "1.3.6.1.4.1.37244.1.4");
   ("FabricId", "1.3.6.1.4.1.37244.1.5"); ("NocCat", "1.3.6.1.4.1.37244.1.6")]%string.

Definition MapTagExtendedKeyUsage : table string :=
  [("1", "1.3.6.1.5.5.7.3.1"); ("2", "1.3.6.1.5.5.7.3.2"); ("3", "1.3.6.1.5.5.7.3.3");
   ("4", "1.3.6.1.5.5.7.3.4"); ("5", "1.3.6.1.5.5.7.3.5"); ("6", "1.3.6.1.5.5.7.3.6")]%string.

(** [Object.keys(v)] and the [v[k]] of its callback: an array, a Buffer and a string
    have their indices, a number and a boolean have none. *)
Definition js_elements (v : json) : outcome (list json) :=
  match v with
  | JUndef | JNull => Throw TypeError
  | JBool _ | JNum _ | JBig _ => Ret []
  | JStr s => Ret ((λ u, JStr [u]) <$> s)
  | JBuf b => Ret ((λ x, JNum (NInt (byte_Z x))) <$> b)
  | JArr l => Ret l
  | JObj _ => Throw OutOfModel
  end.

Section x509.
Context `{X : X509}.

(** [decodeExtensions(fieldsTlv)] *)
Definition decodeExtensions (fieldsTlv : json) : outcome (list extension) :=
  extensionsTlv ← get fieldsTlv "Extensions";
  extensionsTlv ← mapFields extensionsTlv MapTagExtensions;
  basicConstraints ← get extensionsTlv "BasicConstraints";
  basicConstraints ← mapFields basicConstraints MapTagBasicConstraints;
  isCa ← get basicConstraints "IsCa";
  pathLength ← get basicConstraints "PathLength";
  keyUsage ← get extensionsTlv "KeyUsage";
  extendedKeyUsage ← get extensionsTlv "ExtendedKeyUsage";
  usages ← js_elements extendedKeyUsage;
  usages ← mapM (λ u, v ← js_value u; lookup_property MapTagExtendedKeyUsage v) usages;
  subjectKeyId ← get extensionsTlv "SubjectKeyId";
  authorityKeyId ← get extensionsTlv "AuthorityKeyId";
  e1 ← BasicConstraintsExtension isCa pathLength true;
  e2 ← KeyUsagesExtension keyUsage true;
  e3 ← ExtendedKeyUsageExtension usages true;
  id ← js_toString_hex subjectKeyId;
  e4 ← SubjectKeyIdentifierExtension id;
  id ← js_toString_hex authorityKeyId;
  e5 ← AuthorityKeyIdentifierExtension id;
  Ret [e1; e2; e3; e4; e5].

(** [new CertificateTlv(tlv)]; [_cert] is set by [decode]. *)
Record CertificateTlv : Type := CertTlv { _tlv : buffer; _cert : option certificate }.
Definition CertificateTlv_new (tlv : buffer) : CertificateTlv := CertTlv tlv None.

(** The text of the attribute [name] of a mapped distinguished name. *)
Definition attribute_hex (dn : json) (name : string) : outcome jsstr :=
  v ← get dn name; upper_hex v.

(** [decode()], up to the assignment of its result.  The certificate comes with its
    signature, so that no random numbers are drawn. *)
Definition certificate_of_tlv (tlv : buffer) : outcome certificate :=
  tlv ← decode_json tlv;
  e ← js_index tlv 0;
  fields ← js_value e;
  fields ← mapFields fields MapTagStructure;
  serialNumber ← get fields "SerialNumber";
  signatureAlgorithm ← get fields "SignatureAlgorithm";
  subjectDn ← get fields "Subject";
  subjectDn ← mapFields subjectDn MapTagDn;
  nodeIdHex ← attribute_hex subjectDn "NodeId";
  fabricIdHex ← attribute_hex subjectDn "FabricId";
  issuer ← get fields "Issuer";
  issuer ← mapFields issuer MapTagDn;
  icacIdHex ← attribute_hex issuer "IcacId";
  notAfter ← get fields "NotAfter";
  notBefore ← get fields "NotBefore";
  signature ← get fields "Signature";
  publicKeyRaw ← get fields "PublicKey";
  publicKeyAlgorithm ← get fields "PublicKeyAlgorithm";
  ellipticCurveId ← get fields "EllipticCurveId";
  extensions ← get fields "Extensions";
  if negb (is_number signatureAlgorithm 1)
  then Throw (Thrown "ERROR: SignatureAlgorithm is not 1") else
  extensions ← decodeExtensions fields;
  publicKey ← importKey publicKeyRaw;
  publicKeySpki ← exportKey_spki publicKey;
  serialNumber ← js_toString_hex serialNumber;
  notBefore ← epochSec notBefore;
  notAfter ← epochSec notAfter;
  X509_create
    (CreateParams (Some Version_v3) serialNumber
       (NameJson [("1.3.6.1.4.1.37244.1.1"%string, nodeIdHex);
                  ("1.3.6.1.4.1.37244.1.5"%string, fabricIdHex)])
       (NameJson [("1.3.6.1.4.1.37244.1.3"%string, icacIdHex)])
       notBefore notAfter (Some extensions) publicKey None signature)
    [].

Definition CertificateTlv_decode : js CertificateTlv certificate :=
  this ← js_get;
  cert ← js_lift (certificate_of_tlv (_tlv this));
  js_put (CertTlv (_tlv this) (Some cert)) ;;
  mret cert.
End x509.
End CertificateTlv.

(** ** The constants of the format (src/crypto/ChipCert.js) *)
Module ChipCert.

Definition kMaxCHIPCertLength : Z := 400.
Definition kMaxDERCertLength : Z := 600.
Definition kNullCertTime : Z := 0.

Definition TlvTagStructure : table Z :=
  [("SerialNumber", 1); ("SignatureAlgorithm", 2); ("Issuer", 3); ("NotBefore", 4);
   ("NotAfter", 5); ("Subject", 6); ("PublicKeyAlgorithm", 7); ("EllipticCurveId", 8);
   ("PublicKey", 9); ("Extensions", 10); ("Signature", 11)]%string.

Definition TlvTagExtensions : table Z :=
  [("BasicConstraints", 1); ("KeyUsage", 2); ("ExtendedKeyUsage", 3); ("SubjectKeyId", 4);
   ("AuthorityKeyId", 5); ("FutureExtension", 6)]%string.

Definition TlvTagDn : table Z :=
  [("CommonName", 1); ("Surname", 2); ("SerialNumber", 3); ("CountryName", 4);
   ("LocalityName", 5); ("StateOrProvinceName", 6); ("OrgName", 7); ("OrgUnitName", 8);
   ("Title", 9); ("Name", 10); ("GivenName", 11); ("Initials", 12); ("GenQualifier", 13);
   ("DnQualifier", 14); ("Pseudonym", 15); ("DomainComponent", 16); ("MatterNodeId", 17);
   ("MatterFirmwareSigningId", 18); ("MatterIcacId", 19); ("MatterRcacId", 20);
   ("MatterFabricId", 21); ("MatterNocCat", 22); ("CommonNamePs", 129); ("SurnamePs", 130);
   ("SerialNumPs", 131); ("CountryNamePs", 132); ("LocalityNamePs", 133);
   ("StateOrProvinceNamePs", 134); ("OrgNamePs", 135); ("OrgUnitNamePs", 136);
   ("TitlePs", 137); ("NamePs", 138); ("GivenNamePs", 139); ("InitialsPs", 140);
   ("GenQualifierPs", 141); ("DnQualifierPs", 143); ("PseudonymOs", 144)]%string.

Definition TlvTagBasicConstraints : table Z :=
  [("kTag_BasicConstraints_IsCA", 1);
   ("kTag_BasicConstraints_PathLenConstraint", 2)]%string.

Definition CertType : table Z :=
  [("kCertType_NotSpecified", 0x00); ("kCertType_Root", 0x01); ("kCertType_ICA", 0x02);
   ("kCertType_Node", 0x03); ("kCertType_FirmwareSigning", 0x04)]%string.

Definition KeyPurposeFlags : table Z :=
  [("kServerAuth", 0x01); ("kClientAuth", 0x02); ("kCodeSigning", 0x04);
   ("kEmailProtection", 0x08); ("kTimeStamping", 0x10); ("kOCSPSigning", 0x20)]%string.

Definition KeyUsageFlags : table Z :=
  [("kDigitalSignature", 0x0001); ("kNonRepudiation", 0x0002);
   ("kKeyEncipherment", 0x0004); ("kDataEncipherment", 0x0008); ("kKeyAgreement", 0x0010);
   ("kKeyCertSign", 0x0020); ("kCRLSign", 0x0040); ("kEncipherOnly", 0x0080);
   ("kDecipherOnly", 0x0100)]%string.

Definition CertFlags : table Z :=
  [("kExtPresent_BasicConstraints", 0x0001); ("kExtPresent_KeyUsage", 0x0002);
   ("kExtPresent_ExtendedKeyUsage", 0x0004); ("kExtPresent_SubjectKeyId", 0x0008);
   ("kExtPresent_AuthKeyId", 0x0010); ("kExtPresent_FutureIsCritical", 0x0020);
   ("kPathLenConstraintPresent", 0x0040); ("kIsCA", 0x0080); ("kIsTrustAnchor", 0x0100);
   ("kTBSHashPresent", 0x0200)]%string.

Definition CertDecodeFlags : table Z :=
  [("kGenerateTBSHash", 0x01); ("kIsTrustAnchor", 0x02)]%string.
End ChipCert.

(** ** A toy package, which keeps what it is given *)

Inductive toy_extension : Type :=
  | ToyBasicConstraints (isCa pathLength : json)
  | ToyKeyUsages (usages : json)
  | ToyExtendedKeyUsage (usages : list (option string))
  | ToySubjectKeyIdentifier (id : jsstr)
  | ToyAuthorityKeyIdentifier (id : jsstr).

Definition toy_certificate : Type :=
  create_params json unit toy_extension + self_params (json * unit).

Definition toy_subject (c : toy_certificate) : jsstr :=
  match c with
  | inl p => match p_subject _ _ _ p with NameText s => s | NameJson _ => [] end
  | inr p => sp_name _ p
  end.

#[export] Instance toy_x509 : X509 := {|
  public_key := json;
  private_key := unit;
  extension := toy_extension;
  certificate := toy_certificate;
  Version_v3 := 2;
  generateKey seed := Ret (JBuf seed, tt);
  importKey raw := match raw with JBuf _ => Ret raw | _ => Throw TypeError end;
  exportKey_spki k := match k with JBuf b => Ret b | _ => Throw TypeError end;
  BasicConstraintsExtension isCa pathLength _ := Ret (ToyBasicConstraints isCa pathLength);
  KeyUsagesExtension usages _ := Ret (ToyKeyUsages usages);
  ExtendedKeyUsageExtension usages _ := Ret (ToyExtendedKeyUsage usages);
  SubjectKeyIdentifierExtension id := Ret (ToySubjectKeyIdentifier id);
  AuthorityKeyIdentifierExtension id := Ret (ToyAuthorityKeyIdentifier id);
  X509_create p _ := Ret (inl p);
  X509_createSelfSigned p _ := Ret (inr p);
  X509_fromPem _ := Throw OutOfModel;
  logged_fields _ := Ret tt;
  subject := toy_subject |}.
