(* ===== verification/ClusterServers.v ===== *)
(** * The clusters: command handlers

    [onCommand] and the handlers of the four cluster classes (src/clusters/).  A
    handler gets the exchange of the message ([msg.Exchange]), the message and the
    command path, and reads the command's data again from the message.  A handler
    writes the id of the response into the path it was given; the path is not used
    after it, so it is passed as a value.

    [sendCsrResponse] is asynchronous: what follows its [await] is a pending job.
    [proccessNoc] is too, but its awaits are followed by nothing but logging. *)
From S2P Require Import Prelude JsNumber JsString JsValue TlvType TlvWriter TlvReader Aead Message.
From S2P Require Import Runtime SessionCryptoContext Session SessionManager Exchange ExchangeManager.
From S2P Require Import ImConst ImCommand Clusters ExampleCerts Ecdsa Certificate.
Import ClusterGeneralCommissioningServer ClusterOperationalCredentialsServer.

(** The local variables of [sendCsrResponse] at its [await]. *)
Record csr_job : Type := CsrJob {
  cj_exchange : nat;
  cj_path : CommandPath;
  cj_nonce : json;
  cj_privateKey : buffer }.

(** The exchange manager, [theNode.Store.DaPrivateKey], the jobs that wait for a
    signing request, and the exceptions of asynchronous functions. *)
Record ImWorld : Type := IMW {
  im_em : ExchangeManager;
  DaPrivateKey : option jsstr;
  csr_jobs : list csr_job;
  im_rejections : list js_error }.

Definition set_im_em (m : ExchangeManager) (w : ImWorld) : ImWorld :=
  IMW m (DaPrivateKey w) (csr_jobs w) (im_rejections w).
Definition set_csr_jobs (l : list csr_job) (w : ImWorld) : ImWorld :=
  IMW (im_em w) (DaPrivateKey w) l (im_rejections w).
Definition set_im_rejections (l : list js_error) (w : ImWorld) : ImWorld :=
  IMW (im_em w) (DaPrivateKey w) (csr_jobs w) l.

Definition in_exchanges {A} (m : js ExchangeManager A) : js ImWorld A := zoom im_em set_im_em m.

Definition im_async (m : js ImWorld unit) : js ImWorld unit := λ w,
  match m w with
  | (w', Ret _) => (w', Ret tt)
  | (w', Throw e) => (set_im_rejections (im_rejections w' ++ [e]) w', Ret tt)
  end.

(** [new TlvReader().decode(msg.AppPayload).Json] *)
Definition received_json (msg : Message) : outcome json :=
  payload ← AppPayload msg; decode_json payload.

(** [result[0].value[2].value[0].value[1].value] *)
Definition command_data (result : json) : outcome json :=
  commands ← field_value result 2;
  command ← js_index commands 0;
  parts ← js_value command;
  data ← js_index parts 1;
  js_value data.

(** [v[i].value] *)
Definition argument (v : json) (i : nat) : outcome json := e ← js_index v i; js_value e.

(** [exchange.Session.AttestationChallenge] *)
Definition attestation_challenge (exchange : nat) : js ExchangeManager buffer :=
  e ← get_exchange exchange;
  s ← in_sessions (get_session (ex_session e));
  js_lift (match cryptoContext s with
           | Some c => from_option Ret (Throw TypeError) (AttestationChallenge c)
           | None => Throw TypeError
           end).

Section crypto.
Context `{Aead} `{Kdf} `{Ecdsa} `{X509}.

(** [this._imManager.sendInvokeCommandResponseData(...)] with the response's id. *)
Definition respond (exchange : nat) (path : CommandPath) (command : Z) (data : list json)
    : js ImWorld unit :=
  in_exchanges (sendInvokeCommandResponseData exchange (set_CommandId (number command) path) data).

Definition respond_status (exchange : nat) (path : CommandPath) : js ImWorld unit :=
  in_exchanges (sendInvokeCommandResponseStatus exchange path 0).

(** ** ClusterBasicServer *)

(** [onMfgSpecificPing(msg, commandPath)]: [exchange] is not bound. *)
Definition onMfgSpecificPing (path : CommandPath) : js ImWorld unit := js_throw ReferenceError.

Definition Basic_onCommand (path : CommandPath) : js ImWorld unit :=
  if is_number (CommandId path) 0 then onMfgSpecificPing path else mret tt.

(** ** ClusterGeneralCommissioningServer *)

Definition sendArmFailSafeResponse (exchange : nat) (path : CommandPath) : js ImWorld unit :=
  respond exchange path 1 (TemplateCommandArmFailSafeResponse (number 0) (JStr [])).

Definition sendSetRegulatoryConfigResponse (exchange : nat) (path : CommandPath)
    : js ImWorld unit :=
  respond exchange path 3 (TemplateCommandSetRegulatoryConfigResponse (number 0) (JStr [])).

Definition sendCommissioningCompleteResponse (exchange : nat) (path : CommandPath)
    : js ImWorld unit := respond_status exchange path.

(** [onArmFailSafe], [onSetRegulatoryConfig], [onCommissioningComplete]: they answer,
    whatever the command's data. *)
Definition onArmFailSafe := sendArmFailSafeResponse.
Definition onSetRegulatoryConfig := sendSetRegulatoryConfigResponse.
Definition onCommissioningComplete := sendCommissioningCompleteResponse.

Definition GeneralCommissioning_onCommand (exchange : nat) (path : CommandPath)
    : js ImWorld unit :=
  if is_number (CommandId path) 0 then onArmFailSafe exchange path
  else if is_number (CommandId path) 2 then onSetRegulatoryConfig exchange path
  else if is_number (CommandId path) 4 then onCommissioningComplete exchange path
  else mret tt.

(** ** ClusterNetworkCommissioningServer

    The cases of the [switch] name [ClusterGeneralCommissioningServer], which the
    file does not import, so evaluating the first one throws; its handlers, which
    use an unbound [exchange], are never reached. *)
Definition onScanNetworks (path : CommandPath) : js ImWorld unit := js_throw ReferenceError.
Definition onScanNetworkResponse (path : CommandPath) : js ImWorld unit := js_throw ReferenceError.
Definition onAddOrUpdateWiFiNetwork (path : CommandPath) : js ImWorld unit :=
  js_throw ReferenceError.

Definition NetworkCommissioning_onCommand (path : CommandPath) : js ImWorld unit :=
  js_throw ReferenceError.

(** ** ClusterOperationalCredentialsServer *)

Definition sendCertificateChainResponse (exchange : nat) (path : CommandPath)
    (certificate : buffer) : js ImWorld unit :=
  respond exchange path 3 (TemplateCommandCertificateChainResponse (JBuf certificate)).

Definition onCertificateChainRequest (exchange : nat) (msg : Message) (path : CommandPath)
    : js ImWorld unit :=
  result ← js_lift (received_json msg);
  _ ← js_lift (stringify result);
  data ← js_lift (command_data result);
  certificateType ← js_lift (argument data 0);
  pai ← js_lift (equals_number certificateType 2);
  sendCertificateChainResponse exchange path
    (if pai : bool then TEST_PAI_CERTIFICATE else TEST_DAC_CERTIFICATE).

(** [sendAttestationResponse(exchange, commandPath, attestationNonce)]: the signature
    covers the elements and the session's attestation challenge. *)
Definition sendAttestationResponse (exchange : nat) (path : CommandPath) (nonce : json)
    : js ImWorld unit :=
  elements ← js_lift (encode_new
    (TemplateAttestationElements (JBuf TEST_CERTIFICATION_DECLARATION) nonce (number 0)));
  challenge ← in_exchanges (attestation_challenge exchange);
  signature ← js_lift (Sign (elements ++ challenge) TEST_DAC_PRIVKEY);
  respond exchange path 1 (TemplateCommandAttestationResponse (JBuf elements) (JBuf signature)).

Definition onAttestationRequest (exchange : nat) (msg : Message) (path : CommandPath)
    : js ImWorld unit :=
  result ← js_lift (received_json msg);
  data ← js_lift (command_data result);
  nonce ← js_lift (argument data 0);
  _ ← js_lift (js_toString_hex nonce);
  sendAttestationResponse exchange path nonce.

(** [sendCsrResponse(exchange, commandPath, csrNonce)], up to the [await]: a key
    pair is generated and the signing request is asked for. *)
Definition sendCsrResponse (exchange : nat) (path : CommandPath) (csrNonce : json)
    : js ImWorld unit :=
  seed ← in_exchanges (in_sessions (zoom sm_runtime set_sm_runtime (Random 32)));
  js_modify (λ w, set_csr_jobs (csr_jobs w ++ [CsrJob exchange path csrNonce (GenerateKeyPair seed).1]) w).

(** ... and behind it, once the request [csr] is there. *)
Definition csr_ready (j : csr_job) (csr : buffer) : js ImWorld unit :=
  let csrBuffer := hex_decode (hex_encode csr) in
  elements ← js_lift (encode_new (TemplateNocsrElements (JBuf csrBuffer) (cj_nonce j)));
  challenge ← in_exchanges (attestation_challenge (cj_exchange j));
  w ← js_get;
  key ← js_lift (from_option Ret (Throw TypeError) (DaPrivateKey w));
  signature ← js_lift (Sign (elements ++ challenge) (hex_decode key));
  respond (cj_exchange j) (cj_path j) 5
    (TemplateCommandCsrResponse (JBuf elements) (JBuf signature)).

(** The [i]-th waiting job resumes. *)
Definition resume_csr (i : nat) (seed : buffer) : js ImWorld unit :=
  w ← js_get;
  match csr_jobs w !! i with
  | None => mret tt
  | Some j =>
      js_put (set_csr_jobs (delete i (csr_jobs w)) w) ;;
      im_async (csr ← js_lift (ec_csr (cj_privateKey j) seed); csr_ready j csr)
  end.

Definition onCsrRequest (exchange : nat) (msg : Message) (path : CommandPath) : js ImWorld unit :=
  result ← js_lift (received_json msg);
  data ← js_lift (command_data result);
  csrNonce ← js_lift (argument data 0);
  im_async (sendCsrResponse exchange path csrNonce).

Definition onAddTrustedRootCertificate (exchange : nat) (msg : Message) (path : CommandPath)
    : js ImWorld unit :=
  result ← js_lift (received_json msg);
  data ← js_lift (command_data result);
  rootCaTlv ← js_lift (argument data 0);
  respond_status exchange path.

Definition sendNocResponse (exchange : nat) (path : CommandPath) (statusCode fabricIndex : Z)
    : js ImWorld unit :=
  respond exchange path 8 (TemplateCommandNocResponse (number statusCode) (number fabricIndex)).

(** [proccessNoc(nocTlv)], which logs the certificate.  What is no Buffer has no
    octets to read, or none that [readUInt8] is a method of: it is a TypeError. *)
Definition proccessNoc (nocTlv : json) : outcome unit :=
  match nocTlv with
  | JBuf tlv => noc ← CertificateTlv.certificate_of_tlv tlv; logged_fields noc
  | _ => Throw TypeError
  end.

(** [processRootCa(rootCaTlv)], which nothing calls: [CertificateTlv] has no method
    [toPem]. *)
Definition processRootCa (rootCaTlv : json) : outcome unit :=
  _ ← js_toString_hex rootCaTlv;
  match rootCaTlv with
  | JBuf tlv => cert ← CertificateTlv.certificate_of_tlv tlv; Throw TypeError
  | _ => Throw TypeError
  end.

(** [onAddNoc(msg, commandPath)]: the admin vendor id is read from index 3, as the
    admin subject is. *)
Definition onAddNoc (exchange : nat) (msg : Message) (path : CommandPath) : js ImWorld unit :=
  result ← js_lift (received_json msg);
  data ← js_lift (command_data result);
  nocTlv ← js_lift (argument data 0);
  icac ← js_lift (argument data 1);
  ipk ← js_lift (argument data 2);
  adminSubjectId ← js_lift (argument data 3);
  adminVendorId ← js_lift (argument data 3);
  _ ← js_lift (js_toString_hex nocTlv);
  sendNocResponse exchange path 0 1 ;;
  im_async (js_lift (proccessNoc nocTlv)).

Definition OperationalCredentials_onCommand (exchange : nat) (msg : Message)
    (path : CommandPath) : js ImWorld unit :=
  if is_number (CommandId path) 0 then onAttestationRequest exchange msg path
  else if is_number (CommandId path) 2 then onCertificateChainRequest exchange msg path
  else if is_number (CommandId path) 4 then onCsrRequest exchange msg path
  else if is_number (CommandId path) 11 then onAddTrustedRootCertificate exchange msg path
  else if is_number (CommandId path) 6 then onAddNoc exchange msg path
  else mret tt.
End crypto.
