(* ===== verification/InteractionModel.v ===== *)
(** * The Interaction Model (src/protocols/interaction_model/)

    InteractionModel.js with the mixins ImReadMixin, ImWriteMixin, ImCommandMixin
    and ImSubscribeMixin.  An exception of a handler leaves the protocol; what the
    handler did before stays done. *)
From S2P Require Import Prelude JsNumber JsString JsValue TlvType TlvWriter TlvReader Aead Message.
From S2P Require Import Runtime SessionCryptoContext Session SessionManager Exchange ExchangeManager.
From S2P Require Import ImConst ImCommand Clusters Ecdsa ClusterServers.
From S2P Require Import Certificate.

(** zzz_generated/Endpoints.json: endpoints, their clusters, and the class that
    serves each. *)
Definition Endpoints : table (table string) :=
  [("0",
    [("3", "ClusterIdentifyServer");
     ("4", "ClusterGroupsServer");
     ("29", "ClusterDescriptorServer");
     ("30", "ClusterBindingServer");
     ("31", "ClusterAccessControlServer");
     ("40", "ClusterBasicServer");
     ("41", "ClusterOtaSoftwareUpdateProviderClient");
     ("42", "ClusterOtaSoftwareUpdateRequestorServer");
     ("43", "ClusterLocalizationConfigurationServer");
     ("44", "ClusterTimeFormatLocalizationServer");
     ("45", "ClusterUnitLocalizationServer");
     ("46", "ClusterPowerSourceConfigurationServer");
     ("47", "ClusterPowerSourceServer");
     ("48", "ClusterGeneralCommissioningServer");
     ("49", "ClusterNetworkCommissioningServer");
     ("50", "ClusterDiagnosticLogsServer");
     ("51", "ClusterGeneralDiagnosticsServer");
     ("52", "ClusterSoftwareDiagnosticsServer");
     ("53", "ClusterThreadNetworkDiagnosticsServer");
     ("54", "ClusterWiFiNetworkDiagnosticsServer");
     ("55", "ClusterEthernetNetworkDiagnosticsServer");
     ("60", "ClusterAdministratorCommissioningServer");
     ("62", "ClusterOperationalCredentialsServer");
     ("63", "ClusterGroupKeyManagementServer");
     ("64", "ClusterFixedLabelServer");
     ("65", "ClusterUserLabelServer");
     ("1029", "ClusterRelativeHumidityMeasurementServer");
     ("1295", "ClusterTestClusterServer")]);
   ("1",
    [("3", "ClusterIdentifyServer");
     ("4", "ClusterGroupsServer");
     ("5", "ClusterScenesServer");
     ("6", "ClusterOnOffServer");
     ("7", "ClusterOnOffSwitchConfigurationServer");
     ("8", "ClusterLevelControlServer");
     ("15", "ClusterBinaryInputBasicServer");
     ("29", "ClusterDescriptorServer");
     ("30", "ClusterBindingServer");
     ("37", "ClusterBridgedActionsServer");
     ("47", "ClusterPowerSourceServer");
     ("59", "ClusterSwitchServer");
     ("64", "ClusterFixedLabelServer");
     ("65", "ClusterUserLabelServer");
     ("69", "ClusterBooleanStateServer");
     ("80", "ClusterModeSelectServer");
     ("257", "ClusterDoorLockServer");
     ("258", "ClusterWindowCoveringServer");
     ("259", "ClusterBarrierControlServer");
     ("512", "ClusterPumpConfigurationAndControlServer");
     ("513", "ClusterThermostatServer");
     ("514", "ClusterFanControlServer");
     ("516", "ClusterThermostatUserInterfaceConfigurationServer");
     ("768", "ClusterColorControlServer");
     ("1024", "ClusterIlluminanceMeasurementServer");
     ("1026", "ClusterTemperatureMeasurementServer");
     ("1027", "ClusterPressureMeasurementServer");
     ("1028", "ClusterFlowMeasurementServer");
     ("1029", "ClusterRelativeHumidityMeasurementServer");
     ("1030", "ClusterOccupancySensingServer");
     ("1280", "ClusterIasZoneServer");
     ("1283", "ClusterWakeOnLanServer");
     ("1284", "ClusterChannelServer");
     ("1285", "ClusterTargetNavigatorServer");
     ("1286", "ClusterMediaPlaybackServer");
     ("1287", "ClusterMediaInputServer");
     ("1288", "ClusterLowPowerServer");
     ("1289", "ClusterKeypadInputServer");
     ("1290", "ClusterContentLauncherServer");
     ("1291", "ClusterAudioOutputServer");
     ("1292", "ClusterApplicationLauncherServer");
     ("1293", "ClusterApplicationBasicServer");
     ("1294", "ClusterAccountLoginServer");
     ("1295", "ClusterTestClusterServer");
     ("2820", "ClusterElectricalMeasurementServer")]);
   ("2",
    [("4", "ClusterGroupsServer");
     ("6", "ClusterOnOffServer");
     ("29", "ClusterDescriptorServer");
     ("47", "ClusterPowerSourceServer");
     ("1030", "ClusterOccupancySensingServer");
     ("1280", "ClusterIasZoneServer")]);
   ("",
    [])]%string.

(** The keys as [for (var key in Endpoints)] visits them, converted with
    [Number(key)]; the empty key becomes 0. *)
Definition key_number (key : string) : Z :=
  foldl (λ acc a, 10 * acc + (Z.of_N (Ascii.N_of_ascii a) - 48)) 0
        (String.list_ascii_of_string key).

Definition endpoint_keys : list Z := (λ p, key_number p.1) <$> Endpoints.

(** ** Clusters *)

Inductive ClusterServer : Type :=
  | BasicServer
  | GeneralCommissioningServer
  | NetworkCommissioningServer
  | OperationalCredentialsServer.

(** [this._clusterMap] *)
Definition ClusterMap : table ClusterServer :=
  [("ClusterBasicServer", BasicServer);
   ("ClusterGeneralCommissioningServer", GeneralCommissioningServer);
   ("ClusterNetworkCommissioningServer", NetworkCommissioningServer);
   ("ClusterOperationalCredentialsServer", OperationalCredentialsServer)]%string.

(** [Endpoints[endpointId][clusterId]]: an unknown endpoint is [undefined], and
    indexing it throws. *)
Definition cluster_class (endpointId clusterId : json) : outcome (option string) :=
  clusters ← lookup_property Endpoints endpointId;
  match clusters with
  | None => Throw TypeError
  | Some t => lookup_property t clusterId
  end.

(** [this.ClusterMap[clusterClass]] *)
Definition cluster_handler (clusterClass : option string) : option ClusterServer :=
  c ← clusterClass; own_property ClusterMap (js_str c).

(** [cluster.getAttribute(id)]: ClusterOperationalCredentialsServer has no such
    method. *)
Definition getAttribute (c : ClusterServer) (id : json) : outcome (option Attribute) :=
  match c with
  | BasicServer => lookup_property ClusterBasicServer.Basic_attributes id
  | GeneralCommissioningServer =>
      lookup_property ClusterGeneralCommissioningServer.GeneralCommissioning_attributes id
  | NetworkCommissioningServer =>
      lookup_property ClusterNetworkCommissioningServer.NetworkCommissioning_attributes id
  | OperationalCredentialsServer => Throw TypeError
  end.

(** ** Reading *)

(** [getAttributeOnEndpoint(endpointId, path)]; [None] is null or undefined. *)
Definition getAttributeOnEndpoint (endpointId : json) (path : AttributePath)
    : outcome (option Attribute) :=
  clusterClass ← cluster_class endpointId (a_ClusterId path);
  match cluster_handler clusterClass with
  | None => Ret None
  | Some cluster => getAttribute cluster (AttributeId path)
  end.

Definition DATA_VERSION : Z := 0x79cea838.

(** [reportAttribute(writer, attr, path)]; [put] stores the tag 2 in an attribute
    value that is an object, each time it is reported. *)
Definition reportAttribute (attr : Attribute) (path : AttributePath) : js buffer unit :=
  putStructStart None None ;;
  putStructStart (Some 1) None ;;
  putUnsignedInt (number DATA_VERSION) (Some 0) None ;;
  AttributePath_serialize path 1 ;;
  put (attr_value attr) (Some 2) None ;;
  putContainerEnd ;;
  putContainerEnd.

(** The loop over all endpoints; it stores the endpoint in the path. *)
Fixpoint report_wildcard (keys : list Z) (path : AttributePath) : js buffer unit :=
  match keys with
  | [] => mret tt
  | key :: keys' =>
      attr ← js_lift (getAttributeOnEndpoint (number key) path);
      match attr with
      | None => report_wildcard keys' path
      | Some attr =>
          let path := set_a_EndpointId (number key) path in
          reportAttribute attr path ;; report_wildcard keys' path
      end
  end.

(** One entry of the attribute requests. *)
Definition report_path (path : AttributePath) : js buffer unit :=
  if nullish (a_EndpointId path) then report_wildcard endpoint_keys path
  else
    attr ← js_lift (getAttributeOnEndpoint (a_EndpointId path) path);
    match attr with
    | None => mret tt
    | Some attr => reportAttribute attr path
    end.

Definition report_entry (entry : json) : js buffer unit :=
  pathTlv ← js_lift (js_value entry);
  path ← js_lift (AttributePath_new pathTlv);
  report_path path.

Definition write_report (attrList : json) : js buffer unit :=
  putStructStart None None ;;
  putArrayStart (Some ReportData_AttributeReports) None ;;
  entries ← js_lift (each attrList);
  js_forEach report_entry entries ;;
  putContainerEnd ;;
  putContainerEnd.

Definition report_payload (attrList : json) : outcome buffer :=
  match write_report attrList TlvWriter_new with
  | (b, Ret _) => Ret b
  | (_, Throw e) => Throw e
  end.

(** The parameters of a request: [findTag(result[0].value, tag)], after the request
    was printed for the trace. *)
Definition request_params (result : json) : outcome json :=
  _ ← stringify result;
  outer ← js_index result 0;
  js_value outer.

Section crypto.
Context `{Aead} `{Kdf} `{Ecdsa} `{X509}.

(** [onReadRequest(msg)] *)
Definition onReadRequest (exchange : nat) (msg : Message) : js ImWorld unit :=
  result ← js_lift (received_json msg);
  params ← js_lift (request_params result);
  attrList ← js_lift (findTag params ReadRequest_AttributeRequests);
  payload ← js_lift (report_payload attrList);
  in_exchanges (im_send exchange ReportData payload).

(** ** Commands *)

(** [cluster.onCommand(msg, path)] *)
Definition onCommand (c : ClusterServer) (exchange : nat) (msg : Message) (path : CommandPath)
    : js ImWorld unit :=
  match c with
  | BasicServer => Basic_onCommand path
  | GeneralCommissioningServer => GeneralCommissioning_onCommand exchange path
  | NetworkCommissioningServer => NetworkCommissioning_onCommand path
  | OperationalCredentialsServer => OperationalCredentials_onCommand exchange msg path
  end.

(** One entry of the command list; a cluster without a handler is only logged. *)
Definition invoke_command (exchange : nat) (msg : Message) (command : json) : js ImWorld unit :=
  parts ← js_lift (js_value command);
  pathTlv ← js_lift (findTag parts CommandDataIB_Path);
  path ← js_lift (CommandPath_new pathTlv);
  commandData ← js_lift (findTag parts CommandDataIB_Data);
  _ ← js_lift (stringify commandData);
  clusterClass ← js_lift (cluster_class (c_EndpointId path) (c_ClusterId path));
  match cluster_handler clusterClass with
  | None => mret tt
  | Some cluster => onCommand cluster exchange msg path
  end.

(** [onInvokeCommandRequest(msg)] *)
Definition onInvokeCommandRequest (exchange : nat) (msg : Message) : js ImWorld unit :=
  result ← js_lift (received_json msg);
  params ← js_lift (request_params result);
  suppressResponse ← js_lift (findTag params InvokeRequest_SuppressResponse);
  timedRequest ← js_lift (findTag params InvokeRequest_TimedRequest);
  commandList ← js_lift (findTag params InvokeRequest_CommandList);
  commands ← js_lift (each commandList);
  js_forEach (invoke_command exchange msg) commands.

(** ** The protocol *)

(** [onStatusResponse], and the handlers of the other mixins: they only log. *)
Definition onStatusResponse : js ImWorld unit := mret tt.
Definition onReportData : js ImWorld unit := mret tt.
Definition onInvokeCommandResponse : js ImWorld unit := mret tt.
Definition onWriteRequest : js ImWorld unit := mret tt.
Definition onWriteResponse : js ImWorld unit := mret tt.
Definition onTimedRequest : js ImWorld unit := mret tt.
Definition onSubscribeRequest : js ImWorld unit := mret tt.
Definition onSubscribeResponse : js ImWorld unit := mret tt.

(** [opcodeName(opcode)] *)
Definition opcodeName (opcode : Z) : string :=
  if opcode =? StatusResponse then "StatusResponse"
  else if opcode =? ReadRequest then "ReadRequest"
  else if opcode =? SubscribeRequest then "SubscribeRequest"
  else if opcode =? SubscribeResponse then "SubscribeResponse"
  else if opcode =? ReportData then "ReportData"
  else if opcode =? WriteRequest then "WriteRequest"
  else if opcode =? WriteResponse then "WriteResponse"
  else if opcode =? CommandRequest then "InvokeCommandRequest"
  else if opcode =? CommandResponse then "InvokeCommandResponse"
  else if opcode =? TimedRequest then "TimedRequest"
  else "Unknown".

(** [onProtocolMessage(msg, exchange)] *)
Definition im_onProtocolMessage (exchange : nat) (msg : Message) : js ImWorld unit :=
  opcode ← js_lift (ProtocolOpcode msg);
  if opcode =? StatusResponse then onStatusResponse
  else if opcode =? ReadRequest then onReadRequest exchange msg
  else if opcode =? SubscribeRequest then onSubscribeRequest
  else if opcode =? SubscribeResponse then onSubscribeResponse
  else if opcode =? ReportData then onReportData
  else if opcode =? WriteRequest then onWriteRequest
  else if opcode =? WriteResponse then onWriteResponse
  else if opcode =? CommandRequest then onInvokeCommandRequest exchange msg
  else if opcode =? CommandResponse then onInvokeCommandResponse
  else if opcode =? TimedRequest then onTimedRequest
  else mret tt.
End crypto.
