(* ===== verification/ImSpec.v ===== *)
(** * The Interaction Model, abstractly

    What a client puts on the wire and what it should get back, as TLV elements:
    read requests and the reports that answer them, command requests and command
    responses.  ImTheorems relates the handlers to this. *)
From S2P Require Import Prelude JsNumber JsString JsValue TlvType TlvCodec TlvWriter TlvElement.
From S2P Require Import Aead Message ExchangeManager ImConst ImCommand Clusters ExampleCerts Ecdsa.
From S2P Require Import ClusterServers InteractionModel.
From S2P Require Import Certificate.

Definition uint (t z : Z) : elem := Prim (TagContext t) (PUint z).
Definition structure (t : Z) (l : list elem) : elem := Cont (TagContext t) KStruct l.
Definition message (l : list elem) : list elem := [Cont TagAnon KStruct l].

Definition id_ok (z : Z) : Prop := 0 <= z <= UINT32_MAX.

(** ** Reading *)

(** An attribute on one endpoint, or on all of them. *)
Record attribute_request : Type := Req {
  rq_endpoint : option Z;
  rq_cluster : Z;
  rq_attribute : Z }.

Definition attribute_request_ok (r : attribute_request) : Prop :=
  from_option id_ok True (rq_endpoint r) ∧ id_ok (rq_cluster r) ∧ id_ok (rq_attribute r).

(** AttributePathIB *)
Definition path_elems (endpoint : option Z) (r : attribute_request) : list elem :=
  from_option (λ e, [uint 2 e]) [] endpoint ++ [uint 3 (rq_cluster r); uint 4 (rq_attribute r)].

Definition read_request (l : list attribute_request) : list elem :=
  message [Cont (TagContext 0) KArray
             ((λ r, Cont TagAnon KList (path_elems (rq_endpoint r) r)) <$> l)].

(** The element that reports an attribute's value. *)
Definition value_elems (v : json) : list elem :=
  match v with
  | JArr _ | JObj _ => default [] (elems_at (Some (Some 2, None)) v)
  | _ => default [] ((λ p, [Prim (TagContext 2) p]) <$> prim_auto v)
  end.

(** AttributeReportIB *)
Definition report_elem (endpoint : Z) (r : attribute_request) (a : Attribute) : elem :=
  Cont TagAnon KStruct
    [structure 1 (uint 0 DATA_VERSION
                  :: Cont (TagContext 1) KList (path_elems (Some endpoint) r)
                  :: value_elems (attr_value a))].

(** The attribute on an endpoint, and its report when there is one. *)
Definition attribute_of (endpoint : Z) (r : attribute_request) : outcome (option Attribute) :=
  clusterClass ← cluster_class (number endpoint) (number (rq_cluster r));
  match cluster_handler clusterClass with
  | None => Ret None
  | Some cluster => getAttribute cluster (number (rq_attribute r))
  end.

Definition report_on (r : attribute_request) (endpoint : Z) : outcome (list elem) :=
  a ← attribute_of endpoint r;
  Ret (from_option (λ a, [report_elem endpoint r a]) [] a).

(** The endpoints a request asks about. *)
Definition asked (r : attribute_request) : list Z :=
  from_option (λ e, [e]) endpoint_keys (rq_endpoint r).

Definition reports (r : attribute_request) : outcome (list elem) :=
  (λ l, concat l) <$> mapM (report_on r) (asked r).

(** ReportDataMessage *)
Definition report_data (l : list elem) : list elem := message [Cont (TagContext 1) KArray l].

(** ** Commands *)

Record command : Type := Cmd {
  cmd_endpoint : Z;
  cmd_cluster : Z;
  cmd_id : Z;
  cmd_data : list elem }.

Definition command_ok (c : command) : Prop :=
  id_ok (cmd_endpoint c) ∧ id_ok (cmd_cluster c) ∧ id_ok (cmd_id c) ∧
  elems_ok (cmd_data c) ∧ elems_ascii (cmd_data c).

(** The data holds an integer that the reader makes a BigInt of. *)
Definition wide_data (c : command) : bool := existsb has_bigint (elem_json <$> cmd_data c).

(** CommandPathIB and CommandDataIB *)
Definition command_path (endpoint cluster id : Z) : elem :=
  Cont (TagContext 0) KList [uint 0 endpoint; uint 1 cluster; uint 2 id].

Definition command_elem (c : command) : elem :=
  Cont TagAnon KStruct
    [command_path (cmd_endpoint c) (cmd_cluster c) (cmd_id c); structure 1 (cmd_data c)].

(** InvokeRequestMessage *)
Definition invoke_request (suppress timed : bool) (l : list command) : list elem :=
  message [Prim (TagContext 0) (PBool suppress); Prim (TagContext 1) (PBool timed);
           Cont (TagContext 2) KArray (command_elem <$> l)].

(** InvokeResponseMessage with one entry. *)
Definition invoke_response_elems (t : Z) (l : list elem) : list elem :=
  message [Prim (TagContext 0) (PBool false);
           Cont (TagContext 1) KArray [Cont TagAnon KStruct [structure t l]];
           uint 0xFF 1].

Definition data_response (c : command) (response : Z) (data : list elem) : list elem :=
  invoke_response_elems 0
    [command_path (cmd_endpoint c) (cmd_cluster c) response; structure 1 data].

Definition status_response (c : command) (status : Z) : list elem :=
  invoke_response_elems 1
    [command_path (cmd_endpoint c) (cmd_cluster c) (cmd_id c); structure 1 [uint 0 status]].

(** What a command of the general commissioning cluster is answered with. *)
Definition commissioning_response (c : command) : option (list elem) :=
  let ok := [uint 0 0; Prim (TagContext 1) (PStr [])] in
  if cmd_id c =? 0 then Some (data_response c 1 ok)
  else if cmd_id c =? 2 then Some (data_response c 3 ok)
  else if cmd_id c =? 4 then Some (status_response c 0)
  else None.

Definition octets (t : Z) (b : buffer) : elem := Prim (TagContext t) (PBytes b).

(** The elements that an attestation response and a CSR response sign. *)
Definition attestation_elements (declaration nonce : buffer) : buffer :=
  elems_bytes (message [octets 1 declaration; octets 2 nonce; uint 3 0]).
Definition nocsr_elements (csr nonce : buffer) : buffer :=
  elems_bytes (message [octets 1 csr; octets 2 nonce]).

(** The path object of a command. *)
Definition path_of (c : command) : CommandPath :=
  CPath (number (cmd_endpoint c)) (number (cmd_cluster c)) (number (cmd_id c)).

(** ** Effects *)

Section crypto.
Context `{HA : Aead} `{HK : Kdf} `{HE : Ecdsa} `{HX : X509}.

(** One response message on the exchange. *)
Definition answer (x : nat) (l : list elem) : js ImWorld unit :=
  in_exchanges (im_send x CommandResponse (elems_bytes l)).

(** What one command of a request does, by the cluster that serves it. *)
Definition command_effect (x : nat) (msg : Message) (c : command) : js ImWorld unit :=
  clusterClass ← js_lift (cluster_class (number (cmd_endpoint c)) (number (cmd_cluster c)));
  match cluster_handler clusterClass with
  | None => mret tt
  | Some BasicServer => if cmd_id c =? 0 then js_throw ReferenceError else mret tt
  | Some NetworkCommissioningServer => js_throw ReferenceError
  | Some GeneralCommissioningServer =>
      from_option (answer x) (mret tt) (commissioning_response c)
  | Some OperationalCredentialsServer => OperationalCredentials_onCommand x msg (path_of c)
  end.

(** The certificate of a type: 2 is the intermediate, everything else the device's. *)
Definition certificate_of (certificateType : Z) : buffer :=
  if certificateType =? 2 then TEST_PAI_CERTIFICATE else TEST_DAC_CERTIFICATE.
End crypto.
