(* ===== verification/ImFacts.v ===== *)
(** * Facts about the Interaction Model

    What the reader makes of a request, which elements the writer makes of reports
    and responses, what each command does. *)
From stdpp Require Import pretty.
From S2P Require Import Prelude JsNumber JsString JsValue TlvType TlvCodec TlvWriter TlvReader.
From S2P Require Import TlvElement TlvFacts TlvWriterFacts TlvReaderFacts TlvTheorems TlvWire Aead.
From S2P Require Import Message Runtime SessionCryptoContext Session SessionManager Exchange.
From S2P Require Import ExchangeManager MessagingFacts ImConst ImCommand Clusters ExampleCerts.
From S2P Require Import Ecdsa ClusterServers InteractionModel ImSpec.

(** ** Ids *)

Lemma uint_log_u32 z : 0 <= z <= UINT32_MAX → (uint_log z =? 3) = false.
Proof. intros H. unfold uint_log. zcases; try done. unfold UINT32_MAX in *; lia. Qed.

Lemma prim_json_id z : id_ok z → prim_json (PUint z) = number z.
Proof. intros H. cbn. by rewrite uint_log_u32. Qed.

Lemma prim_unsigned_id z : id_ok z → prim_unsigned (number z) = Some (PUint z).
Proof.
  intros H. cbn. unfold in_uint64, UINT64_MAX, id_ok, UINT32_MAX in *.
  rewrite (proj2 (Z.leb_le 0 z)), (proj2 (Z.ltb_lt z _)) by lia. done.
Qed.

Lemma uint_json t z : id_ok z →
  elem_json (uint t z) = JObj (mk_entry (TagContext t) (prim_type (PUint z)) (number z)).
Proof. intros H. unfold uint. cbn [elem_json]. by rewrite prim_json_id. Qed.

Lemma uint_ok t z : 0 <= t <= 255 → id_ok z → elem_ok (uint t z).
Proof. intros Ht Hz. split; cbn; unfold id_ok, UINT32_MAX, UINT8_MAX in *; lia. Qed.

(** ** Names of numbers

    An id finds the entry with its decimal name. *)
Lemma lookup_id {A} (t : table A) z : id_ok z →
  lookup_property t (number z) = Ret (own_property t (js_str (pretty z))).
Proof.
  intros Hz. unfold lookup_property, number, property_key. cbn [num_val].
  rewrite (proj2 (Z.ltb_lt (Z.abs z) (2 ^ 53))); [done|]. unfold id_ok, UINT32_MAX in Hz. lia.
Qed.

Lemma own_property_none {A} (t : table A) s :
  s ∉ t.*1 → own_property t (js_str s) = None.
Proof.
  induction t as [|[n a] t IH]; cbn; [done|]. intros H.
  rewrite bool_decide_false; [apply IH; set_solver|]. intros E. apply js_str_inj in E. set_solver.
Qed.

Lemma unknown_endpoint e c : id_ok e → e ∉ endpoint_keys →
  cluster_class (number e) c = Throw TypeError.
Proof.
  intros He Hn. unfold cluster_class. rewrite lookup_id by done. cbn [mbind outcome_bind].
  rewrite own_property_none; [done|]. change (Endpoints.*1) with ["0"; "1"; "2"; ""]%string.
  change endpoint_keys with [0; 1; 2; 0] in Hn.
  assert (∀ z, z ∈ [0; 1; 2; 0] → pretty e ≠ pretty z) as Hp.
  { intros z Hz Hpe. apply (inj pretty) in Hpe. by subst. }
  rewrite !not_elem_of_cons. split_and!; [apply (Hp 0)|apply (Hp 1)|apply (Hp 2)| |];
    [set_solver..| |apply not_elem_of_nil]. apply pretty_nonempty. by destruct He.
Qed.

(** ** Writing reports

    What a writer computation does to the buffer: it appends octets, or throws. *)
Definition performs {A} (m : js buffer A) (o : outcome buffer) : Prop := ∀ b,
  match o with
  | Ret x => ∃ a, m b = (b ++ x, Ret a)
  | Throw e => ∃ b', m b = (b', Throw e)
  end.

Definition then_write (o1 o2 : outcome buffer) : outcome buffer :=
  x ← o1; y ← o2; Ret (x ++ y).

Lemma performs_bind {A B} (m : js buffer A) (f : A → js buffer B) o1 o2 :
  performs m o1 → (∀ a, performs (f a) o2) → performs (m ≫= f) (then_write o1 o2).
Proof.
  intros Hm Hf b. specialize (Hm b). destruct o1 as [x|e].
  - destruct Hm as [a Hm]. specialize (Hf a (b ++ x)). cbn. destruct o2 as [y|e]; cbn.
    + destruct Hf as [c Hf]. exists c. by rewrite (js_bind_eq _ _ _ _ _ Hm), Hf, app_assoc.
    + destruct Hf as [b' Hf]. exists b'. by rewrite (js_bind_eq _ _ _ _ _ Hm), Hf.
  - destruct Hm as [b' Hm]. exists b'. by apply js_bind_throw.
Qed.

Lemma performs_lift {A} (o : outcome A) (f : A → js buffer unit) (g : A → outcome buffer) :
  (∀ a, o = Ret a → performs (f a) (g a)) → performs (js_lift o ≫= f) (o ≫= g).
Proof.
  intros H b. destruct o as [a|e]; [|by exists b]. exact (H a eq_refl b).
Qed.

Lemma performs_ret : performs (mret tt) (Ret []).
Proof. intros b. exists tt. by rewrite app_nil_r. Qed.

Lemma performs_forEach {X} (f : X → js buffer unit) (g : X → outcome buffer) l :
  (∀ x, x ∈ l → performs (f x) (g x)) →
  performs (js_forEach f l) (foldr (λ x o, then_write (g x) o) (Ret []) l).
Proof.
  induction l as [|x l IH]; intros H; [apply performs_ret|].
  apply performs_bind; [apply H; set_solver|]. intros _. apply IH. set_solver.
Qed.

Lemma performs_start t tg k : tagform_of t None = Some tg →
  performs (putStart t None k) (Ret (header (ckind_type k) tg)).
Proof.
  intros H b. exists (header (ckind_type k) tg).
  destruct k; unfold putStart, putStructStart, putArrayStart, putListStart;
    by rewrite (control_plain _ _ _ H) by done.
Qed.

Lemma performs_end : performs putContainerEnd (Ret end_bytes).
Proof.
  intros b. exists tt. unfold putContainerEnd.
  by rewrite (encode_anonymous TLV_TYPE_END 0 TLV_TYPE_END) by done.
Qed.

Lemma tagform_context t : 0 <= t <= 255 → tagform_of (Some t) None = Some (TagContext t).
Proof.
  intros Ht. unfold tagform_of, UINT8_MAX.
  by rewrite (proj2 (Z.leb_le 0 t)), (proj2 (Z.leb_le t 255)) by lia.
Qed.

Lemma performs_uint t z : 0 <= t <= 255 → id_ok z →
  performs (putUnsignedInt (number z) (Some t) None) (Ret (elem_bytes (uint t z))).
Proof.
  intros Ht Hz b. exists tt.
  by apply putUnsignedInt_spec; [apply tagform_context|apply prim_unsigned_id].
Qed.

Lemma performs_id t z : 0 <= t <= 255 → id_ok z →
  performs (put_id (number z) t) (Ret (elem_bytes (uint t z))).
Proof. apply performs_uint. Qed.

(** The path object of a request. *)
Definition request_path (endpoint : option Z) (r : attribute_request) : AttributePath :=
  APath JUndef JUndef (from_option number JUndef endpoint) (number (rq_cluster r))
    (number (rq_attribute r)).

(** Replaces what a computation performs by equal octets. *)
Lemma performs_eq {A} (m : js buffer A) o o' : performs m o → o = o' → performs m o'.
Proof. by intros H <-. Qed.

Lemma performs_serialize e r :
  id_ok e → id_ok (rq_cluster r) → id_ok (rq_attribute r) →
  performs (AttributePath_serialize (request_path (Some e) r) 1)
    (Ret (elem_bytes (Cont (TagContext 1) KList (path_elems (Some e) r)))).
Proof.
  intros He Hc Ha. eapply performs_eq.
  - apply performs_bind; [by apply (performs_start _ (TagContext 1) KList)|intros _].
    apply performs_bind; [apply performs_ret|intros _].
    apply performs_bind; [apply performs_id; [lia|done]|intros _].
    apply performs_bind; [apply performs_id; [lia|done]|intros _].
    apply performs_bind; [apply performs_id; [lia|done]|intros _; apply performs_end].
  - unfold then_write. cbn [mbind outcome_bind elem_bytes path_elems from_option app fmap list_fmap concat].
    by rewrite !app_nil_r, <- !app_assoc.
Qed.

(** [put(v, 2)] on a value the writer knows. *)
Definition value_known (v : json) : Prop :=
  match v with
  | JArr _ | JObj _ => elems_at (Some (Some 2, None)) v ≠ None
  | _ => prim_auto v ≠ None
  end.

Lemma performs_put v : value_known v →
  performs (put v (Some 2) None) (Ret (elems_bytes (value_elems v))).
Proof.
  intros Hv b. exists tt. unfold put.
  assert (∀ p, prim_auto v = Some p → put_dispatch (encode_at (Some (Some 2, None)) v) v (Some 2) None b
    = (b ++ elem_bytes (Prim (TagContext 2) p), Ret tt)) as Hp.
  { intros p Hp. apply put_dispatch_spec; [by apply tagform_context|done]. }
  assert (∀ l, elems_at (Some (Some 2, None)) v = Some l →
    encode_at (Some (Some 2, None)) v b = (b ++ elems_bytes l, Ret tt)) as Hl.
  { intros l. apply encode_at_spec. }
  unfold value_known, value_elems in *.
  destruct v; cbn beta iota in Hv |- *;
    lazymatch type of Hv with
    | ?o ≠ None => destruct o as [x|] eqn:E; [|done]
    end; try (by apply Hl);
    cbn [default from_option fmap option_fmap option_map id]; rewrite elems_bytes_one; by apply Hp.
Qed.

Lemma performs_report e r a :
  id_ok e → id_ok (rq_cluster r) → id_ok (rq_attribute r) → value_known (attr_value a) →
  performs (reportAttribute a (request_path (Some e) r)) (Ret (elem_bytes (report_elem e r a))).
Proof.
  intros He Hc Ha Hv. eapply performs_eq.
  - apply performs_bind; [by apply (performs_start _ TagAnon KStruct)|intros _].
    apply performs_bind; [by apply (performs_start _ (TagContext 1) KStruct)|intros _].
    apply performs_bind; [apply performs_uint; [lia|unfold id_ok, DATA_VERSION, UINT32_MAX; lia]|intros _].
    apply performs_bind; [by apply performs_serialize|intros _].
    apply performs_bind; [by apply performs_put|intros _].
    apply performs_bind; [apply performs_end|intros _; apply performs_end].
  - unfold then_write. cbn [mbind outcome_bind]. unfold report_elem, structure.
    change (elem_bytes (Cont TagAnon KStruct ?l)) with
      (header TLV_TYPE_STRUCTURE TagAnon ++ elems_bytes l ++ end_bytes).
    rewrite elems_bytes_one.
    change (elem_bytes (Cont (TagContext 1) KStruct ?l)) with
      (header TLV_TYPE_STRUCTURE (TagContext 1) ++ elems_bytes l ++ end_bytes).
    change (elems_bytes (?x :: ?y :: ?l)) with (elem_bytes x ++ elem_bytes y ++ elems_bytes l).
    by rewrite <- !app_assoc.
Qed.

(** ** The attribute tables *)

Lemma own_property_in {A} (t : table A) k a : own_property t k = Some a → a ∈ t.*2.
Proof.
  induction t as [|[n x] t IH]; [done|]. cbn. case_bool_decide; intros H'; set_solver.
Qed.

Lemma lookup_property_in {A} (t : table A) v a :
  lookup_property t v = Ret (Some a) → a ∈ t.*2.
Proof.
  unfold lookup_property. destruct (property_key v) as [[k|]|]; cbn; [|done..].
  destruct (inherited v k); [done|]. intros H. apply Ret_inj in H. by eapply own_property_in.
Qed.

Definition is_known (v : json) : bool :=
  match v with
  | JArr _ | JObj _ => from_option (λ _, true) false (elems_at (Some (Some 2, None)) v)
  | _ => from_option (λ _, true) false (prim_auto v)
  end.

Lemma is_known_spec v : is_known v = true → value_known v.
Proof. unfold is_known, value_known. destruct v; intros H; by destruct (_ : option _). Qed.

(** Every value in the tables can be written. *)
Lemma attribute_known c id a : getAttribute c id = Ret (Some a) → value_known (attr_value a).
Proof.
  assert (∀ t : table Attribute, forallb (λ a, is_known (attr_value a)) t.*2 = true →
    lookup_property t id = Ret (Some a) → value_known (attr_value a)) as Ht.
  { intros t Ht H. apply lookup_property_in in H. apply is_known_spec.
    rewrite forallb_forall in Ht. apply Ht. by apply list_elem_of_In. }
  destruct c; cbn [getAttribute]; [apply Ht; reflexivity..|done].
Qed.

(** ** One request, one report *)

Lemma getAttributeOnEndpoint_of e endpoint r :
  getAttributeOnEndpoint (number e) (request_path endpoint r) = attribute_of e r.
Proof. done. Qed.

Lemma attribute_of_known e r a : attribute_of e r = Ret (Some a) → value_known (attr_value a).
Proof.
  unfold attribute_of. destruct (cluster_class _ _) as [k|]; [|done]. cbn.
  destruct (cluster_handler k); [apply attribute_known|done].
Qed.

Definition written (o : outcome (list elem)) : outcome buffer := elems_bytes <$> o.

Lemma then_written o1 o2 :
  then_write (written o1) (written o2) = written (l1 ← o1; l2 ← o2; Ret (l1 ++ l2)).
Proof. destruct o1, o2; try done. unfold then_write, written. cbn. by rewrite elems_bytes_app. Qed.

Lemma written_mapM {X} (f : X → outcome (list elem)) l :
  foldr (λ x o, then_write (written (f x)) o) (Ret []) l
  = written ((λ l, concat l) <$> mapM f l).
Proof.
  induction l as [|x l IH]; [done|]. cbn [foldr mapM]. rewrite IH, then_written.
  by destruct (f x), (mapM f l).
Qed.

Lemma performs_wildcard keys endpoint r :
  id_ok (rq_cluster r) → id_ok (rq_attribute r) → Forall id_ok keys →
  performs (report_wildcard keys (request_path endpoint r))
    (written ((λ l, concat l) <$> mapM (report_on r) keys)).
Proof.
  intros Hc Ha. rewrite <- written_mapM. revert endpoint.
  induction keys as [|k keys IH]; intros endpoint Hk; [apply performs_ret|].
  apply Forall_cons in Hk as [Hk Hks]. cbn [report_wildcard foldr].
  rewrite getAttributeOnEndpoint_of. unfold report_on at 1.
  destruct (attribute_of k r) as [[a|]|e] eqn:E; cbn [mbind outcome_bind].
  - change (performs (reportAttribute a (request_path (Some k) r) ;;
                      report_wildcard keys (request_path (Some k) r))
              (then_write (written (Ret [report_elem k r a])) (foldr
                 (λ x o, then_write (written (report_on r x)) o) (Ret []) keys))).
    apply performs_bind; [|intros _; by apply IH].
    cbn [from_option]. unfold written. cbn [fmap outcome_fmap]. rewrite elems_bytes_one.
    apply performs_report; try done. by eapply attribute_of_known.
  - intros b. specialize (IH endpoint Hks b). cbn. by destruct (foldr _ _ keys).
  - intros b. by exists b.
Qed.

Lemma performs_request r : attribute_request_ok r →
  performs (report_path (request_path (rq_endpoint r) r)) (written (reports r)).
Proof.
  intros (He & Hc & Ha). unfold report_path, reports, asked.
  destruct (rq_endpoint r) as [e|] eqn:E; cbn [from_option].
  - cbn [request_path from_option a_EndpointId nullish]. rewrite getAttributeOnEndpoint_of.
    unfold report_on. cbn [mapM].
    destruct (attribute_of e r) as [[a|]|x] eqn:Ea; [| |intros b; by exists b].
    + eapply performs_eq; [apply performs_report; try done; by eapply attribute_of_known|].
      cbn. by rewrite !app_nil_r.
    + apply performs_ret.
  - apply performs_wildcard; [done..|]. repeat constructor; unfold id_ok, UINT32_MAX; cbn; lia.
Qed.

(** ** What the reader makes of a read request *)

Lemma received_elems msg l :
  AppPayload msg = Ret (elems_bytes l) → elems_ok l → elems_ascii l →
  received_json msg = Ret (JArr (elem_json <$> l)).
Proof. intros H Ho Ha. unfold received_json. rewrite H. by apply decode_json_elems. Qed.

Definition list_elem (r : attribute_request) : elem :=
  Cont TagAnon KList (path_elems (rq_endpoint r) r).

Lemma list_elem_ok r : attribute_request_ok r → elem_ok (list_elem r) ∧ elem_ascii (list_elem r).
Proof.
  intros (He & Hc & Ha). unfold list_elem, path_elems. destruct (rq_endpoint r) as [e|].
  - split; cbn [elem_ok elem_ascii]; [split; [done|]|]; repeat (constructor; try done);
      cbn; unfold id_ok, UINT32_MAX, UINT8_MAX in *; cbn in *; lia.
  - split; cbn [elem_ok elem_ascii]; [split; [done|]|]; repeat (constructor; try done);
      cbn; unfold id_ok, UINT32_MAX, UINT8_MAX in *; cbn in *; lia.
Qed.

Lemma read_request_wf l : Forall attribute_request_ok l →
  elems_ok (read_request l) ∧ elems_ascii (read_request l).
Proof.
  intros H. unfold read_request, message.
  assert (Forall (λ r, elem_ok (list_elem r) ∧ elem_ascii (list_elem r)) l) as Hl.
  { eapply Forall_impl; [exact H|]. intros r. apply list_elem_ok. }
  split; (constructor; [|constructor]); cbn [elem_ok elem_ascii fmap list_fmap].
  - split; [done|]. repeat constructor; cbn; [unfold UINT8_MAX; lia..|].
    rewrite !Forall_fmap. eapply Forall_impl; [exact Hl|]. by intros r [].
  - repeat constructor. rewrite !Forall_fmap. eapply Forall_impl; [exact Hl|]. by intros r [].
Qed.

Lemma list_elem_json r : attribute_request_ok r →
  ∃ e, elem_json (list_elem r) = JObj e ∧ has_bigint (value e) = false ∧
    AttributePath_new (value e) = Ret (request_path (rq_endpoint r) r).
Proof.
  intros (He & Hc & Ha). eexists. split; [reflexivity|]. unfold list_elem, path_elems, request_path.
  destruct (rq_endpoint r) as [e|]; cbn [from_option app fmap list_fmap value];
    rewrite !uint_json by done; done.
Qed.

Lemma request_params_of l :
  existsb has_bigint (elem_json <$> l) = false →
  request_params (JArr (elem_json <$> message l)) = Ret (JArr (elem_json <$> l)).
Proof. intros H. unfold request_params, stringify. cbn. by rewrite H. Qed.

Lemma existsb_false {A} (f : A → bool) l : Forall (λ x, f x = false) l → existsb f l = false.
Proof. induction 1 as [|x l Hx _ IH]; [done|]. cbn. by rewrite Hx, IH. Qed.

Lemma read_request_params l : Forall attribute_request_ok l →
  request_params (JArr (elem_json <$> read_request l)) =
    Ret (JArr [JObj (mk_entry (TagContext 0) TLV_TYPE_ARRAY
                       (JArr (elem_json <$> (list_elem <$> l))))]).
Proof.
  intros H. unfold read_request. rewrite request_params_of; [done|].
  cbn. rewrite orb_false_r. apply existsb_false. rewrite !Forall_fmap.
  eapply Forall_impl; [exact H|]. intros r Hr. apply list_elem_json in Hr as (e & He & Hb & _).
  unfold list_elem in He. cbn [compose] in *. by rewrite He.
Qed.

Lemma performs_entries l : Forall attribute_request_ok l →
  performs (js_forEach report_entry (elem_json <$> (list_elem <$> l)))
    (written ((λ l, concat l) <$> mapM reports l)).
Proof.
  intros H. rewrite <- written_mapM. induction H as [|r l Hr _ IH]; [apply performs_ret|].
  cbn [fmap list_fmap js_forEach foldr]. apply performs_bind; [|intros _; apply IH].
  destruct (list_elem_json r Hr) as (e & He & _ & Hp). rewrite He. unfold report_entry, js_value.
  intros b. pose proof (performs_request r Hr b) as Hb. unfold js_lift, mbind, js_bind.
  by rewrite Hp.
Qed.

Lemma report_payload_spec l : Forall attribute_request_ok l →
  report_payload (JArr (elem_json <$> (list_elem <$> l))) =
    rs ← mapM reports l; Ret (elems_bytes (report_data (concat rs))).
Proof.
  intros H. assert (performs (write_report (JArr (elem_json <$> (list_elem <$> l))))
    (then_write (Ret (header TLV_TYPE_STRUCTURE TagAnon))
    (then_write (Ret (header TLV_TYPE_ARRAY (TagContext 1)))
    (then_write (written ((λ l, concat l) <$> mapM reports l))
    (then_write (Ret end_bytes) (Ret end_bytes)))))) as Hw.
  { apply performs_bind; [by apply (performs_start _ TagAnon KStruct)|intros _].
    apply performs_bind; [by apply (performs_start _ (TagContext 1) KArray)|intros _].
    apply (performs_bind (js_forEach report_entry (elem_json <$> (list_elem <$> l))));
      [by apply performs_entries|intros _].
    apply performs_bind; [apply performs_end|intros _; apply performs_end]. }
  specialize (Hw TlvWriter_new). unfold report_payload.
  destruct (mapM reports l) as [rs|e]; cbn -[write_report elems_bytes elem_bytes header] in Hw |- *.
  - destruct Hw as [a ->]. f_equal. unfold report_data, message.
    rewrite elems_bytes_one. change (elem_bytes (Cont TagAnon KStruct ?l)) with
      (header TLV_TYPE_STRUCTURE TagAnon ++ elems_bytes l ++ end_bytes).
    rewrite elems_bytes_one. change (elem_bytes (Cont (TagContext 1) KArray ?l)) with
      (header TLV_TYPE_ARRAY (TagContext 1) ++ elems_bytes l ++ end_bytes).
    by rewrite <- !app_assoc.
  - by destruct Hw as [b ->].
Qed.
