(* ===== verification/CommandFacts.v ===== *)
(** * Facts about commands

    What the reader makes of a command request, the elements of responses, and
    where the handlers of the operational credentials cluster find their data. *)
From S2P Require Import Prelude JsNumber JsString JsValue TlvType TlvCodec TlvWriter TlvReader.
From S2P Require Import TlvElement TlvFacts TlvWriterFacts TlvReaderFacts TlvTheorems TlvWire Aead.
From S2P Require Import Message Runtime SessionCryptoContext Session SessionManager Exchange.
From S2P Require Import ExchangeManager MessagingFacts ImConst ImCommand Clusters ExampleCerts.
From S2P Require Import Ecdsa ClusterServers InteractionModel ImSpec ImFacts.
From S2P Require Import Certificate.
Import ClusterGeneralCommissioningServer ClusterOperationalCredentialsServer.

(** ** Elements of templates *)

Lemma elems_field_uint t ty z :
  0 <= t <= 255 → id_ok z → is_type (Some ty) ["uint8"; "uint16"; "uint32"; "uint64"]%string = true →
  elems_at None (field t ty (number z)) = Some [uint t z].
Proof.
  intros Ht Hz Hty. unfold field. cbn [elems_at]. rewrite tagform_context by done.
  cbn [mbind option_bind]. rewrite Hty, prim_unsigned_id by done.
  assert (ty ∈ ["uint8"; "uint16"; "uint32"; "uint64"]%string) as Hin.
  { unfold is_type in Hty. apply existsb_exists in Hty as (s & Hs & E).
    apply String.eqb_eq in E. subst. by apply list_elem_of_In. }
  repeat (apply elem_of_cons in Hin as [->|Hin]; [reflexivity|]). by apply elem_of_nil in Hin.
Qed.

Lemma elems_field_bytes t b :
  0 <= t <= 255 → blen b <= UINT32_MAX →
  elems_at None (field t "Buffer" (JBuf b)) = Some [octets t b].
Proof.
  intros Ht Hb. unfold field. cbn [elems_at]. rewrite tagform_context by done.
  cbn [mbind option_bind]. by rewrite prim_buffer_buf.
Qed.

(** An entry of a container type. *)
Lemma elems_container t tg ty k fs l :
  tagform_of t None = Some tg → kind_of_type (Some ty) = Some k →
  elems_at None (JArr fs) = Some l →
  elems_at None (JObj (Entry t (Some ty) None (JArr fs) None)) = Some [Cont tg k l].
Proof. intros Ht Hk Hl. cbn [elems_at] in *. rewrite Ht. cbn [mbind option_bind]. by rewrite Hk, Hl. Qed.

Lemma elems_cons f fs a l :
  elems_at None f = Some a → elems_at None (JArr fs) = Some l →
  elems_at None (JArr (f :: fs)) = Some (a ++ l).
Proof. intros Hf Hl. cbn [elems_at] in *. by rewrite Hf, Hl. Qed.

Lemma elems_nil : elems_at None (JArr []) = Some [].
Proof. done. Qed.

Create HintDb wire discriminated.
#[export] Hint Resolve elems_nil elems_cons : wire.
#[export] Hint Extern 2 (elems_at None (field _ _ (number _)) = _) =>
  apply elems_field_uint; [lia|first [done|unfold id_ok, UINT32_MAX; lia]|reflexivity] : wire.
#[export] Hint Extern 2 (elems_at None (field _ "Buffer" (JBuf _)) = _) =>
  apply elems_field_bytes; [lia|done] : wire.
#[export] Hint Extern 3 (elems_at None (field _ _ (JArr _)) = _) =>
  eapply elems_container; [reflexivity|reflexivity|] : wire.
#[export] Hint Extern 3 (elems_at None (struct_of _) = _) =>
  eapply elems_container; [reflexivity|reflexivity|] : wire.
#[export] Hint Extern 4 (elems_at None _ = _) => reflexivity : wire.

Lemma template_path_elems c response t :
  id_ok (cmd_endpoint c) → id_ok (cmd_cluster c) → id_ok response → t = 0 →
  elems_at None (CommandPath_template (set_CommandId (number response) (path_of c)) t)
  = Some [command_path (cmd_endpoint c) (cmd_cluster c) response].
Proof.
  intros He Hc Hr ->. unfold CommandPath_template, path_of, set_CommandId, command_path.
  cbn [c_EndpointId c_ClusterId CommandId].
  eapply (elems_container _ (TagContext 0) _ KList); [done|done|].
  change [uint 0 (cmd_endpoint c); uint 1 (cmd_cluster c); uint 2 response] with
    ([uint 0 (cmd_endpoint c)] ++ [uint 1 (cmd_cluster c)] ++ [uint 2 response] ++ []).
  auto with wire.
Qed.

Lemma invoke_response_elems_of suppress t ib l :
  truthy suppress = false → 0 <= t <= 255 → elems_at None (JArr ib) = Some l →
  elems_of (invoke_response suppress t ib) = Some (invoke_response_elems t l).
Proof.
  intros Hs Ht Hl. unfold elems_of, invoke_response, invoke_response_elems, message.
  assert (elems_at None (JArr [struct_of [field t "struct" (JArr ib)]])
          = Some ([Cont TagAnon KStruct [structure t l]] ++ [])) as H1.
  { apply elems_cons; [|done].
    apply (elems_container None TagAnon "struct" KStruct); [done|done|].
    change [structure t l] with ([structure t l] ++ []). apply elems_cons; [|done].
    apply (elems_container (Some t) (TagContext t) "struct" KStruct);
      [by apply tagform_context|done..]. }
  apply (elems_container None TagAnon "struct" KStruct); [done|done|].
  change [Prim (TagContext 0) (PBool false); Cont (TagContext 1) KArray ?x; ?y] with
    ([Prim (TagContext 0) (PBool false)] ++ [Cont (TagContext 1) KArray x] ++ [y] ++ []).
  repeat apply elems_cons; [| | |done].
  - unfold field. cbn [elems_at]. rewrite tagform_context by (unfold InvokeResponse_SuppressResponse; lia).
    cbn [mbind option_bind]. by rewrite Hs.
  - by apply (elems_container (Some 1) (TagContext 1) "array" KArray).
  - reflexivity.
Qed.

Lemma data_response_elems c response data l :
  id_ok (cmd_endpoint c) → id_ok (cmd_cluster c) → id_ok response →
  elems_at None (JArr data) = Some l →
  elems_of (TemplateMsgCommandResponseData (JBool false)
              (set_CommandId (number response) (path_of c)) data)
  = Some (data_response c response l).
Proof.
  intros He Hc Hr Hl. apply invoke_response_elems_of; [done|unfold InvokeResponseIB_Data; lia|].
  change [command_path ?a ?b ?c; structure 1 l] with ([command_path a b c] ++ [structure 1 l] ++ []).
  apply elems_cons; [by apply template_path_elems|]. apply elems_cons; [|done].
  by apply (elems_container (Some 1) (TagContext 1) "struct" KStruct).
Qed.

Lemma status_response_elems c status :
  id_ok (cmd_endpoint c) → id_ok (cmd_cluster c) → id_ok (cmd_id c) → id_ok status →
  elems_of (TemplateMsgCommandResponseStatus JUndef (path_of c) (number status))
  = Some (status_response c status).
Proof.
  intros He Hc Hi Hs. apply invoke_response_elems_of; [done|unfold InvokeResponseIB_Status; lia|].
  change [command_path ?a ?b ?c; ?y] with ([command_path a b c] ++ [y] ++ []).
  apply elems_cons; [by apply (template_path_elems c (cmd_id c))|]. apply elems_cons; [|done].
  apply (elems_container (Some 1) (TagContext 1) "struct" KStruct); [done|done|].
  change [uint 0 status] with ([uint 0 status] ++ []). apply elems_cons; [|done].
  cbn [elems_at]. rewrite tagform_context by (unfold StatusIB_Status; lia).
  cbn [mbind option_bind]. unfold uint, id_ok, UINT32_MAX in *.
  change (number status) with (JNum (NInt status)). cbn [prim_auto kind_of_type is_type].
  rewrite (proj2 (Z.ltb_ge status 0)) by lia.
  change (JNum (NInt status)) with (number status). by rewrite prim_unsigned_id.
Qed.

(** ** Sending responses *)

Section sending.
Context `{HA : Aead} `{HK : Kdf} `{HE : Ecdsa} `{HX : X509}.

Lemma send_response_elems x j l w :
  elems_of j = Some l → has_bigint j = false →
  send_response x j w = im_send x CommandResponse (elems_bytes l) w.
Proof.
  intros Hl Hb. unfold send_response. rewrite (encode_elems _ _ Hl).
  unfold stringify. rewrite Hb. reflexivity.
Qed.

Lemma in_exchanges_ext {A} (m m' : js ExchangeManager A) w :
  m (im_em w) = m' (im_em w) → in_exchanges m w = in_exchanges m' w.
Proof. intros H. unfold in_exchanges, zoom. by rewrite H. Qed.

Lemma respond_elems x c response data l w :
  command_ok c → id_ok response → elems_at None (JArr data) = Some l →
  existsb has_bigint data = false →
  respond x (path_of c) response data w = answer x (data_response c response l) w.
Proof.
  intros (He & Hc & _) Hr Hl Hb. apply in_exchanges_ext. apply send_response_elems.
  - by apply data_response_elems.
  - cbn. by rewrite Hb.
Qed.

Lemma respond_status_elems x c w :
  command_ok c → respond_status x (path_of c) w = answer x (status_response c 0) w.
Proof.
  intros (He & Hc & Hi & _). apply in_exchanges_ext. apply send_response_elems; [|done].
  by apply status_response_elems.
Qed.

Lemma is_number_number z k : is_number (number z) k = (z =? k).
Proof.
  unfold is_number. cbn. destruct (Z.eqb_spec z k) as [->|H].
  - by apply bool_decide_eq_true.
  - apply bool_decide_eq_false. congruence.
Qed.

Lemma commissioning_spec x c w :
  command_ok c →
  GeneralCommissioning_onCommand x (path_of c) w =
    from_option (answer x) (mret tt) (commissioning_response c) w.
Proof.
  intros Hc. unfold GeneralCommissioning_onCommand, commissioning_response, path_of.
  cbn [CommandId]. rewrite !is_number_number.
  destruct (cmd_id c =? 0).
  { apply respond_elems; try done; unfold id_ok, UINT32_MAX; lia. }
  destruct (cmd_id c =? 2).
  { apply respond_elems; try done; unfold id_ok, UINT32_MAX; lia. }
  destruct (cmd_id c =? 4); [by apply respond_status_elems|done].
Qed.

(** ** What the reader makes of a command request *)

Definition command_entry (c : command) : list json :=
  [JObj (mk_entry (TagContext 0) TLV_TYPE_LIST
     (JArr [elem_json (uint 0 (cmd_endpoint c)); elem_json (uint 1 (cmd_cluster c));
            elem_json (uint 2 (cmd_id c))]));
   JObj (mk_entry (TagContext 1) TLV_TYPE_STRUCTURE (JArr (elem_json <$> cmd_data c)))].

Lemma command_json c :
  elem_json (command_elem c) = JObj (mk_entry TagAnon TLV_TYPE_STRUCTURE (JArr (command_entry c))).
Proof. done. Qed.

Lemma command_elem_ok c : command_ok c → elem_ok (command_elem c) ∧ elem_ascii (command_elem c).
Proof.
  intros (He & Hc & Hi & Ho & Ha). split; cbn.
  - split; [done|]. repeat constructor; cbn; try (unfold id_ok, UINT32_MAX, UINT8_MAX in *; lia).
    by apply Forall_fmap.
  - repeat constructor. by apply Forall_fmap.
Qed.

Lemma invoke_request_wf s t l : Forall command_ok l →
  elems_ok (invoke_request s t l) ∧ elems_ascii (invoke_request s t l).
Proof.
  intros H. unfold invoke_request, message.
  assert (Forall (λ c, elem_ok (command_elem c) ∧ elem_ascii (command_elem c)) l) as Hl.
  { eapply Forall_impl; [exact H|]. intros c. apply command_elem_ok. }
  split; (constructor; [|constructor]); cbn [elem_ok elem_ascii fmap list_fmap].
  - split; [done|]. repeat constructor; cbn; [unfold UINT8_MAX; lia..|].
    rewrite !Forall_fmap. eapply Forall_impl; [exact Hl|]. by intros c [].
  - repeat constructor. rewrite !Forall_fmap. eapply Forall_impl; [exact Hl|]. by intros c [].
Qed.

(** The parameters the handler reads. *)
Definition invoke_params (s t : bool) (l : list command) : json :=
  JArr [JObj (mk_entry (TagContext 0) (prim_type (PBool s)) (JBool s));
        JObj (mk_entry (TagContext 1) (prim_type (PBool t)) (JBool t));
        JObj (mk_entry (TagContext 2) TLV_TYPE_ARRAY (JArr (elem_json <$> (command_elem <$> l))))].

Lemma command_bigint c : command_ok c → has_bigint (elem_json (command_elem c)) = wide_data c.
Proof.
  intros (He & Hc & Hi & _). rewrite command_json. cbn. rewrite !uint_log_u32 by done.
  cbn. by rewrite orb_false_r.
Qed.

Lemma invoke_bigint s t l : Forall command_ok l →
  has_bigint (JArr (elem_json <$> invoke_request s t l)) = existsb wide_data l.
Proof.
  intros H. cbn. rewrite !orb_false_r.
  induction H as [|c l Hc _ IH]; [done|]. cbn [fmap list_fmap existsb]. 
  by rewrite command_bigint, IH.
Qed.

Lemma invoke_request_params s t l : Forall command_ok l →
  request_params (JArr (elem_json <$> invoke_request s t l)) =
    if existsb wide_data l then Throw TypeError else Ret (invoke_params s t l).
Proof.
  intros H. unfold request_params, stringify. rewrite invoke_bigint by done.
  by destruct (existsb wide_data l).
Qed.

Lemma invoke_command_entry x msg ty1 ty2 ty3 v d w :
  invoke_command x msg (JObj (mk_entry TagAnon ty1
    (JArr [JObj (mk_entry (TagContext 0) ty2 v); JObj (mk_entry (TagContext 1) ty3 d)]))) w =
  (path ← js_lift (CommandPath_new v);
   _ ← js_lift (stringify d);
   clusterClass ← js_lift (cluster_class (c_EndpointId path) (c_ClusterId path));
   match cluster_handler clusterClass with
   | None => mret tt
   | Some cluster => onCommand cluster x msg path
   end) w.
Proof. done. Qed.

Lemma invoke_command_spec x msg c w :
  command_ok c → wide_data c = false →
  invoke_command x msg (elem_json (command_elem c)) w = command_effect x msg c w.
Proof.
  intros Hok Hw. rewrite command_json. unfold command_effect.
  assert (CommandPath_new (value (mk_entry (TagContext 0) TLV_TYPE_LIST
     (JArr [elem_json (uint 0 (cmd_endpoint c)); elem_json (uint 1 (cmd_cluster c));
            elem_json (uint 2 (cmd_id c))]))) = Ret (path_of c)) as Hp.
  { destruct Hok as (He & Hc & Hi & _). unfold path_of. rewrite !uint_json by done. done. }
  unfold command_entry. rewrite invoke_command_entry. cbn [value mk_entry] in Hp.
  rewrite Hp. unfold stringify. cbn [has_bigint].
  unfold wide_data in Hw. rewrite Hw. unfold js_lift, mbind, js_bind, outcome_bind.
  cbn [path_of c_EndpointId c_ClusterId].
  destruct (cluster_class _ _) as [k|e]; [|done].
  destruct (cluster_handler k) as [[]|]; cbn [onCommand]; try done.
  - unfold Basic_onCommand, path_of. cbn [CommandId]. rewrite is_number_number.
    by destruct (cmd_id c =? 0).
  - rewrite commissioning_spec by done. by destruct (commissioning_response c).
Qed.

Lemma forEach_ext {S X} (f g : X → js S unit) l s :
  (∀ x, x ∈ l → ∀ s, f x s = g x s) → js_forEach f l s = js_forEach g l s.
Proof.
  revert s. induction l as [|x l IH]; intros s H; [done|]. cbn [js_forEach].
  unfold mbind, js_bind. rewrite H by set_solver. destruct (g x s) as [s' [[]|e]]; [|done].
  apply IH. set_solver.
Qed.

Lemma forEach_fmap {S X Y} (f : Y → js S unit) (h : X → Y) l s :
  js_forEach f (h <$> l) s = js_forEach (λ x, f (h x)) l s.
Proof.
  revert s. induction l as [|x l IH]; intros s; [done|]. cbn [js_forEach fmap list_fmap].
  unfold mbind, js_bind. destruct (f (h x) s) as [s' [[]|e]]; [apply IH|done].
Qed.

(** ** The operational credentials cluster *)

Lemma command_data_first s t c l :
  command_data (JArr (elem_json <$> invoke_request s t (c :: l)))
  = Ret (JArr (elem_json <$> cmd_data c)).
Proof. done. Qed.

Lemma received_request msg s t l :
  AppPayload msg = Ret (elems_bytes (invoke_request s t l)) → Forall command_ok l →
  received_json msg = Ret (JArr (elem_json <$> invoke_request s t l)).
Proof. intros Hm H. destruct (invoke_request_wf s t l H). by apply received_elems. Qed.

Lemma certificate_spec x msg s t c1 l c z w rest :
  AppPayload msg = Ret (elems_bytes (invoke_request s t (c1 :: l))) →
  Forall command_ok (c1 :: l) → existsb wide_data (c1 :: l) = false →
  cmd_data c1 = uint 0 z :: rest → id_ok z → command_ok c →
  onCertificateChainRequest x msg (path_of c) w
  = answer x (data_response c 3 [octets 0 (certificate_of z)]) w.
Proof.
  intros Hm Hl Hb Hd Hz Hc. unfold onCertificateChainRequest.
  rewrite (received_request _ _ _ _ Hm Hl). unfold stringify.
  rewrite js_bind_lift, invoke_bigint, Hb, js_bind_lift by done.
  rewrite command_data_first, js_bind_lift, Hd.
  assert (argument (JArr (elem_json <$> (uint 0 z :: rest))) 0 = Ret (number z)) as ->.
  { cbn [fmap list_fmap]. by rewrite uint_json. }
  rewrite js_bind_lift. cbn [equals_number number num_val]. rewrite js_bind_lift.
  unfold sendCertificateChainResponse.
  change (bool_decide (VInt z = VInt 2)) with (is_number (number z) 2). rewrite is_number_number.
  fold (certificate_of z). apply respond_elems; [done|unfold id_ok, UINT32_MAX; lia| |done].
  apply (elems_cons _ [] [octets 0 (certificate_of z)] []); [|done].
  apply elems_field_bytes; [lia|]. unfold certificate_of. by destruct (z =? 2).
Qed.

(** The elements a response signs. *)
Lemma attestation_elements_spec nonce :
  blen nonce <= UINT32_MAX →
  encode_new (TemplateAttestationElements (JBuf TEST_CERTIFICATION_DECLARATION) (JBuf nonce)
                (number 0))
  = Ret (attestation_elements TEST_CERTIFICATION_DECLARATION nonce).
Proof.
  intros Hn. apply encode_elems. unfold elems_of, TemplateAttestationElements, struct_of, message.
  apply (elems_container None TagAnon "struct" KStruct); [done|done|].
  change [octets ?i ?a; octets ?j ?b; uint ?k ?c] with ([octets i a] ++ [octets j b] ++ [uint k c] ++ []).
  repeat apply elems_cons; try done; by apply elems_field_bytes.
Qed.

Lemma nocsr_elements_spec csr nonce :
  blen csr <= UINT32_MAX → blen nonce <= UINT32_MAX →
  encode_new (TemplateNocsrElements (JBuf csr) (JBuf nonce)) = Ret (nocsr_elements csr nonce).
Proof.
  intros Hc Hn. apply encode_elems. unfold elems_of, TemplateNocsrElements, struct_of, message.
  apply (elems_container None TagAnon "struct" KStruct); [done|done|].
  change [octets ?i ?a; octets ?j ?b] with ([octets i a] ++ [octets j b] ++ []).
  repeat apply elems_cons; try done; by apply elems_field_bytes.
Qed.

Lemma two_buffers_elems a b :
  blen a <= UINT32_MAX → blen b <= UINT32_MAX →
  elems_at None (JArr [field 0 "Buffer" (JBuf a); field 1 "Buffer" (JBuf b)])
  = Some [octets 0 a; octets 1 b].
Proof.
  intros Ha Hb. change [octets 0 a; octets 1 b] with ([octets 0 a] ++ [octets 1 b] ++ []).
  repeat apply elems_cons; try done; by apply elems_field_bytes.
Qed.

(** The attestation challenge of an exchange is its session's. *)
Lemma attestation_challenge_spec m x e s :
  exchange_heap m !! x = Some e → sessions (em_sessions m) !! ex_session e = Some s →
  attestation_challenge x m =
    (m, match cryptoContext s with
        | Some c => from_option Ret (Throw TypeError) (AttestationChallenge c)
        | None => Throw TypeError
        end).
Proof.
  intros He Hs. unfold attestation_challenge, mbind, js_bind, get_exchange. rewrite He.
  unfold in_sessions, zoom, get_session, on_session. rewrite Hs. cbn.
  unfold js_lift. f_equal. destruct m as [[ss a b r] h l n]. cbn in *. unfold set_em_sessions. cbn.
  do 2 f_equal. by apply list_insert_id.
Qed.

(** The session of an exchange, with its attestation challenge. *)
Definition challenge_of (m : ExchangeManager) (x : nat) (challenge : buffer) : Prop :=
  ∃ e s c, exchange_heap m !! x = Some e ∧ sessions (em_sessions m) !! ex_session e = Some s ∧
    cryptoContext s = Some c ∧ AttestationChallenge c = Some challenge.

Lemma challenge_read x w challenge :
  challenge_of (im_em w) x challenge →
  in_exchanges (attestation_challenge x) w = (w, Ret challenge).
Proof.
  intros (e & s & c & He & Hs & Hc & Ha). unfold in_exchanges, zoom.
  rewrite (attestation_challenge_spec _ _ _ _ He Hs), Hc, Ha. by destruct w.
Qed.

Lemma attestation_spec x msg s t c1 l c nonce rest challenge signature w :
  AppPayload msg = Ret (elems_bytes (invoke_request s t (c1 :: l))) →
  Forall command_ok (c1 :: l) → cmd_data c1 = octets 0 nonce :: rest → command_ok c →
  blen nonce <= UINT32_MAX → challenge_of (im_em w) x challenge →
  let elements := attestation_elements TEST_CERTIFICATION_DECLARATION nonce in
  Sign (elements ++ challenge) TEST_DAC_PRIVKEY = Ret signature →
  blen elements <= UINT32_MAX → blen signature <= UINT32_MAX →
  onAttestationRequest x msg (path_of c) w
  = answer x (data_response c 1 [octets 0 elements; octets 1 signature]) w.
Proof.
  intros Hm Hl Hd Hc Hn Hch elements Hs He Hsig. unfold onAttestationRequest.
  rewrite (received_request _ _ _ _ Hm Hl), js_bind_lift, command_data_first, js_bind_lift, Hd.
  change (argument (JArr (elem_json <$> (octets 0 nonce :: rest))) 0) with (Ret (JBuf nonce)).
  rewrite js_bind_lift. cbn [js_toString_hex]. rewrite js_bind_lift.
  unfold sendAttestationResponse. rewrite attestation_elements_spec, js_bind_lift by done.
  rewrite (js_bind_eq _ _ _ _ _ (challenge_read _ _ _ Hch)). fold elements.
  rewrite Hs, js_bind_lift.
  apply respond_elems; [done|unfold id_ok, UINT32_MAX; lia|by apply two_buffers_elems|done].
Qed.

(** Up to the [await] nothing is sent: the world gets a job, and the tape moves. *)
Lemma csr_request_spec x msg s t c1 l c nonce rest w :
  AppPayload msg = Ret (elems_bytes (invoke_request s t (c1 :: l))) →
  Forall command_ok (c1 :: l) → cmd_data c1 = octets 0 nonce :: rest →
  ∃ key w', onCsrRequest x msg (path_of c) w = (w', Ret tt) ∧
    csr_jobs w' = csr_jobs w ++ [CsrJob x (path_of c) (JBuf nonce) key] ∧
    sent (sm_runtime (em_sessions (im_em w'))) = sent (sm_runtime (em_sessions (im_em w))) ∧
    im_rejections w' = im_rejections w ∧
    exchange_heap (im_em w') = exchange_heap (im_em w) ∧
    sessions (em_sessions (im_em w')) = sessions (em_sessions (im_em w)).
Proof.
  intros Hm Hl Hd. eexists _, _. split; [|split_and!].
  - unfold onCsrRequest. rewrite (received_request _ _ _ _ Hm Hl), js_bind_lift.
    rewrite command_data_first, js_bind_lift, Hd.
    change (argument (JArr (elem_json <$> (octets 0 nonce :: rest))) 0) with (Ret (JBuf nonce)).
    rewrite js_bind_lift. reflexivity.
  - cbn. reflexivity.
  - done.
  - done.
  - done.
  - done.
Qed.

Lemma csr_ready_spec x c nonce key csr challenge store signature w :
  command_ok c → blen csr <= UINT32_MAX → blen nonce <= UINT32_MAX →
  challenge_of (im_em w) x challenge → DaPrivateKey w = Some store →
  let elements := nocsr_elements csr nonce in
  Sign (elements ++ challenge) (hex_decode store) = Ret signature →
  blen elements <= UINT32_MAX → blen signature <= UINT32_MAX →
  csr_ready (CsrJob x (path_of c) (JBuf nonce) key) csr w
  = answer x (data_response c 5 [octets 0 elements; octets 1 signature]) w.
Proof.
  intros Hc Hr Hn Hch Hk elements Hs He Hsig. unfold csr_ready. cbn [cj_nonce cj_exchange cj_path].
  rewrite hex_decode_encode, nocsr_elements_spec, js_bind_lift by done.
  rewrite (js_bind_eq _ _ _ _ _ (challenge_read _ _ _ Hch)). fold elements.
  change (js_get ≫= ?f) with (λ w : ImWorld, f w w). cbn beta. rewrite Hk. cbn [from_option].
  rewrite js_bind_lift, Hs, js_bind_lift.
  apply respond_elems; [done|unfold id_ok, UINT32_MAX; lia|by apply two_buffers_elems|done].
Qed.

(** Sizes, for elements of bounded content. *)
Lemma blen_octets t b : 0 <= t <= 255 → blen b <= UINT32_MAX →
  blen (elem_bytes (octets t b)) <= 10 + blen b.
Proof.
  intros Ht Hb. unfold octets. cbn [elem_bytes prim_type prim_payload].
  unfold header, tag_bytes. rewrite blen_app. cbn [app].
  rewrite blen_app, blen_uint_bytes. unfold width_of_log.
  pose proof (uint_log_range (blen b)).
  change (blen (?x :: le_bytes 1 t)) with (Z.of_nat 2). repeat case_match; lia.
Qed.
End sending.
