(* ===== verification/ImTheorems.v ===== *)
(** * Theorems about the Interaction Model

    A read request is answered with the reports it asks for, or not at all; a
    command request runs its commands in order; what the commissioning and the
    credentials commands answer. *)
From S2P Require Import Prelude JsNumber JsString JsValue TlvType TlvCodec TlvWriter TlvReader.
From S2P Require Import TlvElement TlvFacts TlvWriterFacts TlvReaderFacts TlvTheorems TlvWire Aead.
From S2P Require Import Message Runtime SessionCryptoContext Session SessionManager Exchange.
From S2P Require Import ExchangeManager MessagingFacts ImConst ImCommand Clusters ExampleCerts.
From S2P Require Import MessagingTheorems Ecdsa ClusterServers InteractionModel ImSpec ImFacts CommandFacts.
From S2P Require Import Certificate.

(** ** Lemmas *)

(** The values of the attribute tables are numbers, null, or a structure of numbers. *)
Lemma attribute_wire c id a :
  getAttribute c id = Ret (Some a) → elems_ascii (value_elems (attr_value a)).
Proof.
  assert (∀ t : table Attribute, Forall (λ a, elems_ascii (value_elems (attr_value a))) t.*2 →
    lookup_property t id = Ret (Some a) → elems_ascii (value_elems (attr_value a))) as Ht.
  { intros t Ht H. apply lookup_property_in in H. by eapply Forall_forall in Ht. }
  destruct c; cbn [getAttribute]; [apply Ht; repeat constructor..|done].
Qed.

Lemma value_elems_ok v : value_known v → elems_ok (value_elems v).
Proof.
  unfold value_known, value_elems. intros H.
  destruct v; cbn beta iota in H |- *;
    lazymatch type of H with ?o ≠ None => destruct o as [y|] eqn:E; [|done] end;
    cbn [default from_option fmap option_fmap option_map id];
    first [by eapply elems_at_ok
          |repeat constructor; cbn; [unfold UINT8_MAX; lia..|by eapply prim_auto_ok]].
Qed.

Lemma report_wf c e r a id :
  id_ok e → id_ok (rq_cluster r) → id_ok (rq_attribute r) → getAttribute c id = Ret (Some a) →
  elem_ok (report_elem e r a) ∧ elem_ascii (report_elem e r a).
Proof.
  intros He Hc Ha H. pose proof (value_elems_ok _ (attribute_known c id a H)) as Ho.
  pose proof (attribute_wire c id a H) as Hs.
  unfold id_ok, UINT32_MAX in *. unfold report_elem, structure, path_elems.
  split; cbn [elem_ok elem_ascii]; [split; [done|]|];
    repeat (constructor; try done); cbn; unfold UINT8_MAX, DATA_VERSION; try lia;
    by apply Forall_fmap.
Qed.

Lemma report_elem_wf e r a :
  id_ok e → id_ok (rq_cluster r) → id_ok (rq_attribute r) → attribute_of e r = Ret (Some a) →
  elem_ok (report_elem e r a) ∧ elem_ascii (report_elem e r a).
Proof.
  intros He Hc Ha H. unfold attribute_of in H. destruct (cluster_class _ _) as [k|]; [|done].
  cbn in H. destruct (cluster_handler k); [by eapply report_wf|done].
Qed.

Lemma mapM_inv {X Y} (f : X → outcome Y) l rs :
  mapM f l = Ret rs → Forall2 (λ x y, f x = Ret y) l rs.
Proof.
  revert rs. induction l as [|x l IH]; intros rs H; cbn in H.
  { apply (Ret_inj []) in H. subst. constructor. }
  apply outcome_bind_Ret in H as (y & Hy & H). apply outcome_bind_Ret in H as (ys & Hys & H).
  apply Ret_inj in H. subst. constructor; [done|by apply IH].
Qed.

Lemma concat_wf (P : elem → Prop) rs : Forall (Forall P) rs → Forall P (concat rs).
Proof. induction 1; [done|]. by apply Forall_app. Qed.

Lemma reports_wf r es :
  attribute_request_ok r → reports r = Ret es → elems_ok es ∧ elems_ascii es.
Proof.
  intros (He & Hc & Ha) H. unfold reports in H.
  destruct (mapM (report_on r) (asked r)) as [rs|] eqn:E; [|done]. apply Ret_inj in H. subst es.
  apply mapM_inv in E.
  assert (Forall id_ok (asked r)) as Hk.
  { unfold asked. destruct (rq_endpoint r); cbn in *; repeat constructor;
      unfold id_ok, UINT32_MAX in *; cbn; lia. }
  enough (Forall (Forall (λ e, elem_ok e ∧ elem_ascii e)) rs) as Hf.
  { apply concat_wf in Hf. by split; eapply Forall_impl; [exact Hf|intros ? []|exact Hf|intros ? []]. }
  clear He. induction E as [|k es ks rs Hr _ IH]; [constructor|].
  apply Forall_cons in Hk as [Hk Hks]. constructor; [|by apply IH].
  unfold report_on in Hr. apply outcome_bind_Ret in Hr as (a & Hat & Hr). apply Ret_inj in Hr.
  subst es. destruct a as [a|]; cbn [from_option]; [|constructor].
  apply Forall_singleton. by apply report_elem_wf.
Qed.

Lemma report_data_decodes l rs :
  Forall attribute_request_ok l → mapM reports l = Ret rs →
  decode_json (elems_bytes (report_data (concat rs)))
  = Ret (JArr (elem_json <$> report_data (concat rs))).
Proof.
  intros Hl H. apply mapM_inv in H.
  assert (elems_ok (concat rs) ∧ elems_ascii (concat rs)) as [Ho Ha].
  { induction H as [|r es l rs Hr _ IH]; [split; constructor|].
    apply Forall_cons in Hl as [Hok Hl]. destruct (reports_wf _ _ Hok Hr).
    destruct (IH Hl). split; by apply Forall_app. }
  apply decode_json_elems.
  - constructor; [|constructor]. cbn. split; [done|]. repeat constructor; cbn; [unfold UINT8_MAX; lia..|].
    by apply Forall_fmap.
  - repeat constructor. by apply Forall_fmap.
Qed.

(** A path that no report can answer: an endpoint that does not exist, or the
    operational credentials cluster, which has no attributes to read. *)
Definition unanswerable (r : attribute_request) : Prop :=
  (∃ e, rq_endpoint r = Some e ∧ e ∉ endpoint_keys) ∨
  (rq_cluster r = 62 ∧ (rq_endpoint r = None ∨ rq_endpoint r = Some 0)).

Lemma mapM_throws {X Y} (f : X → outcome Y) l err :
  (∀ x e, x ∈ l → f x = Throw e → e = err) →
  (∃ x, x ∈ l ∧ f x = Throw err) → mapM f l = Throw err.
Proof.
  induction l as [|x l IH]; intros Hall (y & Hy & Hf); [set_solver|].
  cbn. destruct (f x) as [a|e] eqn:E; cbn.
  - apply elem_of_cons in Hy as [->|Hy]; [congruence|].
    rewrite IH; [done|set_solver|by exists y].
  - f_equal. eapply Hall; [|exact E]. set_solver.
Qed.

Lemma mapM_throw_inv {X Y} (f : X → outcome Y) l e :
  mapM f l = Throw e → ∃ x, x ∈ l ∧ f x = Throw e.
Proof.
  induction l as [|x l IH]; [done|]. cbn. destruct (f x) as [a|e'] eqn:E; cbn.
  - intros H. destruct IH as (y & Hy & Hf); [by destruct (mapM f l)|]. exists y. set_solver.
  - intros [= ->]. exists x. set_solver.
Qed.

Lemma attribute_throws e r err :
  id_ok e → id_ok (rq_cluster r) → id_ok (rq_attribute r) →
  attribute_of e r = Throw err → err = TypeError.
Proof.
  intros He Hc Ha. unfold attribute_of, cluster_class. rewrite lookup_id by done.
  cbn [mbind outcome_bind]. destruct (own_property Endpoints _) as [t|];
    cbn [mbind outcome_bind]; [|congruence].
  rewrite lookup_id by done. cbn [mbind outcome_bind]. destruct (cluster_handler _) as [c|]; [|done].
  destruct c; cbn [getAttribute]; rewrite ?lookup_id by done; congruence.
Qed.

Lemma asked_ok r : attribute_request_ok r → Forall id_ok (asked r).
Proof.
  intros (He & _). unfold asked. destruct (rq_endpoint r); cbn in *; repeat constructor;
    unfold id_ok, UINT32_MAX in *; cbn; lia.
Qed.

Lemma report_on_throw r e err : report_on r e = Throw err → attribute_of e r = Throw err.
Proof. unfold report_on. destruct (attribute_of e r); cbn; congruence. Qed.

Lemma report_on_of_throw r e err : attribute_of e r = Throw err → report_on r e = Throw err.
Proof. unfold report_on. intros H. by rewrite H. Qed.

Lemma reports_throws r err : attribute_request_ok r → reports r = Throw err → err = TypeError.
Proof.
  intros Hr. unfold reports. destruct (mapM _ _) as [|e] eqn:E; [done|]. intros [= ->].
  apply mapM_throw_inv in E as (k & Hk & E). apply report_on_throw in E.
  pose proof (asked_ok r Hr) as Hks. rewrite Forall_forall in Hks.
  destruct Hr as (_ & Hc & Ha). eapply attribute_throws; [|exact Hc|exact Ha|exact E].
  by apply Hks.
Qed.

Lemma reports_unanswerable r :
  attribute_request_ok r → unanswerable r → reports r = Throw TypeError.
Proof.
  intros Hr Hu. pose proof (asked_ok r Hr) as Hks. rewrite Forall_forall in Hks.
  unfold reports. rewrite (mapM_throws _ _ TypeError); [done| |].
  - intros k err Hk E. apply report_on_throw in E. destruct Hr as (_ & Hc & Ha).
    eapply attribute_throws; [|exact Hc|exact Ha|exact E]. by apply Hks.
  - destruct Hu as [(e & He & Hn)|(Hc & He)].
    + exists e. unfold asked in *. rewrite He in *. cbn in *. split; [set_solver|].
      apply report_on_of_throw. unfold attribute_of.
      rewrite unknown_endpoint; [done| |done]. apply Hks. set_solver.
    + exists 0. split.
      { unfold asked. destruct He as [-> | ->]; [|cbn; set_solver].
        change (0 ∈ [0; 1; 2; 0]). set_solver. }
      apply report_on_of_throw. unfold attribute_of. rewrite Hc. reflexivity.
Qed.

Section im.
Context `{HA : Aead} `{HK : Kdf} `{HE : Ecdsa} `{HX : X509}.

Lemma onReadRequest_spec l msg x w :
  Forall attribute_request_ok l → AppPayload msg = Ret (elems_bytes (read_request l)) →
  onReadRequest x msg w =
    (rs ← js_lift (mapM reports l);
     in_exchanges (im_send x ReportData (elems_bytes (report_data (concat rs))))) w.
Proof.
  intros Hl Hm. unfold onReadRequest. destruct (read_request_wf l Hl) as [Ho Ha].
  rewrite (received_elems _ _ Hm Ho Ha), js_bind_lift, (read_request_params l Hl), js_bind_lift.
  change (findTag (JArr [JObj (mk_entry (TagContext 0) TLV_TYPE_ARRAY ?v)])
            ReadRequest_AttributeRequests) with (Ret v).
  rewrite js_bind_lift, report_payload_spec by done.
  by destruct (mapM reports l).
Qed.

(** A read request on the wire is answered, on the exchange it came in on, with
    one ReportData message that holds exactly the reports the request asks for, in
    its order: for each path the attributes found on the endpoints asked about, with
    their paths and values, and nothing for a cluster or attribute that is not there.
    A client's reader gets that structure back. *)
Theorem read_refines (l : list attribute_request) (msg : Message) (x : nat) (w : ImWorld)
    (rs : list (list elem)) :
  Forall attribute_request_ok l →
  AppPayload msg = Ret (elems_bytes (read_request l)) →
  mapM reports l = Ret rs →
  onReadRequest x msg w
    = in_exchanges (im_send x ReportData (elems_bytes (report_data (concat rs)))) w ∧
  decode_json (elems_bytes (report_data (concat rs)))
    = Ret (JArr (elem_json <$> report_data (concat rs))).
Proof.
  intros Hl Hm Hrs. split; [|by eapply report_data_decodes].
  rewrite (onReadRequest_spec l) by done. by rewrite Hrs.
Qed.

(** One path that cannot be answered (an unknown endpoint, or any attribute of
    the operational credentials cluster) makes the whole read request throw a
    TypeError: nothing is sent and the node's state is as before, whatever else was
    asked. *)
Theorem bad_path_loses_report (l : list attribute_request) (msg : Message) (x : nat)
    (w : ImWorld) (r : attribute_request) :
  Forall attribute_request_ok l →
  AppPayload msg = Ret (elems_bytes (read_request l)) →
  r ∈ l → unanswerable r →
  onReadRequest x msg w = (w, Throw TypeError).
Proof.
  intros Hl Hm Hr Hu. rewrite (onReadRequest_spec l) by done.
  rewrite Forall_forall in Hl. rewrite (mapM_throws reports l TypeError); [done| |].
  - intros r' e Hr'. apply reports_throws. by apply Hl.
  - exists r. split; [done|]. apply reports_unanswerable; [by apply Hl|done].
Qed.

Lemma onInvokeCommandRequest_spec s t l msg x w :
  Forall command_ok l → AppPayload msg = Ret (elems_bytes (invoke_request s t l)) →
  onInvokeCommandRequest x msg w =
    if existsb wide_data l then (w, Throw TypeError)
    else js_forEach (command_effect x msg) l w.
Proof.
  intros Hl Hm. unfold onInvokeCommandRequest.
  rewrite (received_request _ _ _ _ Hm Hl), js_bind_lift, invoke_request_params by done.
  destruct (existsb wide_data l) eqn:Hw; [done|]. rewrite js_bind_lift.
  change (findTag (invoke_params s t l) InvokeRequest_SuppressResponse) with (Ret (JBool s)).
  change (findTag (invoke_params s t l) InvokeRequest_TimedRequest) with (Ret (JBool t)).
  change (findTag (invoke_params s t l) InvokeRequest_CommandList) with
    (Ret (JArr (elem_json <$> (command_elem <$> l)))).
  rewrite !js_bind_lift. cbn [each]. rewrite js_bind_lift, !forEach_fmap.
  apply forEach_ext. intros c Hc w'. rewrite Forall_forall in Hl.
  apply invoke_command_spec; [by apply Hl|].
  destruct (wide_data c) eqn:E; [|done]. rewrite <- Hw. symmetry. apply existsb_exists.
  exists c. split; [by apply list_elem_of_In|done].
Qed.

(** C29: the commands of a request run in its order, each with the effect its cluster
    gives it: the general commissioning cluster answers its three commands (whatever
    their data, and whatever [SuppressResponse] says) with one message each, the basic
    and network commissioning clusters throw a ReferenceError, a cluster without a
    handler does nothing, an unknown endpoint throws; the first exception stops the
    rest.  A request that holds an integer of 33 to 64 bits is not run at all. *)
Theorem invoke_refines (s t : bool) (l : list command) (msg : Message) (x : nat) (w : ImWorld) :
  Forall command_ok l → AppPayload msg = Ret (elems_bytes (invoke_request s t l)) →
  onInvokeCommandRequest x msg w =
    if existsb wide_data l then (w, Throw TypeError)
    else js_forEach (command_effect x msg) l w.
Proof. apply onInvokeCommandRequest_spec. Qed.

(** A certificate request to the operational credentials cluster of endpoint 0. *)
Definition certificate_request (c : command) : Prop :=
  cmd_endpoint c = 0 ∧ cmd_cluster c = 62 ∧ cmd_id c = 2.

(** C30: every certificate request of a message is answered with the certificate that
    the *first* command of the message asks for: the handlers read their argument from
    there and not from the command they are run for. *)
Theorem first_certificate_for_all (s t : bool) (c : command) (l : list command) (z : Z)
    (rest : list elem) (msg : Message) (x : nat) (w : ImWorld) :
  Forall command_ok (c :: l) → Forall certificate_request (c :: l) →
  existsb wide_data (c :: l) = false →
  cmd_data c = uint 0 z :: rest → id_ok z →
  AppPayload msg = Ret (elems_bytes (invoke_request s t (c :: l))) →
  onInvokeCommandRequest x msg w =
    js_forEach (λ c', answer x (data_response c' 3 [octets 0 (certificate_of z)])) (c :: l) w.
Proof.
  intros Hok Hreq Hw Hd Hz Hm. rewrite (onInvokeCommandRequest_spec s t (c :: l)), Hw by done.
  apply forEach_ext. intros c' Hc' w'. rewrite Forall_forall in Hreq, Hok.
  destruct (Hreq c' Hc') as (He & Hcl & Hi). unfold command_effect. rewrite He, Hcl.
  change (cluster_class (number 0) (number 62)) with
    (Ret (Some "ClusterOperationalCredentialsServer"%string)).
  rewrite js_bind_lift. change (cluster_handler (Some "ClusterOperationalCredentialsServer"%string))
    with (Some OperationalCredentialsServer). cbn iota.
  unfold OperationalCredentials_onCommand. cbn [path_of CommandId].
  rewrite !is_number_number, Hi. cbn iota.
  eapply certificate_spec; [exact Hm|by rewrite Forall_forall|done..|by apply Hok].
Qed.

Lemma message_size l : blen (elems_bytes (message l)) = 2 + blen (elems_bytes l).
Proof.
  unfold message. rewrite elems_bytes_one.
  change (elem_bytes (Cont TagAnon KStruct l)) with (header TLV_TYPE_STRUCTURE TagAnon ++ elems_bytes l ++ end_bytes).
  rewrite !blen_app. change (blen (header TLV_TYPE_STRUCTURE TagAnon)) with 1.
  change (blen end_bytes) with 1. lia.
Qed.

Lemma attestation_size declaration nonce :
  blen declaration <= UINT16_MAX → blen nonce <= UINT16_MAX →
  blen (attestation_elements declaration nonce) <= UINT32_MAX.
Proof.
  intros Hd Hn. unfold attestation_elements. rewrite message_size.
  change (elems_bytes [?a; ?b; ?c]) with (elem_bytes a ++ elem_bytes b ++ elem_bytes c ++ []).
  rewrite !blen_app.
  change (blen (elem_bytes (uint 3 0))) with 3. unfold UINT16_MAX, UINT32_MAX in *.
  pose proof (blen_octets 1 declaration). pose proof (blen_octets 2 nonce).
  unfold UINT32_MAX in *. change (blen (@nil Byte.byte)) with 0. lia.
Qed.

Lemma nocsr_size csr nonce :
  blen csr <= UINT16_MAX → blen nonce <= UINT16_MAX →
  blen (nocsr_elements csr nonce) <= UINT32_MAX.
Proof.
  intros Hd Hn. unfold nocsr_elements. rewrite message_size.
  change (elems_bytes [?a; ?b]) with (elem_bytes a ++ elem_bytes b ++ []). rewrite !blen_app.
  unfold UINT16_MAX, UINT32_MAX in *.
  pose proof (blen_octets 1 csr). pose proof (blen_octets 2 nonce).
  unfold UINT32_MAX in *. change (blen (@nil Byte.byte)) with 0. lia.
Qed.

Lemma Sign_size `{!EcdsaLaws HE} message key signature :
  Sign message key = Ret signature → blen signature <= 64.
Proof.
  unfold Sign. intros H. apply outcome_bind_Ret in H as ([r v] & Hrv & H).
  apply Ret_inj in H. subst. destruct (sign_size _ _ _ _ Hrv). rewrite blen_app. lia.
Qed.

(** An attestation request is answered, on the same exchange, with the TLV of
    certification declaration, the requester's nonce and timestamp 0, and a signature
    by the device attestation key over that and the attestation challenge of the
    exchange's session. *)
Lemma attestation_effect `{!EcdsaLaws HE} (s t : bool) (c : command) (l : list command)
    (nonce challenge signature : buffer) (rest : list elem) (msg : Message) (x : nat)
    (w : ImWorld) :
  Forall command_ok (c :: l) →
  AppPayload msg = Ret (elems_bytes (invoke_request s t (c :: l))) →
  cmd_data c = octets 0 nonce :: rest → blen nonce <= UINT16_MAX →
  challenge_of (im_em w) x challenge →
  Sign (attestation_elements TEST_CERTIFICATION_DECLARATION nonce ++ challenge)
    TEST_DAC_PRIVKEY = Ret signature →
  onAttestationRequest x msg (path_of c) w
  = answer x (data_response c 1
      [octets 0 (attestation_elements TEST_CERTIFICATION_DECLARATION nonce);
       octets 1 signature]) w.
Proof.
  intros Hl Hm Hd Hn Hch Hs.
  pose proof (Sign_size _ _ _ Hs). inversion Hl as [|? ? Hc _]; subst.
  eapply attestation_spec; [exact Hm|exact Hl|exact Hd|exact Hc| |exact Hch|exact Hs|..].
  - unfold UINT16_MAX, UINT32_MAX in *. lia.
  - apply attestation_size; [|done].
    assert (length TEST_CERTIFICATION_DECLARATION = 541%nat) as He by reflexivity.
    unfold blen, UINT16_MAX. lia.
  - unfold UINT32_MAX. lia.
Qed.

(** A verifier with the device's public key accepts the signature, provided it came out
    64 octets long. *)
Theorem attestation_response `{!EcdsaLaws HE} (s t : bool) (c : command) (l : list command)
    (nonce challenge signature : buffer) (rest : list elem) (msg : Message) (x : nat)
    (w : ImWorld) :
  Forall command_ok (c :: l) →
  AppPayload msg = Ret (elems_bytes (invoke_request s t (c :: l))) →
  cmd_data c = octets 0 nonce :: rest → blen nonce <= UINT16_MAX →
  challenge_of (im_em w) x challenge →
  Sign (attestation_elements TEST_CERTIFICATION_DECLARATION nonce ++ challenge)
    TEST_DAC_PRIVKEY = Ret signature →
  onAttestationRequest x msg (path_of c) w
  = answer x (data_response c 1
      [octets 0 (attestation_elements TEST_CERTIFICATION_DECLARATION nonce);
       octets 1 signature]) w ∧
  (blen signature = 64 →
   Verify (attestation_elements TEST_CERTIFICATION_DECLARATION nonce ++ challenge) signature
     (ec_public TEST_DAC_PRIVKEY) = true).
Proof. intros. split; [by eapply attestation_effect|by apply Verify_Sign]. Qed.

(** A job that resumes answers on its exchange. *)
Lemma resume_csr_spec `{!EcdsaLaws HE} c x i seed nonce key csr challenge store signature w :
  command_ok c → blen nonce <= UINT16_MAX →
  csr_jobs w !! i = Some (CsrJob x (path_of c) (JBuf nonce) key) →
  ec_csr key seed = Ret csr → blen csr <= UINT16_MAX →
  DaPrivateKey w = Some store → challenge_of (im_em w) x challenge →
  Sign (nocsr_elements csr nonce ++ challenge) (hex_decode store) = Ret signature →
  resume_csr i seed w
  = im_async (answer x (data_response c 5
      [octets 0 (nocsr_elements csr nonce); octets 1 signature]))
      (set_csr_jobs (delete i (csr_jobs w)) w).
Proof.
  intros Hc Hn Hi Hcsr Hlen Hst Hch Hsig. pose proof (Sign_size _ _ _ Hsig).
  unfold resume_csr. change (js_get ≫= ?f) with (λ w : ImWorld, f w w). cbn beta. rewrite Hi.
  change (js_put ?w0 ≫= ?f) with (λ _ : ImWorld, f tt w0). cbn beta.
  unfold im_async. cbn [cj_privateKey]. rewrite Hcsr, js_bind_lift.
  rewrite (csr_ready_spec x c nonce key csr challenge store signature); try done.
  - unfold UINT16_MAX, UINT32_MAX in *. lia.
  - unfold UINT16_MAX, UINT32_MAX in *. lia.
  - by apply nocsr_size.
  - unfold UINT32_MAX. lia.
Qed.

(** A CSR request sends nothing at once: it leaves one job behind.  Whenever that
    job resumes, and whatever happened in between, the answer goes out on the exchange
    of the request, with the requester's nonce and a signature by the stored key over
    the elements and the challenge the exchange's session has by then. *)
Theorem csr_answered_later `{!EcdsaLaws HE} (s t : bool) (c : command) (l : list command)
    (nonce : buffer) (rest : list elem) (msg : Message) (x : nat) (w : ImWorld) :
  Forall command_ok (c :: l) →
  AppPayload msg = Ret (elems_bytes (invoke_request s t (c :: l))) →
  cmd_data c = octets 0 nonce :: rest → blen nonce <= UINT16_MAX →
  ∃ j w1, onCsrRequest x msg (path_of c) w = (w1, Ret tt) ∧
    csr_jobs w1 = csr_jobs w ++ [j] ∧
    sent (sm_runtime (em_sessions (im_em w1))) = sent (sm_runtime (em_sessions (im_em w))) ∧
    ∀ i seed csr store challenge signature w2,
      csr_jobs w2 !! i = Some j →
      ec_csr (cj_privateKey j) seed = Ret csr → blen csr <= UINT16_MAX →
      DaPrivateKey w2 = Some store → challenge_of (im_em w2) x challenge →
      Sign (nocsr_elements csr nonce ++ challenge) (hex_decode store) = Ret signature →
      resume_csr i seed w2
      = im_async (answer x (data_response c 5
          [octets 0 (nocsr_elements csr nonce); octets 1 signature]))
          (set_csr_jobs (delete i (csr_jobs w2)) w2).
Proof.
  intros Hl Hm Hd Hn. inversion Hl as [|? ? Hc _]; subst.
  destruct (csr_request_spec x msg s t c l c nonce rest w Hm Hl Hd) as (key & w1 & H1 & Hj & Hs & _).
  eexists _, w1. split_and!; [exact H1|exact Hj|exact Hs|].
  intros i seed csr store challenge signature w2 Hi Hcsr Hlen Hst Hch Hsig.
  by apply (resume_csr_spec c x i seed nonce key csr challenge store).
Qed.
End im.

(** ** Concrete instances *)

(** A node with one secure session and one exchange on it. *)
Definition demo_exchange : Exchange := Exch 0 7 false false false 0 [].
Definition demo_world : ImWorld :=
  IMW (EM (SM [demo_session] [0%nat] [] zero_runtime) [demo_exchange] [0%nat] 0)
      (Some (hex_encode TEST_DAC_PRIVKEY)) [] [].

Definition demo_request (opcode : Z) (l : list elem) : Message :=
  match im_message opcode (elems_bytes l) with
  | Ret m => m
  | Throw _ => Message_new None None None
  end.

(** The product id of endpoint 0, and the fail-safe info wherever it is. *)
Definition demo_reads : list attribute_request := [Req (Some 0) 40 4; Req None 48 1].

Definition demo_reports : list (list elem) :=
  match mapM reports demo_reads with Ret rs => rs | Throw _ => [] end.

Lemma read_refines_witness :
  length (concat demo_reports) = 3%nat ∧
  (onReadRequest 0 (demo_request ReadRequest (read_request demo_reads)) demo_world
    = in_exchanges (im_send 0 ReportData (elems_bytes (report_data (concat demo_reports))))
        demo_world ∧
  decode_json (elems_bytes (report_data (concat demo_reports)))
    = Ret (JArr (elem_json <$> report_data (concat demo_reports)))).
Proof.
  split; [reflexivity|].
  apply (read_refines demo_reads).
  - repeat constructor; unfold id_ok, UINT32_MAX; cbn; lia.
  - vm_compute. reflexivity.
  - vm_compute. reflexivity.
Defined.

Lemma bad_path_loses_report_witness :
  onReadRequest 0
    (demo_request ReadRequest (read_request [Req (Some 0) 40 4; Req (Some 7) 40 4])) demo_world
  = (demo_world, Throw TypeError).
Proof.
  apply (bad_path_loses_report [Req (Some 0) 40 4; Req (Some 7) 40 4] _ 0 demo_world
           (Req (Some 7) 40 4)).
  - repeat constructor; unfold id_ok, UINT32_MAX; cbn; lia.
  - vm_compute. reflexivity.
  - set_solver.
  - left. exists 7. split; [done|]. change (7 ∉ [0; 1; 2; 0]). set_solver.
Defined.

Definition demo_commands : list command := [Cmd 0 48 0 [uint 0 60]; Cmd 0 6 1 []; Cmd 0 48 4 []].

Lemma invoke_refines_witness :
  onInvokeCommandRequest 0
    (demo_request CommandRequest (invoke_request false false demo_commands)) demo_world
  = js_forEach (command_effect 0
      (demo_request CommandRequest (invoke_request false false demo_commands)))
      demo_commands demo_world.
Proof.
  apply (invoke_refines false false demo_commands).
  - repeat constructor; unfold id_ok, UINT32_MAX, UINT8_MAX; cbn; lia.
  - vm_compute. reflexivity.
Defined.

(** The intermediate certificate is asked for, then the device's. *)
Definition demo_certificates : list command := [Cmd 0 62 2 [uint 0 2]; Cmd 0 62 2 [uint 0 1]].

Lemma first_certificate_for_all_witness :
  onInvokeCommandRequest 0
    (demo_request CommandRequest (invoke_request false false demo_certificates)) demo_world
  = js_forEach (λ c, answer 0 (data_response c 3 [octets 0 TEST_PAI_CERTIFICATE]))
      demo_certificates demo_world.
Proof.
  apply (first_certificate_for_all false false
           (Cmd 0 62 2 [uint 0 2]) [Cmd 0 62 2 [uint 0 1]] 2 []).
  - repeat constructor; unfold id_ok, UINT32_MAX, UINT8_MAX; cbn; lia.
  - repeat constructor.
  - reflexivity.
  - reflexivity.
  - unfold id_ok, UINT32_MAX. lia.
  - vm_compute. reflexivity.
Defined.

Definition demo_nonce : buffer := alloc 32.
Definition demo_challenge : buffer := hex_decode (js_str "c5aead0e0691c420284c9580f90e07b0").
Definition demo_attestation : command := Cmd 0 62 0 [octets 0 demo_nonce].
Definition demo_signature : buffer :=
  match Sign (attestation_elements TEST_CERTIFICATION_DECLARATION demo_nonce ++ demo_challenge)
          TEST_DAC_PRIVKEY with
  | Ret b => b
  | Throw _ => []
  end.

Definition demo_csr : command := Cmd 0 62 4 [octets 0 demo_nonce].

