(* ===== verification/ClusterTypes.v ===== *)
(** * The types of the attributes

    An attribute's declared type as a type of TLV elements, and what the node writes when
    the attribute is read. *)
From stdpp Require Import pretty.
From S2P Require Import Prelude JsNumber JsString JsValue TlvType TlvCodec TlvReader TlvElement.
From S2P Require Import TlvReaderFacts TlvWriterFacts Clusters Aead Ecdsa ClusterServers InteractionModel ImSpec.
From S2P Require Import ImFacts ImTheorems.

(** An unsigned integer of at most [bits] bits. *)
Definition is_uint (bits : Z) (e : elem) : bool :=
  match e with Prim _ (PUint z) => (0 <=? z) && (z <? 2 ^ bits) | _ => false end.

(** The declared types that occur in the tables; an enumeration is an 8-bit integer. *)
Definition has_type (ty : string) (e : elem) : bool :=
  if bool_decide (ty ∈ ["int8u"; "fabric_idx"; "RegulatoryLocationType";
                        "NetworkCommissioningStatus"]%string) then is_uint 8 e
  else if bool_decide (ty ∈ ["int16u"; "vendor_id"]%string) then is_uint 16 e
  else if bool_decide (ty ∈ ["int32u"; "bitmap32"]%string) then is_uint 32 e
  else if bool_decide (ty = "int64u"%string) then is_uint 64 e
  else if bool_decide (ty = "boolean"%string)
  then match e with Prim _ (PBool _) => true | _ => false end
  else if bool_decide (ty ∈ ["char_string"; "long_char_string"]%string)
  then match e with Prim _ (PStr _) => true | _ => false end
  else if bool_decide (ty = "octet_string"%string)
  then match e with Prim _ (PBytes _) => true | _ => false end
  else if bool_decide (ty = "array"%string)
  then match e with Cont _ KArray _ => true | _ => false end
  else if bool_decide (ty = "BasicCommissioningInfo"%string)
  then match e with
       | Cont _ KStruct [Prim (TagContext 0) _ as a; Prim (TagContext 1) _ as b] =>
           is_uint 16 a && is_uint 16 b
       | _ => false
       end
  else false.

(** [Attribute] of the class, its enumeration of attribute ids by name *)
Definition attribute_ids (c : ClusterServer) : table Z :=
  match c with
  | BasicServer => ClusterBasicServer.Basic_Attribute
  | GeneralCommissioningServer =>
      ClusterGeneralCommissioningServer.GeneralCommissioning_Attribute
  | NetworkCommissioningServer =>
      ClusterNetworkCommissioningServer.NetworkCommissioning_Attribute
  | OperationalCredentialsServer =>
      ClusterOperationalCredentialsServer.OperationalCredentials_Attribute
  end.

Definition elem_tag (e : elem) : tagform := match e with Prim t _ | Cont t _ _ => t end.

(** ** Checking a table *)

Definition is_undefined (v : json) : bool := match v with JUndef => true | _ => false end.
Definition is_null (e : elem) : bool := match e with Prim _ PNull => true | _ => false end.

Definition value_ok (a : Attribute) : bool :=
  match value_elems (attr_value a) with
  | [e] => match elem_tag e with TagContext t => t =? 2 | _ => false end
           && Bool.eqb (is_null e) (is_undefined (attr_value a))
           && (is_undefined (attr_value a) || has_type (attr_type a) e)
  | _ => false
  end.

Definition row_ok (c : ClusterServer) (row : string * Attribute) : bool :=
  existsb (λ p, bool_decide (p.1 = attr_name row.2) && bool_decide (pretty p.2 = row.1))
    (attribute_ids c) && value_ok row.2.

Lemma own_property_entry {A} (t : table A) k a :
  own_property t k = Some a → ∃ name, k = js_str name ∧ (name, a) ∈ t.
Proof.
  induction t as [|[n x] t IH]; [done|]. cbn. case_bool_decide as E; intros H.
  - simplify_eq. exists n. split; [done|]. by left.
  - destruct (IH H) as (name & -> & Hin). exists name. split; [done|]. by right.
Qed.

Lemma lookup_row c (t : table Attribute) id a :
  forallb (row_ok c) t = true → lookup_property t id = Ret (Some a) →
  ∃ name, property_key id = Ret (Some (js_str name)) ∧ row_ok c (name, a) = true.
Proof.
  intros Ht H. unfold lookup_property in H. apply outcome_bind_Ret in H as (k & Hk & H).
  destruct k as [k|]; [|done]. destruct (inherited id k); [done|]. inv_ret.
  match goal with H : own_property _ _ = _ |- _ => apply own_property_entry in H as (name & -> & Hin) end.
  exists name. split; [done|]. rewrite forallb_forall in Ht. apply Ht. by apply list_elem_of_In.
Qed.

Lemma getAttribute_row c id a : getAttribute c id = Ret (Some a) →
  ∃ name, property_key id = Ret (Some (js_str name)) ∧ row_ok c (name, a) = true.
Proof. destruct c; cbn [getAttribute]; [apply lookup_row; vm_compute; reflexivity..|done]. Qed.

Lemma property_key_id z : id_ok z → property_key (number z) = Ret (Some (js_str (pretty z))).
Proof.
  intros Hz. unfold id_ok, UINT32_MAX in Hz. cbn [property_key number num_val].
  by rewrite (proj2 (Z.ltb_lt _ _)) by lia.
Qed.

(** What a checked value is written as *)
Lemma value_ok_elem a : value_ok a = true →
  ∃ e, value_elems (attr_value a) = [e] ∧ elem_tag e = TagContext 2 ∧
    (attr_value a = JUndef → e = Prim (TagContext 2) PNull) ∧
    (attr_value a ≠ JUndef → has_type (attr_type a) e = true).
Proof.
  unfold value_ok. intros Hv. destruct (value_elems (attr_value a)) as [|e [|]] eqn:E; try done.
  exists e. split; [done|]. apply andb_true_iff in Hv as [[Hg Hu]%andb_true_iff Ht].
  destruct (elem_tag e) as [|t| | |]; try done. apply Z.eqb_eq in Hg as ->.
  split_and!; [done| |]; destruct (attr_value a); cbn in *; try done; by simplify_eq.
Qed.

(** The tables are not complete: of the 48 attributes 38 have no value, though 35 of
    those are declared not to be nullable. *)
Definition all_attributes : list Attribute :=
  (ClusterBasicServer.Basic_attributes
   ++ ClusterGeneralCommissioningServer.GeneralCommissioning_attributes
   ++ ClusterNetworkCommissioningServer.NetworkCommissioning_attributes).*2.

Lemma attributes_without_value :
  length all_attributes = 48%nat ∧
  length (filter (λ a, is_undefined (attr_value a) = true) all_attributes) = 38%nat ∧
  length (filter (λ a, is_undefined (attr_value a) = true ∧ attr_nullable a = false) all_attributes)
  = 35%nat.
Proof. vm_compute. by split_and!. Qed.

(** C40: what a read attribute is answered with.  The attribute that a cluster gives for an id
    is the one its enumeration gives that id.  The report that [reportAttribute] writes
    for it is read back as the report structure: data version, path and one more element, the
    data, with the tag 2.  When the table gives the attribute a value the data have the
    attribute's declared type; when it gives none, as for 38 of the 48 attributes
    ([attributes_without_value]), the data are a null, whatever the declared type. *)
Theorem attributes_typed (c : ClusterServer) (endpoint : Z) (r : attribute_request)
    (a : Attribute) :
  id_ok endpoint → id_ok (rq_cluster r) → id_ok (rq_attribute r) →
  getAttribute c (number (rq_attribute r)) = Ret (Some a) →
  (attr_name a, rq_attribute r) ∈ attribute_ids c ∧
  ∃ b data, reportAttribute a (request_path (Some endpoint) r) [] = (b, Ret tt) ∧
    decode_json b = Ret (JArr [elem_json (Cont TagAnon KStruct
      [structure 1 [uint 0 DATA_VERSION; Cont (TagContext 1) KList (path_elems (Some endpoint) r);
                    data]])]) ∧
    elem_tag data = TagContext 2 ∧
    (attr_value a = JUndef → data = Prim (TagContext 2) PNull) ∧
    (attr_value a ≠ JUndef → has_type (attr_type a) data = true).
Proof.
  intros He Hc Hr H. pose proof (getAttribute_row _ _ _ H) as (name & Hk & Hrow).
  rewrite property_key_id in Hk by done. apply andb_true_iff in Hrow as [Hn Hv].
  cbn [fst snd] in *. split.
  - apply existsb_exists in Hn as ([n k] & Hin & Hn). cbn in Hn.
    apply andb_true_iff in Hn as [->%bool_decide_eq_true Hp%bool_decide_eq_true].
    injection Hk as Hk%js_str_inj. rewrite <- Hp in Hk. apply (inj pretty) in Hk as ->.
    by apply list_elem_of_In.
  - destruct (value_ok_elem a Hv) as (e & Ee & Htag & Hu & Ht).
    destruct (performs_report endpoint r a He Hc Hr (attribute_known _ _ _ H) []) as ([] & Hw).
    destruct (report_wf c endpoint r a _ He Hc Hr H) as [Hok Hasc].
    unfold report_elem in Hw, Hok, Hasc. rewrite Ee in Hw, Hok, Hasc.
    exists (elem_bytes (Cont TagAnon KStruct [structure 1 [uint 0 DATA_VERSION;
              Cont (TagContext 1) KList (path_elems (Some endpoint) r); e]])), e.
    split; [exact Hw|]. split; [|by split_and!].
    rewrite <- elems_bytes_one. by apply decode_json_elems; constructor.
Qed.

(** The vendor id of the basic cluster *)
Lemma attributes_typed_witness :
  let a := attribute "VendorID" "vendor_id" (number 0xFFF1) in
  let r := Req (Some 0) 40 2 in
  ("VendorID"%string, 2) ∈ attribute_ids BasicServer ∧
  ∃ b data, reportAttribute a (request_path (Some 0) r) [] = (b, Ret tt) ∧
    decode_json b = Ret (JArr [elem_json (Cont TagAnon KStruct
      [structure 1 [uint 0 DATA_VERSION; Cont (TagContext 1) KList (path_elems (Some 0) r); data]])]) ∧
    elem_tag data = TagContext 2 ∧
    (attr_value a = JUndef → data = Prim (TagContext 2) PNull) ∧
    (attr_value a ≠ JUndef → has_type (attr_type a) data = true).
Proof.
  intros a r. apply (attributes_typed BasicServer 0 r a).
  - unfold id_ok, UINT32_MAX; lia.
  - unfold id_ok, UINT32_MAX; cbn; lia.
  - unfold id_ok, UINT32_MAX; cbn; lia.
  - vm_compute. reflexivity.
Defined.
