(* ===== verification/Store.v ===== *)
(** * The persistent store (src/platform/PersistantStore.js)

    The node's settings, the storage that keeps them over a restart, and the shell
    commands that change them (src/shell/cmd_config.js).  [node-localstorage] and the
    level of the logger ([pino]) are interfaces. *)
From stdpp Require Import functions pretty.
From S2P Require Import Prelude JsString Ecdsa ExampleCerts.

(** ** Values of settings

    A setting is text from the storage or the shell, or a number the code computed.
    Only whole numbers are modelled. *)
Inductive setting : Type :=
  | Undefined
  | Null
  | NaN
  | Num (z : Z)
  | Text (s : jsstr).

#[export] Instance setting_eq_dec : EqDecision setting.
Proof. solve_decision. Defined.

(** The value as a condition. *)
Definition truthy (v : setting) : bool :=
  match v with
  | Undefined | Null | NaN => false
  | Num z => negb (z =? 0)
  | Text s => negb (length s =? 0)%nat
  end.

(** [String(v)] *)
Definition js_String (v : setting) : jsstr :=
  match v with
  | Undefined => js_str "undefined"
  | Null => js_str "null"
  | NaN => js_str "NaN"
  | Num z => js_str (pretty z)
  | Text s => s
  end.

(** *** [Number(v)]

    Text is trimmed; empty text is 0, and what is no numeral is NaN.  Of the numerals those for
    whole numbers of up to 15 digits are modelled: decimal ones with a sign, and
    hexadecimal, octal and binary ones.  Fractions, exponents and infinities are not. *)
Definition is_digit (u : Z) : bool := (48 <=? u) && (u <=? 57).

Definition digits_value (s : jsstr) : Z := foldl (λ acc u, 10 * acc + (u - 48)) 0 s.

(** A digit in a base of at most 16 *)
Definition base_digit (base u : Z) : option Z :=
  let d := if is_digit u then u - 48
           else if (65 <=? u) && (u <=? 70) then u - 55
           else if (97 <=? u) && (u <=? 102) then u - 87 else 16 in
  if d <? base then Some d else None.

(** The base that [0x], [0o] or [0b] in front of a numeral stands for *)
Definition base_prefix (s : jsstr) : option (Z * jsstr) :=
  match s with
  | z :: u :: s' =>
      if z =? 48 then
        if (u =? 120) || (u =? 88) then Some (16, s')
        else if (u =? 111) || (u =? 79) then Some (8, s')
        else if (u =? 98) || (u =? 66) then Some (2, s') else None
      else None
  | _ => None
  end.

Definition base_value (base : Z) (s : jsstr) : option Z :=
  match s with
  | [] => None
  | _ => foldl (λ acc d, base * acc + d) 0 <$> mapM (base_digit base) s
  end.

Definition sign_of (s : jsstr) : Z * jsstr :=
  match s with
  | u :: s' => if u =? 45 then (-1, s') else if u =? 43 then (1, s') else (1, s)
  | [] => (1, s)
  end.

(** The digits in front, and what follows them *)
Fixpoint digits_of (s : jsstr) : jsstr * jsstr :=
  match s with
  | u :: s' => if is_digit u then let '(a, b) := digits_of s' in (u :: a, b) else ([], s)
  | [] => ([], [])
  end.

(** Digits, a fraction, an exponent; or [Infinity] *)
Definition is_numeral (s : jsstr) : bool :=
  bool_decide (s = js_str "Infinity") ||
  let '(whole, rest) := digits_of s in
  let '(fraction, rest) := match rest with
                           | u :: r => if u =? 46 then digits_of r else ([], rest)
                           | [] => ([], [])
                           end in
  negb (length whole + length fraction =? 0)%nat &&
  match rest with
  | [] => true
  | u :: r => ((u =? 101) || (u =? 69)) &&
              let '(exponent, end_) := digits_of (sign_of r).2 in
              negb (length exponent =? 0)%nat && (length end_ =? 0)%nat
  end.

Definition whole_number (z : Z) : outcome setting :=
  if Z.abs z <? 10 ^ 15 then Ret (Num z) else Throw OutOfModel.

Definition number_of_text (s : jsstr) : outcome setting :=
  match base_prefix s with
  | Some (base, digits) => match base_value base digits with Some z => whole_number z | None => Ret NaN end
  | None =>
      let '(sign, digits) := sign_of s in
      if negb (length digits =? 0)%nat && forallb is_digit digits
      then whole_number (sign * digits_value digits)
      else if is_numeral digits then Throw OutOfModel
      else if (length s =? 0)%nat then Ret (Num 0) else Ret NaN
  end.

Definition js_Number (v : setting) : outcome setting :=
  match v with
  | Undefined | NaN => Ret NaN
  | Null => Ret (Num 0)
  | Num z => Ret (Num z)
  | Text s => number_of_text (trim s)
  end.

(** [v == k] for a number [k] *)
Definition equals_loosely (v : setting) (k : Z) : outcome bool :=
  match v with
  | Undefined | Null | NaN => Ret false
  | Num z => Ret (z =? k)
  | Text s => n ← js_Number v; Ret (bool_decide (n = Num k))
  end.

(** [MsgCodec.DEFAULT_PORT], and its sum with a number *)
Definition DEFAULT_PORT : Z := 5540.

Definition add_port (n : setting) : setting :=
  match n with Num z => Num (DEFAULT_PORT + z) | _ => NaN end.

(** ** Interfaces *)

(** [LocalStorage] of node-localstorage: text by name, in a directory. *)
Class LocalStorage : Type := {
  storage : Type;
  getItem (s : storage) (key : string) : option jsstr;
  setItem (s : storage) (key : string) (v : jsstr) : storage }.

Class LocalStorageLaws (L : LocalStorage) : Prop := {
  get_set s k v : getItem (setItem s k v) k = Some v;
  get_set_ne s k k' v : k ≠ k' → getItem (setItem s k v) k' = getItem s k' }.

(** The names of levels that [pino] knows; setting another one throws. *)
Class Pino : Type := { known_level (level : jsstr) : bool }.

Class PinoLaws (P : Pino) : Prop := { empty_level : known_level [] = false }.

(** ** The store object *)

Inductive store_field : Type :=
  | F_nodeid | F_fabricid | F_encryptionKey | F_nodenum | F_ipPort | F_logLevel
  | F_traceLevel | F_daPrivateKey | F_daPublicKey | F_daCertificat | F_daCertificate.

#[export] Instance store_field_eq_dec : EqDecision store_field.
Proof. solve_decision. Defined.

(** [_daCertificat] is a misspelling of the source: [init] writes it where the other
    methods use [_daCertificate]. *)
Definition PersistantStore : Type := store_field → setting.

Definition PersistantStore_new : PersistantStore := λ _, Undefined.

(** [formatHex(hex, len)]: the loop adds a digit until the text is long enough. *)
Fixpoint pad_hex (fuel : nat) (padded : jsstr) (len : nat) : jsstr :=
  match fuel with
  | O => padded
  | S fuel => if (length padded <? len)%nat then pad_hex fuel (48 :: padded) len else padded
  end.

Definition formatHex (hex : jsstr) (len : nat) : jsstr := pad_hex len hex len.

Section store.
Context `{LocalStorage} `{Pino}.

(** The process: the storage, the store, and the levels of logger and tracer. *)
Record Process : Type := Proc {
  _storage : storage;
  store : PersistantStore;
  logger_level : jsstr;
  tracer_level : setting }.

(** A process that starts on a storage; the tracer is enabled. *)
Definition Process_new (s : storage) (level : jsstr) : Process :=
  Proc s PersistantStore_new level (Num 1).

Definition get_field (f : store_field) : js Process setting := λ p, (p, Ret (store p f)).
Definition put_field (f : store_field) (v : setting) : js Process unit :=
  js_modify (λ p, Proc (_storage p) (<[f := v]> (store p)) (logger_level p) (tracer_level p)).

Definition read_item (key : string) : js Process setting := λ p,
  (p, Ret (from_option Text Null (getItem (_storage p) key))).
Definition write_item (key : string) (v : setting) : js Process unit :=
  js_modify (λ p, Proc (setItem (_storage p) key (js_String v)) (store p) (logger_level p)
                       (tracer_level p)).

(** The setters *)
Definition set_NodeId (v : jsstr) : js Process unit :=
  let v := formatHex v 16 in
  put_field F_nodeid (Text v) ;; write_item "nodeid" (Text v).

Definition set_FabricId (v : jsstr) : js Process unit :=
  let v := formatHex v 16 in
  put_field F_fabricid (Text v) ;; write_item "fabricid" (Text v).

Definition set_EncryptionKey (v : jsstr) : js Process unit :=
  let v := formatHex v 32 in
  put_field F_encryptionKey (Text v) ;; write_item "encryptionKey" (Text v).

Definition set_IpPort (v : setting) : js Process unit :=
  n ← js_lift (js_Number v);
  put_field F_ipPort n ;; write_item "ipPort" v.

Definition set_NodeNum (v : setting) : js Process unit :=
  n ← js_lift (js_Number v);
  put_field F_nodenum n ;;
  set_IpPort (add_port n) ;;
  write_item "nodenum" v.

(** An unknown level is refused; the level there is is stored. *)
Definition set_LogLevel (v : jsstr) : js Process unit :=
  js_modify (λ p, Proc (_storage p) (store p)
    (if known_level v then v else logger_level p) (tracer_level p)) ;;
  p ← js_get;
  put_field F_logLevel (Text (logger_level p)) ;;
  write_item "logLevel" (Text (logger_level p)).

(** [tracer.level = v] (src/util/Tracer.js) accepts 0 and 1. *)
Definition tracer_accepts (v : setting) : outcome bool :=
  a ← equals_loosely v 0;
  b ← equals_loosely v 1;
  Ret (a || b).

Definition set_TraceLevel (v : setting) : js Process unit :=
  ok ← js_lift (tracer_accepts v);
  js_modify (λ p, Proc (_storage p) (store p) (logger_level p)
    (if ok : bool then v else tracer_level p)) ;;
  p ← js_get;
  put_field F_traceLevel (tracer_level p) ;;
  write_item "traceLevel" (tracer_level p).

Section keys.
Context `{Ecdsa}.

Definition set_DaPrivateKey (v : jsstr) : js Process unit :=
  put_field F_daPrivateKey (Text v) ;;
  public ← js_lift (PublicFromPrivate (hex_decode v));
  put_field F_daPublicKey (Text (hex_encode public)).

(** [if (!this.field) this.field = default] *)
Definition set_default (f : store_field) (set : js Process unit) : js Process unit :=
  v ← get_field f; if truthy v then mret tt else set.

Definition js_text (v : setting) : outcome jsstr :=
  match v with Text s => Ret s | _ => Throw OutOfModel end.

(** The port follows the node number; a stored level is set again. *)
Definition default_IpPort : js Process unit :=
  v ← get_field F_nodenum; n ← js_lift (js_Number v); set_IpPort (add_port n).

Definition default_LogLevel : js Process unit :=
  v ← get_field F_logLevel;
  if truthy v then s ← js_lift (js_text v); set_LogLevel s else set_LogLevel (js_str "info").

Definition default_TraceLevel : js Process unit :=
  v ← get_field F_traceLevel;
  if truthy v then set_TraceLevel v else set_TraceLevel (Num 0).

(** [setDefaults()]; [fresh] is [crypto.randomBytes(8)]. *)
Definition setDefaults (fresh : buffer) : js Process unit :=
  set_default F_nodeid (set_NodeId (hex_encode fresh)) ;;
  set_default F_fabricid (set_FabricId (js_str "0000000000000000")) ;;
  set_default F_encryptionKey
    (set_EncryptionKey (js_str "5eded244e5532b3cdc23409dbad052d2")) ;;
  set_default F_nodenum (set_NodeNum (Num 0)) ;;
  set_default F_ipPort default_IpPort ;;
  default_LogLevel ;;
  default_TraceLevel ;;
  set_default F_daPrivateKey (set_DaPrivateKey (hex_encode TEST_DAC_PRIVKEY)) ;;
  set_default F_daCertificate
    (put_field F_daCertificate (Text (hex_encode TEST_DAC_CERTIFICATE))).

(** [this.field = this._storage.getItem(key)] *)
Definition load_item (f : store_field) (key : string) : js Process unit :=
  v ← read_item key; put_field f v.

(** [init(nodenum)] on the storage in the directory of [nodenum] *)
Definition store_init (fresh : buffer) : js Process unit :=
  load_item F_nodeid "nodeid" ;;
  load_item F_fabricid "fabricid" ;;
  load_item F_encryptionKey "encryptionKey" ;;
  load_item F_nodenum "nodenum" ;;
  load_item F_ipPort "udpPort" ;;
  load_item F_logLevel "logLevel" ;;
  load_item F_traceLevel "traceLevel" ;;
  load_item F_daPrivateKey "daPrivateKey" ;;
  load_item F_daPublicKey "daPublicKey" ;;
  load_item F_daCertificat "daCertificate" ;;
  setDefaults fresh.

(** [get mdnsTarget()] *)
Definition store_mdnsTarget (s : PersistantStore) : jsstr :=
  js_String (s F_fabricid) ++ js_str "-" ++ js_String (s F_nodeid).

(** ** The shell commands (src/shell/cmd_config.js)

    [args] is the line split at spaces; a command without argument prints the value. *)
Definition do_setting (f : store_field) (set : jsstr → js Process unit) (args : list jsstr)
    : js Process setting :=
  match args with
  | _ :: v :: _ => set v
  | _ => mret tt
  end ;;
  get_field f.

Definition doLogLevel := do_setting F_logLevel set_LogLevel.
Definition doTraceLevel := do_setting F_traceLevel (λ v, set_TraceLevel (Text v)).
Definition doNodeId := do_setting F_nodeid set_NodeId.
Definition doFabricId := do_setting F_fabricid set_FabricId.
Definition doEncryptionKey := do_setting F_encryptionKey set_EncryptionKey.
Definition doNodeNum := do_setting F_nodenum (λ v, set_NodeNum (Text v)).
Definition doIpPort := do_setting F_ipPort (λ v, set_IpPort (Text v)).
Definition doDaPrivateKey := do_setting F_daPrivateKey set_DaPrivateKey.
Definition doDaPublicKey (args : list jsstr) : js Process setting := get_field F_daPublicKey.
Definition doDaCertificate (args : list jsstr) : js Process setting := get_field F_daCertificate.

Definition config_commands : list (string * (list jsstr → js Process setting)) :=
  [("dacpriv", doDaPrivateKey); ("dacpub", doDaPublicKey); ("dac", doDaCertificate);
   ("fabricid", doFabricId); ("key", doEncryptionKey); ("loglevel", doLogLevel);
   ("nodeid", doNodeId); ("nodenum", doNodeNum); ("port", doIpPort);
   ("tracelevel", doTraceLevel)]%string.

(** [main()] of app.ts, as far as the store goes: the number of the node given on the
    command line selects the directory and is stored. *)
Definition app_main (args : list jsstr) (fresh : buffer) : js Process unit :=
  nodenum ← js_lift (match args with a :: _ => js_Number (Text a) | [] => Ret (Num 0) end);
  store_init fresh ;;
  match args with _ :: _ => set_NodeNum nodenum | [] => mret tt end.
End keys.
End store.

(** ** Toy instances *)

#[export] Instance toy_storage : LocalStorage := {|
  storage := gmap string jsstr;
  getItem s k := s !! k;
  setItem s k v := <[k := v]> s |}.

#[export] Instance toy_storage_laws : LocalStorageLaws toy_storage.
Proof.
  split; cbn; intros; [apply lookup_insert_eq|by apply lookup_insert_ne].
Qed.

#[export] Instance toy_pino : Pino := {|
  known_level l := bool_decide (l ∈ js_str <$> ["trace"; "debug"; "info"; "warn"; "error";
                                                 "fatal"; "silent"]%string) |}.

#[export] Instance toy_pino_laws : PinoLaws toy_pino.
Proof. split. reflexivity. Qed.
