(* ===== verification/Shell.v ===== *)
(** * The shell (src/shell/Shell.js, src/shell/cli.js)

    A line is split at white space and handed to the command its first word names.
    The commands that read and change the store are here; the others are events of
    their own (Node.v) or only print. *)
From S2P Require Import Prelude JsString Ecdsa Store.

(** [s.split(/\s+/)]: [word] is the word read so far, [gap] whether the last character
    was white space. *)
Fixpoint split_words (word : jsstr) (gap : bool) (s : jsstr) : list jsstr :=
  match s with
  | [] => [word]
  | u :: s' =>
      if is_space u then
        if gap then split_words word true s' else word :: split_words [] true s'
      else split_words (word ++ [u]) false s'
  end.

Definition split (s : jsstr) : list jsstr := split_words [] false s.

(** ** Lemmas *)

Lemma skip_space_head s u t : skip_space s = u :: t → is_space u = false.
Proof.
  induction s as [|v s IH]; [done|]. cbn. destruct (is_space v) eqn:E; [done|].
  intros H. by injection H as <- <-.
Qed.

Lemma skip_space_suffix s : ∃ a, s = a ++ skip_space s.
Proof.
  induction s as [|v s (a & IH)]; [by exists []|]. cbn. destruct (is_space v); [|by exists []].
  exists (v :: a). cbn. by rewrite <- IH.
Qed.

(** A trimmed string neither starts nor ends with white space. *)
Lemma trim_ends s : trim s = [] ∨
  (∃ u t, trim s = u :: t ∧ is_space u = false) ∧ ∃ u t, trim s = t ++ [u] ∧ is_space u = false.
Proof.
  unfold trim. destruct (skip_space (reverse (skip_space s))) as [|u t] eqn:E; [by left|right].
  pose proof (skip_space_head _ _ _ E) as Hu. split.
  - destruct (skip_space_suffix (reverse (skip_space s))) as (a & Ha). rewrite E in Ha.
    apply (f_equal reverse) in Ha. rewrite reverse_involutive, reverse_app in Ha.
    destruct (reverse (u :: t)) as [|v r] eqn:Er; [by apply (f_equal reverse) in Er; rewrite reverse_involutive in Er|].
    exists v, r. split; [done|]. by eapply skip_space_head.
  - exists u, (reverse t). by rewrite reverse_cons.
Qed.

Lemma split_words_nonempty s word gap :
  (∃ u t, s = t ++ [u] ∧ is_space u = false) ∨ s = [] ∧ word ≠ [] →
  word ≠ [] ∨ gap = true ∨ (∃ u t, s = u :: t ∧ is_space u = false) →
  Forall (λ w : jsstr, w ≠ []) (split_words word gap s).
Proof.
  revert word gap. induction s as [|u s IH]; intros word gap Hend Hstart; cbn [split_words].
  - constructor; [|constructor]. destruct Hend as [(v & t & H & _)|[_ H]]; [|done].
    by destruct t.
  - assert (∀ w : jsstr, w ≠ [] → (∃ v t, s = t ++ [v] ∧ is_space v = false) ∨ s = [] ∧ w ≠ []) as Hrest.
    { intros w Hw. destruct Hend as [(v & t & H & Hv)|[H _]]; [|done].
      destruct t as [|x t]; injection H as -> ->; [by right|left; by exists v, t]. }
    assert (is_space u = true → ∃ v t, s = t ++ [v] ∧ is_space v = false) as Hsp.
    { intros Hu. destruct Hend as [(v & t & H & Hv)|[H _]]; [|done].
      destruct t as [|x t]; injection H as -> ->; [congruence|by exists v, t]. }
    destruct (is_space u) eqn:Hu; [destruct gap|].
    + apply IH; [left; by apply Hsp|by right; left].
    + constructor; [|apply IH; [left; by apply Hsp|by right; left]].
      destruct Hstart as [H|[H|(v & t & H & Hv)]]; [done|done|]. injection H as -> ->. congruence.
    + apply IH; [apply Hrest|left]; by destruct word.
Qed.

(** The words of a line that is not blank are not empty. *)
Lemma split_trim_nonempty s : trim s ≠ [] → Forall (λ w : jsstr, w ≠ []) (split (trim s)).
Proof.
  intros Hs. destruct (trim_ends s) as [?|[Hh Hl]]; [done|].
  apply split_words_nonempty; [by left|by right; right].
Qed.

(** ** Lines *)

Section shell.
Context `{LocalStorage} `{Pino} `{Ecdsa}.

(** [this.commandList.find(entry => entry["command"] == args[0])] among the commands on
    the store *)
Definition find_command (name : jsstr) : option (list jsstr → js Process setting) :=
  snd ∘ snd <$> list_find (λ entry, js_str entry.1 = name) config_commands.

(** [onReadLine(line)]: what it does to the process *)
Definition onReadLine (line : jsstr) : js Process unit :=
  let line := trim line in
  if (length line =? 0)%nat then mret tt
  else
    match split line with
    | [] => mret tt
    | name :: _ =>
        match find_command name with
        | Some handler => _ ← handler (split line); mret tt
        | None => mret tt
        end
    end.

(** A line does nothing, or runs one of the commands on words that are not empty. *)
Lemma onReadLine_cases line p :
  onReadLine line p = (p, Ret tt) ∨
  ∃ name handler args, (name, handler) ∈ config_commands ∧ Forall (λ a, a ≠ []) args ∧
    (onReadLine line p).1 = (handler args p).1.
Proof.
  unfold onReadLine. destruct (Nat.eqb_spec (length (trim line)) 0) as [Hl|Hl]; [by left|].
  destruct (split (trim line)) as [|w ws] eqn:E; [by left|].
  destruct (find_command w) as [handler|] eqn:Ef; [right|by left].
  unfold find_command in Ef. apply fmap_Some in Ef as ([i [name h]] & Hf & ->).
  apply list_find_Some in Hf as (Hi & _ & _). exists name, h, (split (trim line)).
  split; [by eapply list_elem_of_lookup_2|]. split.
  - apply split_trim_nonempty. by destruct (trim line).
  - cbn. unfold mbind, js_bind. rewrite E. by destruct (h (w :: ws) p) as [q [v|e]].
Qed.
End shell.
