(* ===== verification/StoreTheorems.v ===== *)
(** * Theorems about the persistent store

    What survives a restart of the process.  The invariant relates the store to the
    storage; every command keeps it, also when it throws. *)
From stdpp Require Import functions pretty.
From S2P Require Import Prelude JsString Ecdsa ExampleCerts Store Shell.

(** ** Numbers and their text *)

Lemma digits_value_app s t :
  digits_value (s ++ t) = digits_value s * 10 ^ Z.of_nat (length t) + digits_value t.
Proof.
  unfold digits_value. rewrite foldl_app. generalize (foldl (λ acc u, 10 * acc + (u - 48)) 0 s).
  induction t as [|u t IH] using rev_ind; intros z; [cbn; lia|].
  rewrite !foldl_app, length_app. cbn [foldl length]. rewrite IH.
  rewrite Nat2Z.inj_add, Z.pow_add_r by lia. cbn. lia.
Qed.

Lemma js_str_cons a s : js_str (String a s) = Z.of_N (Ascii.N_of_ascii a) :: js_str s.
Proof. done. Qed.

Lemma pretty_digit n : (n < 10)%N →
  is_digit (Z.of_N (Ascii.N_of_ascii (pretty_N_char n))) = true ∧
  Z.of_N (Ascii.N_of_ascii (pretty_N_char n)) - 48 = Z.of_N n.
Proof.
  intros H. assert (n ∈ [0; 1; 2; 3; 4; 5; 6; 7; 8; 9]%N) as Hn.
  { rewrite !elem_of_cons. lia. }
  repeat (apply elem_of_cons in Hn as [->|Hn]; [by split|]). by apply elem_of_nil in Hn.
Qed.

Lemma pretty_go_digits x s :
  forallb is_digit (js_str s) = true →
  forallb is_digit (js_str (pretty_N_go x s)) = true ∧
  digits_value (js_str (pretty_N_go x s)) =
    Z.of_N x * 10 ^ Z.of_nat (length (js_str s)) + digits_value (js_str s).
Proof.
  revert s. induction (N.lt_wf_0 x) as [x _ IH]; intros s Hs.
  assert (x = 0 ∨ 0 < x)%N as [->|Hx] by lia; [by rewrite pretty_N_go_0|].
  rewrite pretty_N_go_step by done.
  pose proof (N.mod_lt x 10 ltac:(done)) as Hm. destruct (pretty_digit _ Hm) as [Hd Hv].
  assert (x `div` 10 < x)%N as Hlt by (by apply N.div_lt).
  destruct (IH (x `div` 10)%N Hlt
              (String (pretty_N_char (x `mod` 10)) s)) as [H1 H2].
  { rewrite js_str_cons. cbn [forallb]. by rewrite Hd. }
  split; [done|]. rewrite H2, js_str_cons.
  change (?u :: js_str s) with ([u] ++ js_str s).
  rewrite digits_value_app, length_app. cbn [length]. rewrite Nat2Z.inj_add, Z.pow_add_r by lia.
  unfold digits_value at 1. cbn [foldl]. rewrite Z.mul_0_r, Z.add_0_l, Hv.
  pose proof (N.div_mod x 10 ltac:(done)) as E. rewrite N2Z.inj_div, N2Z.inj_mod.
  pose proof (Z.div_mod (Z.of_N x) 10 ltac:(lia)) as E'. cbn. nia.
Qed.

(** [String(z)] *)
Lemma pretty_digits z : 0 <= z →
  forallb is_digit (js_str (pretty z)) = true ∧ digits_value (js_str (pretty z)) = z.
Proof.
  intros Hz. destruct z as [|p|p]; [by split| |lia]. change (pretty (Z.pos p)) with (pretty (N.pos p)).
  unfold pretty, pretty_N. rewrite decide_False by done.
  destruct (pretty_go_digits (N.pos p) "") as [Ha Hb]; [done|]. split; [done|].
  rewrite Hb. cbn. lia.
Qed.

Lemma skip_space_id s : (∀ u s', s = u :: s' → is_space u = false) → skip_space s = s.
Proof. destruct s as [|u s]; [done|]. intros H. cbn [skip_space]. by rewrite (H u s). Qed.

Lemma trim_id s : forallb (λ u, negb (is_space u)) s = true → trim s = s.
Proof.
  intros Hs. rewrite forallb_forall in Hs.
  assert (∀ t, (∀ u, u ∈ t → u ∈ s) → skip_space t = t) as H.
  { intros t Ht. apply skip_space_id. intros u t' ->. apply negb_true_iff, Hs, list_elem_of_In, Ht. left. }
  unfold trim. rewrite (H s) by done.
  rewrite (H (reverse s)) by (intros u; by rewrite elem_of_reverse). apply reverse_involutive.
Qed.

Lemma digit_not_space u : is_digit u = true → is_space u = false.
Proof.
  unfold is_digit, is_space. intros H. rewrite bool_decide_eq_false_2; [zbool; lia|].
  rewrite !elem_of_cons, elem_of_nil. zbool. lia.
Qed.

(** Digits, with a sign in front of them or not *)
Lemma number_of_digits (neg : bool) d : d ≠ [] → forallb is_digit d = true →
  js_Number (Text (if neg then 45 :: d else d)) = whole_number ((if neg then -1 else 1) * digits_value d).
Proof.
  intros Hn Hd. cbn [js_Number]. rewrite trim_id.
  2: { assert (forallb (λ u, negb (is_space u)) d = true) as H; [|by destruct neg].
       rewrite forallb_forall in *. intros u Hu. by rewrite digit_not_space by auto. }
  unfold number_of_text. destruct d as [|u d]; [done|]. pose proof Hd as Hd'. cbn in Hd'.
  apply andb_true_iff in Hd' as [Hu Hds].
  assert (base_prefix (if neg then 45 :: u :: d else u :: d) = None) as ->.
  { destruct neg; [done|]. unfold base_prefix. destruct d as [|v d]; [done|]. cbn in Hds.
    apply andb_true_iff in Hds as [Hv _]. unfold is_digit in Hv. zbool. zcases; try done; lia. }
  assert (sign_of (if neg then 45 :: u :: d else u :: d) = (if neg then -1 else 1, u :: d)) as ->.
  { destruct neg; [done|]. cbn. unfold is_digit in Hu. zbool. zcases; try done; lia. }
  by rewrite Hd.
Qed.

(** [Number(String(z))] *)
Lemma Number_String z : - 10 ^ 15 < z < 10 ^ 15 → js_Number (Text (js_str (pretty z))) = Ret (Num z).
Proof.
  intros Hz.
  assert (∀ y, 0 <= y → js_str (pretty y) ≠ []) as Hne.
  { intros y Hy E. apply (js_str_inj _ ""), pretty_nonempty in E; lia || done. }
  destruct (Z.le_gt_cases 0 z) as [H0|H0].
  - destruct (pretty_digits z H0) as [H1 H2].
    rewrite (number_of_digits false) by auto. rewrite H2, Z.mul_1_l. unfold whole_number.
    by rewrite (proj2 (Z.ltb_lt _ _)) by lia.
  - destruct (pretty_digits (- z)) as [H1 H2]; [lia|].
    assert (js_str (pretty z) = 45 :: js_str (pretty (- z))) as -> by (destruct z; done || lia).
    rewrite (number_of_digits true) by (done || by apply Hne; lia). rewrite H2. unfold whole_number.
    replace (-1 * - z) with z by lia. by rewrite (proj2 (Z.ltb_lt _ _)) by lia.
Qed.

(** ** formatHex *)

Lemma formatHex_spec s len : formatHex s len = replicate (len - length s) 48 ++ s.
Proof.
  unfold formatHex. assert (∀ fuel s, (len - length s <= fuel)%nat →
    pad_hex fuel s len = replicate (len - length s) 48 ++ s) as H; [|apply H; lia].
  clear s. induction fuel as [|fuel IH]; intros s Hs; cbn [pad_hex].
  - by replace (len - length s)%nat with 0%nat by lia.
  - destruct (Nat.ltb_spec (length s) len).
    + rewrite IH by (cbn; lia). cbn [length].
      replace (len - length s)%nat with (S (len - S (length s))) by lia.
      rewrite replicate_S_end, <- app_assoc. done.
    + by replace (len - length s)%nat with 0%nat by lia.
Qed.

Lemma formatHex_nonempty s len : (0 < len)%nat → formatHex s len ≠ [].
Proof.
  intros Hl. rewrite formatHex_spec. destruct s; [|by destruct (replicate _ _)].
  cbn. rewrite Nat.sub_0_r, app_nil_r. destruct len; [lia|done].
Qed.

(** ** The invariant *)

(** A value and its text are the same number. *)
Definition same_number (v : setting) (t : jsstr) (n : setting) : Prop :=
  js_Number v = Ret n ∧ js_Number (Text t) = Ret n ∧ t ≠ [].

Lemma number_of_text_range s n :
  number_of_text s = Ret n → n = NaN ∨ ∃ z, n = Num z ∧ - 10 ^ 15 < z < 10 ^ 15.
Proof.
  assert (∀ z, whole_number z = Ret n → n = NaN ∨ ∃ z, n = Num z ∧ - 10 ^ 15 < z < 10 ^ 15) as He.
  { intros z. unfold whole_number. destruct (Z.ltb_spec (Z.abs z) (10 ^ 15)); intros; inv_ret.
    right. exists z. split; [done|lia]. }
  unfold number_of_text. intros H. destruct (base_prefix s) as [[base d]|].
  - destruct (base_value base d); [by eapply He|]. inv_ret. by left.
  - destruct (sign_of s) as [sg d]. destruct (_ && _); [by eapply He|].
    destruct (is_numeral d); [done|]. destruct (_ =? 0)%nat; inv_ret; [right|by left].
    exists 0. split; [done|lia].
Qed.

Lemma js_Number_idem v n : js_Number v = Ret n → js_Number n = Ret n.
Proof.
  intros H. destruct v; cbn [js_Number] in H; inv_ret; try done.
  by apply number_of_text_range in H as [->|(z & -> & _)].
Qed.

(** Text with a number, and the number that was read from text. *)
Lemma same_text s n : s ≠ [] → js_Number (Text s) = Ret n → same_number n s n.
Proof. intros Hs Hn. split_and!; [by eapply js_Number_idem|done|done]. Qed.

Lemma same_Num z : - 10 ^ 15 < z < 10 ^ 15 → same_number (Num z) (js_String (Num z)) (Num z).
Proof.
  intros Hz. split_and!; [done|by apply Number_String|]. cbn. intros E.
  destruct (Z.le_gt_cases 0 z).
  - apply (js_str_inj _ ""), pretty_nonempty in E; lia || done.
  - destruct z; done || lia.
Qed.

Lemma same_read s n : js_Number (Text s) = Ret n → same_number n (js_String n) n.
Proof.
  intros [->|(z & -> & Hz)]%number_of_text_range; [by split_and!|by apply same_Num].
Qed.

Section store.
Context `{HL : LocalStorage} {HLL : LocalStorageLaws HL} `{HP : Pino} {HPL : PinoLaws HP}.
Context `{HE : Ecdsa}.

Definition text_stored (p : Process) (f : store_field) (key : string) : Prop :=
  ∃ s, s ≠ [] ∧ store p f = Text s ∧ getItem (_storage p) key = Some s.

Definition number_stored (p : Process) (f : store_field) (key : string) : Prop :=
  ∃ t n, getItem (_storage p) key = Some t ∧ same_number (store p f) t n.

(** The tracer has a level it accepts. *)
Definition trace_level_ok (v : setting) : Prop :=
  ∃ b : bool, same_number v (js_String v) (Num (if b then 1 else 0)).

Record persisted (p : Process) : Prop := {
  kept_nodeid : text_stored p F_nodeid "nodeid";
  kept_fabricid : text_stored p F_fabricid "fabricid";
  kept_key : text_stored p F_encryptionKey "encryptionKey";
  kept_nodenum : number_stored p F_nodenum "nodenum";
  kept_log : known_level (logger_level p) = true ∧ store p F_logLevel = Text (logger_level p) ∧
             getItem (_storage p) "logLevel" = Some (logger_level p);
  kept_trace : trace_level_ok (tracer_level p) ∧ store p F_traceLevel = tracer_level p ∧
               getItem (_storage p) "traceLevel" = Some (js_String (tracer_level p));
  (** Names that are read but never written. *)
  unwritten k : k ∈ ["udpPort"; "daPrivateKey"; "daPublicKey"; "daCertificate"]%string →
                getItem (_storage p) k = None }.

Lemma put_get f v (s : PersistantStore) g :
  (<[f := v]> s) g = if decide (f = g) then v else s g.
Proof. by unfold insert, fn_insert. Qed.

Lemma put_same f v (s : PersistantStore) : (<[f := v]> s) f = v.
Proof. rewrite put_get. by rewrite decide_True. Qed.

Lemma put_other f g v (s : PersistantStore) : f ≠ g → (<[f := v]> s) g = s g.
Proof. intros H. rewrite put_get. by rewrite decide_False. Qed.

Ltac fields := repeat first [rewrite put_same | rewrite put_other by done].

(** Processes that agree on every field, name and level. *)
#[local] Instance process_equiv : Equiv Process := λ p p',
  (∀ f, store p f = store p' f) ∧ (∀ k, getItem (_storage p) k = getItem (_storage p') k) ∧
  logger_level p = logger_level p' ∧ tracer_level p = tracer_level p'.

#[local] Instance process_equivalence : Equivalence (≡@{Process}).
Proof.
  split.
  - by intros p.
  - intros p q (? & ? & ? & ?). split_and!; intros; by symmetry.
  - intros p q r (? & ? & ? & ?) (? & ? & ? & ?). split_and!; intros; etrans; eauto.
Qed.

Lemma text_frame p p' f key :
  store p' f = store p f → getItem (_storage p') key = getItem (_storage p) key →
  text_stored p f key → text_stored p' f key.
Proof. intros H1 H2 (s & ? & ? & ?). exists s. by rewrite H1, H2. Qed.

Lemma number_frame p p' f key :
  store p' f = store p f → getItem (_storage p') key = getItem (_storage p) key →
  number_stored p f key → number_stored p' f key.
Proof. intros H1 H2 (t & n & ? & ?). exists t, n. by rewrite H1, H2. Qed.

#[local] Instance persisted_proper : Proper ((≡) ==> impl) persisted.
Proof.
  intros p q (Hf & Hi & Hl & Ht) [H1 H2 H3 H4 H5 H6 H7].
  split; rewrite <- ?Hf, <- ?Hi, <- ?Hl, <- ?Ht; try done.
  1-3: by apply (text_frame p); [symmetry; apply Hf|symmetry; apply Hi|].
  - by apply (number_frame p); [symmetry; apply Hf|symmetry; apply Hi|].
  - intros k Hk. rewrite <- Hi. by apply H7.
Qed.

(** The names in the storage of the fields, other than the two levels. *)
Definition item_of (f : store_field) : option string :=
  match f with
  | F_nodeid => Some "nodeid" | F_fabricid => Some "fabricid"
  | F_encryptionKey => Some "encryptionKey" | F_nodenum => Some "nodenum"
  | F_ipPort => Some "ipPort" | _ => None
  end%string.

(** What a setter may write for a field. *)
Definition written (f : store_field) (v w : setting) : Prop :=
  match f with
  | F_nodeid | F_fabricid | F_encryptionKey => ∃ s, s ≠ [] ∧ v = Text s ∧ w = Text s
  | F_nodenum => ∃ n, same_number v (js_String w) n
  | _ => True
  end.

(** Writing one field and its item. *)
Lemma persisted_write p f key v w :
  persisted p → item_of f = Some key → written f v w →
  persisted (write_item key w (put_field f v p).1).1.
Proof.
  intros [H1 H2 H3 H4 (H5 & H6 & H7) (H8 & H9 & H10) H11] Hk Hw.
  unfold write_item, put_field, js_modify. cbn [fst snd].
  split.
  1-3: destruct f; simplify_eq/=; first
    [ eapply text_frame; [|  |eassumption]; cbn; by rewrite ?get_set_ne
    | destruct Hw as (s & ? & -> & ->); exists s; cbn; by rewrite get_set ].
  - destruct f; simplify_eq/=; first
    [ eapply number_frame; [| |eassumption]; cbn; by rewrite ?get_set_ne
    | destruct Hw as (n & Hn); exists (js_String w), n; cbn; by rewrite get_set ].
  - destruct f; simplify_eq/=; by rewrite ?get_set_ne.
  - destruct f; simplify_eq/=; by rewrite ?get_set_ne.
  - intros k Hin. cbn. rewrite get_set_ne; [by apply H11|]. intros ->.
    destruct f; simplify_eq/=; set_solver.
Qed.

Lemma keeps_write f key v w :
  item_of f = Some key → written f v w → keeps persisted (put_field f v ;; write_item key w).
Proof. intros Hk Hw p Hp. by apply (persisted_write p f key v w). Qed.

Lemma keeps_set_NodeId v : keeps persisted (set_NodeId v).
Proof.
  apply keeps_write; [done|]. exists (formatHex v 16). split; [|done].
  apply formatHex_nonempty. lia.
Qed.

Lemma keeps_set_FabricId v : keeps persisted (set_FabricId v).
Proof.
  apply keeps_write; [done|]. exists (formatHex v 16). split; [|done].
  apply formatHex_nonempty. lia.
Qed.

Lemma keeps_set_EncryptionKey v : keeps persisted (set_EncryptionKey v).
Proof.
  apply keeps_write; [done|]. exists (formatHex v 32). split; [|done].
  apply formatHex_nonempty. lia.
Qed.

Lemma keeps_set_IpPort v : keeps persisted (set_IpPort v).
Proof. apply keeps_bind; [auto with keeps|intros n]. by apply keeps_write. Qed.

Lemma Number_add_port n : js_Number (add_port n) = Ret (add_port n).
Proof. by destruct n. Qed.

Lemma write_run f key v w p :
  (put_field f v ;; write_item key w) p =
  (Proc (setItem (_storage p) key (js_String w)) (<[f := v]> (store p)) (logger_level p)
     (tracer_level p), Ret tt).
Proof. done. Qed.

(** A node number: the port follows it. *)
Lemma set_NodeNum_run v n p : js_Number v = Ret n →
  set_NodeNum v p =
  (Proc (setItem (setItem (_storage p) "ipPort" (js_String (add_port n))) "nodenum" (js_String v))
     (<[F_ipPort := add_port n]> (<[F_nodenum := n]> (store p))) (logger_level p)
     (tracer_level p), Ret tt).
Proof.
  intros Hn. unfold set_NodeNum, set_IpPort. by rewrite Hn, js_bind_lift, Number_add_port.
Qed.

Lemma keeps_set_NodeNum v :
  (∀ n, js_Number v = Ret n → same_number n (js_String v) n) → keeps persisted (set_NodeNum v).
Proof.
  intros Hv p Hp. destruct (js_Number v) as [n|e] eqn:Hn; [|unfold set_NodeNum; by rewrite Hn].
  rewrite (set_NodeNum_run v n p Hn). cbn [fst].
  assert (persisted (write_item "nodenum" v (put_field F_nodenum n
    (write_item "ipPort" (add_port n) (put_field F_ipPort (add_port n) p).1).1).1).1) as Hq.
  { apply (persisted_write _ F_nodenum); [|done|exists n; by apply Hv].
    by apply (persisted_write _ F_ipPort). }
  revert Hq. apply persisted_proper. split_and!; try done.
  intros f. cbn. rewrite !put_get. by destruct f.
Qed.

Lemma keeps_put f v :
  f ∈ [F_ipPort; F_daPrivateKey; F_daPublicKey; F_daCertificat; F_daCertificate] →
  keeps persisted (put_field f v).
Proof.
  intros Hf p [H1 H2 H3 H4 H5 H6 H7].
  assert (∀ g, g ∈ [F_nodeid; F_fabricid; F_encryptionKey; F_nodenum; F_logLevel; F_traceLevel] →
    store (put_field f v p).1 g = store p g) as Hs.
  { intros g Hg. cbn. rewrite put_get. case_decide; [|done]. subst. set_solver. }
  split; try done.
  1-3: eapply text_frame; [apply Hs; set_solver|done|done].
  - eapply number_frame; [apply Hs; set_solver|done|done].
  - rewrite Hs by set_solver. done.
  - rewrite Hs by set_solver. done.
Qed.

Lemma keeps_set_DaPrivateKey v : keeps persisted (set_DaPrivateKey v).
Proof.
  unfold set_DaPrivateKey. apply keeps_bind; [apply keeps_put; set_solver|intros u].
  apply keeps_bind; [auto with keeps|intros k]. apply keeps_put. set_solver.
Qed.

(** The parts of the invariant about the other fields. *)
Ltac other_fields :=
  first
  [ eapply text_frame; [ | |eassumption]; cbn; by rewrite ?put_get, ?get_set_ne
  | eapply number_frame; [ | |eassumption]; cbn; by rewrite ?put_get, ?get_set_ne
  | cbn; by rewrite ?put_get, ?get_set_ne ].

Lemma set_LogLevel_run v p :
  set_LogLevel v p =
  (let l := if known_level v then v else logger_level p in
   Proc (setItem (_storage p) "logLevel" l) (<[F_logLevel := Text l]> (store p)) l
     (tracer_level p), Ret tt).
Proof. done. Qed.

Lemma set_TraceLevel_run v ok p : tracer_accepts v = Ret ok →
  set_TraceLevel v p =
  (let l := if ok : bool then v else tracer_level p in
   Proc (setItem (_storage p) "traceLevel" (js_String l)) (<[F_traceLevel := l]> (store p))
     (logger_level p) l, Ret tt).
Proof. intros H. unfold set_TraceLevel. by rewrite H, js_bind_lift. Qed.

Lemma keeps_set_LogLevel v : keeps persisted (set_LogLevel v).
Proof.
  intros p [H1 H2 H3 H4 (H5 & H6 & H7) H8 H9]. rewrite set_LogLevel_run. cbn [fst].
  split; [other_fields..| |other_fields|].
  - cbn. rewrite put_get, get_set. split_and!; [|done..]. by case_match.
  - intros k Hk. cbn. rewrite get_set_ne; [by apply H9|]. intros <-. set_solver.
Qed.

(** A level the tracer accepts is 0 or 1, as a value and as text. *)
Lemma tracer_accepts_ok v :
  (v = Num 0 ∨ ∃ s, s ≠ [] ∧ v = Text s) → tracer_accepts v = Ret true → trace_level_ok v.
Proof.
  intros [->|(s & Hs & ->)] H.
  - exists false. apply (same_Num 0). lia.
  - unfold tracer_accepts in H. apply outcome_bind_Ret in H as (a & Ha & H).
    apply outcome_bind_Ret in H as (b & Hb & H). apply Ret_inj, orb_true_iff in H.
    unfold equals_loosely in Ha, Hb. apply outcome_bind_Ret in Ha as (n & Hn & Ha).
    rewrite Hn in Hb. cbn [mbind outcome_bind] in Hb. inv_ret.
    assert (n = Num 0 ∨ n = Num 1) as [->| ->].
    { destruct H as [H|H]; apply bool_decide_eq_true in H; auto. }
    + by exists false.
    + by exists true.
Qed.

Lemma keeps_set_TraceLevel v :
  (v = Num 0 ∨ ∃ s, s ≠ [] ∧ v = Text s) → keeps persisted (set_TraceLevel v).
Proof.
  intros Hv p [H1 H2 H3 H4 H5 (H6 & H7 & H8) H9].
  destruct (tracer_accepts v) as [ok|e] eqn:Hok; [|unfold set_TraceLevel; rewrite Hok; by split].
  rewrite (set_TraceLevel_run _ ok) by done. cbn [fst]. split; [other_fields..| |].
  - cbn. rewrite put_get, get_set. split_and!; [|done..].
    destruct ok; [by apply tracer_accepts_ok|done].
  - intros k Hk. cbn. rewrite get_set_ne; [by apply H9|]. intros <-. set_solver.
Qed.

(** ** Shell commands *)

Lemma keeps_get_field f : keeps persisted (get_field f).
Proof. by intros p Hp. Qed.

Lemma keeps_do_setting f set args :
  Forall (λ a, a ≠ []) args → (∀ v, v ≠ [] → keeps persisted (set v)) →
  keeps persisted (do_setting f set args).
Proof.
  intros Ha Hs. unfold do_setting. apply keeps_bind; [|intros u; apply keeps_get_field].
  destruct Ha as [|? ? _ Ha]; [auto with keeps|]. destruct Ha as [|v ? Hv _]; [auto with keeps|].
  by apply Hs.
Qed.

Lemma keeps_config_command name handler args :
  Forall (λ a, a ≠ []) args → (name, handler) ∈ config_commands → keeps persisted (handler args).
Proof.
  intros Ha Hin. unfold config_commands in Hin.
  repeat (apply elem_of_cons in Hin as [Hin|Hin]; [injection Hin as -> ->|]);
    [.. |by apply elem_of_nil in Hin]; first
    [ by apply keeps_get_field
    | apply keeps_do_setting; [done|intros v Hv]; first
      [ apply keeps_set_DaPrivateKey | apply keeps_set_FabricId | apply keeps_set_EncryptionKey
      | apply keeps_set_LogLevel | apply keeps_set_NodeId | apply keeps_set_IpPort
      | apply keeps_set_NodeNum; intros n; by apply same_text
      | apply keeps_set_TraceLevel; right; by exists v ] ].
Qed.
Lemma keeps_onReadLine line : keeps persisted (onReadLine line).
Proof.
  intros p Hp. destruct (onReadLine_cases line p) as [->|(name & handler & args & Hin & Ha & ->)];
    [done|]. by apply (keeps_config_command name handler args Ha Hin).
Qed.

(** ** Starting up *)

(** The key of the example certificate is a key of the curve. *)
Hypothesis valid_key : ec_valid TEST_DAC_PRIVKEY = true.

Lemma set_default_skip f m p : truthy (store p f) = true → set_default f m p = (p, Ret tt).
Proof. intros H. unfold set_default, get_field, mbind, js_bind. by rewrite H. Qed.

Lemma set_default_run f m p : truthy (store p f) = false → set_default f m p = m p.
Proof. intros H. unfold set_default, get_field, mbind, js_bind. by rewrite H. Qed.

Lemma set_DaPrivateKey_default p :
  set_DaPrivateKey (hex_encode TEST_DAC_PRIVKEY) p =
  (Proc (_storage p) (<[F_daPublicKey := Text (hex_encode (ec_public TEST_DAC_PRIVKEY))]>
     (<[F_daPrivateKey := Text (hex_encode TEST_DAC_PRIVKEY)]> (store p)))
     (logger_level p) (tracer_level p), Ret tt).
Proof. unfold set_DaPrivateKey, PublicFromPrivate. by rewrite hex_decode_encode, valid_key. Qed.

Definition read_of (st : storage) (key : string) : setting := from_option Text Null (getItem st key).

(** The store after the items are read. *)
Definition loaded (st : storage) : PersistantStore :=
  <[F_daCertificat := read_of st "daCertificate"]> (<[F_daPublicKey := read_of st "daPublicKey"]>
  (<[F_daPrivateKey := read_of st "daPrivateKey"]> (<[F_traceLevel := read_of st "traceLevel"]>
  (<[F_logLevel := read_of st "logLevel"]> (<[F_ipPort := read_of st "udpPort"]>
  (<[F_nodenum := read_of st "nodenum"]> (<[F_encryptionKey := read_of st "encryptionKey"]>
  (<[F_fabricid := read_of st "fabricid"]> (<[F_nodeid := read_of st "nodeid"]>
  PersistantStore_new))))))))).

Lemma store_init_loaded fresh st level :
  store_init fresh (Process_new st level) =
  setDefaults fresh (Proc st (loaded st) level (Num 1)).
Proof. reflexivity. Qed.

Lemma truthy_Text s : s ≠ [] → truthy (Text s) = true.
Proof. by destruct s. Qed.

Lemma read_of_Some st key s : getItem st key = Some s → read_of st key = Text s.
Proof. intros H. unfold read_of. by rewrite H. Qed.

Lemma read_of_None st key : getItem st key = None → read_of st key = Null.
Proof. intros H. unfold read_of. by rewrite H. Qed.

Lemma default_IpPort_run p n : js_Number (store p F_nodenum) = Ret n →
  default_IpPort p =
  (Proc (setItem (_storage p) "ipPort" (js_String (add_port n)))
     (<[F_ipPort := add_port n]> (store p)) (logger_level p) (tracer_level p), Ret tt).
Proof.
  intros H. unfold default_IpPort, get_field, set_IpPort. unfold mbind at 1, js_bind at 1.
  rewrite H, js_bind_lift. by rewrite Number_add_port.
Qed.

Lemma default_LogLevel_run p l : store p F_logLevel = Text l → known_level l = true →
  default_LogLevel p =
  (Proc (setItem (_storage p) "logLevel" l) (<[F_logLevel := Text l]> (store p)) l
     (tracer_level p), Ret tt).
Proof.
  intros H Hl. unfold default_LogLevel, get_field. unfold mbind at 1, js_bind at 1. rewrite H.
  rewrite truthy_Text by (intros ->; by rewrite empty_level in Hl).
  cbn [js_text]. rewrite js_bind_lift, set_LogLevel_run. by rewrite Hl.
Qed.

Lemma accepts_text s (b : bool) : js_Number (Text s) = Ret (Num (if b then 1 else 0)) →
  tracer_accepts (Text s) = Ret true.
Proof. intros H. unfold tracer_accepts, equals_loosely. rewrite H. by destruct b. Qed.

Lemma default_TraceLevel_run p s (b : bool) :
  store p F_traceLevel = Text s → s ≠ [] →
  js_Number (Text s) = Ret (Num (if b then 1 else 0)) →
  default_TraceLevel p =
  (Proc (setItem (_storage p) "traceLevel" s) (<[F_traceLevel := Text s]> (store p))
     (logger_level p) (Text s), Ret tt).
Proof.
  intros H Hs Hn. unfold default_TraceLevel, get_field. unfold mbind at 1, js_bind at 1. rewrite H.
  rewrite truthy_Text by done. rewrite (set_TraceLevel_run _ true); [done|by apply (accepts_text s b)].
Qed.

(** The process after starting on a storage with the items of a process: [n] is the
    node number there, [l] and [t] the levels. *)
Definition restarted (st : storage) (n : setting) (l t : jsstr) : Process :=
  Proc (setItem (setItem (setItem st "ipPort" (js_String (add_port n))) "logLevel" l)
          "traceLevel" t)
    (<[F_daCertificate := Text (hex_encode TEST_DAC_CERTIFICATE)]>
     (<[F_daPublicKey := Text (hex_encode (ec_public TEST_DAC_PRIVKEY))]>
     (<[F_daPrivateKey := Text (hex_encode TEST_DAC_PRIVKEY)]>
     (<[F_traceLevel := Text t]> (<[F_logLevel := Text l]> (<[F_ipPort := add_port n]>
     (loaded st)))))))
    l (Text t).

Definition unwritten_items (st : storage) : Prop := ∀ k,
  k ∈ ["udpPort"; "daPrivateKey"; "daPublicKey"; "daCertificate"]%string → getItem st k = None.

Lemma init_items st level fresh t4 n l t (b : bool) :
  (∀ k, k ∈ ["nodeid"; "fabricid"; "encryptionKey"]%string →
     ∃ s, s ≠ [] ∧ getItem st k = Some s) →
  getItem st "nodenum" = Some t4 → t4 ≠ [] → js_Number (Text t4) = Ret n →
  getItem st "logLevel" = Some l → known_level l = true →
  getItem st "traceLevel" = Some t → t ≠ [] →
  js_Number (Text t) = Ret (Num (if b then 1 else 0)) → unwritten_items st →
  store_init fresh (Process_new st level) = (restarted st n l t, Ret tt).
Proof.
  intros Hid I4 N4 W4 I5 K5 I6 N6 W6 H7. rewrite store_init_loaded. unfold setDefaults.
  set (q0 := Proc st (loaded st) level (Num 1)).
  assert (∀ f key, loaded st f = read_of st key → (∃ s, s ≠ [] ∧ getItem st key = Some s) →
    ∀ m, set_default f m q0 = (q0, Ret tt)) as Hskip.
  { intros f key Hf (s & Hs & Hi) m. apply set_default_skip. cbn [store q0].
    rewrite Hf, (read_of_Some _ _ s) by done. by apply truthy_Text. }
  rewrite (js_bind_eq _ _ _ q0 tt) by (apply (Hskip _ "nodeid"%string); [done|apply Hid; set_solver]).
  rewrite (js_bind_eq _ _ _ q0 tt) by (apply (Hskip _ "fabricid"%string); [done|apply Hid; set_solver]).
  rewrite (js_bind_eq _ _ _ q0 tt)
    by (apply (Hskip _ "encryptionKey"%string); [done|apply Hid; set_solver]).
  rewrite (js_bind_eq _ _ _ q0 tt) by (apply (Hskip _ "nodenum"%string); eauto).
  assert (∀ f key, loaded st f = read_of st key →
    key ∈ ["udpPort"; "daPrivateKey"]%string → truthy (loaded st f) = false) as Hnull.
  { intros f key -> Hk. rewrite read_of_None; [done|]. apply H7. set_solver. }
  erewrite js_bind_eq; [|etrans; [apply set_default_run|apply (default_IpPort_run _ n)]];
    [|apply (Hnull _ "udpPort"%string); [done|set_solver]
     |cbn [store q0]; change (loaded st F_nodenum) with (read_of st "nodenum");
      by rewrite (read_of_Some _ _ t4)].
  erewrite js_bind_eq; [|apply (default_LogLevel_run _ l); [|done]];
    [|cbn [store q0]; fields; change (loaded st F_logLevel) with (read_of st "logLevel");
      by apply read_of_Some].
  erewrite js_bind_eq; [|apply (default_TraceLevel_run _ t b); [|done..]];
    [|cbn [store q0]; fields; change (loaded st F_traceLevel) with (read_of st "traceLevel");
      by apply read_of_Some].
  erewrite js_bind_eq; [|etrans; [apply set_default_run|apply set_DaPrivateKey_default]];
    [|cbn [store q0]; fields; apply (Hnull _ "daPrivateKey"%string); [done|set_solver]].
  by rewrite set_default_run.
Qed.

(** Starting on the storage of a process. *)
Lemma init_restart p level fresh :
  persisted p → known_level level = true →
  ∃ p', store_init fresh (Process_new (_storage p) level) = (p', Ret tt) ∧ persisted p' ∧
    (∀ f, f ∈ [F_nodeid; F_fabricid; F_encryptionKey; F_logLevel] → store p' f = store p f) ∧
    (∀ f, f ∈ [F_nodenum; F_traceLevel] → js_Number (store p' f) = js_Number (store p f)) ∧
    (∃ n, js_Number (store p F_nodenum) = Ret n ∧ store p' F_ipPort = add_port n) ∧
    store p' F_daPrivateKey = Text (hex_encode TEST_DAC_PRIVKEY).
Proof.
  intros [(s1 & N1 & V1 & I1) (s2 & N2 & V2 & I2) (s3 & N3 & V3 & I3)
          (t4 & n & I4 & V4 & W4 & N4) (K5 & V5 & I5) ((b & V6 & W6 & N6) & F6 & I6) H7] Hl.
  exists (restarted (_storage p) n (logger_level p) (js_String (tracer_level p))).
  split; [eapply init_items; try done; intros k Hk; repeat (apply elem_of_cons in Hk as [->|Hk]);
    [eauto..|by apply elem_of_nil in Hk]|].
  assert (∀ f key s, loaded (_storage p) f = read_of (_storage p) key →
    getItem (_storage p) key = Some s → loaded (_storage p) f = Text s) as Hread
    by (intros f key s -> Hi; by apply read_of_Some).
  pose proof (Hread F_nodeid _ _ eq_refl I1) as L1.
  pose proof (Hread F_fabricid _ _ eq_refl I2) as L2.
  pose proof (Hread F_encryptionKey _ _ eq_refl I3) as L3.
  pose proof (Hread F_nodenum _ _ eq_refl I4) as L4.
  unfold restarted. split_and!; cbn [store _storage logger_level tracer_level].
  - split; unfold text_stored, number_stored; cbn [store _storage logger_level tracer_level]; fields.
    + exists s1. by rewrite !get_set_ne by done.
    + exists s2. by rewrite !get_set_ne by done.
    + exists s3. by rewrite !get_set_ne by done.
    + exists t4, n. by rewrite L4, !get_set_ne by done.
    + by rewrite get_set_ne, get_set by done.
    + rewrite get_set. split_and!; [|done..]. by exists b.
    + intros k Hk. rewrite !get_set_ne; [by apply H7|..]; intros <-; set_solver.
  - intros f Hf. repeat (apply elem_of_cons in Hf as [->|Hf]);
      [fields; congruence..|by apply elem_of_nil in Hf].
  - intros f Hf. repeat (apply elem_of_cons in Hf as [->|Hf]);
      [fields..|by apply elem_of_nil in Hf].
    + by rewrite L4, W4, V4.
    + by rewrite F6, V6.
  - exists n. split; [done|]. by fields.
  - by fields.
Qed.

(** Starting on an empty storage. *)
Lemma loaded_empty st : (∀ k, getItem st k = None) → ∀ f, truthy (loaded st f) = false.
Proof.
  intros H f. assert (∀ k, read_of st k = Null) as Hn by (intros k; by apply read_of_None).
  by destruct f; unfold loaded; fields; rewrite ?Hn.
Qed.

Lemma default_LogLevel_empty p : truthy (store p F_logLevel) = false →
  default_LogLevel p = set_LogLevel (js_str "info") p.
Proof. intros H. unfold default_LogLevel, get_field, mbind, js_bind. by rewrite H. Qed.

Lemma default_TraceLevel_empty p : truthy (store p F_traceLevel) = false →
  default_TraceLevel p = set_TraceLevel (Num 0) p.
Proof. intros H. unfold default_TraceLevel, get_field, mbind, js_bind. by rewrite H. Qed.

(** A step of [setDefaults] that sets a text. *)
Ltac default_text :=
  erewrite js_bind_eq;
    [|etrans; [apply set_default_run; cbn [store]; by fields|apply write_run]];
  cbn [store _storage logger_level tracer_level].

Lemma init_empty st level fresh :
  (∀ k, getItem st k = None) → known_level level = true →
  ∃ p', store_init fresh (Process_new st level) = (p', Ret tt) ∧ persisted p'.
Proof.
  intros He Hl. pose proof (loaded_empty st He) as Hf. rewrite store_init_loaded. unfold setDefaults.
  default_text. default_text. default_text.
  erewrite js_bind_eq; [|etrans; [apply set_default_run; cbn [store]; by fields
                                 |by apply (set_NodeNum_run _ (Num 0))]].
  cbn [store _storage logger_level tracer_level].
  erewrite js_bind_eq; [|apply set_default_skip; cbn [store]; by fields].
  erewrite js_bind_eq; [|etrans; [apply default_LogLevel_empty; cbn [store]; by fields
                                 |apply set_LogLevel_run]].
  erewrite js_bind_eq; [|etrans; [apply default_TraceLevel_empty; cbn [store]; by fields
                                 |by apply (set_TraceLevel_run _ true)]].
  cbn [store _storage logger_level tracer_level].
  erewrite js_bind_eq; [|etrans; [apply set_default_run; cbn [store]; by fields
                                 |apply set_DaPrivateKey_default]].
  rewrite set_default_run by (cbn [store]; by fields). eexists. split; [reflexivity|].
  set (l := if known_level _ then _ else _). assert (known_level l = true) as Kl by (by subst l; case_match).
  unfold put_field, js_modify. cbn [fst store _storage logger_level tracer_level].
  split; unfold text_stored, number_stored; cbn [store _storage logger_level tracer_level]; fields.
  1-3: eexists; split; [|split; [reflexivity|by rewrite !get_set_ne, get_set by done]];
    apply formatHex_nonempty; lia.
  - exists (js_String (Num 0)), (Num 0). rewrite !get_set_ne, get_set by done.
    split; [done|]. by apply same_Num.
  - by rewrite get_set_ne, get_set by done.
  - rewrite get_set. split_and!; [|done..]. exists false. by apply (same_Num 0).
  - intros k Hk. rewrite !get_set_ne; [by apply He|..]; intros <-; set_solver.
Qed.
(** ** Runs of the program, restarts included

    [args] is the command line: none, or a node number. *)
Definition args_ok (args : list jsstr) : Prop :=
  match args with a :: _ => is_ret (js_Number (Text a)) = true | [] => True end.

Inductive store_run : Process → Prop :=
  | run_first st level args fresh :
      (∀ k, getItem st k = None) → known_level level = true → args_ok args →
      store_run (app_main args fresh (Process_new st level)).1
  | run_again p level args fresh :
      store_run p → known_level level = true → args_ok args →
      store_run (app_main args fresh (Process_new (_storage p) level)).1
  | run_line p line : store_run p → store_run (onReadLine line p).1.

Lemma app_main_persisted args fresh st level p :
  store_init fresh (Process_new st level) = (p, Ret tt) → persisted p → args_ok args →
  persisted (app_main args fresh (Process_new st level)).1.
Proof.
  intros Hi Hp Ha. unfold app_main, args_ok in *. destruct args as [|a args].
  - rewrite js_bind_lift, (js_bind_eq _ _ _ _ _ Hi). done.
  - destruct (js_Number (Text a)) as [n|] eqn:Hn; [|done].
    rewrite js_bind_lift, (js_bind_eq _ _ _ _ _ Hi). apply keeps_set_NodeNum; [|done].
    intros n' Hn'. rewrite (js_Number_idem _ _ Hn) in Hn'. inv_ret. by eapply same_read.
Qed.

Lemma store_run_persisted p : store_run p → persisted p.
Proof.
  induction 1 as [st level args fresh He Hl Ha|p level args fresh _ Hp Hl Ha
                 |p line _ Hp].
  - destruct (init_empty st level fresh He Hl) as (p & Hi & Hp). by eapply app_main_persisted.
  - destruct (init_restart p level fresh Hp Hl) as (q & Hi & Hq & _). by eapply app_main_persisted.
  - by apply keeps_onReadLine.
Qed.

(** C36: whatever lines were typed before, whether their commands completed or threw, and however
    often the program was started, a new start finds the node id, the fabric id, the
    encryption key and the level of the logger as they were, and the same node number
    and trace level; but the port becomes 5540 plus the node number, whatever the
    [port] command had set, and the private key the one of the example certificate.
    Numbers typed with a fraction, an exponent or more than 15 digits are not modelled. *)
Theorem restart_restores (p : Process) (level : jsstr) (fresh : buffer) :
  store_run p → known_level level = true →
  ∃ p', store_init fresh (Process_new (_storage p) level) = (p', Ret tt) ∧
    (∀ f, f ∈ [F_nodeid; F_fabricid; F_encryptionKey; F_logLevel] → store p' f = store p f) ∧
    (∀ f, f ∈ [F_nodenum; F_traceLevel] → js_Number (store p' f) = js_Number (store p f)) ∧
    (∃ n, js_Number (store p F_nodenum) = Ret n ∧ store p' F_ipPort = add_port n) ∧
    store p' F_daPrivateKey = Text (hex_encode TEST_DAC_PRIVKEY).
Proof.
  intros Hp Hl. destruct (init_restart p level fresh (store_run_persisted p Hp) Hl)
    as (p' & Hi & _ & H). by exists p'.
Qed.
End store.

(** A node is started as number 3, gets a node id and a port, and is started again. *)
Definition demo_process : Process :=
  (onReadLine (js_str " port  7000")
    (onReadLine (js_str "nodeid abc")
      (app_main [js_str "3"] [] (Process_new (∅ : gmap string jsstr) (js_str "info"))).1).1).1.

Lemma demo_process_run : store_run demo_process.
Proof.
  apply run_line, run_line. by apply run_first; [intros k; apply lookup_empty|..].
Qed.

Lemma restart_restores_witness :
  store demo_process F_ipPort = Num 7000 ∧
  ∃ p', store_init [] (Process_new (_storage demo_process) (js_str "warn")) = (p', Ret tt) ∧
    (∀ f, f ∈ [F_nodeid; F_fabricid; F_encryptionKey; F_logLevel] →
          store p' f = store demo_process f) ∧
    (∀ f, f ∈ [F_nodenum; F_traceLevel] → js_Number (store p' f) = js_Number (store demo_process f)) ∧
    (∃ n, js_Number (store demo_process F_nodenum) = Ret n ∧ store p' F_ipPort = add_port n) ∧
    store p' F_daPrivateKey = Text (hex_encode TEST_DAC_PRIVKEY).
Proof.
  split; [vm_compute; reflexivity|].
  apply (restart_restores (HP := toy_pino) (HE := toy_ecdsa)).
  - vm_compute. reflexivity.
  - exact demo_process_run.
  - vm_compute. reflexivity.
Defined.
