(* ===== verification/Utilities.v ===== *)
(** * Utilities (src/util/, src/net/Netif.js, src/protocols/echo/, src/Const.js)

    The trace file, random integers, the mixin helper, the network interfaces, the
    constants, and the Echo protocol and OnOff cluster, which are not registered
    anywhere. *)
From stdpp Require Import pretty.
From S2P Require Import Prelude JsNumber JsString TlvType JsValue Message Store StoreTheorems.

(** ** Constants (src/Const.js) *)
Module Const.

Definition Protocols : table Z :=
  [("SECURE_CHANNEL", 0x0000); ("INTERACTION_MODEL", 0x0001); ("BDX", 0x0002);
   ("COMMISSIONING", 0x0003); ("ECHO", 0x0004)]%string.

Definition Clusters : table Z :=
  [("IDENTITY", 0x0003); ("GROUPS", 0x0004); ("SCENES", 0x0005); ("ON_OFF", 0x0006);
   ("LEVEL", 0x0008); ("DESCRIPTOR", 0x001D); ("BINDING", 0x001E);
   ("ACCESS_CONTROL", 0x001F); ("BRIDGED_ACTIONS", 0x0025);
   ("GENERAL_COMMISSIONING", 0x0030); ("NETWORK_COMMISSIONING", 0x0031);
   ("BRIDGED_DEVICE_BASIC_INFO", 0x0039); ("SWITCH", 0x003B);
   ("OPERATIONAL_CREDENTIALS", 0x003E); ("FIXED_LABEL", 0x0040); ("USER_LABEL", 0x0041);
   ("PROXY_CONFIGURATION", 0x0042); ("PROXY_DISCOVERY", 0x0043); ("BOOLEAN", 0x0045);
   ("MODE_SELECT", 0x0050); ("DOOR_LOCK", 0x0101); ("WINDOW_COVERING", 0x0102);
   ("PUMP_CONTROL", 0x0200); ("THERMOSTAT", 0x0201); ("FAN_CONTROL", 0x0202);
   ("THERMOSTAT_UI_CONFIGURATION", 0x0204); ("COLOR_CONTROL", 0x0300);
   ("BALAST_CONFIGURATION", 0x0301); ("ILLUMINANCE_MEASUREMENT", 0x0400);
   ("TEMPERATURE_MEASUREMENT", 0x0402); ("PRESSURE_MEASUREMENT", 0x0403);
   ("FLOW_MEASUREMENT", 0x0404); ("HUMIDITY_MEASUREMENT", 0x0405);
   ("OCCUPANCY_MEASUREMENT", 0x0406); ("LEAF_WETNESS", 0x0407); ("SOIL_MOISTURE", 0x0408);
   ("WAKE_ON_LAN", 0x0503); ("CHANNEL", 0x0504); ("TARGET_NAVIGATOR", 0x0505);
   ("MEDIA_PLAYBACK", 0x0506); ("MEDIA_INPUT", 0x0507); ("LOW_POWER", 0x0508);
   ("KEYPAD_INPUT", 0x0509); ("CONTENT_LAUNCHER", 0x050A); ("AUDIO_OUTPUT", 0x050B);
   ("APP_LAUNCHER", 0x050C); ("APP_BASIC", 0x050D); ("ACCOUNT_LOGIN", 0x050E)]%string.
End Const.

(** ** The trace file (src/util/Tracer.js) *)
Module Tracer.

Definition TRACE_CATEGORY : jsstr := js_str "matternode".
Definition TRACE_DURATION : Z := 0.

Definition Type_ : table string :=
  [("Begin", "B"); ("End", "E"); ("Complete", "X"); ("Meta", "M"); ("Instant", "i");
   ("Counter", "C"); ("Sample", "S"); ("MemGlobal", "V"); ("MemProcess", "v"); ("Obj", "O");
   ("ObjNew", "N"); ("ObjDestroy", "D"); ("AsyncBegin", "b"); ("AsyncInstant", "i");
   ("AsyncEnd", "e"); ("FlowStart", "s"); ("FlowStep", "t"); ("FlowEnd", "f");
   ("ClockSync", "c")]%string.

(** An event: its process, time, duration, phase, name and arguments, which are an
    object of text; the thread id is undefined and not written. *)
Record trace_entry : Type := TraceEntry {
  te_pid : Z;
  te_ts : Z;
  te_dur : Z;
  te_ph : option string;
  te_name : jsstr;
  te_args : option (list (string * jsstr)) }.

(** What is written: the opening, entries with a comma behind each, the closing. *)
Inductive chunk : Type :=
  | Header
  | Entry_ (e : trace_entry)
  | Footer.

Record Tracer : Type := Tracer_ {
  _traceLevel : setting;
  _pid : Z;
  written : list chunk }.

Definition write (c : chunk) : js Tracer unit :=
  js_modify (λ t, Tracer_ (_traceLevel t) (_pid t) (written t ++ [c])).

(** [set level(v)] *)
Definition set_level (v : setting) : js Tracer unit :=
  a ← js_lift (equals_loosely v 0);
  b ← js_lift (equals_loosely v 1);
  if a || b then js_modify (λ t, Tracer_ v (_pid t) (written t))
  else js_throw (Thrown "Invalid value").

(** [emit(name, ph, args)] at the time [now]; a phase that the table does not have is
    undefined and takes the default, and so does an absent one.  The default of the name is
    an unbound variable. *)
Definition emit (now : Z) (name : option jsstr) (ph : option string)
    (args : option (list (string * jsstr))) : js Tracer unit :=
  match name with
  | None => js_throw ReferenceError
  | Some name =>
      let ph := match ph with Some p => Some p | None => own_property Type_ (js_str "Complete") end in
      t ← js_get;
      off ← js_lift (equals_loosely (_traceLevel t) 0);
      if off : bool then mret tt
      else write (Entry_ (TraceEntry (_pid t) now TRACE_DURATION ph name args))
  end.

(** The shorthands, with their default names *)
Definition shorthand (ph : string) (default_name : string) (now : Z) (name : option jsstr)
    (args : option (list (string * jsstr))) : js Tracer unit :=
  emit now (Some (default (js_str default_name) name)) (own_property Type_ (js_str ph)) args.

Definition begin now name := shorthand "Begin" "event" now name None.
Definition end_ now name := shorthand "End" "event" now name None.
Definition event now name := shorthand "Complete" "event" now name None.
Definition instant now name := shorthand "Instant" "event" now name None.
Definition asyncBegin now name := shorthand "AsyncBegin" "async" now name None.
Definition asyncStep now name := shorthand "AsyncInstant" "async" now name None.
Definition asyncEnd now name := shorthand "AsyncEnd" "async" now name None.
Definition flowStart now name := shorthand "FlowStart" "flow" now name None.
Definition flowStep now name := shorthand "FlowStep" "flow" now name None.
Definition flowEnd now name := shorthand "FlowEnd" "flow" now name None.
Definition meta now name args := shorthand "Meta" "meta" now name (Some (default [] args)).
Definition obj now name args := shorthand "Obj" "obj" now name (Some (default [] args)).
Definition objNew now name args := shorthand "Complete" "obj new" now name (Some (default [] args)).
Definition objDestroy now name args :=
  shorthand "ObjDestroy" "obj destroy" now name (Some (default [] args)).
Definition memGlobal now name args :=
  shorthand "MemGlobal" "global memory" now name (Some (default [] args)).
Definition memTask now name args :=
  shorthand "MemProcess" "task memory" now name (Some (default [] args)).

Definition writeHeader (now : Z) : js Tracer unit :=
  write Header ;;
  meta now (Some (js_str "process_name")) (Some [("name"%string, TRACE_CATEGORY)]) ;;
  meta now (Some (js_str "thread_name")) (Some [("name"%string, TRACE_CATEGORY ++ js_str " thread")]).

Definition writeFooter : js Tracer unit := write Footer.

(** [new Tracer()] in the process [pid] *)
Definition Tracer_new (pid now : Z) : Tracer := (writeHeader now (Tracer_ (Num 1) pid [])).1.

(** *** The text of the file *)

(** [JSON.stringify(s)] of a string: quotes, backslashes, control characters and lone
    surrogates are escaped. *)
Definition u_escape (u : Z) : jsstr :=
  js_str "\u" ++ (hex_digit <$> [u `div` 4096; (u `div` 256) `mod` 16; (u `div` 16) `mod` 16; u `mod` 16]).

Fixpoint json_escape (s : jsstr) : jsstr :=
  match s with
  | [] => []
  | u :: s' =>
      if (u =? 34) || (u =? 92) then [92; u] ++ json_escape s'
      else if u =? 8 then js_str "\b" ++ json_escape s'
      else if u =? 9 then js_str "\t" ++ json_escape s'
      else if u =? 10 then js_str "\n" ++ json_escape s'
      else if u =? 12 then js_str "\f" ++ json_escape s'
      else if u =? 13 then js_str "\r" ++ json_escape s'
      else if u <? 32 then u_escape u ++ json_escape s'
      else if is_high u then
        match s' with
        | v :: s'' => if is_low v then [u; v] ++ json_escape s'' else u_escape u ++ json_escape s'
        | [] => u_escape u
        end
      else if is_low u then u_escape u ++ json_escape s'
      else u :: json_escape s'
  end.

Definition quoted (s : jsstr) : jsstr := [34] ++ json_escape s ++ [34].

Fixpoint comma_separated (l : list jsstr) : jsstr :=
  match l with
  | [] => []
  | [s] => s
  | s :: l' => s ++ js_str "," ++ comma_separated l'
  end.

Definition json_object (l : list (string * jsstr)) : jsstr :=
  js_str "{" ++ comma_separated ((λ f, quoted (js_str f.1) ++ js_str ":" ++ f.2) <$> l) ++ js_str "}".

(** A property that is undefined is left out. *)
Definition entry (e : trace_entry) : jsstr :=
  json_object
    ([("pid"%string, js_str (pretty (te_pid e))); ("ts"%string, js_str (pretty (te_ts e)));
      ("cat"%string, quoted TRACE_CATEGORY); ("dur"%string, js_str (pretty (te_dur e)))]
     ++ from_option (λ p, [("ph"%string, quoted (js_str p))]) [] (te_ph e)
     ++ [("name"%string, quoted (te_name e))]
     ++ from_option (λ l, [("args"%string, json_object (prod_map id quoted <$> l))]) [] (te_args e)).

Definition chunk_text (c : chunk) : jsstr :=
  match c with
  | Header => js_str "{" ++ [34] ++ js_str "traceEvents" ++ [34] ++ js_str ":["
  | Entry_ e => entry e ++ js_str ","
  | Footer => js_str "{}]}"
  end.

Definition file_text (l : list chunk) : jsstr := l ≫= chunk_text.

Lemma entries_text (es : list trace_entry) :
  file_text (Entry_ <$> es) ++ js_str "{}"
  = comma_separated ((entry <$> es) ++ [js_str "{}"]).
Proof.
  induction es as [|e es IH]; [done|].
  assert (Hc : ∀ s l, comma_separated (s :: (l ++ [js_str "{}"]))
    = s ++ js_str "," ++ comma_separated (l ++ [js_str "{}"])) by (by intros s [|]).
  change ((entry <$> e :: es) ++ [js_str "{}"]) with (entry e :: ((entry <$> es) ++ [js_str "{}"])).
  rewrite Hc, <- IH. unfold file_text. rewrite fmap_cons, bind_cons. cbn [chunk_text].
  by rewrite <- !app_assoc.
Qed.

(** The file of a process that has exited is an array of the entries with an empty object
    at its end. *)
Lemma closed_file (es : list trace_entry) :
  file_text (Header :: (Entry_ <$> es) ++ [Footer])
  = chunk_text Header ++ comma_separated ((entry <$> es) ++ [js_str "{}"]) ++ js_str "]}".
Proof.
  rewrite <- entries_text. unfold file_text. rewrite bind_cons, bind_app, <- !app_assoc. done.
Qed.

(** What the tracer has written so far is the opening and entries. *)
Definition open_file (t : Tracer) : Prop := ∃ es, written t = Header :: (Entry_ <$> es).

Lemma keeps_emit now name ph args : keeps open_file (emit now name ph args).
Proof.
  unfold emit. destruct name as [name|]; [|apply keeps_throw].
  intros t (es & Ht). unfold mbind, js_bind, js_get, js_lift.
  destruct (equals_loosely (_traceLevel t) 0) as [[]|]; cbn; [by exists es| |by exists es].
  eexists (es ++ [_]). rewrite Ht, fmap_app. done.
Qed.

Lemma new_open pid now : open_file (Tracer_new pid now).
Proof. eexists [_; _]. done. Qed.
End Tracer.

(** ** Random integers (src/util/Random.js) *)
Module Random.

Definition Random_UINT8_MAX : Z := 255.
Definition Random_UINT16_MAX : Z := 65535.
Definition Random_UINT32_MAX : Z := 4294967295.

(** The product of the double [k / 2^53] with the integer [n], rounded to a double, and its
    integral part. *)
Definition random_floor (k n : Z) : Z :=
  let m := k * n in
  let s := Z.max 0 (Z.log2 m - 52) in
  (shift_rne m s * 2 ^ s) `div` 2 ^ 53.

(** [getRandomInt(min, max)] for integers; [Math.random()] is [k / 2^53]. *)
Definition getRandomInt (k min max : Z) : Z := random_floor k (max - min + 1) + min.

Definition getRandomUint8 (k : Z) : Z := getRandomInt k 0 Random_UINT8_MAX.
Definition getRandomUint16 (k : Z) : Z := getRandomInt k 0 Random_UINT16_MAX.
Definition getRandomUint32 (k : Z) : Z := getRandomInt k 0 Random_UINT32_MAX.

Lemma shift_rne_error m s : 0 <= m → 0 <= s → 0 <= shift_rne m s ∧ 2 * (shift_rne m s * 2 ^ s) <= 2 * m + 2 ^ s.
Proof.
  intros Hm Hs. unfold shift_rne. assert (0 < 2 ^ s) by lia.
  pose proof (Z.div_mod m (2 ^ s) ltac:(lia)) as E. pose proof (Z.mod_pos_bound m (2 ^ s) ltac:(lia)).
  assert (0 <= m `div` 2 ^ s) by (apply Z.div_pos; lia).
  repeat case_match; try rewrite !Z.ltb_lt in *; try rewrite !Z.ltb_ge in *; nia.
Qed.

Lemma shift_rne_0 m : shift_rne m 0 = m.
Proof. unfold shift_rne. by rewrite Z.pow_0_r, Z.mod_1_r, Z.div_1_r. Qed.

(** A range of at most 2^53 integers is not left: rounding never reaches the integer behind
    the last one. *)
Lemma random_floor_bounds k n :
  0 <= k < 2 ^ 53 → 0 < n <= 2 ^ 53 → 0 <= random_floor k n < n.
Proof.
  intros Hk Hn. unfold random_floor. cbn zeta. set (m := k * n). assert (0 <= m) by nia.
  set (s := Z.max 0 (Z.log2 m - 52)). destruct (shift_rne_error m s) as [H0 H1]; [lia..|].
  split; [apply Z.div_pos; nia|]. apply Z.div_lt_upper_bound; [lia|].
  assert (m <= 2 ^ 53 * n - n) by nia. destruct (Z.eq_dec s 0) as [E|E].
  - rewrite E, shift_rne_0, Z.pow_0_r. lia.
  - assert (0 < m) by (destruct (Z.eq_dec m 0) as [E0|]; [unfold s in E; rewrite E0 in E; by cbn in E|lia]).
    pose proof (Z.log2_spec m ltac:(lia)) as [Hl _].
    assert (Hs : s + 52 = Z.log2 m) by (unfold s in *; lia).
    assert (2 ^ s * 2 ^ 52 <= m) by (rewrite <- Z.pow_add_r, Hs by lia; lia).
    nia.
Qed.

Lemma getRandomInt_range k min max :
  0 <= k < 2 ^ 53 → min <= max → max - min < 2 ^ 53 → min <= getRandomInt k min max <= max.
Proof. intros. unfold getRandomInt. pose proof (random_floor_bounds k (max - min + 1)). lia. Qed.
End Random.

(** ** Network interfaces (src/net/Netif.js) *)
Module Netif.

(** [os.networkInterfaces()]: the addresses of each interface, with their family, which
    some releases of Node give as text and some as a number. *)
Record address : Type := Address { family : jsstr + Z; address_ : jsstr }.

Definition getInterfaces (os : list (jsstr * list address)) : list jsstr := os.*1.

Definition is_ipv6 (i : address) : bool :=
  match family i with inl s => bool_decide (s = js_str "IPv6") | inr n => n =? 6 end.

Fixpoint find_ipv6 (l : list address) : option jsstr :=
  match l with
  | [] => None
  | i :: l' => if is_ipv6 i then Some (address_ i) else find_ipv6 l'
  end.

(** [getIpv6(iface)] *)
Definition getIpv6 (os : list (jsstr * list address)) (iface : jsstr) : option jsstr :=
  match list_find (λ n, n.1 = iface) os with
  | Some (_, (_, l)) => find_ipv6 l
  | None => None
  end.

(** What [Discovery.update] finds: each interface with its address. *)
Definition discovered (os : list (jsstr * list address)) : list (jsstr * option jsstr) :=
  (λ iface, (iface, getIpv6 os iface)) <$> getInterfaces os.

(** The match of [/(\d+)\.(\d+)\.(\d+)/]: three groups of digits with dots between them,
    the leftmost in the text *)
Fixpoint span_digits (s : jsstr) : jsstr * jsstr :=
  match s with
  | u :: s' => if is_digit u then let '(a, b) := span_digits s' in (u :: a, b) else ([], s)
  | [] => ([], [])
  end.

Definition digit_group (s : jsstr) : option (jsstr * jsstr) :=
  match span_digits s with ([], _) => None | m => Some m end.

Definition after_dot (s : jsstr) : option jsstr :=
  match s with u :: s' => if u =? 46 then Some s' else None | [] => None end.

Definition match_version (s : jsstr) : option (list jsstr) :=
  '(a, s) ← digit_group s; s ← after_dot s; '(b, s) ← digit_group s; s ← after_dot s; '(c, _) ← digit_group s;
  Some [a; b; c].

Fixpoint find_version (s : jsstr) : option (list jsstr) :=
  match match_version s, s with
  | Some m, _ => Some m
  | None, _ :: s' => find_version s'
  | None, [] => None
  end.

(** [nodeVersion()], for the text of [process.version]; without a match there is no
    [slice].  Numbers are exact up to 15 digits. *)
Definition nodeVersion (version : jsstr) : outcome Z :=
  match find_version version with
  | Some m =>
      let major := digits_value (hd [] m) in
      if major <? 10 ^ 15 then Ret major else Throw OutOfModel
  | None => Throw TypeError
  end.

Lemma span_digits_app d s : forallb is_digit d = true → (∀ u s', s = u :: s' → is_digit u = false) →
  span_digits (d ++ s) = (d, s).
Proof.
  intros Hd Hs. induction d as [|u d IH]; cbn [app span_digits].
  - destruct s as [|u s]; [done|]. cbn. by rewrite (Hs u s).
  - apply andb_prop in Hd as [Hu Hd]. by rewrite Hu, IH.
Qed.

Lemma digit_group_app d s : d ≠ [] → forallb is_digit d = true →
  (∀ u s', s = u :: s' → is_digit u = false) → digit_group (d ++ s) = Some (d, s).
Proof. intros Hn Hd Hs. unfold digit_group. rewrite span_digits_app by done. by destruct d. Qed.

Lemma pretty_nil z : 0 <= z → js_str (pretty z) ≠ [].
Proof.
  intros Hz H. by apply (pretty_nonempty z Hz), js_str_inj.
Qed.

(** The version of a release, such as v18.12.1, gives its first number. *)
Lemma nodeVersion_release a b c : 0 <= a < 10 ^ 15 → 0 <= b → 0 <= c →
  nodeVersion (js_str "v" ++ js_str (pretty a) ++ js_str "." ++ js_str (pretty b) ++ js_str "."
               ++ js_str (pretty c)) = Ret a.
Proof.
  intros [Ha Ha'] Hb Hc. destruct (pretty_digits a Ha) as [Da Va], (pretty_digits b Hb) as [Db _],
    (pretty_digits c Hc) as [Dc _].
  assert (∀ s u s', js_str "." ++ s = u :: s' → is_digit u = false) as Hdot by by intros ? ? ? [= <- _].
  unfold nodeVersion. change (js_str "v" ++ ?s) with (118 :: s). cbn [find_version].
  change (match_version (118 :: ?s)) with (None (A := list jsstr)).
  set (s := js_str (pretty a) ++ _).
  assert (match_version s = Some [js_str (pretty a); js_str (pretty b); js_str (pretty c)]) as Hm.
  { unfold match_version, s. rewrite digit_group_app by eauto using pretty_nil. cbn [mbind option_bind].
    change (after_dot (js_str "." ++ ?s)) with (Some s). cbn [mbind option_bind].
    rewrite digit_group_app by eauto using pretty_nil. cbn [mbind option_bind].
    change (after_dot (js_str "." ++ ?s)) with (Some s). cbn [mbind option_bind].
    rewrite <- (app_nil_r (js_str (pretty c))), digit_group_app by (eauto using pretty_nil || done).
    cbn [mbind option_bind]. by rewrite app_nil_r. }
  assert (find_version s = match_version s) as -> by (destruct s; cbn [find_version]; by rewrite Hm).
  rewrite Hm. cbn [hd]. rewrite Va. by apply Z.ltb_lt in Ha' as ->.
Qed.

Lemma find_ipv6_Some l a : find_ipv6 l = Some a → ∃ i, i ∈ l ∧ is_ipv6 i = true ∧ address_ i = a.
Proof.
  induction l as [|i l IH]; cbn; [done|]. destruct (is_ipv6 i) eqn:E.
  - intros [= <-]. exists i. split; [left|done].
  - intros (j & ? & ?)%IH. exists j. split; [by right|done].
Qed.

(** Names are unique: an interface without an IPv6 address has none in the result. *)
Lemma discovered_lookup os iface l :
  NoDup os.*1 → (iface, l) ∈ os → (iface, find_ipv6 l) ∈ discovered os.
Proof.
  intros Hd Hin. apply list_elem_of_fmap. exists iface. split; [|by apply (list_elem_of_fmap_2 fst _ (iface, l))].
  unfold getIpv6. destruct (list_find_elem_of (λ n : jsstr * list address, n.1 = iface) os _ Hin eq_refl) as [[i [n l']] E].
  rewrite E. apply list_find_Some in E as (Hi & Hn & _). cbn in Hn. subst n. do 2 f_equal.
  apply list_elem_of_lookup in Hin as (j & Hj).
  assert (i = j) as ->; [|congruence].
  eapply NoDup_lookup; [exact Hd| |]; rewrite list_lookup_fmap; [by rewrite Hi|by rewrite Hj].
Qed.
End Netif.

(** ** Mixins (src/util/Mixin.js) *)
Module Mixin.
Section mixin.
Context {V : Type}.

(** A prototype is its own properties, in order; [p[name] = v] replaces one or adds it. *)
Fixpoint Object_assign (p : table V) (name : string) (v : V) : table V :=
  match p with
  | [] => [(name, v)]
  | (n, w) :: p' => if bool_decide (n = name) then (n, v) :: p' else (n, w) :: Object_assign p' name v
  end.

(** [extend(baseClass, mixinClass)] *)
Definition extend (base mixin : table V) : table V :=
  foldl (λ p f, Object_assign p f.1 f.2) base mixin.

(** [bind(self, mixinClass)]; [bound] is the method bound to the object. *)
Definition bind (bound : V → V) (self mixin : table V) : table V :=
  foldl (λ p f, Object_assign p f.1 (bound f.2)) self mixin.

Definition own (p : table V) (name : string) : option V := list_to_map (M := gmap string V) p !! name.

Lemma own_assign p name v n : own (Object_assign p name v) n = if bool_decide (n = name) then Some v else own p n.
Proof.
  unfold own. induction p as [|[m w] p IH].
  - cbn. destruct (decide (n = name)) as [->|]; [by rewrite bool_decide_true by done; simplify_map_eq|].
    by rewrite bool_decide_false by done; simplify_map_eq.
  - cbn [Object_assign]. destruct (decide (m = name)) as [->|Hm];
      [rewrite (bool_decide_true (name = name)) by done|rewrite (bool_decide_false (m = name)) by done]; cbn.
    + destruct (decide (n = name)) as [->|]; [by rewrite bool_decide_true by done; simplify_map_eq|].
      by rewrite bool_decide_false by done; simplify_map_eq.
    + destruct (decide (n = m)) as [->|]; [by rewrite bool_decide_false by done; simplify_map_eq|].
      rewrite !lookup_insert_ne by done. exact IH.
Qed.

(** A name of the mixin is the mixin's, [constructor] too; the others stay. *)
Lemma own_extend base mixin n :
  NoDup mixin.*1 →
  own (extend base mixin) n = match own mixin n with Some v => Some v | None => own base n end.
Proof.
  revert base. induction mixin as [|[m w] mixin IH]; intros base Hd; [done|].
  cbn in Hd. apply NoDup_cons in Hd as [Hm Hd]. cbn. unfold extend in IH.
  rewrite IH by done. rewrite own_assign. unfold own. cbn.
  destruct (decide (n = m)) as [->|Hn]; simplify_map_eq.
  - rewrite bool_decide_true by done.
    by rewrite (not_elem_of_list_to_map_1 (M := gmap string) mixin) by done.
  - by rewrite bool_decide_false.
Qed.
End mixin.

(** A class with a method, extended by one with another. *)
Example extend_example :
  extend [("constructor", 1); ("onReport", 2)] [("constructor", 3); ("onRead", 4)]
  = [("constructor", 3); ("onReport", 2); ("onRead", 4)]%string.
Proof. reflexivity. Qed.
End Mixin.

(** ** The Echo protocol (src/protocols/echo/) and the OnOff cluster

    Nothing creates their objects. *)
Module Echo.

Definition EchoProtocol_PROTOCOL_ID : Z := 0x0004.
Definition Command : table Z := [("EchoRequest", 0x01); ("EchoResponse", 0x02)]%string.
Definition kEchoMessageTimeoutMsec : Z := 800.

(** A message has no property of the name [Opcode]. *)
Definition Opcode (msg : Message) : option Z := None.

Definition sendEchoResponse (msg : Message) : outcome unit := _ ← Payload msg; Ret tt.
Definition onEchoRequest (msg : Message) : outcome unit := sendEchoResponse msg.

(** [EchoServer.onProtocolMessage(msg, exchange)] *)
Definition EchoServer_onProtocolMessage (msg : Message) : outcome unit :=
  match Opcode msg with
  | Some o => if o =? 0x01 then onEchoRequest msg else Ret tt
  | None => Ret tt
  end.

(** The client keeps the manager under another name than the one it reads. *)
Record EchoClient : Type := EchoClient_new { _exchangeMgr : unit; exchangeMgr : option unit }.

Definition sendEchoRequest (c : EchoClient) : outcome unit :=
  match exchangeMgr c with Some _ => Throw OutOfModel | None => Throw TypeError end.

Lemma echo_ignored msg : EchoServer_onProtocolMessage msg = Ret tt.
Proof. done. Qed.
End Echo.

Module ClusterOnOff.
Definition CLUSTER_ID : Z := 0x0006.
Definition Commands : table Z :=
  [("Off", 0x00); ("On", 0x01); ("Toggle", 0x02); ("OnWithEffect", 0x40);
   ("OnWithRecallScene", 0x41); ("OnWithTimedOff", 0x42)]%string.
End ClusterOnOff.

(** ** Errors of the sockets (src/net/UdpServer.js, src/net/UdpClient.js) *)
Module Udp.

(** [this.emit("error", err)] throws the error when nothing listens; the program registers
    no listener. *)
Definition emit_error (listeners : nat) (err : js_error) : outcome unit :=
  match listeners with O => Throw err | S _ => Ret tt end.

(** The state is whether the socket is open. *)
Definition UdpServer_onError (listeners : nat) (err : js_error) : js bool unit :=
  js_lift (emit_error listeners err) ;; js_modify (λ _, false).

(** The client's [this._server] is undefined. *)
Definition UdpClient_onError (listeners : nat) (err : js_error) : js bool unit :=
  js_lift (emit_error listeners err) ;; js_throw TypeError.

(** A socket error ends with an exception and the socket stays open. *)
Lemma server_error_throws err open : UdpServer_onError 0 err open = (open, Throw err).
Proof. done. Qed.

Lemma client_error_throws n err open : ∃ e, UdpClient_onError n err open = (open, Throw e).
Proof. destruct n; by eexists. Qed.
End Udp.
