(* ===== verification/Discovery.v ===== *)
(** * Discovery (src/net/Discovery.js)

    DNS-SD over multicast DNS: what a node answers to queries and what it makes of the
    answers of others.  The socket of an interface is the package [multicast-dns], where
    queries come from and responses go: the model keeps what the code hands to it, and
    what others hear of that is the class [Mdns]. *)
From stdpp Require Import pretty.
From S2P Require Import Prelude JsString Store.

Definition MDNS_TTL_TIMEOUT : Z := 120.
Definition MDNS_DOMAIN_OPERATIONAL : jsstr := js_str "_matter._tcp.local".
Definition MDNS_DOMAIN_COMMISSIONABLE : jsstr := js_str "_matterc._udp.local".
Definition MDNS_DOMAIN_COMMISSIONER : jsstr := js_str "_matterd._udp.local".

(** ** Resource records *)

(** [address] is [undefined] for an interface without IPv6. *)
Inductive rdata : Type :=
  | NameData (s : jsstr)
  | TextData (l : list jsstr)
  | ServiceData (port : setting) (weight priority : Z) (target : jsstr)
  | AddressData (address : option jsstr).

Record resource_record : Type := RR {
  rr_name : jsstr;
  rr_type : string;
  rr_ttl : Z;
  rr_class : option string;
  rr_flush : option bool;
  rr_data : rdata }.

Record response : Type := Response {
  answers : list resource_record;
  additionals : list resource_record }.

Record question : Type := Question { q_name : jsstr; q_type : string }.

(** [s.includes(t)] *)
Fixpoint starts_with (s t : jsstr) : bool :=
  match t, s with
  | [], _ => true
  | v :: t', u :: s' => (u =? v) && starts_with s' t'
  | _ :: _, [] => false
  end.

Fixpoint includes (s t : jsstr) : bool :=
  starts_with s t || match s with [] => false | _ :: s' => includes s' t end.

(** ** Responding *)

Definition instanceName : jsstr := js_str "914CE95294D70845".
Definition servicesName : jsstr := js_str "_services._dns-sd._udp.local".
Definition vendorID : Z := 65521.
Definition discriminator : Z := 0.

Definition dot (s t : jsstr) : jsstr := s ++ js_str "." ++ t.

Definition pointer (name data : jsstr) : resource_record :=
  RR name "PTR" MDNS_TTL_TIMEOUT (Some "IN"%string) (Some false) (NameData data).

(** The subtypes: vendor, short and long discriminator, commissioning mode. *)
Definition sub_V : jsstr := js_str "_V" ++ js_str (pretty vendorID) ++ js_str "._sub."
  ++ MDNS_DOMAIN_COMMISSIONABLE.
Definition sub_S : jsstr := js_str "_S" ++ js_str (pretty discriminator) ++ js_str "._sub."
  ++ MDNS_DOMAIN_COMMISSIONABLE.
Definition sub_L : jsstr := js_str "_L" ++ js_str (pretty discriminator) ++ js_str "._sub."
  ++ MDNS_DOMAIN_COMMISSIONABLE.
Definition sub_CM : jsstr := js_str "_CM._sub." ++ MDNS_DOMAIN_COMMISSIONABLE.

Definition commissionable_txt : list jsstr :=
  [js_str "VP=" ++ js_str (pretty vendorID) ++ js_str "+32769"; js_str "SII=5000";
   js_str "SAI=300"; js_str "T=1"; js_str "D=" ++ js_str (pretty discriminator);
   js_str "CM=1"; js_str "PH=33"; js_str "PI="].

(** [onCommissionableDiscovery]: its response, for the port of the store and the address
    of the interface *)
Definition commissionable_response (ipPort : setting) (ip6Addr : option jsstr) : response :=
  let serviceName := MDNS_DOMAIN_COMMISSIONABLE in
  let instance := dot instanceName serviceName in
  let host := dot instanceName (js_str "local") in
  Response
    [pointer servicesName serviceName; pointer servicesName sub_V; pointer servicesName sub_S;
     pointer servicesName sub_L; pointer servicesName sub_CM;
     pointer sub_V instance; pointer sub_S instance; pointer sub_L instance;
     pointer sub_CM instance; pointer serviceName instance]
    [RR instance "SRV" MDNS_TTL_TIMEOUT (Some "IN"%string) (Some false)
       (ServiceData ipPort 0 0 host);
     RR host "AAAA" MDNS_TTL_TIMEOUT (Some "IN"%string) (Some false) (AddressData ip6Addr);
     RR (instanceName ++ js_str "._matterc._udp.local") "TXT" 4500 (Some "IN"%string)
       (Some false) (TextData commissionable_txt)].

(** [onOperationalDiscovery]: its response *)
Definition operational_response (mdnsTarget : jsstr) (ipPort : setting)
    (ip6Addr : option jsstr) : response :=
  let instance := dot mdnsTarget MDNS_DOMAIN_OPERATIONAL in
  Response
    [RR instance "TXT" MDNS_TTL_TIMEOUT (Some "IN"%string) (Some true)
       (NameData (js_str "test"));
     RR instance "SRV" MDNS_TTL_TIMEOUT None (Some true) (ServiceData ipPort 0 0 mdnsTarget);
     RR (dot mdnsTarget (js_str "local")) "AAAA" MDNS_TTL_TIMEOUT (Some "IN"%string) (Some true)
       (AddressData ip6Addr);
     RR MDNS_DOMAIN_OPERATIONAL "PTR" MDNS_TTL_TIMEOUT (Some "IN"%string) None
       (NameData instance)]
    [].

(** ** The object

    An interface is its index; [interfaces] holds its name and address, [outbox] the
    packets sent so far with their interface. *)
Inductive packet : Type :=
  | QueryPacket (q : question)
  | ResponsePacket (r : response).

Record Discovery : Type := Disc {
  mdnsTarget : jsstr;
  mdnsInterfaces : list (jsstr * option jsstr);
  outbox : list (nat * packet) }.

(** [initListener(iface, ipAddr)] on other systems than macOS: the loopback interface
    is left out. *)
Definition initListener (iface : jsstr) : bool :=
  negb (includes (js_str "::%" ++ iface) (js_str "%lo")).

(** The constructor with [update()]: one listener for each interface of the system *)
Definition Discovery_new (interfaces : list (jsstr * option jsstr)) : Discovery :=
  Disc (js_str "null") (filter (λ i, initListener i.1 = true) interfaces) [].

Definition setTarget (target : jsstr) : js Discovery unit :=
  js_modify (λ d, Disc target (mdnsInterfaces d) (outbox d)).

(** [mdns.respond(...)] and [mdns.query(...)] on the interface [i]: the call keeps its argument
    until the socket is bound; encoding and sending come later, in callbacks of the
    package. *)
Definition post (i : nat) (p : packet) : js Discovery unit :=
  js_modify (λ d, Disc (mdnsTarget d) (mdnsInterfaces d) (outbox d ++ [(i, p)])).

Definition onCommissionableDiscovery (ipPort : setting) (ip6Addr : option jsstr) (i : nat)
    : js Discovery unit :=
  post i (ResponsePacket (commissionable_response ipPort ip6Addr)).

Definition onOperationalDiscovery (ipPort : setting) (ip6Addr : option jsstr) (i : nat)
    : js Discovery unit :=
  d ← js_get; post i (ResponsePacket (operational_response (mdnsTarget d) ipPort ip6Addr)).

(** One question of a query *)
Definition onQuestion (ipPort : setting) (ip6Addr : option jsstr) (i : nat) (q : question)
    : js Discovery unit :=
  if bool_decide (q_type q = "PTR"%string) || bool_decide (q_type q = "ANY"%string) then
    if includes (q_name q) MDNS_DOMAIN_OPERATIONAL
    then onOperationalDiscovery ipPort ip6Addr i
    else if bool_decide (q_name q = MDNS_DOMAIN_COMMISSIONABLE)
    then onCommissionableDiscovery ipPort ip6Addr i
    else mret tt
  else mret tt.

(** [onQuery(query, ip6Addr, mdns)]; [ipPort] is [theNode.Store.IpPort]. *)
Definition onQuery (ipPort : setting) (questions : list question) (ip6Addr : option jsstr)
    (i : nat) : js Discovery unit :=
  js_forEach (onQuestion ipPort ip6Addr i) questions.

(** [queryAll(serviceName, queryType)] and [respondAll(response)] *)
Definition queryAll (serviceName : jsstr) (queryType : string) : js Discovery unit :=
  d ← js_get;
  js_forEach (λ i, post i (QueryPacket (Question serviceName queryType)))
             (seq 0 (length (mdnsInterfaces d))).

Definition respondAll (r : response) : js Discovery unit :=
  d ← js_get;
  js_forEach (λ i, post i (ResponsePacket r)) (seq 0 (length (mdnsInterfaces d))).

(** [doMdns(args)] (src/shell/cmd_mdns.js), with its options *)
Definition doMdns (matterc matterd : bool) : js Discovery unit :=
  queryAll (if matterc then MDNS_DOMAIN_COMMISSIONABLE
            else if matterd then MDNS_DOMAIN_COMMISSIONER
            else MDNS_DOMAIN_OPERATIONAL) "PTR".

(** ** Listening

    The local variables of [onResponse]; [None] is [undefined].  The message it prints
    shows [node], [ip], [port] and [service]. *)
Record sighting : Type := Sighting {
  node : option rdata;
  ip : option rdata;
  s_port : option setting;
  service : string }.

(** [entry["data"]["port"]]: only the data of a service record has one. *)
Definition data_port (d : rdata) : option setting :=
  match d with ServiceData p _ _ _ => Some p | _ => None end.

Definition see_answer (s : sighting) (e : resource_record) : sighting :=
  let s := if bool_decide (rr_name e = MDNS_DOMAIN_OPERATIONAL)
           then Sighting (Some (rr_data e)) (ip s) (s_port s) (service s) else s in
  let s := if bool_decide (rr_name e = MDNS_DOMAIN_COMMISSIONABLE)
           then Sighting (Some (rr_data e)) (ip s) (s_port s) "matterc" else s in
  let s := if bool_decide (rr_type e = "AAAA"%string)
           then Sighting (node s) (Some (rr_data e)) (s_port s) (service s) else s in
  if bool_decide (rr_type e = "SRV"%string)
  then Sighting (node s) (ip s) (data_port (rr_data e)) (service s) else s.

(** The text of a TXT record is converted, [entry["data"].map(...)], and not used. *)
Definition see_additional (s : sighting) (e : resource_record) : outcome sighting :=
  let s := if bool_decide (rr_type e = "AAAA"%string)
           then Sighting (node s) (Some (rr_data e)) (s_port s) (service s) else s in
  let s := if bool_decide (rr_type e = "SRV"%string)
           then Sighting (node s) (ip s) (data_port (rr_data e)) (service s) else s in
  if bool_decide (rr_type e = "TXT"%string)
  then match rr_data e with TextData _ => Ret s | _ => Throw TypeError end
  else Ret s.

Fixpoint see_additionals (s : sighting) (l : list resource_record) : outcome sighting :=
  match l with
  | [] => Ret s
  | e :: l' => s ← see_additional s e; see_additionals s l'
  end.

(** [onResponse(response, mdns)]: what is printed; nothing when no node is named. *)
Definition onResponse (r : response) : outcome (option sighting) :=
  let s := foldl see_answer (Sighting None None None "matter") (answers r) in
  s ← see_additionals s (additionals r);
  Ret (if bool_decide (is_Some (node s)) then Some s else None).

(** A query comes in on the interface [i], which answers with its own address. *)
Definition query_event (ipPort : setting) (questions : list question) (i : nat)
    : js Discovery unit :=
  d ← js_get;
  match mdnsInterfaces d !! i with
  | Some (_, ip6Addr) => onQuery ipPort questions ip6Addr i
  | None => mret tt
  end.

(** ** The package [multicast-dns]

    [mdns_hear r] is the response that another node's package hands on when this one's
    was given [r], and [None] when it sends nothing that can be read.  [mdns_address] is the
    text that an IPv6 address arrives as, since it travels as 16 octets; what is no
    address has none. *)
Class Mdns : Type := {
  mdns_hear (r : response) : option response;
  mdns_address (a : jsstr) : option jsstr }.

(** The labels of a name *)
Fixpoint labels (s : jsstr) : list jsstr :=
  match s with
  | [] => [[]]
  | u :: s' => match labels s' with
               | l :: ls => if u =? 46 then [] :: l :: ls else (u :: l) :: ls
               | [] => []
               end
  end.

Definition is_ascii (u : Z) : bool := (0 <? u) && (u <? 128).
Definition label_ok (l : jsstr) : bool :=
  (1 <=? str_length l) && (str_length l <=? 63) && forallb is_ascii l.
Definition name_ok (s : jsstr) : bool := forallb label_ok (labels s) && (str_length s <=? 253).
Definition text_ok (s : jsstr) : bool := (str_length s <=? 255) && forallb is_ascii s.
Definition is_uint16 (z : Z) : bool := (0 <=? z) && (z <? 65536).

(** What arrives of the data of a record, when a record of its type can hold it: names of
    labels of 1 to 63 octets, ports of 16 bits, addresses that are addresses, and text in
    parts of at most 255 octets; a single text arrives as a list. *)
Definition carry (address : jsstr → option jsstr) (type : string) (d : rdata) : option rdata :=
  match d with
  | NameData s =>
      if bool_decide (type = "PTR"%string) && name_ok s then Some (NameData s)
      else if bool_decide (type = "TXT"%string) && text_ok s then Some (TextData [s]) else None
  | TextData l => if bool_decide (type = "TXT"%string) && forallb text_ok l then Some d else None
  | ServiceData (Num p) w q t =>
      if bool_decide (type = "SRV"%string) && is_uint16 p && is_uint16 w && is_uint16 q && name_ok t
      then Some d else None
  | AddressData (Some a) =>
      if bool_decide (type = "AAAA"%string) then (λ a, AddressData (Some a)) <$> address a else None
  | _ => None
  end.

Definition carriable `{Mdns} (e : resource_record) : Prop :=
  name_ok (rr_name e) = true ∧ is_Some (carry mdns_address (rr_type e) (rr_data e)).

Definition carried `{Mdns} (e e' : resource_record) : Prop :=
  rr_name e' = rr_name e ∧ rr_type e' = rr_type e ∧
  carry mdns_address (rr_type e) (rr_data e) = Some (rr_data e').

(** A response of such records arrives with its records in their order. *)
Class MdnsLaws (M : Mdns) : Prop := {
  hear_carried r : Forall carriable (answers r) → Forall carriable (additionals r) →
    ∃ r', mdns_hear r = Some r' ∧ Forall2 carried (answers r) (answers r') ∧
          Forall2 carried (additionals r) (additionals r') }.

(** A toy package: what cannot be carried is not sent. *)
Definition toy_carry (e : resource_record) : option resource_record :=
  if name_ok (rr_name e) then
    RR (rr_name e) (rr_type e) (rr_ttl e) (rr_class e) (rr_flush e)
      <$> carry (λ a, if (length a =? 0)%nat then None else Some a) (rr_type e) (rr_data e)
  else None.

#[export] Instance toy_mdns : Mdns := {|
  mdns_hear r := a ← mapM toy_carry (answers r); b ← mapM toy_carry (additionals r);
                 Some (Response a b);
  mdns_address a := if (length a =? 0)%nat then None else Some a |}.

Lemma toy_carried l : Forall carriable l → ∃ l', mapM toy_carry l = Some l' ∧ Forall2 carried l l'.
Proof.
  induction 1 as [|e l [Hn [d Hd]] _ (l' & Hl & H)]; [by exists []|].
  cbn [mdns_address toy_mdns] in Hd.
  set (e' := RR (rr_name e) (rr_type e) (rr_ttl e) (rr_class e) (rr_flush e) d).
  assert (toy_carry e = Some e') as He by (unfold toy_carry; by rewrite Hn, Hd).
  exists (e' :: l'). split; [|by constructor]. cbn. by rewrite He, Hl.
Qed.

#[export] Instance toy_mdns_laws : MdnsLaws toy_mdns.
Proof.
  split. intros r (a & Ha & Hfa)%toy_carried (b & Hb & Hfb)%toy_carried.
  exists (Response a b). cbn [mdns_hear toy_mdns]. by rewrite Ha, Hb.
Qed.

(** ** What the node promises to those who ask *)

Lemma starts_with_spec s t : starts_with s t = true ↔ ∃ b, s = t ++ b.
Proof.
  revert s. induction t as [|v t IH]; intros [|u s]; cbn.
  - split; [by exists []|done].
  - split; [by eexists|done].
  - split; [done|by intros (b & ?)].
  - rewrite andb_true_iff, Z.eqb_eq, IH. split.
    + intros [-> (b & ->)]. by exists b.
    + intros (b & E). injection E as -> ->. split; [done|by exists b].
Qed.

Lemma includes_spec s t : includes s t = true ↔ ∃ a b, s = a ++ t ++ b.
Proof.
  induction s as [|u s IH]; cbn [includes]; rewrite orb_true_iff, starts_with_spec.
  - split; [intros [(b & ->)|?]; [by exists [], b|done]|]. intros (a & b & E). left.
    exists b. destruct a; [done|discriminate E].
  - rewrite IH. split.
    + intros [(b & ->)|(a & b & ->)]; [by exists [], b|by exists (u :: a), b].
    + intros ([|v a] & b & E); [left; by exists b|right]. injection E as -> ->. by exists a, b.
Qed.

Inductive service_kind : Type := Operational | Commissionable.

(** What a question asks for *)
Definition asks (q : question) (k : service_kind) : Prop :=
  (q_type q = "PTR"%string ∨ q_type q = "ANY"%string) ∧
  match k with
  | Operational => ∃ a b, q_name q = a ++ MDNS_DOMAIN_OPERATIONAL ++ b
  | Commissionable => q_name q = MDNS_DOMAIN_COMMISSIONABLE
  end.

Definition asked (q : question) : option service_kind :=
  if bool_decide (q_type q = "PTR"%string) || bool_decide (q_type q = "ANY"%string) then
    if includes (q_name q) MDNS_DOMAIN_OPERATIONAL then Some Operational
    else if bool_decide (q_name q = MDNS_DOMAIN_COMMISSIONABLE) then Some Commissionable
    else None
  else None.

Lemma asked_spec q k : asked q = Some k ↔ asks q k.
Proof.
  unfold asked, asks. destruct (_ || _) eqn:E.
  - assert (q_type q = "PTR"%string ∨ q_type q = "ANY"%string) as Ht.
    { apply orb_true_iff in E. by rewrite !bool_decide_eq_true in E. }
    destruct (includes _ _) eqn:Ei.
    + pose proof Ei as Hi. apply includes_spec in Hi. split; [intros [=]; by subst|].
      intros [_ Hk]. destruct k; [done|]. by rewrite Hk in Ei.
    + destruct (bool_decide_reflect (q_name q = MDNS_DOMAIN_COMMISSIONABLE)) as [En|En];
        (split; [intros [=]; by subst|]); intros [_ Hk];
        destruct k; try done; apply includes_spec in Hk; congruence.
  - apply orb_false_iff in E. rewrite !bool_decide_eq_false in E. naive_solver.
Qed.

(** The name, address and port a peer should learn. *)
Definition sighting_of (target : jsstr) (ipPort : setting) (ip6Addr : option jsstr)
    (k : service_kind) : sighting :=
  Sighting (Some (NameData match k with
                           | Operational => dot target MDNS_DOMAIN_OPERATIONAL
                           | Commissionable => dot instanceName MDNS_DOMAIN_COMMISSIONABLE
                           end))
    (Some (AddressData ip6Addr)) (Some ipPort)
    match k with Operational => "matter" | Commissionable => "matterc" end.

Definition response_for (target : jsstr) (ipPort : setting) (ip6Addr : option jsstr)
    (k : service_kind) : response :=
  match k with
  | Operational => operational_response target ipPort ip6Addr
  | Commissionable => commissionable_response ipPort ip6Addr
  end.

(** What was sent, with the interface *)
Definition responses (i : nat) (target : jsstr) (ipPort : setting) (ip6Addr : option jsstr)
    (l : list service_kind) : list (nat * packet) :=
  (λ k, (i, ResponsePacket (response_for target ipPort ip6Addr k))) <$> l.

Definition with_outbox (l : list (nat * packet)) (d : Discovery) : Discovery :=
  Disc (mdnsTarget d) (mdnsInterfaces d) (outbox d ++ l).

Lemma onQuestion_spec ipPort ip6Addr i q d :
  onQuestion ipPort ip6Addr i q d =
  (with_outbox (responses i (mdnsTarget d) ipPort ip6Addr (option_list (asked q))) d, Ret tt).
Proof.
  unfold onQuestion, asked. destruct d as [t l o].
  destruct (_ || _); [|by unfold with_outbox; cbn; rewrite app_nil_r].
  destruct (includes _ _); [done|].
  destruct (bool_decide (q_name q = _)); [done|]. by unfold with_outbox; cbn; rewrite app_nil_r.
Qed.

Lemma query_event_spec ipPort qs i d name ip6Addr :
  mdnsInterfaces d !! i = Some (name, ip6Addr) →
  query_event ipPort qs i d =
  (with_outbox (responses i (mdnsTarget d) ipPort ip6Addr (omap asked qs)) d, Ret tt).
Proof.
  intros Hi. unfold query_event, mbind, js_bind, js_get. rewrite Hi. unfold onQuery. clear Hi.
  revert d. induction qs as [|q qs IH]; intros d; cbn [js_forEach].
  - unfold with_outbox. cbn. rewrite app_nil_r. by destruct d.
  - rewrite (js_bind_eq _ _ _ _ _ (onQuestion_spec ipPort ip6Addr i q d)), IH.
    unfold with_outbox. cbn [mdnsTarget mdnsInterfaces outbox]. do 2 f_equal.
    rewrite <- app_assoc. f_equal. cbn. by destruct (asked q).
Qed.

Lemma other_name (u : Z) (a b c : jsstr) : u ∈ a → u ∉ c → a ++ b ≠ c.
Proof. intros Ha Hc <-. apply Hc. set_solver. Qed.

Lemma see_answer_other s e :
  rr_name e ≠ MDNS_DOMAIN_OPERATIONAL → rr_name e ≠ MDNS_DOMAIN_COMMISSIONABLE →
  see_answer s e =
  (let s := if bool_decide (rr_type e = "AAAA"%string)
            then Sighting (node s) (Some (rr_data e)) (s_port s) (service s) else s in
   if bool_decide (rr_type e = "SRV"%string)
   then Sighting (node s) (ip s) (data_port (rr_data e)) (service s) else s).
Proof. intros H1 H2. unfold see_answer. by rewrite (bool_decide_false _ H1), (bool_decide_false _ H2). Qed.

(** A target that is one label *)
Definition target_ok (t : jsstr) : Prop := label_ok t = true ∧ 46 ∉ t.

Lemma labels_nonempty s : ∃ l ls, labels s = l :: ls.
Proof.
  induction s as [|u s (l & ls & E)]; cbn; [by eexists _, _|]. rewrite E.
  destruct (u =? 46); by eexists _, _.
Qed.

Lemma labels_dot t s : 46 ∉ t → labels (dot t s) = t :: labels s.
Proof.
  intros Ht. unfold dot. change (js_str "." ++ s) with (46 :: s).
  induction t as [|u t IH]; cbn [app labels].
  - by destruct (labels_nonempty s) as (l & ls & ->).
  - rewrite not_elem_of_cons in Ht. destruct Ht as [Hu Ht]. rewrite IH by done.
    by destruct (Z.eqb_spec u 46).
Qed.

Lemma name_ok_dot t s : target_ok t → forallb label_ok (labels s) = true → str_length s <= 180 →
  name_ok (dot t s) = true.
Proof.
  intros [Hl Ht] Hs Hn. unfold name_ok. rewrite labels_dot by done. cbn [forallb].
  rewrite Hl, Hs. apply Z.leb_le. unfold label_ok in Hl. zbool.
  unfold dot, str_length in *. rewrite !length_app. cbn. lia.
Qed.

Lemma name_ok_target t : target_ok t → name_ok t = true.
Proof.
  intros [Hl Ht]. unfold name_ok.
  assert (labels t = [t]) as ->.
  { clear Hl. induction t as [|u t IH]; [done|]. rewrite not_elem_of_cons in Ht.
    destruct Ht as [Hu Ht]. cbn. rewrite IH by done. by destruct (Z.eqb_spec u 46). }
  cbn [forallb]. rewrite Hl. cbn. apply Z.leb_le. unfold label_ok in Hl. zbool. lia.
Qed.

Section heard.
Context `{HM : Mdns} {HL : MdnsLaws HM}.

(** The responses of a node with a port of 16 bits and an address can be carried. *)
Lemma response_carriable target port a a' k :
  target_ok target → is_uint16 port = true → mdns_address a = Some a' →
  Forall carriable (answers (response_for target (Num port) (Some a) k)) ∧
  Forall carriable (additionals (response_for target (Num port) (Some a) k)).
Proof.
  intros Ht Hp Ha.
  assert (name_ok (dot target MDNS_DOMAIN_OPERATIONAL) = true) as Hi by (by apply name_ok_dot).
  assert (name_ok (dot target (js_str "local")) = true) as Hh by (by apply name_ok_dot).
  pose proof (name_ok_target target Ht) as Hn.
  destruct k; cbn [response_for operational_response commissionable_response answers additionals];
    split; repeat (apply Forall_cons; split); try apply Forall_nil; try exact I;
    (split; [first [exact Hi|exact Hh|vm_compute; reflexivity]|]);
    unfold pointer; cbn [rr_type rr_data carry];
    first [rewrite Ha; by eexists|rewrite Hp, Hn; by eexists|rewrite Hp; by eexists
          |rewrite Hi; by eexists|vm_compute; by eexists].
Qed.

(** The records of a response that arrived *)
Ltac arrived :=
  match goal with
  | H : Forall2 carried (_ :: _) _ |- _ =>
      let e := fresh "e" in
      apply Forall2_cons_inv_l in H as ([? ? ? ? ? e] & ? & (? & ? & ?) & H & ->)
  | H : Forall2 carried [] _ |- _ => apply Forall2_nil_inv_l in H as ->
  end.

(** What a peer makes of them *)
Lemma onResponse_of target port a a' k :
  45 ∈ target → target_ok target → is_uint16 port = true → mdns_address a = Some a' →
  ∃ r', mdns_hear (response_for target (Num port) (Some a) k) = Some r' ∧
    onResponse r' = Ret (Some (sighting_of target (Num port) (Some a') k)).
Proof.
  intros Hd Ht Hp Ha.
  destruct (response_carriable target port a a' k Ht Hp Ha) as [H1 H2].
  destruct (hear_carried _ H1 H2) as ([a1 a2] & Hr & Hf1 & Hf2). exists (Response a1 a2).
  split; [done|]. clear Hr H1 H2. cbn [answers additionals] in Hf1, Hf2.
  pose proof (name_ok_target target Ht) as Hn.
  assert (name_ok (dot target MDNS_DOMAIN_OPERATIONAL) = true) as Hi by (by apply name_ok_dot).
  destruct k; cbn [response_for operational_response commissionable_response answers additionals]
    in Hf1, Hf2; repeat arrived; unfold pointer in *; cbn [rr_name rr_type rr_data carry] in *.
  all: rewrite ?Hi, ?Hp, ?Hn, ?Ha in *.
  all: repeat match goal with H : _ = Some ?e |- _ => is_var e; apply (inj Some) in H; subst e end;
    subst.
  - assert (¬ (45 ∈ MDNS_DOMAIN_OPERATIONAL)) as H1 by (apply (bool_decide_unpack _); vm_compute; exact I).
    assert (¬ (45 ∈ MDNS_DOMAIN_COMMISSIONABLE)) as H2
      by (apply (bool_decide_unpack _); vm_compute; exact I).
    assert (∀ x, dot target x ≠ MDNS_DOMAIN_OPERATIONAL ∧ dot target x ≠ MDNS_DOMAIN_COMMISSIONABLE)
      as Hx by (intros x; split; by eapply other_name).
    unfold onResponse. cbn [answers additionals foldl].
    rewrite (see_answer_other _ (RR _ "TXT" _ _ _ _)) by (cbn [rr_name]; apply Hx).
    rewrite (see_answer_other _ (RR _ "SRV" _ _ _ _)) by (cbn [rr_name]; apply Hx).
    rewrite (see_answer_other _ (RR _ "AAAA" _ _ _ _)) by (cbn [rr_name]; apply Hx).
    reflexivity.
  - reflexivity.
Qed.
End heard.

(** ** The theorem *)

Lemma store_target_dash s : 45 ∈ store_mdnsTarget s.
Proof. unfold store_mdnsTarget. rewrite !elem_of_app. right. left. cbn. set_solver. Qed.

(** C37: a query on the interface [i] is answered on that interface with one response
    for every question, of type PTR or ANY, whose name contains the operational domain
    or is the commissionable one, and nothing else.  When the interface has an IPv6 address,
    the port is a number of 16 bits and the target one label of at most 63 ASCII
    characters, which is what DNS records can hold, a peer hears every such response, and
    learns from it the instance the node advertises (the target taken from the store), the
    node's address on that interface, as the package hands it on, and its port. *)
Theorem discovery_roundtrip `{HM : Mdns} {HL : MdnsLaws HM} (s : PersistantStore)
    (qs : list question) (i : nat) (name : jsstr) (address : option jsstr) (d : Discovery) :
  mdnsInterfaces d !! i = Some (name, address) → mdnsTarget d = store_mdnsTarget s →
  (∀ q k, asked q = Some k ↔ asks q k) ∧
  ∃ rs, query_event (s F_ipPort) qs i d =
      (with_outbox ((λ r, (i, ResponsePacket r)) <$> rs) d, Ret tt) ∧
    length rs = length (omap asked qs) ∧
    ∀ port a a', s F_ipPort = Num port → 0 <= port < 65536 →
      address = Some a → mdns_address a = Some a' → target_ok (store_mdnsTarget s) →
      Forall2 (λ k r, ∃ r', mdns_hear r = Some r' ∧
                 onResponse r' = Ret (Some (sighting_of (store_mdnsTarget s) (Num port) (Some a') k)))
        (omap asked qs) rs.
Proof.
  intros Hi Ht. split; [exact asked_spec|].
  exists (response_for (mdnsTarget d) (s F_ipPort) address <$> omap asked qs).
  split_and!; [by rewrite (query_event_spec _ _ _ _ name address), <- list_fmap_compose
              |by rewrite length_fmap|].
  intros port a a' Hp Hr -> Ha Hok. apply Forall2_fmap_r, Forall_Forall2_diag, Forall_forall.
  intros k _. rewrite Ht, Hp. apply (onResponse_of _ port a a'); [apply store_target_dash|done| |done].
  unfold is_uint16. lia.
Qed.

(** Three questions: two are answered. *)
Definition demo_discovery : Discovery :=
  Disc (js_str "0000-0001") [(js_str "lo", None); (js_str "en0", Some (js_str "fe80::1"))] [].

Definition demo_store : PersistantStore := λ f,
  match f with
  | F_fabricid => Text (js_str "0000") | F_nodeid => Text (js_str "0001")
  | F_ipPort => Num 5543 | _ => Undefined
  end.

Lemma discovery_roundtrip_witness :
  let qs := [Question MDNS_DOMAIN_OPERATIONAL "PTR"; Question MDNS_DOMAIN_COMMISSIONABLE "ANY";
             Question MDNS_DOMAIN_COMMISSIONER "PTR"] in
  ∃ rs, query_event (demo_store F_ipPort) qs 1 demo_discovery =
      (with_outbox ((λ r, (1%nat, ResponsePacket r)) <$> rs) demo_discovery, Ret tt) ∧
    length rs = 2%nat ∧
    Forall2 (λ k r, ∃ r', mdns_hear r = Some r' ∧
               onResponse r' = Ret (Some (sighting_of (js_str "0000-0001") (Num 5543)
                                            (Some (js_str "fe80::1")) k)))
      [Operational; Commissionable] rs.
Proof.
  intros qs.
  destruct (discovery_roundtrip (HL := toy_mdns_laws) demo_store qs 1 (js_str "en0")
              (Some (js_str "fe80::1")) demo_discovery eq_refl eq_refl) as (_ & rs & H1 & H2 & H3).
  exists rs. split; [exact H1|]. split; [exact H2|].
  apply (H3 5543 (js_str "fe80::1") (js_str "fe80::1")); try reflexivity; [lia|].
  split; [reflexivity|]. apply (bool_decide_unpack _). vm_compute. exact I.
Defined.
