(* ===== verification/Node.v ===== *)
(** * The node (src/Node.js, app.ts)

    The components put together: the store, discovery, the message layer with the two
    protocols registered on it, and what the process reacts to. *)
From S2P Require Import Prelude JsNumber JsString Aead Message Runtime SessionManager Exchange.
From S2P Require Import ExchangeManager Spake Pase ImConst Ecdsa ClusterServers InteractionModel.
From S2P Require Import Store Shell Discovery.
From S2P Require Import Certificate.

Section node.
Context `{Aead} `{Kdf} `{Spake} `{Ecdsa} `{X509} `{LocalStorage} `{Pino}.

(** The exchange manager, with the session manager in it, is the one of [nd_pase]; the
    Interaction Model shares it. *)
Record Node : Type := Nd {
  nd_process : Process;
  nd_discovery : Discovery;
  nd_pase : PaseWorld;
  nd_csr_jobs : list csr_job;
  nd_im_rejections : list js_error }.

Definition set_nd_process (p : Process) (n : Node) : Node :=
  Nd p (nd_discovery n) (nd_pase n) (nd_csr_jobs n) (nd_im_rejections n).
Definition set_nd_discovery (d : Discovery) (n : Node) : Node :=
  Nd (nd_process n) d (nd_pase n) (nd_csr_jobs n) (nd_im_rejections n).
Definition set_nd_pase (w : PaseWorld) (n : Node) : Node :=
  Nd (nd_process n) (nd_discovery n) w (nd_csr_jobs n) (nd_im_rejections n).

(** [theNode.Store.DaPrivateKey], when it is text *)
Definition device_key (p : Process) : option jsstr :=
  match store p F_daPrivateKey with Text s => Some s | _ => None end.

Definition im_view (n : Node) : ImWorld :=
  IMW (w_em (nd_pase n)) (device_key (nd_process n)) (nd_csr_jobs n) (nd_im_rejections n).
Definition set_im_view (w : ImWorld) (n : Node) : Node :=
  Nd (nd_process n) (nd_discovery n) (set_em (im_em w) (nd_pase n)) (csr_jobs w)
     (im_rejections w).

Definition in_process {A} (m : js Process A) : js Node A := zoom nd_process set_nd_process m.
Definition in_discovery {A} (m : js Discovery A) : js Node A :=
  zoom nd_discovery set_nd_discovery m.
Definition in_pase {A} (m : js PaseWorld A) : js Node A := zoom nd_pase set_nd_pase m.
Definition in_im {A} (m : js ImWorld A) : js Node A := zoom im_view set_im_view m.

(** The constructor: the components are made and the protocols registered; [st] is the
    storage [init] will open, [interfaces] what the system has. *)
Definition Node_new (st : storage) (level : jsstr) (interfaces : list (jsstr * option jsstr))
    (r : runtime) : Node :=
  Nd (Process_new st level) (Discovery_new interfaces)
     (PaseWorld_new (ExchangeManager_new (SessionManager_new r))) [] [].

(** [init(nodenum)]: the target is taken from the store, once. *)
Definition node_init (fresh : buffer) : js Node unit :=
  in_process (store_init fresh) ;;
  n ← js_get;
  in_discovery (setTarget (store_mdnsTarget (store (nd_process n)))).

(** [main()] of app.ts *)
Definition node_main (args : list jsstr) (fresh : buffer) : js Node unit :=
  nodenum ← js_lift (match args with a :: _ => js_Number (Text a) | [] => Ret (Num 0) end);
  node_init fresh ;;
  match args with _ :: _ => in_process (set_NodeNum nodenum) | [] => mret tt end.

(** ** Events *)

(** The protocols that are registered: the secure channel and the Interaction Model; a
    message of another one finds no listener. *)
Definition node_deliver (d : dispatch) : js Node unit :=
  match d with
  | ToProtocol protocolId x msg =>
      if protocolId =? IM_PROTOCOL_ID then in_im (im_onProtocolMessage x msg)
      else in_pase (pase_deliver d)
  | _ => in_pase (pase_deliver d)
  end.

(** A datagram on one of the sockets *)
Definition node_receive (buf : buffer) (peer : PeerInfo) : js Node unit :=
  d ← in_pase (in_em (receive buf peer)); node_deliver d.

(** A query on the interface [i]; the port is the one in the store at that time. *)
Definition node_query (questions : list question) (i : nat) : js Node unit :=
  n ← js_get;
  in_discovery (query_event (store (nd_process n) F_ipPort) questions i).

(** What the process reacts to: datagrams, timers, jobs of the two protocols that
    resume, DNS-SD queries, and lines typed into the shell: [pase], [mdns] or a command on the
    store. *)
Inductive node_step : Node → Node → Prop :=
  | node_step_receive buf peer n : node_step n (node_receive buf peer n).1
  | node_step_timer t n : node_step n (in_pase (fire_timer t) n).1
  | node_step_resume i seed n : node_step n (in_pase (resume i seed) n).1
  | node_step_csr i seed n : node_step n (in_im (resume_csr i seed) n).1
  | node_step_query qs i n : node_step n (node_query qs i n).1
  | node_step_pase port host n : node_step n (in_pase (doPase port host) n).1
  | node_step_mdns c d n : node_step n (in_discovery (doMdns c d) n).1
  | node_step_line line n : node_step n (in_process (onReadLine line) n).1.
End node.
