(* ===== verification/NodeTheorems.v ===== *)
(** * Theorems about the node

    The invariant of the whole node: every component keeps its own, whatever the
    others do.  The protocols share the message layer through the interface
    [KeptByMessaging]. *)
From S2P Require Import Prelude JsNumber JsString TlvType Aead Message Runtime.
From S2P Require Import SessionCryptoContext Session SessionManager Exchange ExchangeManager.
From S2P Require Import MessagingFacts MessagingTheorems Spake Pase PaseFacts PaseInvariant.
From S2P Require Import ImConst ImCommand Clusters ExampleCerts Ecdsa ClusterServers.
From S2P Require Import InteractionModel Store Shell StoreTheorems Discovery Node.
From S2P Require Import Certificate.

(** ** Exchanges never go away *)

Definition heap_ge (k : nat) (m : ExchangeManager) : Prop := (k <= length (exchange_heap m))%nat.

Section heap.
Context `{HA : Aead} `{HK : Kdf}.

Lemma heap_in_sessions {A} k (m : js SessionManager A) : keeps (heap_ge k) (in_sessions m).
Proof. intros s Hs. unfold in_sessions, zoom. by destruct (m (em_sessions s)). Qed.

Lemma heap_update_exchange k x f : keeps (heap_ge k) (update_exchange x f).
Proof. apply keeps_modify. intros s Hs. unfold heap_ge. cbn. by rewrite length_alter. Qed.

Lemma heap_newExchange k sid msg i : keeps (heap_ge k) (newExchange sid msg i).
Proof.
  unfold newExchange. apply keeps_bind; [destruct sid; [apply keeps_ret|apply heap_in_sessions]|].
  intros s. apply keeps_bind; [intros m Hm; by destruct msg|].
  intros id m Hm. unfold heap_ge in *. cbn. rewrite length_app. lia.
Qed.

Lemma heap_onSessionMessage k msg sid : keeps (heap_ge k) (onSessionMessage msg sid).
Proof.
  unfold onSessionMessage. do 5 (apply keeps_bind; [auto with keeps|intros ?]).
  case_match; [auto using heap_update_exchange with keeps|].
  case_match; [|auto with keeps]. apply keeps_bind; [auto with keeps|intros pid].
  apply keeps_bind; [apply heap_newExchange|intros x].
  auto 20 using heap_update_exchange with keeps.
Qed.

#[export] Instance heap_kept k : KeptByMessaging (heap_ge k).
Proof.
  split; auto using heap_in_sessions, heap_newExchange, heap_update_exchange.
  - intros buf peer. apply keeps_bind; [apply heap_in_sessions|].
    intros [msg sid]. apply heap_onSessionMessage.
  - intros x msg. apply keeps_bind; [intros m Hm; unfold get_exchange; by destruct (exchange_heap m !! x)|intros e; apply heap_in_sessions].
Qed.

Lemma push_exchange_inv e m m' x :
  push_exchange e m = (m', Ret x) → heap_ge (S x) m'.
Proof. intros H. injection H as <- <-. unfold heap_ge. cbn. rewrite length_app. cbn. lia. Qed.

(** The exchange that a message is handed to a protocol with exists. *)
Lemma onSessionMessage_exchange msg sid m m' pid x msg' :
  onSessionMessage msg sid m = (m', Ret (ToProtocol pid x msg')) → heap_ge (S x) m'.
Proof.
  unfold onSessionMessage. intros H. js_inv.
  match goal with H : getExchange sid msg m = Ret ?f |- _ => destruct f as [y|] end; [by js_inv|].
  match goal with H : (if ?i then _ else _) _ = _ |- _ => destruct i end; [|by js_inv].
  js_inv. match goal with H : ToProtocol _ _ _ = ToProtocol _ _ _ |- _ => injection H as -> -> -> end.
  match goal with H : newExchange _ _ _ _ = _ |- _ => rename H into Hn end.
  unfold newExchange in Hn. js_inv. apply push_exchange_inv in Hn.
  repeat match goal with
  | Hk : heap_ge ?k ?a, H : update_exchange ?y ?f ?a = (?b, Ret _) |- _ =>
      assert (heap_ge k b) by
        (replace b with (update_exchange y f a).1 by (by rewrite H);
         apply heap_update_exchange; assumption); clear H
  end. assumption.
Qed.

Lemma receive_exchange buf peer m m' pid x msg :
  receive buf peer m = (m', Ret (ToProtocol pid x msg)) → heap_ge (S x) m'.
Proof.
  unfold receive. intros H. apply js_bind_inv in H as (m1 & [msg' sid] & _ & H).
  by eapply onSessionMessage_exchange.
Qed.
End heap.

(** ** The Interaction Model on the message layer

    A computation that uses the message layer only through its interface *)
Definition uses_messaging `{Aead} `{Kdf} {A} (m : js ExchangeManager A) : Prop :=
  ∀ Q, KeptByMessaging Q → keeps Q m.

Section im.
Context `{HA : Aead} `{HK : Kdf} `{HE : Ecdsa} `{HX : X509}.

Lemma uses_bind {A B} (m : js ExchangeManager A) (f : A → js ExchangeManager B) :
  uses_messaging m → (∀ a, uses_messaging (f a)) → uses_messaging (m ≫= f).
Proof. intros Hm Hf Q HQ. apply keeps_bind; [by apply Hm|intros a; by apply Hf]. Qed.

Lemma uses_lift {A} (o : outcome A) : uses_messaging (js_lift o).
Proof. intros Q HQ. apply keeps_lift. Qed.

Lemma uses_im_send x o payload : uses_messaging (im_send x o payload).
Proof. apply uses_bind; [apply uses_lift|intros msg]. intros Q HQ. apply kept_send. Qed.

Lemma uses_send_response x j : uses_messaging (send_response x j).
Proof.
  apply uses_bind; [apply uses_lift|intros b]. apply uses_bind; [apply uses_lift|intros u].
  apply uses_im_send.
Qed.

Lemma uses_challenge x : uses_messaging (attestation_challenge x).
Proof.
  apply uses_bind; [intros Q HQ; apply kept_get_exchange|intros e].
  apply uses_bind; [intros Q HQ; apply kept_read|intros s]. apply uses_lift.
Qed.

(** A predicate on the Interaction Model's state that its handlers keep: what they do
    is to use the message layer and to add jobs for the exchange of the message. *)
Context (P : ImWorld → Prop) (x : nat).
Hypothesis P_messaging : ∀ A (m : js ExchangeManager A), uses_messaging m → keeps P (in_exchanges m).
Hypothesis P_job : ∀ w j, P w → cj_exchange j = x → P (set_csr_jobs (csr_jobs w ++ [j]) w).
Hypothesis P_rejection : ∀ w e, P w → P (set_im_rejections (im_rejections w ++ [e]) w).

Lemma keeps_im_async m : keeps P m → keeps P (im_async m).
Proof.
  intros Hm w Hw. specialize (Hm w Hw). unfold im_async. destruct (m w) as [w' [u|e]]; [done|].
  by apply P_rejection.
Qed.

Lemma keeps_respond y path c data : keeps P (respond y path c data).
Proof. apply P_messaging, uses_send_response. Qed.

Lemma keeps_respond_status y path : keeps P (respond_status y path).
Proof. apply P_messaging, uses_send_response. Qed.

(** One statement after the other *)
Local Ltac statements :=
  repeat lazymatch goal with
  | |- keeps P (mret _) => apply keeps_ret
  | |- keeps P (js_lift _) => apply keeps_lift
  | |- keeps P (js_throw _) => apply keeps_throw
  | |- keeps P (respond _ _ _ _) => apply keeps_respond
  | |- keeps P (respond_status _ _) => apply keeps_respond_status
  | |- keeps P (_ ≫= _) => apply keeps_bind; [|intros ?]
  | |- keeps P (if _ then _ else _) => apply keeps_if
  end.

Lemma keeps_sendCsrResponse path nonce : keeps P (sendCsrResponse x path nonce).
Proof.
  apply keeps_bind; [apply P_messaging; intros Q HQ; apply kept_random|intros seed].
  apply keeps_modify. intros w Hw. by apply P_job.
Qed.

Lemma keeps_OperationalCredentials msg path :
  keeps P (OperationalCredentials_onCommand x msg path).
Proof.
  unfold OperationalCredentials_onCommand. statements.
  - unfold onAttestationRequest, sendAttestationResponse. statements.
    apply P_messaging, uses_challenge.
  - unfold onCertificateChainRequest, sendCertificateChainResponse. statements.
  - unfold onCsrRequest. statements. apply keeps_im_async, keeps_sendCsrResponse.
  - unfold onAddTrustedRootCertificate. statements.
  - unfold onAddNoc, sendNocResponse. statements. apply keeps_im_async, keeps_lift.
Qed.

Lemma keeps_onCommand c msg path : keeps P (onCommand c x msg path).
Proof.
  destruct c; cbn [onCommand].
  - unfold Basic_onCommand. statements. apply keeps_throw.
  - unfold GeneralCommissioning_onCommand. statements;
      [apply keeps_respond|apply keeps_respond|apply keeps_respond_status].
  - apply keeps_throw.
  - apply keeps_OperationalCredentials.
Qed.

Lemma keeps_invoke_command msg command : keeps P (invoke_command x msg command).
Proof.
  unfold invoke_command. statements. 
  lazymatch goal with |- keeps P (match ?c with _ => _ end) => destruct c end;
    [apply keeps_onCommand|apply keeps_ret].
Qed.

Lemma keeps_im_message msg : keeps P (im_onProtocolMessage x msg).
Proof.
  unfold im_onProtocolMessage. statements.
  all: lazymatch goal with
       | |- keeps P (onReadRequest _ _) =>
           unfold onReadRequest; statements; apply P_messaging, uses_im_send
       | |- keeps P (onInvokeCommandRequest _ _) =>
           unfold onInvokeCommandRequest; statements; apply keeps_js_forEach; intros c;
           apply keeps_invoke_command
       | |- _ => apply keeps_ret
       end.
Qed.

Hypothesis P_resumed : ∀ w i, P w → P (set_csr_jobs (delete i (csr_jobs w)) w).

Lemma keeps_resume_csr i seed : keeps P (resume_csr i seed).
Proof.
  intros w Hw. unfold resume_csr, mbind at 1, js_bind at 1, js_get.
  destruct (csr_jobs w !! i) as [j|]; [|done].
  unfold mbind at 1, js_bind at 1, js_put.
  apply keeps_im_async; [|by apply P_resumed]. unfold csr_ready. statements.
  - apply P_messaging, uses_challenge.
  - apply keeps_get.
Qed.
End im.

(** ** The invariant of the node *)

Section node.
Context `{HA : Aead} `{HK : Kdf} `{HS : Spake} `{HE : Ecdsa} `{HX : X509}.
Context `{HL : LocalStorage} {HLL : LocalStorageLaws HL} `{HP : Pino} {HPL : PinoLaws HP}.
Hypothesis valid_key : ec_valid TEST_DAC_PRIVKEY = true.

(** A job waits for the answer to a message of an exchange that exists. *)
Definition jobs_ok (m : ExchangeManager) (l : list csr_job) : Prop :=
  Forall (λ j, heap_ge (S (cj_exchange j)) m) l.

(** The sessions and exchanges are consistent, the timers belong to the PASE sessions
    that wait, the store agrees with the storage, and the jobs have their exchanges. *)
Definition node_ok (n : Node) : Prop :=
  pase_ok (nd_pase n) ∧ persisted (nd_process n) ∧ jobs_ok (w_em (nd_pase n)) (nd_csr_jobs n).

Definition im_ok (x : nat) (w : ImWorld) : Prop :=
  em_ok (im_em w) ∧ jobs_ok (im_em w) (csr_jobs w) ∧ heap_ge (S x) (im_em w).

Lemma jobs_ok_grow m m' l :
  (∀ k, heap_ge k m → heap_ge k m') → jobs_ok m l → jobs_ok m' l.
Proof. intros H Hl. eapply Forall_impl; [exact Hl|]. intros j. apply H. Qed.

Lemma im_ok_messaging x A (m : js ExchangeManager A) :
  uses_messaging m → keeps (im_ok x) (in_exchanges m).
Proof.
  intros Hm w (Hem & Hj & Hx). unfold in_exchanges, zoom.
  pose proof (Hm em_ok _ (im_em w) Hem) as Hem'.
  pose proof (λ k, Hm (heap_ge k) _ (im_em w)) as Hk.
  destruct (m (im_em w)) as [em o]. cbn [fst] in *. split; [done|split; [|by apply Hk]].
  by eapply jobs_ok_grow.
Qed.

Lemma im_ok_job x w j : im_ok x w → cj_exchange j = x → im_ok x (set_csr_jobs (csr_jobs w ++ [j]) w).
Proof.
  intros (Hem & Hj & Hx) <-. split; [done|split; [|done]]. apply Forall_app. split; [done|].
  by constructor.
Qed.

Lemma im_ok_resumed x w i : im_ok x w → im_ok x (set_csr_jobs (delete i (csr_jobs w)) w).
Proof. intros (Hem & Hj & Hx). split; [done|split; [|done]]. by apply Forall_delete. Qed.

Lemma im_ok_message x msg : keeps (im_ok x) (im_onProtocolMessage x msg).
Proof. apply keeps_im_message; [apply im_ok_messaging|apply im_ok_job|by intros]. Qed.

(** What a component does to the node. *)
Lemma node_in_pase {A} (m : js PaseWorld A) :
  (∀ Q, KeptByMessaging Q → keeps (on_em Q) m) → keeps timers_ok m → keeps node_ok (in_pase m).
Proof.
  intros Hm Ht n ((Hem & Htm) & Hp & Hj). unfold in_pase, zoom.
  pose proof (Hm em_ok _ (nd_pase n) Hem) as Hem'. specialize (Ht _ Htm).
  pose proof (λ k, Hm (heap_ge k) _ (nd_pase n)) as Hk.
  destruct (m (nd_pase n)) as [w o]. cbn [fst] in *. split; [by split|split; [done|]].
  by eapply jobs_ok_grow.
Qed.

Lemma node_in_im {A} (m : js ImWorld A) x n :
  keeps (im_ok x) m → heap_ge (S x) (w_em (nd_pase n)) → node_ok n → node_ok (in_im m n).1.
Proof.
  intros Hm Hx ((Hem & Htm) & Hp & Hj). unfold in_im, zoom.
  specialize (Hm (im_view n)). destruct (m (im_view n)) as [w o]. cbn [fst] in *.
  destruct Hm as (Hem' & Hj' & _); [by split; [|split]|].
  split; [split; [done|by eapply timers_frame]|by split].
Qed.

Lemma node_in_process {A} (m : js Process A) : keeps persisted m → keeps node_ok (in_process m).
Proof.
  intros Hm n (Hw & Hp & Hj). unfold in_process, zoom. specialize (Hm _ Hp).
  by destruct (m (nd_process n)) as [p o].
Qed.

Lemma node_in_discovery {A} (m : js Discovery A) : keeps node_ok (in_discovery m).
Proof. intros n Hn. unfold in_discovery, zoom. by destruct (m (nd_discovery n)) as [d o]. Qed.

Lemma node_deliver_ok d n :
  (∀ pid x msg, d = ToProtocol pid x msg → heap_ge (S x) (w_em (nd_pase n))) →
  node_ok n → node_ok (node_deliver d n).1.
Proof.
  intros Hd Hn. assert (node_ok (in_pase (pase_deliver d) n).1) as Hp.
  { apply node_in_pase; [intros; by apply kept_deliver|apply timers_deliver|done]. }
  destruct d as [x msg|pid x msg|]; cbn [node_deliver]; [done| |done].
  destruct (pid =? IM_PROTOCOL_ID); [|done].
  apply (node_in_im _ x); [apply im_ok_message|by eapply Hd|done].
Qed.

Lemma node_receive_ok buf peer : keeps node_ok (node_receive buf peer).
Proof.
  intros n Hn. unfold node_receive, mbind, js_bind.
  assert (node_ok (in_pase (in_em (receive buf peer)) n).1) as H1.
  { apply node_in_pase; [intros; apply keeps_in_em, kept_receive| |done]. auto with keeps. }
  destruct (in_pase (in_em (receive buf peer)) n) as [n1 [d|e]] eqn:E; [|done].
  apply node_deliver_ok; [|done]. intros pid x msg ->.
  apply zoom_inv in E as (w & E & ->). apply zoom_inv in E as (em & E & ->).
  by eapply receive_exchange.
Qed.

(** Resuming a job needs no exchange. *)
Lemma node_resume_csr_ok i seed : keeps node_ok (in_im (resume_csr i seed)).
Proof.
  intros n ((Hem & Htm) & Hp & Hj). unfold in_im, zoom.
  assert (keeps (λ w, em_ok (im_em w) ∧ jobs_ok (im_em w) (csr_jobs w)) (resume_csr i seed)) as Hm.
  { apply (keeps_resume_csr _); [|by intros|].
    - intros A m Hm w [He Hw]. unfold in_exchanges, zoom.
      pose proof (Hm em_ok _ (im_em w) He) as He'.
      pose proof (λ k, Hm (heap_ge k) _ (im_em w)) as Hk.
      destruct (m (im_em w)) as [em o]. cbn [fst] in *. split; [done|]. by eapply jobs_ok_grow.
    - intros w j [He Hw]. split; [done|]. by apply Forall_delete. }
  specialize (Hm (im_view n)). destruct (resume_csr i seed (im_view n)) as [w o]. cbn [fst] in *.
  destruct Hm as (Hem' & Hj'); [by split|].
  split; [split; [done|by eapply timers_frame]|by split].
Qed.

Lemma node_step_ok n n' : node_ok n → node_step n n' → node_ok n'.
Proof.
  intros Hn Hs. destruct Hs as [buf peer n|t n|i seed n|i seed n|qs i n|port host n|c d n
    |line n].
  - by apply node_receive_ok.
  - apply node_in_pase; [intros; by apply kept_fire_timer|apply timers_fire|done].
  - apply node_in_pase; [intros; by apply kept_resume|apply timers_resume|done].
  - by apply node_resume_csr_ok.
  - by apply node_in_discovery.
  - apply node_in_pase; [intros; by apply kept_doPase|apply timers_doPase|done].
  - by apply node_in_discovery.
  - by apply node_in_process; [apply keeps_onReadLine|].
Qed.
(** ** The target stays *)

Definition targets (t : jsstr) (d : Discovery) : Prop := mdnsTarget d = t.

Lemma targets_post t i p : keeps (targets t) (post i p).
Proof. by intros d Hd. Qed.

Lemma targets_query t ipPort qs i : keeps (targets t) (query_event ipPort qs i).
Proof.
  intros d Hd. destruct (mdnsInterfaces d !! i) as [[name ip]|] eqn:E.
  - by rewrite (query_event_spec _ _ _ _ _ _ E).
  - unfold query_event, mbind, js_bind, js_get. by rewrite E.
Qed.

Lemma targets_doMdns t c m : keeps (targets t) (doMdns c m).
Proof.
  unfold doMdns, queryAll. apply keeps_bind; [apply keeps_get|intros d].
  apply keeps_js_forEach. intros i. apply targets_post.
Qed.

(** A component other than discovery leaves it alone. *)
Lemma targets_zoom {T A} (view : Node → T) put (m : js T A) t n :
  (∀ x n, nd_discovery (put x n) = nd_discovery n) →
  targets t (nd_discovery n) → targets t (nd_discovery (zoom view put m n).1).
Proof. intros Hp Hn. unfold zoom. destruct (m (view n)) as [x o]. cbn. by rewrite Hp. Qed.

Lemma targets_discovery {A} (m : js Discovery A) t n :
  keeps (targets t) m → targets t (nd_discovery n) → targets t (nd_discovery (in_discovery m n).1).
Proof.
  intros Hm Hn. unfold in_discovery, zoom. specialize (Hm _ Hn).
  by destruct (m (nd_discovery n)) as [d o].
Qed.

Lemma targets_step t n n' :
  targets t (nd_discovery n) → node_step n n' → targets t (nd_discovery n').
Proof.
  intros Hn Hs. destruct Hs as [buf peer n|u n|i seed n|i seed n|qs i n|port host n|c d n
    |line n].
  - unfold node_receive, mbind, js_bind.
    assert (targets t (nd_discovery (in_pase (in_em (receive buf peer)) n).1)) as H1
      by (by apply targets_zoom).
    destruct (in_pase _ n) as [n1 [d|e]]; [|done].
    destruct d as [x msg|pid x msg|]; cbn [node_deliver]; [by apply targets_zoom| |by apply targets_zoom].
    destruct (pid =? _); by apply targets_zoom.
  - by apply targets_zoom.
  - by apply targets_zoom.
  - by apply targets_zoom.
  - apply targets_discovery; [apply targets_query|done].
  - by apply targets_zoom.
  - apply targets_discovery; [apply targets_doMdns|done].
  - by apply targets_zoom.
Qed.

(** ** Starting the node *)

(** The storage of a first start, or one that an earlier run left *)
Definition storage_ok (st : storage) : Prop :=
  (∀ k, getItem st k = None) ∨ ∃ p, store_run p ∧ st = _storage p.

Lemma storage_ok_init st level fresh : storage_ok st → known_level level = true →
  ∃ p, store_init fresh (Process_new st level) = (p, Ret tt) ∧ persisted p.
Proof.
  intros [He|(p & Hp & ->)] Hl; [by apply init_empty|].
  destruct (init_restart valid_key p level fresh) as (q & Hi & Hq & _); [|done|by exists q].
  by apply store_run_persisted.
Qed.

Lemma node_main_run st level interfaces r args fresh p :
  store_init fresh (Process_new st level) = (p, Ret tt) → args_ok args →
  let n := (node_main args fresh (Node_new st level interfaces r)).1 in
  nd_process n = (app_main args fresh (Process_new st level)).1 ∧
  nd_discovery n = Disc (store_mdnsTarget (store p)) (mdnsInterfaces (Discovery_new interfaces)) [] ∧
  nd_pase n = PaseWorld_new (ExchangeManager_new (SessionManager_new r)) ∧ nd_csr_jobs n = [].
Proof.
  intros Hi Ha. unfold node_main, app_main, node_init, args_ok in *.
  assert (in_process (store_init fresh) (Node_new st level interfaces r) =
    (set_nd_process p (Node_new st level interfaces r), Ret tt)) as Hn
    by (unfold in_process, zoom; cbn [nd_process Node_new]; by rewrite Hi).
  destruct args as [|a args].
  - rewrite !js_bind_lift, (js_bind_eq _ _ _ _ _ Hi). unfold mbind, js_bind. by rewrite Hn.
  - destruct (js_Number (Text a)) as [v|e]; [|done].
    rewrite !js_bind_lift, (js_bind_eq _ _ _ _ _ Hi). unfold mbind, js_bind. rewrite Hn.
    cbn. unfold in_process, zoom. cbn. by destruct (set_NodeNum v p) as [q o].
Qed.

(** What the start establishes, whatever the storage and the arguments *)
Lemma node_start (st : storage) (level : jsstr) (interfaces : list (jsstr * option jsstr))
    (r : runtime) (args : list jsstr) (fresh : buffer) :
  storage_ok st → known_level level = true → args_ok args →
  let n := (node_main args fresh (Node_new st level interfaces r)).1 in
  node_ok n ∧
  targets (store_mdnsTarget (store (store_init fresh (Process_new st level)).1)) (nd_discovery n).
Proof.
  intros Hst Hl Ha. destruct (storage_ok_init st level fresh Hst Hl) as (p & Hi & Hp).
  destruct (node_main_run st level interfaces r args fresh p Hi Ha) as (Hq & Hd & Hw & Hj).
  cbn zeta. rewrite Hi. unfold node_ok. rewrite Hq, Hw, Hj, Hd. split; [|done].
  split; [apply pase_new_ok|split; [|constructor]]. by eapply app_main_persisted.
Qed.

(** In every state the node reaches, from a start on an empty storage or on the
    one of an earlier run, by datagrams, timers, jobs that resume, DNS-SD queries and
    shell commands in any order, exceptions included: the tables of sessions and
    exchanges are consistent, every PASE session that waits has exactly its timer, the
    store agrees with the storage, and every waiting CSR job belongs to an exchange
    that exists.  The target that discovery advertises is the one of the start, also
    after a command changed the node id or the fabric id. *)
Theorem node_invariant (st : storage) (level : jsstr) (interfaces : list (jsstr * option jsstr))
    (r : runtime) (args : list jsstr) (fresh : buffer) (n : Node) :
  storage_ok st → known_level level = true → args_ok args →
  rtc node_step (node_main args fresh (Node_new st level interfaces r)).1 n →
  (em_ok (w_em (nd_pase n)) ∧ timers_ok (nd_pase n) ∧ persisted (nd_process n) ∧
   jobs_ok (w_em (nd_pase n)) (nd_csr_jobs n)) ∧
  mdnsTarget (nd_discovery n) =
    store_mdnsTarget (store (store_init fresh (Process_new st level)).1).
Proof.
  intros Hst Hl Ha Hr. destruct (node_start st level interfaces r args fresh Hst Hl Ha) as [Hn Ht].
  split; [|by apply (rtc_keeps _ (λ n, targets _ (nd_discovery n)) (targets_step _) _ _ Hr)].
  assert (node_ok n) as ([? ?] & ? & ?); [|by split_and!].
  by apply (rtc_keeps _ node_ok node_step_ok _ _ Hr).
Qed.
End node.

(** A node is started, gets another node id, is asked for, and opens a PASE session. *)
Definition demo_runtime : runtime := Runtime (λ _, Byte.x01) 0 0 [].

Definition demo_start : Node :=
  (node_main [js_str "1"] [Byte.x0a] (Node_new (∅ : gmap string jsstr) (js_str "info")
     [(js_str "en0", Some (js_str "fe80::1"))] demo_runtime)).1.

Definition demo_node : Node :=
  (in_pase (doPase 5540 "::1") (node_query [Question MDNS_DOMAIN_OPERATIONAL "PTR"] 0
    (in_process (onReadLine (js_str "nodeid 7")) demo_start).1).1).1.

Lemma node_invariant_witness :
  (em_ok (w_em (nd_pase demo_node)) ∧ timers_ok (nd_pase demo_node) ∧
   persisted (nd_process demo_node) ∧
   jobs_ok (w_em (nd_pase demo_node)) (nd_csr_jobs demo_node)) ∧
  mdnsTarget (nd_discovery demo_node) =
    store_mdnsTarget (store (store_init [Byte.x0a]
      (Process_new (∅ : gmap string jsstr) (js_str "info"))).1).
Proof.
  assert (ec_valid TEST_DAC_PRIVKEY = true) as Hk by (vm_compute; reflexivity).
  apply (node_invariant (HL := toy_storage) (HP := toy_pino) Hk ∅ (js_str "info") [(js_str "en0", Some (js_str "fe80::1"))]
           demo_runtime [js_str "1"] [Byte.x0a]).
  - left. intros k. exact (lookup_empty (M := gmap string) k).
  - vm_compute. reflexivity.
  - vm_compute. reflexivity.
  - eapply rtc_l; [|eapply rtc_l; [|apply rtc_once]].
    + apply (node_step_line (js_str "nodeid 7")).
    + apply node_step_query.
    + apply node_step_pase.
Defined.
