(* ===== verification/Tools.v ===== *)
(** * The shell's tools (src/shell/cli.js, src/shell/cmd_*.js)

    The commands that work on messages, TLV, sessions, exchanges, the log, the trace and
    certificates, and what they print.  A command line is parsed by [yargs]; its result is
    the argument of the command here. *)
From stdpp Require Import pretty.
From S2P Require Import Prelude JsNumber JsString TlvType TlvReader TlvWriter Aead MsgCodec.
From S2P Require Import Message Runtime Session SessionManager Exchange ExchangeManager JsValue.
From S2P Require Import Spake Pase Ecdsa Certificate Store Shell Utilities Node.

(** ** [BigInt(text)]

    White space around the text is skipped and the empty text is 0; a prefix gives the
    base, and only decimal text has a sign. *)
Definition digit_in (base u : Z) : option Z :=
  d ← (if (48 <=? u) && (u <=? 57) then Some (u - 48)
       else if (97 <=? u) && (u <=? 122) then Some (u - 87)
       else if (65 <=? u) && (u <=? 90) then Some (u - 55) else None);
  if d <? base then Some d else None.

Fixpoint digits_in (base acc : Z) (s : jsstr) : option Z :=
  match s with
  | [] => Some acc
  | u :: s' => d ← digit_in base u; digits_in base (base * acc + d) s'
  end.

Definition digits (base : Z) (s : jsstr) : option Z :=
  match s with [] => None | _ => digits_in base 0 s end.

Definition StringToBigInt (s : jsstr) : option Z :=
  match trim s with
  | [] => Some 0
  | u :: t =>
      if u =? 45 then Z.opp <$> digits 10 t
      else if u =? 43 then digits 10 t
      else match t with
           | v :: t' =>
               if u =? 48 then
                 if (v =? 120) || (v =? 88) then digits 16 t'
                 else if (v =? 111) || (v =? 79) then digits 8 t'
                 else if (v =? 98) || (v =? 66) then digits 2 t'
                 else digits 10 (u :: t)
               else digits 10 (u :: t)
           | [] => digits 10 (u :: t)
           end
  end.

Definition BigInt (s : jsstr) : outcome Z :=
  match StringToBigInt s with Some z => Ret z | None => Throw (Thrown "SyntaxError") end.

(** ** Numbers of the command line

    An option of the type number is a Number, NaN when its text is none. *)

(** As an operand of [&] *)
Definition bits_arg (n : num) : Z := nval_trunc (num_val n).

(** As the value of [writeUInt16LE] and the like *)
Definition uint_arg (n : nat) (v : num) : outcome Z :=
  _ ← write_number_uint n (JsNumber.Num v); Ret (nval_trunc (num_val v)).

(** ** What the shell writes *)

Inductive line : Type :=
  | Text_ (s : jsstr)
  | Prompt
  | Usage
  | Inspect (v : json)
  | Json_text (v : json) (width : num)
  | InspectSession (s : Session)
  | InspectSessions (l : list Session)
  | InspectExchanges (l : list Exchange)
  | Log (level : string) (msg : jsstr).

Section tools.
Context `{Aead} `{Kdf} `{Spake} `{Ecdsa} `{X509} `{LocalStorage} `{Pino}.

(** The process with the shell: the node, what was printed, the trace, and whether the
    process has exited. *)
Record Tools : Type := Tools_ {
  tl_node : Node;
  printed : list line;
  trace : Tracer.Tracer;
  exited : bool }.

Definition set_tl_node (n : Node) (t : Tools) : Tools := Tools_ n (printed t) (trace t) (exited t).
Definition on_node {A} (m : js Node A) : js Tools A := zoom tl_node set_tl_node m.

Definition console_log (l : line) : js Tools unit :=
  js_modify (λ t, Tools_ (tl_node t) (printed t ++ [l]) (trace t) (exited t)).
Definition print (label : string) (s : jsstr) : js Tools unit := console_log (Text_ (js_str label ++ s)).
Definition showHelp : js Tools unit := console_log Usage.

Definition get_setting (f : store_field) : js Tools setting :=
  on_node (in_process (get_field f)).

(** [Buffer.from(v, "hex")] of a setting *)
Definition hex_setting (v : setting) : outcome buffer :=
  match v with Text s => Ret (hex_decode s) | _ => Throw TypeError end.

Definition in_sockets {A} (m : js runtime A) : js Tools A :=
  on_node (in_pase (in_random m)).

(** ** [UdpClient.send(msg, port, host)] *)

Definition DEFAULT_HOST : string := "::1".

(** A datagram is sent to a port from 1 to 65535; text is converted. *)
Definition valid_port (v : setting) : outcome Z :=
  n ← match v with Text _ => js_Number v | _ => Ret v end;
  match n with
  | Store.Num z => if (0 <? z) && (z <=? 65535) then Ret z else Throw RangeError
  | _ => Throw RangeError
  end.

Definition UdpClient_send (msg : buffer) (port : option setting) (host : option string)
    : js Tools unit :=
  port ← match port with
         | Some v => mret v
         | None => get_setting F_ipPort
         end;
  p ← js_lift (valid_port port);
  in_sockets (Runtime.send Client msg p (default DEFAULT_HOST host)).

(** ** [msg] (src/shell/cmd_msg.js) *)

(** The options; [control] and [counter] have the same alias, [c]. *)
Record msg_args : Type := MsgArgs {
  ma_help : bool;
  ma_dst : option jsstr;
  ma_src : option jsstr;
  ma_counter : option num;
  ma_session : option num;
  ma_key : option jsstr;
  ma_x : option num;
  ma_c : option num;
  ma_exchange : option num;
  ma_i : option num;
  ma_a : option num;
  ma_r : option num;
  ma_p : option num;
  ma_h : option string }.

(** [if (argv.dst != "") dst = BigInt(argv.dst)] *)
Definition node_arg (v : option jsstr) (otherwise : Z) : outcome Z :=
  match v with
  | Some [] | None => Ret otherwise
  | Some s => BigInt s
  end.

Definition port_arg (n : num) : setting :=
  match n with NInt z => Store.Num z | NFrac _ => NaN end.

(** The octets of the message, before encryption *)
Definition msg_octets (own : Z) (a : msg_args) : outcome buffer :=
  dst ← node_arg (ma_dst a) NODE_ID_ANY;
  src ← node_arg (ma_src a) own;
  let dsiz := match ma_dst a with Some _ => MSG_FLAGS_DST_PRESENT | None => 0 end in
  let sFlag := match ma_src a with Some _ => 1 | None => 0 end in
  sessionId ← uint_arg 2 (default (NInt 0x0BB8) (ma_session a));
  exchangeId ← uint_arg 2 (default (NInt 0x0EEE) (ma_exchange a));
  counter ← uint_arg 4 (default (NInt 0x3039) (ma_counter a));
  let pFlag := bits_arg (default (NInt 0) (ma_x a)) in
  let cFlag := bits_arg (default (NInt 0) (ma_c a)) in
  let iFlag := bits_arg (default (NInt 1) (ma_i a)) in
  let aFlag := bits_arg (default (NInt 0) (ma_a a)) in
  let rFlag := bits_arg (default (NInt 1) (ma_r a)) in
  messageHeader ← encodeHeader (encodeMessageFlags dsiz sFlag 0)
                    (encodeSecurityFlags 0x00 cFlag pFlag 0) sessionId counter (Some src) (Some dst);
  protocolHeader ← encodeProtocolHeader (encodeExchangeFlags iFlag aFlag rFlag 0 0) exchangeId
                     0x64 0x7D20 None None;
  Ret (messageHeader ++ protocolHeader).

(** [doMsg(args)]; all that can fail before the message is printed are the conversions. *)
Definition doMsg (a : msg_args) : js Tools unit :=
  nodeId ← get_setting F_nodeid;
  own ← js_lift (BigInt (js_str "0x" ++ js_String nodeId));
  encryptionKey ← get_setting F_encryptionKey;
  key ← js_lift (hex_setting encryptionKey);
  if ma_help a then mret tt
  else
    msg ← js_lift (msg_octets own a);
    let key := match ma_key a with Some k => hex_decode k | None => key end in
    print "Plain:  " (hex_encode msg) ;;
    enc ← js_lift (encrypt msg key);
    print "Secure: " (hex_encode enc) ;;
    UdpClient_send enc (port_arg <$> ma_p a) (ma_h a).

(** [onMsg(msg, session)], the shell's listener on the messages of secure sessions *)
Definition onMsg (msg : Message) : js Tools unit :=
  enc ← js_lift (match _encrypted msg with Some b => Ret b | None => Throw TypeError end);
  peer ← js_lift (match _peerInfo msg with Some p => Ret p | None => Throw TypeError end);
  print "server got: " (hex_encode enc ++ js_str " from " ++ js_str (address peer) ++ js_str ":"
                        ++ js_str (pretty (port peer))) ;;
  print "Plain:  " (hex_encode (Decrypted msg)).

(** ** [crypto] (src/shell/cmd_crypto.js) *)

Record crypto_args : Type := CryptoArgs {
  ca_help : bool;
  ca_decrypt : option jsstr;
  ca_encrypt : option jsstr;
  ca_key : option jsstr }.

Definition doCrypto (a : crypto_args) : js Tools unit :=
  encryptionKey ← get_setting F_encryptionKey;
  key ← js_lift (hex_setting encryptionKey);
  if ca_help a then mret tt
  else
    let key := match ca_key a with Some k => hex_decode k | None => key end in
    print "Key:  " (hex_encode key) ;;
    match ca_decrypt a, ca_encrypt a with
    | Some s, _ =>
        let buf := hex_decode s in
        print "Cipher:  " (hex_encode buf) ;;
        dmsg ← js_lift (decrypt buf key);
        match dmsg with
        | None => print "ERROR: message failed authentication" []
        | Some dmsg => print "Plain:  " (hex_encode dmsg)
        end
    | None, Some s =>
        let buf := hex_decode s in
        print "Plain:  " (hex_encode buf) ;;
        enc ← js_lift (encrypt buf key);
        print "Cipher:  " (hex_encode enc)
    | None, None => showHelp
    end.

(** ** [tlv] (src/shell/cmd_tlv.js) *)

(** The text to encode comes with what [JSON.parse] makes of it. *)
Record tlv_args : Type := TlvArgs {
  ta_help : bool;
  ta_decode : option jsstr;
  ta_encode : option (jsstr * outcome json);
  ta_tab_width : option num }.

Definition doTlv (a : tlv_args) : js Tools unit :=
  if ta_help a then mret tt
  else
    let tabWidth := default (NInt 2) (ta_tab_width a) in
    match ta_decode a, ta_encode a with
    | Some s, _ =>
        result ← js_lift (decode_json (hex_decode s));
        js_lift (stringify result) ;;
        console_log (Json_text result tabWidth)
    | None, Some (text, parsed) =>
        console_log (Text_ text) ;;
        v ← js_lift parsed;
        result ← js_lift (encode_new v);
        console_log (Inspect v) ;;
        console_log (Text_ (hex_encode result))
    | None, None => showHelp
    end.

(** ** [session] and [exchange] (src/shell/cmd_session.js, src/shell/cmd_exchange.js) *)

Definition session_objects (sm : SessionManager) (l : list nat) : list Session :=
  omap (λ sid, sessions sm !! sid) l.

Definition get_sessions : js Tools SessionManager := λ t,
  (t, Ret (em_sessions (w_em (nd_pase (tl_node t))))).

(** A Number that is no integer is no session's id. *)
Definition show_session (id : num) : js Tools unit :=
  sm ← get_sessions;
  match num_val id with
  | VInt z =>
      match getSecureSession z sm ≫= λ sid, sessions sm !! sid with
      | Some s => console_log (InspectSession s)
      | None => mret tt
      end
  | _ => mret tt
  end.

Definition doSession (help : bool) (peerSessionId localSessionId : option num) : js Tools unit :=
  if help then mret tt
  else
    match peerSessionId, localSessionId with
    | Some id, _ => show_session id
    | None, Some id => show_session id
    | None, None =>
        sm ← get_sessions;
        print "__SECURE SESSIONS__" [] ;;
        console_log (InspectSessions (session_objects sm (_sessionsSecured sm))) ;;
        print "__UNSECURED SESSIONS__" [] ;;
        console_log (InspectSessions (session_objects sm (_sessionsUnsecured sm)))
    end.

(** The manager has no method [get]. *)
Definition doExchange (help : bool) (exchangeId : option num) : js Tools unit :=
  if help then mret tt
  else
    match exchangeId with
    | Some _ => js_throw TypeError
    | None => λ t,
        let em := w_em (nd_pase (tl_node t)) in
        console_log (InspectExchanges (omap (λ x, exchange_heap em !! x) (_exchanges em))) t
    end.

(** ** [config] (src/shell/cmd_config.js): [PersistantStore.dump()] *)
Definition dump : js Tools unit :=
  js_forEach (λ e : string * store_field,
      v ← get_setting e.2;
      print "store: " (js_str e.1 ++ js_str " = " ++ js_String v))
    [("encryptionKey", F_encryptionKey); ("fabricid", F_fabricid); ("loglevel", F_logLevel);
     ("nodeid", F_nodeid); ("nodenum", F_nodenum); ("ipPort", F_ipPort)]%string.

Definition doConfig : js Tools unit := dump.

(** ** [log], [trace], [x509], [help], [exit] *)

(** The message is the word behind the command. *)
Definition doLog (help : bool) (args : list jsstr) : js Tools unit :=
  match help, args with
  | false, _ :: msg :: _ =>
      js_forEach (λ level, console_log (Log level msg))
        ["trace"; "debug"; "info"; "warn"; "error"; "fatal"]%string
  | _, _ => mret tt
  end.

(** The tracer with the level the store has set *)
Definition get_trace (t : Tools) : Tracer.Tracer :=
  Tracer.Tracer_ (tracer_level (nd_process (tl_node t))) (Tracer._pid (trace t))
    (Tracer.written (trace t)).
Definition set_trace (tr : Tracer.Tracer) (t : Tools) : Tools :=
  Tools_ (tl_node t) (printed t) tr (exited t).

Definition doTrace (now : Z) (help : bool) (args : list jsstr) : js Tools unit :=
  match help, args with
  | false, _ :: msg :: _ => zoom get_trace set_trace (Tracer.emit now (Some msg) None None)
  | _, _ => mret tt
  end.

(** [new X509Certificate(text)] and its [toString(format)] are of the library. *)
Definition doX509 (of_text : jsstr → outcome certificate)
    (to_text : certificate → option jsstr → outcome jsstr)
    (help : bool) (input output : option jsstr) : js Tools unit :=
  if help then mret tt
  else
    match input with
    | Some text =>
        cert ← js_lift (of_text text);
        s ← js_lift (to_text cert output);
        console_log (Text_ s)
    | None => showHelp
    end.

(** The names of the commands and what [help] says of them *)
Definition theCommandList : list (string * string) :=
  [("help", "Display list of all commands"); ("config", "Display all config variables");
   ("crypto", "Run crypto functions");
   ("dacpriv", "Get and set the Device Attestation private key");
   ("dacpub", "Get the Device Attestation public key");
   ("dac", "Get the Device Attestation Certificate"); ("exchange", "Manage active exchanges");
   ("exit", "Exit the shell"); ("fabricid", "Get and set the FabricId");
   ("key", "Get and set the EncryptionKey"); ("log", "Output a log message");
   ("loglevel", "Get and set the LogLevel"); ("mdns", "Execute the mDNS discovery client");
   ("msg", "Encode a message"); ("nodeid", "Get and set the NodeId");
   ("nodenum", "Get and set the Node Number"); ("pase", "Manage a PASE session");
   ("port", "Get and set the IPv6 port"); ("session", "Manage active sessions");
   ("tlv", "Encode / decode TLV"); ("trace", "Output a trace event");
   ("tracelevel", "Get and set the TraceLevel");
   ("x509", "Encode and decode X.509 certificates")]%string.

Definition doHelp : js Tools unit :=
  js_forEach (λ e : string * string, console_log (Text_ (js_str e.1 ++ [9] ++ js_str e.2)))
    theCommandList.

(** [process.exit(0)]: the listener of the tracer closes the trace, and nothing behind the
    call runs. *)
Definition process_exit : js Tools unit :=
  js_modify (λ t, Tools_ (tl_node t) (printed t) (Tracer.writeFooter (trace t)).1 true) ;;
  js_throw (Thrown "exit").

Definition doExit : js Tools unit := print "Goodbye" [] ;; process_exit.
End tools.
