(* ===== verification/ToolsTheorems.v ===== *)
(** * Theorems on the shell's tools

    What the [msg] command sends is read back by the receiver of the message and by the
    [crypto] command, and no command but [exit] and [msg] changes more than the output. *)
From S2P Require Import Prelude JsNumber JsString TlvType TlvReader TlvWriter Aead MsgCodec.
From S2P Require Import Message MessageTheorems Runtime Session SessionManager Exchange.
From S2P Require Import PaseInvariant ExampleCerts.
From S2P Require Import ExchangeManager JsValue Spake Pase Ecdsa Certificate Store Shell.
From S2P Require Import Utilities Discovery Node NodeTheorems Tools.

(** ** Lemmas: arguments *)

Lemma uint_arg_fits n z : fits n z → uint_arg n (NInt z) = Ret z.
Proof.
  unfold fits. intros Hz. unfold uint_arg, write_number_uint. cbn [num_val nval_leb nval_ltb].
  destruct (Z.leb_spec z (256 ^ Z.of_nat n - 1)); [|lia]. by destruct (Z.ltb_spec z 0); [lia|].
Qed.

Lemma bit_of x : Z.land x 1 = 0 ∨ Z.land x 1 = 1.
Proof.
  assert (Z.land x 1 = x mod 2) as -> by exact (Z.land_ones x 1 ltac:(lia)).
  pose proof (Z.mod_pos_bound x 2). lia.
Qed.

Lemma security_octet c p :
  let s := encodeSecurityFlags 0 c p 0 in
  fits 1 s ∧ has_flag s 0x40 = (Z.land c 1 =? 1) ∧ has_flag s 0x80 = (Z.land p 1 =? 1).
Proof. unfold encodeSecurityFlags. by destruct (bit_of c) as [-> | ->], (bit_of p) as [-> | ->]. Qed.

Lemma exchange_octet i a r :
  let s := encodeExchangeFlags i a r 0 0 in
  fits 1 s ∧ has_flag s 0x01 = (Z.land i 1 =? 1) ∧ has_flag s 0x02 = (Z.land a 1 =? 1) ∧
  has_flag s 0x04 = (Z.land r 1 =? 1).
Proof.
  unfold encodeExchangeFlags.
  by destruct (bit_of i) as [-> | ->], (bit_of a) as [-> | ->], (bit_of r) as [-> | ->].
Qed.

(** The flags say which of the node ids are there. *)
Definition given (v : option jsstr) : bool := bool_decide (is_Some v).

Definition msg_flags (a : msg_args) : Z :=
  encodeMessageFlags (match ma_dst a with Some _ => MSG_FLAGS_DST_PRESENT | None => 0 end)
    (match ma_src a with Some _ => 1 | None => 0 end) 0.

Lemma msg_flags_ok a :
  fits 1 (msg_flags a) ∧ has_flag (msg_flags a) MSG_FLAGS_SRC_PRESENT = given (ma_src a) ∧
  has_flag (msg_flags a) MSG_FLAGS_DST_PRESENT = given (ma_dst a) ∧
  has_flag (msg_flags a) MSG_FLAGS_DST_GROUP = false.
Proof. unfold msg_flags, given. by destruct (ma_dst a), (ma_src a). Qed.

(** ** What the options of [msg] ask for *)

Record msg_asked (own : Z) (a : msg_args) (sid ctr xid src dst : Z) : Prop := {
  asked_session : default (NInt 0x0BB8) (ma_session a) = NInt sid;
  asked_counter : default (NInt 0x3039) (ma_counter a) = NInt ctr;
  asked_exchange : default (NInt 0x0EEE) (ma_exchange a) = NInt xid;
  asked_source : node_arg (ma_src a) own = Ret src;
  asked_destination : node_arg (ma_dst a) NODE_ID_ANY = Ret dst;
  session_fits : fits 2 sid;
  counter_fits : fits 4 ctr;
  exchange_fits : fits 2 xid;
  source_fits : fits 8 src;
  destination_fits : fits 8 dst }.

(** What the receiver reads from the octets of the message *)
Definition reads_as (a : msg_args) (sid ctr xid src dst : Z) (b : buffer) : Prop :=
  let m := Message_new (Some b) None None in
  SessionId m = Ret sid ∧ MessageCounter m = Ret ctr ∧
  SourceNodeId m = Ret (if given (ma_src a) then src else NODE_ID_ANY) ∧
  DestinationNodeId m = Ret (if given (ma_dst a) then dst else NODE_ID_ANY) ∧
  Cflag m = Ret (Z.land (bits_arg (default (NInt 0) (ma_c a))) 1 =? 1) ∧
  Pflag m = Ret (Z.land (bits_arg (default (NInt 0) (ma_x a))) 1 =? 1) ∧
  ExchangeId m = Ret xid ∧ ProtocolId m = Ret 0x7D20 ∧ ProtocolOpcode m = Ret 0x64 ∧
  Iflag m = Ret (Z.land (bits_arg (default (NInt 1) (ma_i a))) 1 =? 1) ∧
  Aflag m = Ret (Z.land (bits_arg (default (NInt 0) (ma_a a))) 1 =? 1) ∧
  Rflag m = Ret (Z.land (bits_arg (default (NInt 1) (ma_r a))) 1 =? 1).

Lemma msg_octets_read own a sid ctr xid src dst :
  msg_asked own a sid ctr xid src dst →
  ∃ b, msg_octets own a = Ret b ∧ header_size b <= blen b <= header_size b + 6 ∧ reads_as a sid ctr xid src dst b.
Proof.
  intros [Hs Hc Hx Hsrc Hdst Fs Fc Fx Fsrc Fdst]. unfold msg_octets.
  rewrite Hs, Hc, Hx, Hsrc, Hdst. cbn [mbind outcome_bind].
  rewrite !uint_arg_fits by done. cbn [mbind outcome_bind].
  fold (msg_flags a). destruct (msg_flags_ok a) as (Hf & Hsf & Hdf & Hg).
  destruct (security_octet (bits_arg (default (NInt 0) (ma_c a)))
    (bits_arg (default (NInt 0) (ma_x a)))) as (Hsec & Hcf & Hpf).
  destruct (exchange_octet (bits_arg (default (NInt 1) (ma_i a)))
    (bits_arg (default (NInt 0) (ma_a a))) (bits_arg (default (NInt 1) (ma_r a))))
    as (Hex & Hif & Haf & Hrf).
  set (sec := encodeSecurityFlags _ _ _ _) in *. set (ex := encodeExchangeFlags _ _ _ _ _) in *.
  rewrite (encodeProtocolHeader_layout ex xid 0x64 0x7D20 None None) by done.
  set (ph := le_bytes 1 ex ++ _).
  destruct (header_reads (msg_flags a) sec sid ctr src dst ph)
    as (hb & Hh & Hrf' & Hrsec & Hrsid & Hrctr & Hrsrc & Hrdst & Hpay); [done..|].
  rewrite Hh. cbn [mbind outcome_bind]. exists (hb ++ ph). split; [done|].
  split.
  - rewrite encodeHeader_layout in Hh by done. apply Ret_inj in Hh. subst hb.
    unfold header_size, header_bytes. rewrite <- app_assoc, first_octet_flags by done.
    rewrite Hsf, Hdf, Hg, !blen_app, !blen_le_bytes.
    assert (blen ph = 6) by (unfold ph; by rewrite !blen_app, !blen_le_bytes).
    unfold opt_bytes. destruct (given (ma_src a)), (given (ma_dst a)); cbn beta iota;
      rewrite ?blen_le_bytes; change (blen []) with 0; lia.
  - unfold reads_as. rewrite Hsf in Hrsrc. rewrite Hdf in Hrdst.
    set (m := Message_new _ _ _) in *.
    assert (ExchangeFlags m = Ret ex) as Hef.
    { unfold ExchangeFlags, payload_field. rewrite Hpay. by apply (read_at 1 ex []). }
    split_and!; [done..| | | | | | | |].
    + unfold Cflag. rewrite Hrsec. cbn [fmap outcome_fmap]. by rewrite Hcf.
    + unfold Pflag. rewrite Hrsec. cbn [fmap outcome_fmap]. by rewrite Hpf.
    + unfold ExchangeId, payload_field. rewrite Hpay. unfold ph. rewrite (app_assoc (le_bytes 1 ex)).
      by apply (read_at 2 xid (le_bytes 1 ex ++ le_bytes 1 0x64)).
    + unfold ProtocolId, payload_field. rewrite Hpay. unfold ph.
      rewrite (app_assoc (le_bytes 1 ex)), (app_assoc _ (le_bytes 2 xid)).
      by apply (read_at 2 0x7D20 ((le_bytes 1 ex ++ le_bytes 1 0x64) ++ le_bytes 2 xid)).
    + unfold ProtocolOpcode, payload_field. rewrite Hpay.
      by apply (read_at 1 0x64 (le_bytes 1 ex)).
    + unfold Iflag, exchange_flag. rewrite Hef. cbn [fmap outcome_fmap]. by rewrite Hif.
    + unfold Aflag, exchange_flag. rewrite Hef. cbn [fmap outcome_fmap]. by rewrite Haf.
    + unfold Rflag, exchange_flag. rewrite Hef. cbn [fmap outcome_fmap]. by rewrite Hrf.
Qed.

(** ** Lemmas: runs of the commands *)
Section runs.
Context `{HA : Aead} `{HK : Kdf} `{HS : Spake} `{HE : Ecdsa} `{HX : X509}.
Context `{HL : LocalStorage} `{HP : Pino}.

Definition setting_of (t : Tools) (f : store_field) : setting := store (nd_process (tl_node t)) f.
Definition sent_of (t : Tools) : list datagram :=
  sent (sm_runtime (em_sessions (w_em (nd_pase (tl_node t))))).
Definition show (l : list line) (t : Tools) : Tools :=
  Tools_ (tl_node t) (printed t ++ l) (trace t) (exited t).
Definition transmit (d : datagram) (t : Tools) : Tools :=
  (in_sockets (Runtime.send (dg_transport d) (dg_buf d) (dg_port d) (dg_host d)) t).1.

Lemma get_setting_run f t : get_setting f t = (t, Ret (setting_of t f)).
Proof. by destruct t as [[] ? ? ?]. Qed.

Lemma get_setting_bind {B} f (k : setting → js Tools B) t :
  mbind k (get_setting f) t = k (setting_of t f) t.
Proof. unfold mbind, js_bind. by rewrite get_setting_run. Qed.

Lemma lift_bind {S A B} (o : outcome A) (a : A) (f : A → js S B) s :
  o = Ret a → (js_lift o ≫= f) s = f a s.
Proof. by intros ->. Qed.

Lemma print_bind {B} label s (k : js Tools B) t :
  (print label s ;; k) t = k (show [Text_ (js_str label ++ s)] t).
Proof. done. Qed.

Lemma print_run label s t : print label s t = (show [Text_ (js_str label ++ s)] t, Ret tt).
Proof. done. Qed.

Lemma show_show l l' t : show l' (show l t) = show (l ++ l') t.
Proof. unfold show. cbn. by rewrite app_assoc. Qed.

Lemma setting_of_show l t f : setting_of (show l t) f = setting_of t f.
Proof. done. Qed.

Lemma sent_of_show l t : sent_of (show l t) = sent_of t.
Proof. done. Qed.

Lemma sent_of_transmit d t : sent_of (transmit d t) = sent_of t ++ [d].
Proof. destruct t as [[? ? [[[]] ? ?] ? ?] ? ? ?], d. done. Qed.

Lemma printed_transmit d t : printed (transmit d t) = printed t.
Proof. by destruct t as [[? ? [[[]] ? ?] ? ?] ? ? ?]. Qed.

Lemma setting_of_transmit d t f : setting_of (transmit d t) f = setting_of t f.
Proof. by destruct t as [[? ? [[[]] ? ?] ? ?] ? ? ?]. Qed.

Lemma UdpClient_send_run msg po host t p :
  valid_port (default (setting_of t F_ipPort) po) = Ret p →
  UdpClient_send msg po host t
  = (transmit (Datagram Client msg p (default DEFAULT_HOST host)) t, Ret tt).
Proof.
  intros Hp. unfold UdpClient_send. destruct po as [v|].
  - change (valid_port v = Ret p) in Hp. unfold mbind, js_bind, mret, js_ret, js_lift.
    rewrite Hp. by destruct t as [[? ? [[[]] ? ?] ? ?] ? ? ?].
  - change (valid_port (setting_of t F_ipPort) = Ret p) in Hp.
    unfold mbind at 1, js_bind at 1. rewrite get_setting_run.
    unfold mbind, js_bind, js_lift. rewrite Hp. by destruct t as [[? ? [[[]] ? ?] ? ?] ? ? ?].
Qed.

Section laws.
Context {HAL : AeadLaws HA}.

Lemma doMsg_run a t id own key sid ctr xid src dst p :
  setting_of t F_nodeid = Text id → BigInt (js_str "0x" ++ id) = Ret own →
  hex_setting (setting_of t F_encryptionKey) = Ret key →
  let key := default key (hex_decode <$> ma_key a) in
  blen key = key_size → ma_help a = false →
  valid_port (default (setting_of t F_ipPort) (port_arg <$> ma_p a)) = Ret p →
  msg_asked own a sid ctr xid src dst →
  ∃ msg enc,
    doMsg a t = (transmit (Datagram Client enc p (default DEFAULT_HOST (ma_h a)))
      (show [Text_ (js_str "Plain:  " ++ hex_encode msg);
             Text_ (js_str "Secure: " ++ hex_encode enc)] t), Ret tt) ∧
    decrypt enc key = Ret (Some msg) ∧ reads_as a sid ctr xid src dst msg.
Proof.
  intros Hid Hown Hkey key' Hk Hhelp Hp Ha.
  destruct (msg_octets_read _ _ _ _ _ _ _ Ha) as (msg & Hm & Hsize & Hr).
  destruct (encrypt_total msg key') as [enc He]; [lia|done|unfold ccm_limit, nonce_size; lia|].
  destruct (decrypt_encrypt msg key' enc) as [Hd _]; [lia|done|].
  exists msg, enc. split; [|done]. unfold doMsg.
  rewrite get_setting_bind, Hid. cbn [js_String]. rewrite (lift_bind _ _ _ _ Hown).
  rewrite get_setting_bind, (lift_bind _ _ _ _ Hkey), Hhelp, (lift_bind _ _ _ _ Hm).
  assert (match ma_key a with Some k => hex_decode k | None => key end = key') as ->
    by (unfold key'; by destruct (ma_key a)).
  cbn zeta. rewrite print_bind, (lift_bind _ _ _ _ He), print_bind, show_show.
  by apply UdpClient_send_run.
Qed.

Lemma doCrypto_decrypt_run t enc key msg stored :
  hex_setting (setting_of t F_encryptionKey) = Ret stored → decrypt enc key = Ret (Some msg) →
  doCrypto (CryptoArgs false (Some (hex_encode enc)) None (Some (hex_encode key))) t
  = (show [Text_ (js_str "Key:  " ++ hex_encode key); Text_ (js_str "Cipher:  " ++ hex_encode enc);
           Text_ (js_str "Plain:  " ++ hex_encode msg)] t, Ret tt).
Proof.
  intros Hkey Hd. unfold doCrypto. rewrite get_setting_bind, (lift_bind _ _ _ _ Hkey).
  cbn [ca_help ca_key ca_decrypt ca_encrypt]. rewrite !hex_decode_encode. cbn zeta.
  rewrite !print_bind, show_show, (lift_bind _ _ _ _ Hd), print_run, show_show. done.
Qed.
End laws.

End runs.

(** ** Theorems *)

(** C23: with a key of 16 octets, a port and numbers in their ranges, [msg] prints the message
    and its encryption and sends that one datagram from the client's socket, to the port and
    host asked for or the defaults; decrypted with the key it has the session id, counter,
    exchange id, flags and, where they were given, the node ids that were asked for; and
    [crypto --decrypt] of the encryption prints the octets [msg] printed. *)
Theorem msg_command_readable `{HA : Aead} `{HAL : !AeadLaws HA} `{HK : Kdf} `{HS : Spake}
    `{HE : Ecdsa} `{HX : X509} `{HL : LocalStorage} `{HP : Pino}
    (a : msg_args) (t : Tools) (id : jsstr) (own : Z) (stored key : buffer)
    (sid ctr xid src dst p : Z) :
  setting_of t F_nodeid = Text id → BigInt (js_str "0x" ++ id) = Ret own →
  hex_setting (setting_of t F_encryptionKey) = Ret stored →
  key = default stored (hex_decode <$> ma_key a) → blen key = key_size →
  valid_port (default (setting_of t F_ipPort) (port_arg <$> ma_p a)) = Ret p →
  ma_help a = false → msg_asked own a sid ctr xid src dst →
  ∃ msg enc t' t'',
    doMsg a t = (t', Ret tt) ∧
    printed t' = printed t ++ [Text_ (js_str "Plain:  " ++ hex_encode msg);
                               Text_ (js_str "Secure: " ++ hex_encode enc)] ∧
    sent_of t' = sent_of t ++ [Datagram Client enc p (default DEFAULT_HOST (ma_h a))] ∧
    decrypt enc key = Ret (Some msg) ∧ reads_as a sid ctr xid src dst msg ∧
    doCrypto (CryptoArgs false (Some (hex_encode enc)) None (Some (hex_encode key))) t' = (t'', Ret tt) ∧
    printed t'' = printed t' ++ [Text_ (js_str "Key:  " ++ hex_encode key);
                                 Text_ (js_str "Cipher:  " ++ hex_encode enc);
                                 Text_ (js_str "Plain:  " ++ hex_encode msg)] ∧
    sent_of t'' = sent_of t'.
Proof.
  intros Hid Hown Hkey -> Hk Hp Hh Ha.
  destruct (doMsg_run a t id own stored sid ctr xid src dst p) as (msg & enc & Hrun & Hd & Hr); [done..|].
  eexists msg, enc, _, _. split; [exact Hrun|]. rewrite sent_of_transmit, printed_transmit.
  split_and!; [done..| | |].
  - apply (doCrypto_decrypt_run _ enc _ msg stored); [|done]. by rewrite setting_of_transmit.
  - cbn [show printed]. by rewrite printed_transmit.
  - by rewrite sent_of_show, sent_of_transmit.
Qed.

Definition demo_tools : Tools := Tools_ demo_start [] (Tracer.Tracer_new 7 3) false.

(** [msg --dst 0x12 --src --session 7 -c 3 -k 000102... -p 5600 --host fe80::2] *)
Definition demo_hex : jsstr := js_str "000102030405060708090a0b0c0d0e0f".
Definition demo_msg_args : msg_args :=
  MsgArgs false (Some (js_str "0x12")) (Some []) (Some (NInt 3)) (Some (NInt 7)) (Some demo_hex)
    None (Some (NInt 3)) None None None None (Some (NInt 5600)) (Some "fe80::2"%string).

Lemma msg_command_readable_witness :
  ∃ msg enc,
    sent_of (doMsg demo_msg_args demo_tools).1 = [Datagram Client enc 5600 "fe80::2"] ∧
    decrypt enc (hex_decode demo_hex) = Ret (Some msg) ∧
    reads_as demo_msg_args 7 3 0x0EEE 10 0x12 msg.
Proof.
  destruct (msg_command_readable demo_msg_args demo_tools (js_str "000000000000000a") 10
    (hex_decode (js_str "5eded244e5532b3cdc23409dbad052d2")) (hex_decode demo_hex) 7 3 0x0EEE 10 0x12 5600)
    as (msg & enc & t' & t'' & H1 & _ & H2 & H3 & H4 & _).
  - vm_compute. reflexivity.
  - vm_compute. reflexivity.
  - vm_compute. reflexivity.
  - reflexivity.
  - reflexivity.
  - vm_compute. reflexivity.
  - reflexivity.
  - by split.
  - exists msg, enc. rewrite H1. split_and!; [|done|done]. exact H2.
Defined.
