(* ===== verification/Cli.v ===== *)
(** * The command line (src/shell/cli.js, src/shell/Shell.js)

    The shell from the line that is typed to what is printed, with every command, the
    listener on messages, and the process with all its events. *)
From stdpp Require Import pretty.
From S2P Require Import Prelude JsNumber JsString TlvType Aead Message Runtime SessionManager.
From S2P Require Import Exchange ExchangeManager Spake Pase Ecdsa Certificate Store Shell.
From S2P Require Import Utilities Discovery InteractionModel ClusterServers Node Tools.

(** The options of [pase] and [mdns] *)
Record pase_args : Type := PaseArgs {
  pa_help : bool;
  pa_dst : option jsstr;
  pa_p : option num;
  pa_h : option string }.

Record mdns_args : Type := MdnsArgs { da_help : bool; da_c : bool; da_d : bool }.

(** What [yargs] makes of the words of a line, for the options of each command, and what
    the X.509 package reads and writes as text. *)
Class Yargs `{X509} : Type := {
  parse_msg (args : list jsstr) : msg_args;
  parse_crypto (args : list jsstr) : crypto_args;
  parse_tlv (args : list jsstr) : tlv_args;
  parse_session (args : list jsstr) : bool * option num * option num;
  parse_exchange (args : list jsstr) : bool * option num;
  parse_pase (args : list jsstr) : pase_args;
  parse_mdns (args : list jsstr) : mdns_args;
  parse_help (args : list jsstr) : bool;
  parse_x509 (args : list jsstr) : bool * option jsstr * option jsstr;
  X509_of_text (text : jsstr) : outcome certificate;
  X509_to_text (c : certificate) (format : option jsstr) : outcome jsstr }.

(** Options with a common alias are one option. *)
Class YargsLaws `{X509} (Y : Yargs) : Prop := {
  aliases_agree args : ma_counter (parse_msg args) = ma_c (parse_msg args) }.

Section cli.
Context `{Aead} `{Kdf} `{Spake} `{Ecdsa} `{X509} `{LocalStorage} `{Pino} `{!Yargs}.

(** [doPase(args)]: the key and the destination have no use; a port that is no integer
    is not modelled. *)
Definition doPase_command (a : pase_args) : js Tools unit :=
  if pa_help a then mret tt
  else
    _ ← js_lift (node_arg (pa_dst a) 0);
    port ← js_lift (match default (NInt 5540) (pa_p a) with NInt z => Ret z | NFrac _ => Throw OutOfModel end);
    on_node (in_pase (doPase port (default "::1"%string (pa_h a)))).

(** [doMdns(args)] *)
Definition doMdns_command (a : mdns_args) : js Tools unit :=
  if da_help a then mret tt
  else
    print "Discover: " (if da_c a then MDNS_DOMAIN_COMMISSIONABLE
                        else if da_d a then MDNS_DOMAIN_COMMISSIONER
                        else MDNS_DOMAIN_OPERATIONAL) ;;
    on_node (in_discovery (doMdns (da_c a) (da_d a))).

(** A command on the store prints the value it returns. *)
Definition do_config (command : list jsstr → js Process setting) (args : list jsstr) : js Tools unit :=
  v ← on_node (in_process (command args));
  console_log (Text_ (js_String v)).

(** The handlers of the command list, at the time [now] *)
Definition handlers (now : Z) : list (string * (list jsstr → js Tools unit)) :=
  [("help", λ _, doHelp); ("config", λ _, doConfig);
   ("crypto", λ args, doCrypto (parse_crypto args));
   ("dacpriv", do_config doDaPrivateKey); ("dacpub", do_config doDaPublicKey);
   ("dac", do_config doDaCertificate);
   ("exchange", λ args, let '(help, id) := parse_exchange args in doExchange help id);
   ("exit", λ _, doExit); ("fabricid", do_config doFabricId);
   ("key", do_config doEncryptionKey); ("log", λ args, doLog (parse_help args) args);
   ("loglevel", do_config doLogLevel); ("mdns", λ args, doMdns_command (parse_mdns args));
   ("msg", λ args, doMsg (parse_msg args)); ("nodeid", do_config doNodeId);
   ("nodenum", do_config doNodeNum); ("pase", λ args, doPase_command (parse_pase args));
   ("port", do_config doIpPort);
   ("session", λ args, let '(help, p, l) := parse_session args in doSession help p l);
   ("tlv", λ args, doTlv (parse_tlv args));
   ("trace", λ args, doTrace now (parse_help args) args);
   ("tracelevel", do_config doTraceLevel);
   ("x509", λ args, let '(help, i, o) := parse_x509 args in doX509 X509_of_text X509_to_text help i o)]%string.

(** [this.commandList.find(entry => entry["command"] == args[0])] *)
Definition find_handler (now : Z) (name : jsstr) : option (list jsstr → js Tools unit) :=
  snd ∘ snd <$> list_find (λ entry, js_str entry.1 = name) (handlers now).

(** [onReadLine(line)]: every handler returns 0. *)
Definition Shell_onReadLine (now : Z) (text : jsstr) : js Tools unit :=
  let text := trim text in
  (if (length text =? 0)%nat then mret tt
   else
     let args := split text in
     match find_handler now (hd [] args) with
     | Some handler => handler args ;; print "Done" []
     | None => print "Error: command not found" []
     end) ;;
  console_log Prompt.

(** The listener on the end of the input *)
Definition Shell_onClose : js Tools unit := print "goodbye" [] ;; process_exit.

(** The message that the session manager emits for a datagram *)
Definition emitted (buf : buffer) (peer : PeerInfo) (t : Tools) : outcome Message :=
  fst <$> (SessionManager_onMessage buf peer (em_sessions (w_em (nd_pase (tl_node t))))).2.

(** A datagram: the node's listener, then the shell's, which hears the messages of secure
    sessions only. *)
Definition cli_receive (buf : buffer) (peer : PeerInfo) : js Tools unit := λ t,
  (on_node (node_receive buf peer) ;;
   u ← js_lift (isUnencrypted (Message_new (Some buf) None (Some peer)));
   if u : bool then mret tt else msg ← js_lift (emitted buf peer t); onMsg msg) t.

(** What a process that has not exited reacts to. *)
Inductive cli_event : Type :=
  | Datagram_ (buf : buffer) (peer : PeerInfo)
  | Timer_ (t : nat)
  | Resume_ (i : nat) (seed : buffer)
  | Csr_ (i : nat) (seed : buffer)
  | Query_ (questions : list question) (i : nat)
  | Line_ (now : Z) (text : jsstr)
  | Close_.

Definition react (e : cli_event) : js Tools unit :=
  match e with
  | Datagram_ buf peer => cli_receive buf peer
  | Timer_ t => on_node (in_pase (fire_timer t))
  | Resume_ i seed => on_node (in_pase (resume i seed))
  | Csr_ i seed => on_node (in_im (resume_csr i seed))
  | Query_ qs i => on_node (node_query qs i)
  | Line_ now text => Shell_onReadLine now text
  | Close_ => Shell_onClose
  end.

Inductive cli_step : Tools → Tools → Prop :=
  | cli_react e t : exited t = false → cli_step t (react e t).1.
End cli.

(** ** A toy instance: no option is recognised. *)
#[export] Instance toy_yargs : Yargs (H := toy_x509) := {|
  parse_msg _ := MsgArgs false None None None None None None None None None None None None None;
  parse_crypto _ := CryptoArgs false None None None;
  parse_tlv _ := TlvArgs false None None None;
  parse_session _ := (false, None, None);
  parse_exchange _ := (false, None);
  parse_pase _ := PaseArgs false None None None;
  parse_mdns _ := MdnsArgs false false false;
  parse_help _ := false;
  parse_x509 _ := (false, None, None);
  X509_of_text text := X509_fromPem text;
  X509_to_text c _ := Ret [] |}.

#[export] Instance toy_yargs_laws : YargsLaws toy_yargs.
Proof. by split. Qed.
