(* ===== verification/CliTheorems.v ===== *)
(** * Theorems on the command line

    What a line of the shell does, and the invariant of the process with all its events. *)
From S2P Require Import Prelude JsNumber JsString TlvType Aead MsgCodec Message MessageTheorems.
From S2P Require Import Runtime Session SessionManager Exchange ExchangeManager JsValue Spake Pase.
From S2P Require Import MessagingFacts PaseInvariant Ecdsa ExampleCerts Certificate Store Shell StoreTheorems.
From S2P Require Import Utilities Discovery ClusterServers InteractionModel Node NodeTheorems.
From S2P Require Import Tools ToolsTheorems Cli.

Section keeping.
Context `{HA : Aead} `{HK : Kdf} `{HS : Spake} `{HE : Ecdsa} `{HX : X509} `{HY : !Yargs}.
Context `{HL : LocalStorage} `{HP : Pino}.

(** ** Lemmas: what the commands keep *)

(** A command that only prints, or traces. *)
Lemma keeps_console (Q : Node → Prop) l : keeps (λ t, Q (tl_node t)) (console_log l).
Proof. by intros t. Qed.

Lemma keeps_print (Q : Node → Prop) label s : keeps (λ t, Q (tl_node t)) (print label s).
Proof. apply keeps_console. Qed.

Lemma keeps_setting (Q : Node → Prop) f : keeps (λ t, Q (tl_node t)) (get_setting f).
Proof. intros t Ht. by rewrite get_setting_run. Qed.

Lemma keeps_get_sessions (Q : Node → Prop) : keeps (λ t, Q (tl_node t)) get_sessions.
Proof. by intros t. Qed.

(** The steps of a command, one after the other. *)
Ltac keeps_steps :=
  repeat first [apply keeps_bind; [|intros ?] | apply keeps_lift | apply keeps_setting
               | apply keeps_print | apply keeps_console | apply keeps_get_sessions | apply keeps_ret
               | apply keeps_throw | apply keeps_js_forEach; intros ? | case_match].

Lemma keeps_trace (Q : Node → Prop) now h args : keeps (λ t, Q (tl_node t)) (doTrace now h args).
Proof.
  unfold doTrace. destruct h, args as [|? [|msg args]]; try apply keeps_ret.
  intros t Ht. unfold zoom. by destruct (Tracer.emit _ _ _ _ _).
Qed.


(** A property of the node that its events, the sockets and the commands on the store
    keep. *)
Class KeptByNode (Q : Node → Prop) : Prop := {
  kept_step n n' : node_step n n' → Q n → Q n';
  kept_sockets (m : js runtime unit) : keeps Q (in_pase (in_random m));
  kept_command name (command : list jsstr → js Process setting) args :
    (name, command) ∈ config_commands → Forall (λ a, a ≠ []) args → keeps Q (in_process (command args)) }.

Section kept.
Context (Q : Node → Prop) {HQ : KeptByNode Q}.

Abbreviation tools_keep := (keeps (λ t : Tools, Q (tl_node t))).

Lemma keeps_on_node {A} (m : js Node A) : keeps Q m → tools_keep (on_node m).
Proof. intros Hm. apply keeps_zoom with (Q := Q); [exact Hm|done|done]. Qed.

Lemma keeps_event {A} (m : js Node A) : (∀ n, node_step n (m n).1) → tools_keep (on_node m).
Proof. intros Hm. apply keeps_on_node. intros n. apply kept_step, Hm. Qed.

Lemma keeps_config name command args :
  (name, command) ∈ config_commands → Forall (λ a, a ≠ []) args → tools_keep (do_config command args).
Proof.
  intros Hc Ha. unfold do_config. apply keeps_bind; [|intros v; apply keeps_console].
  apply keeps_on_node. by eapply kept_command.
Qed.

Lemma keeps_doMsg a : tools_keep (doMsg a).
Proof.
  assert (∀ d p h, tools_keep (in_sockets (Runtime.send Client d p h))) as Hsend
    by (intros d p h; apply keeps_on_node, kept_sockets).
  unfold doMsg, UdpClient_send.
  repeat first [apply Hsend | apply (keeps_setting Q) | apply (keeps_print Q)
               | apply keeps_bind; [|intros ?] | apply keeps_lift | apply keeps_ret | case_match].
Qed.

Lemma keeps_exit : tools_keep process_exit.
Proof. apply keeps_bind; [by intros t|intros ?; apply keeps_throw]. Qed.

Lemma keeps_mdns a : tools_keep (doMdns_command a).
Proof.
  unfold doMdns_command. case_match; [apply keeps_ret|]. apply keeps_bind; [apply keeps_print|].
  intros ?. apply keeps_event. intros n. apply node_step_mdns.
Qed.

Lemma keeps_pase a : tools_keep (doPase_command a).
Proof.
  unfold doPase_command. case_match; [apply keeps_ret|]. apply keeps_bind; [apply keeps_lift|].
  intros ?. apply keeps_bind; [apply keeps_lift|]. intros ?. apply keeps_event. intros n.
  apply node_step_pase.
Qed.

Lemma keeps_handlers now :
  Forall (λ e, ∀ args, Forall (λ a, a ≠ []) args → tools_keep (e.2 args)) (handlers now).
Proof.
  assert (∀ i name command, config_commands !! i = Some (name, command) → ∀ args,
    Forall (λ a, a ≠ []) args → tools_keep (do_config command args)) as Hc
    by (intros i name command Hi args; by eapply keeps_config, list_elem_of_lookup_2).
  unfold handlers. repeat (apply Forall_cons; split); [..|by apply Forall_nil]; cbn [snd].
  - intros args _. unfold doHelp. keeps_steps.
  - intros args _. unfold doConfig, dump. keeps_steps.
  - intros args _. unfold doCrypto. keeps_steps.
  - by apply (Hc 0%nat "dacpriv"%string).
  - by apply (Hc 1%nat "dacpub"%string).
  - by apply (Hc 2%nat "dac"%string).
  - intros args _. destruct (parse_exchange args). unfold doExchange. keeps_steps.
  - intros args _. unfold doExit. apply keeps_bind; [apply keeps_print|intros ?; apply keeps_exit].
  - by apply (Hc 3%nat "fabricid"%string).
  - by apply (Hc 4%nat "key"%string).
  - intros args _. unfold doLog. keeps_steps.
  - by apply (Hc 5%nat "loglevel"%string).
  - intros args _. apply keeps_mdns.
  - intros args _. apply keeps_doMsg.
  - by apply (Hc 6%nat "nodeid"%string).
  - by apply (Hc 7%nat "nodenum"%string).
  - intros args _. apply keeps_pase.
  - by apply (Hc 8%nat "port"%string).
  - intros args _. destruct (parse_session args) as [[]]. unfold doSession, show_session. keeps_steps.
  - intros args _. unfold doTlv. keeps_steps.
  - intros args _. apply keeps_trace.
  - by apply (Hc 9%nat "tracelevel"%string).
  - intros args _. destruct (parse_x509 args) as [[]]. unfold doX509. keeps_steps.
Qed.

Lemma keeps_line now text : tools_keep (Shell_onReadLine now text).
Proof.
  unfold Shell_onReadLine. apply keeps_bind; [|intros ?; apply keeps_console].
  destruct (Nat.eqb_spec (length (trim text)) 0) as [|Hl]; [apply keeps_ret|].
  destruct (find_handler now (hd [] (split (trim text)))) as [h|] eqn:E; [|apply keeps_print].
  unfold find_handler in E. apply fmap_Some in E as ([i [name h']] & Hf & ->).
  apply list_find_Some in Hf as (Hi & _ & _). pose proof (keeps_handlers now) as Hh.
  rewrite Forall_lookup in Hh. apply keeps_bind; [|intros ?; apply keeps_print].
  apply (Hh _ _ Hi), split_trim_nonempty. by destruct (trim text).
Qed.

Lemma keeps_react e : tools_keep (react e).
Proof.
  destruct e as [buf peer|t|i seed|i seed|qs i|now text|]; cbn [react].
  - intros t. unfold cli_receive. revert t. 
    assert (∀ o, tools_keep (on_node (node_receive buf peer) ;;
      u ← js_lift (isUnencrypted (Message_new (Some buf) None (Some peer)));
      if u : bool then mret tt else msg ← js_lift o; onMsg msg)) as H; [|intros t; apply H].
    intros o. apply keeps_bind; [apply keeps_event; intros n; apply node_step_receive|intros ?].
    unfold onMsg. keeps_steps.
  - apply keeps_event. intros n. apply node_step_timer.
  - apply keeps_event. intros n. apply node_step_resume.
  - apply keeps_event. intros n. apply node_step_csr.
  - apply keeps_event. intros n. apply node_step_query.
  - apply keeps_line.
  - unfold Shell_onClose. apply keeps_bind; [apply keeps_print|intros ?; apply keeps_exit].
Qed.

Lemma keeps_run t t' : rtc cli_step t t' → Q (tl_node t) → Q (tl_node t').
Proof.
  induction 1 as [|t1 t2 t3 H _ IH]; [done|]. intros Ht. apply IH.
  destruct H as [e t _]. by apply keeps_react.
Qed.
End kept.
End keeping.

(** ** Lemmas: lines *)
Section lines.
Context `{HA : Aead} `{HK : Kdf} `{HS : Spake} `{HE : Ecdsa} `{HX : X509} `{HY : !Yargs}.
Context `{HL : LocalStorage} `{HP : Pino}.

(** The command list that [help] prints names the handlers. *)
Lemma handler_names now : (handlers now).*1 = theCommandList.*1.
Proof. reflexivity. Qed.

(** Every command is found under its name, and under no other. *)
Lemma find_handler_named now name h :
  (name, h) ∈ handlers now → find_handler now (js_str name) = Some h.
Proof.
  unfold handlers. rewrite !elem_of_cons, elem_of_nil. intros Hn.
  repeat (destruct Hn as [Hn|Hn]; [injection Hn as -> ->; reflexivity|]). done.
Qed.

Lemma console_run l t : console_log l t = (show [l] t, Ret tt).
Proof. done. Qed.

Lemma line_blank now text t :
  trim text = [] → Shell_onReadLine now text t = (show [Prompt] t, Ret tt).
Proof. intros Ht. unfold Shell_onReadLine. by rewrite Ht. Qed.

Lemma line_unknown now text t :
  trim text ≠ [] → find_handler now (hd [] (split (trim text))) = None →
  Shell_onReadLine now text t
  = (show [Text_ (js_str "Error: command not found"); Prompt] t, Ret tt).
Proof.
  intros Ht Hf. unfold Shell_onReadLine. rewrite Hf. destruct (trim text) as [|u s]; [done|].
  cbn [length Nat.eqb]. by rewrite print_bind, console_run, show_show, app_nil_r.
Qed.

Lemma line_command now text t t' h o :
  trim text ≠ [] → find_handler now (hd [] (split (trim text))) = Some h →
  h (split (trim text)) t = (t', o) →
  Shell_onReadLine now text t
  = match o with
    | Ret _ => (show [Text_ (js_str "Done"); Prompt] t', Ret tt)
    | Throw e => (t', Throw e)
    end.
Proof.
  intros Ht Hf Hh. unfold Shell_onReadLine. rewrite Hf. destruct (trim text) as [|u s]; [done|].
  cbn [length Nat.eqb]. unfold mbind, js_bind. rewrite Hh. destruct o as [[]|e]; [|done].
  by rewrite print_run, console_run, show_show, app_nil_r.
Qed.

(** One option with two names: the control flag of the message is the lowest bit of its
    counter. *)
Lemma control_flag_is_counter {HYL : YargsLaws HY} args own sid ctr xid src dst b :
  msg_asked own (parse_msg args) sid ctr xid src dst → ma_counter (parse_msg args) = Some (NInt ctr) →
  reads_as (parse_msg args) sid ctr xid src dst b →
  Cflag (Message_new (Some b) None None) = Ret (Z.land ctr 1 =? 1).
Proof.
  intros _ Hc (_ & _ & _ & _ & Hf & _). rewrite aliases_agree in Hc. by rewrite Hc in Hf.
Qed.
End lines.

(** ** Theorems *)
Section theorems.
Context `{HA : Aead} `{HK : Kdf} `{HS : Spake} `{HE : Ecdsa} `{HX : X509} `{HY : !Yargs}.
Context `{HL : LocalStorage} {HLL : LocalStorageLaws HL} `{HP : Pino} {HPL : PinoLaws HP}.
Hypothesis valid_key : ec_valid TEST_DAC_PRIVKEY = true.

#[local] Instance node_ok_kept : KeptByNode node_ok.
Proof.
  split.
  - intros n n' Hs Hn. by apply (node_step_ok n).
  - intros m. apply node_in_pase; [intros R HR; apply keeps_in_em, kept_random|]. auto with keeps.
  - intros name command args Hc Ha. apply node_in_process. by eapply keeps_config_command.
Qed.

#[local] Instance targets_kept t : KeptByNode (λ n, targets t (nd_discovery n)).
Proof.
  split.
  - intros n n' Hs Hn. by eapply targets_step.
  - intros m n Hn. by apply targets_zoom.
  - intros name command args _ _ n Hn. by apply targets_zoom.
Qed.
(** In every state the process with the shell reaches, from a start on an empty
    storage or on the one of an earlier run, by datagrams, timers, jobs that resume, DNS-SD
    queries and lines typed into the shell in any order, exceptions included: the tables of
    sessions and exchanges are consistent, every PASE session that waits has exactly its
    timer, the store agrees with the storage, and every waiting CSR job belongs to an
    exchange that exists.  The target that discovery advertises is the one of the start,
    also after a command changed the node id or the fabric id. *)
Theorem process_invariant (st : storage) (level : jsstr) (interfaces : list (jsstr * option jsstr))
    (r : runtime) (args : list jsstr) (fresh : buffer) (tr : Tracer.Tracer) (t : Tools) :
  storage_ok st → known_level level = true → args_ok args →
  rtc cli_step (Tools_ (node_main args fresh (Node_new st level interfaces r)).1 [] tr false) t →
  let n := tl_node t in
  (em_ok (w_em (nd_pase n)) ∧ timers_ok (nd_pase n) ∧ persisted (nd_process n) ∧
   jobs_ok (w_em (nd_pase n)) (nd_csr_jobs n)) ∧
  mdnsTarget (nd_discovery n) =
    store_mdnsTarget (store (store_init fresh (Process_new st level)).1).
Proof.
  intros Hst Hl Ha Hr. destruct (node_start valid_key st level interfaces r args fresh Hst Hl Ha) as [Hn Ht].
  split; [|exact (keeps_run (λ n, targets _ (nd_discovery n)) _ _ Hr Ht)].
  assert (node_ok (tl_node t)) as ([? ?] & ? & ?); [|by split_and!].
  by apply (keeps_run node_ok _ _ Hr).
Qed.
End theorems.

(** A node is started, gets another node id, shows its sessions, sends a message, is asked
    for, and exits. *)
Definition demo_shell (l : list cli_event) : Tools :=
  foldl (λ t e, (react e t).1) (Tools_ demo_start [] (Tracer.Tracer_new 7 3) false) l.

(** No event of the list but the last makes the process exit. *)
Fixpoint stays (t : Tools) (l : list cli_event) : bool :=
  match l with [] => true | e :: l' => negb (exited t) && stays (react e t).1 l' end.

Lemma stays_run l t : stays t l = true → rtc cli_step t (foldl (λ t e, (react e t).1) t l).
Proof.
  revert t. induction l as [|e l IH]; intros t; cbn; [done|].
  intros [Ht Hl]%andb_prop. apply negb_true_iff in Ht.
  eapply rtc_l; [by apply (cli_react e)|by apply IH].
Qed.

Definition demo_events : list cli_event :=
  [Line_ 4 (js_str " nodeid 7"); Line_ 4 (js_str "session"); Line_ 5 (js_str "msg");
   Query_ [Question MDNS_DOMAIN_OPERATIONAL "PTR"] 0; Close_].

Lemma process_invariant_witness :
  let n := tl_node (demo_shell demo_events) in
  (em_ok (w_em (nd_pase n)) ∧ timers_ok (nd_pase n) ∧ persisted (nd_process n) ∧
   jobs_ok (w_em (nd_pase n)) (nd_csr_jobs n)) ∧
  mdnsTarget (nd_discovery n) =
    store_mdnsTarget (store (store_init [Byte.x0a]
      (Process_new (∅ : gmap string jsstr) (js_str "info"))).1).
Proof.
  assert (ec_valid TEST_DAC_PRIVKEY = true) as Hk by (vm_compute; reflexivity).
  apply (process_invariant (HL := toy_storage) (HP := toy_pino) Hk ∅ (js_str "info")
           [(js_str "en0", Some (js_str "fe80::1"))] demo_runtime [js_str "1"] [Byte.x0a]
           (Tracer.Tracer_new 7 3)).
  - left. intros k. exact (lookup_empty (M := gmap string) k).
  - vm_compute. reflexivity.
  - vm_compute. reflexivity.
  - apply stays_run. vm_compute. reflexivity.
Defined.

(** What the shell printed meanwhile *)
Example demo_printed :
  printed (demo_shell (take 2 demo_events))
  = [Text_ (js_str "0000000000000007"); Text_ (js_str "Done"); Prompt;
     Text_ (js_str "__SECURE SESSIONS__"); InspectSessions [];
     Text_ (js_str "__UNSECURED SESSIONS__"); InspectSessions []; Text_ (js_str "Done"); Prompt].
Proof. vm_compute. reflexivity. Qed.
