(* ===== verification/EndToEnd.v ===== *)
(** * From a request on the wire to the reply on the wire

    What a peer with an open session gets from the node when it sends it an encrypted
    request: a read request, a command of the general commissioning cluster, an
    attestation request, a CSR request; through the message layer (SecureMessage.v), the
    Interaction Model (ImTheorems.v) and back.  NocTheorems.v adds the NOC command. *)
From S2P Require Import Prelude JsNumber JsString TlvType TlvElement TlvReader Aead MsgCodec.
From S2P Require Import TlvCodec Message.
From S2P Require Import MessageTheorems Runtime SessionCryptoContext Session SessionManager Exchange.
From S2P Require Import ExchangeManager MessagingFacts MessagingTheorems SecureMessage Spake Pase.
From S2P Require Import PaseInvariant ImConst ImCommand Ecdsa ClusterServers InteractionModel ImSpec ImFacts.
From S2P Require Import ImTheorems JsValue Store Discovery Node.
From S2P Require Import Certificate Clusters ExampleCerts TlvFacts CommandFacts.

(** A session open for both directions. *)
Record open_session (m : ExchangeManager) (id : Z) (sid : nat) (s : Session) (i2r r2i : buffer)
    : Prop := {
  os_found : getSecureSession id (em_sessions m) = Some sid;
  os_session : sessions (em_sessions m) !! sid = Some s;
  os_id : 0 < id < 65536;
  os_responder : _initiator s = false;
  os_counter : fits 4 (_messageCounter s);
  os_i2r : session_key s kI2RKey = Ret i2r;
  os_r2i : session_key s kR2IKey = Ret r2i;
  os_sizes : blen i2r = key_size ∧ blen r2i = key_size }.

Section messages.
Context `{HA : Aead} {HL : AeadLaws HA}.

Lemma im_message_layout opcode payload : fits 1 opcode →
  im_message opcode payload
  = Ret (set_buffer (Message_new None None None)
           (secure_message 0 0 0 opcode 0 IM_PROTOCOL_ID payload)).
Proof.
  intros Ho. unfold im_message.
  change (Message_new None None None) with
    (set_buffer (Message_new None None None) (secure_message 0 0 0 0 0 0 [])) at 1.
  rewrite set_ProtocolId_at by done. cbn [mbind outcome_bind].
  rewrite set_ProtocolOpcode_at by done. cbn [mbind outcome_bind]. unfold set_AppPayload.
  cbn [_buffer set_buffer]. unfold secure_message. by rewrite <- !app_assoc, app_nil_l.
Qed.

(** The exchange [x] can answer a request: it was opened by a message with counter [ctr], and
    its session can send to the peer. *)
Record answering_on (m : ExchangeManager) (x sid : nat) (id : Z) (s : Session) (r2i : buffer)
    (peer : PeerInfo) (xid ctr : Z) (reliable : bool) : Prop := {
  an_exchange : exchange_heap m !! x = Some (answering sid xid reliable ctr);
  an_session : sessions (em_sessions m) !! sid = Some s;
  an_send : can_send s id r2i false peer;
  an_counter : fits 4 ctr;
  an_xid : fits 2 xid }.

(** What it sends *)
Lemma answer_secure m x sid id s r2i peer xid ctr reliable opcode payload :
  answering_on m x sid id s r2i peer xid ctr reliable → fits 1 opcode → one_message payload →
  ∃ d m2, im_send x opcode payload m = (m2, Ret tt) ∧
    sent (sm_runtime (em_sessions m2)) = sent (sm_runtime (em_sessions m)) ++ [d] ∧
    goes_to d s peer ∧
    encrypt (secure_message id (_messageCounter s) (sent_flags false reliable reliable) opcode xid
               IM_PROTOCOL_ID ((if reliable then le_bytes 4 ctr else []) ++ payload)) r2i
    = Ret (dg_buf d).
Proof.
  intros [He Hs Hcs Hctr Hx] Ho Hl.
  destruct (exchange_send_secure (answering sid xid reliable ctr) (em_sessions m) s
    (Message_new None None None) opcode IM_PROTOCOL_ID payload id r2i peer)
    as (d & Hd & Hto & Hsend); [done..|].
  exists d. eexists. split_and!; [|idtac|done|exact Hd].
  - unfold im_send. rewrite im_message_layout, js_bind_lift by done. unfold send_on.
    rewrite (js_bind_eq _ _ m m (answering sid xid reliable ctr)).
    + unfold in_sessions, zoom. by rewrite Hsend.
    + unfold get_exchange. by rewrite He.
  - done.
Qed.

(** A session of the table that has the id of a message *)
Lemma found_peer_id sm id sid s :
  getSecureSession id sm = Some sid → sessions sm !! sid = Some s →
  is_number (_peerSessionId s) id = true.
Proof.
  unfold getSecureSession. intros Hf Hs. destruct (list_find _ _) as [[i y]|] eqn:E; [|done].
  apply list_find_Some in E as (_ & E & _). cbn in Hf. injection Hf as ->.
  unfold peer_id_is in E. by rewrite Hs in E.
Qed.

(** The exchange that a request opens can answer it. *)
Lemma answering_received m id sid s i2r r2i peer ctr xid reliable time r :
  open_session m id sid s i2r r2i → fits 4 ctr → fits 2 xid →
  answering_on (after_receive m (with_session sid (heard peer ctr time s) r (em_sessions m))
                  (answering sid xid reliable ctr))
    (length (exchange_heap m)) sid id (heard peer ctr time s) r2i peer xid ctr reliable.
Proof.
  intros [Hf Hs Hid Hi Hc Hi2r Hr2i [_ Hk]] Hctr Hx. split; try done.
  - cbn. by rewrite lookup_app_r, Nat.sub_diag by done.
  - by eapply with_session_lookup.
  - split; try done; [exact (found_peer_id _ _ _ _ Hf Hs)| |lia].
    unfold fits. change (256 ^ Z.of_nat 2) with 65536. lia.
Qed.
End messages.

Section node.
Context `{HA : Aead} `{HK : Kdf} `{HS : Spake} `{HE : Ecdsa} `{HX : X509}.
Context `{HT : LocalStorage} `{HP : Pino} {HL : AeadLaws HA}.

Definition node_sent (n : Node) : list datagram :=
  sent (sm_runtime (em_sessions (w_em (nd_pase n)))).

Lemma in_im_eq {A} (f : js ImWorld A) n w r :
  f (im_view n) = (w, r) → in_im f n = (set_im_view w n, r).
Proof. intros H. unfold in_im, zoom. by rewrite H. Qed.

(** A message of the Interaction Model through the node, up to its handler. *)
Lemma node_receive_im n buf peer m1 x msg opcode :
  receive buf peer (w_em (nd_pase n)) = (m1, Ret (ToProtocol IM_PROTOCOL_ID x msg)) →
  ProtocolOpcode msg = Ret opcode →
  node_receive buf peer n
  = in_im (im_onProtocolMessage x msg) (set_nd_pase (set_em m1 (nd_pase n)) n).
Proof.
  intros Hr Ho. unfold node_receive.
  erewrite js_bind_eq; [|unfold in_pase, in_em, zoom; by rewrite Hr]. cbn [fst snd node_deliver].
  done.
Qed.

(** A client in the initiator role that holds the key gets from the datagram [d] a message
    of the Interaction Model, on the exchange [xid] and with the counter [ctr]. *)
Definition client_gets (d : datagram) (r2i : buffer) (xid ctr : Z) (acknowledges : bool)
    (opcode : Z) (payload : buffer) : Prop :=
  ∀ client, _initiator client = true → session_key client kR2IKey = Ret r2i →
  ∃ reply, decryptMessage client (Message_new (Some (dg_buf d)) (Some (dg_buf d)) None)
           = Ret reply ∧
    ProtocolId reply = Ret IM_PROTOCOL_ID ∧ ProtocolOpcode reply = Ret opcode ∧
    ExchangeId reply = Ret xid ∧ Iflag reply = Ret false ∧ Aflag reply = Ret acknowledges ∧
    MessageCounter reply = Ret ctr ∧ AppPayload reply = Ret payload.

Lemma client_reads d r2i id xid ctr reliable opcode ack payload :
  encrypt (secure_message id ctr (sent_flags false reliable reliable) opcode xid IM_PROTOCOL_ID
             (ack ++ payload)) r2i = Ret (dg_buf d) →
  blen ack = (if reliable then 4 else 0) →
  fits 2 id → id ≠ 0 → fits 4 ctr → fits 1 opcode → fits 2 xid → blen r2i = key_size →
  client_gets d r2i xid ctr reliable opcode payload.
Proof.
  intros Hd Ha Hid H0 Hc Ho Hx Hk client Hci Hck. eexists. split.
  - eapply decrypt_wire; [by apply arrives_sealed|done|done|by rewrite Hci].
  - assert (fits 1 (sent_flags false reliable reliable)) as Hfl by apply sent_flags_fits.
    split_and!.
    + by eapply secure_ProtocolId.
    + by eapply secure_ProtocolOpcode.
    + by eapply secure_ExchangeId.
    + unfold Iflag. erewrite secure_flag by done. by destruct reliable.
    + unfold Aflag. erewrite secure_flag by done. by destruct reliable.
    + by eapply secure_MessageCounter.
    + eapply secure_AppPayload with (ack := ack); try done. by destruct reliable.
Qed.

(** A peer's request to the Interaction Model: [buf] is the encrypted message that opens
    the exchange [xid] on the open session. *)
Record request_on (m : ExchangeManager) (id : Z) (sid : nat) (s : Session) (i2r r2i : buffer)
    (ctr xid : Z) (reliable : bool) (opcode : Z) (payload buf : buffer) : Prop := {
  rq_session : open_session m id sid s i2r r2i;
  rq_fresh : fresh_exchange m sid xid;
  rq_counter : fits 4 ctr;
  rq_exchange : fits 2 xid;
  rq_sealed : encrypt (secure_message id ctr (sent_flags true reliable false) opcode xid
                         IM_PROTOCOL_ID payload) i2r = Ret buf }.

(** Whatever makes it one: the octets [buf] are a request on the open session for a
    receiver that has its keys. *)
Record request_at (m : ExchangeManager) (id : Z) (sid : nat) (s : Session) (i2r r2i : buffer)
    (ctr xid : Z) (reliable : bool) (opcode : Z) (payload buf : buffer) : Prop := {
  ra_session : open_session m id sid s i2r r2i;
  ra_fresh : fresh_exchange m sid xid;
  ra_counter : fits 4 ctr;
  ra_exchange : fits 2 xid;
  ra_arrives : arrives id ctr (sent_flags true reliable false) opcode xid IM_PROTOCOL_ID
                 payload buf i2r }.

Lemma request_on_at m id sid s i2r r2i ctr xid reliable opcode payload buf :
  request_on m id sid s i2r r2i ctr xid reliable opcode payload buf →
  request_at m id sid s i2r r2i ctr xid reliable opcode payload buf.
Proof.
  intros [Hs Hf Hc Hx Hb]. split; try done. apply arrives_sealed; [done|apply (os_sizes _ _ _ _ _ _ Hs)].
Qed.

(** Exceptions that asynchronous functions end with, behind the answer *)
Definition reject_all (l : list js_error) (w : ImWorld) : ImWorld :=
  set_im_rejections (im_rejections w ++ l) w.

(** The state in which the handler runs: the exchange [x] is on the session, which has the
    keys it had; the store's key and the jobs are those of the node. *)
Record serving (n : Node) (sid : nat) (s : Session) (x : nat) (w : ImWorld) : Prop := {
  sv_exchange : ∃ e s', exchange_heap (im_em w) !! x = Some e ∧ ex_session e = sid ∧
    sessions (em_sessions (im_em w)) !! sid = Some s' ∧ cryptoContext s' = cryptoContext s;
  sv_key : DaPrivateKey w = device_key (nd_process n);
  sv_jobs : csr_jobs w = nd_csr_jobs n }.

(** A request through the message layer: its handler runs in a state in which the exchange
    it opened can answer. *)
Lemma request_received n id sid s i2r r2i ctr xid reliable opcode payload buf peer :
  let m := w_em (nd_pase n) in
  let x := length (exchange_heap m) in
  em_ok m → request_at m id sid s i2r r2i ctr xid reliable opcode payload buf → fits 1 opcode →
  ∃ msg m1 s1,
    node_receive buf peer n
    = in_im (im_onProtocolMessage x msg) (set_nd_pase (set_em m1 (nd_pase n)) n) ∧
    ProtocolOpcode msg = Ret opcode ∧ AppPayload msg = Ret payload ∧
    answering_on m1 x sid id s1 r2i peer xid ctr reliable ∧
    cryptoContext s1 = cryptoContext s ∧ _messageCounter s1 = _messageCounter s ∧
    _transport s1 = _transport s ∧ sent (sm_runtime (em_sessions m1)) = sent (sm_runtime (em_sessions m)).
Proof.
  intros m x Hm [Hos Hfresh Hctr Hx Hbuf] Ho.
  pose proof Hos as [Hf Hs Hid Hi Hc Hi2r Hr2i [Hk1 Hk2]].
  assert (fits 2 id) as Hfid by (unfold fits; change (256 ^ Z.of_nat 2) with 65536; lia).
  assert (receives_on (em_sessions m) id sid s i2r) as Hro
    by (split; try done; [lia|by rewrite Hi]).
  pose proof (receive_secure m buf i2r payload peer sid s id ctr opcode xid IM_PROTOCOL_ID reliable
    Hm Hro Hfresh Hctr Ho Hx ltac:(done) Hbuf) as Hr.
  cbn zeta in Hr. set (msg := set_buffer _ _) in Hr. set (m1 := after_receive _ _ _) in Hr.
  assert (fits 1 (sent_flags true reliable false)) as Hfl by apply sent_flags_fits.
  assert (ProtocolOpcode msg = Ret opcode) as Hop by by eapply secure_ProtocolOpcode.
  exists msg, m1, (heard peer ctr (now (sm_runtime (em_sessions m))) s).
  split; [by apply (node_receive_im n buf peer m1 _ msg opcode Hr Hop)|]. split; [done|].
  split; [|by split; [eapply answering_received|]].
  by eapply (secure_AppPayload id ctr (sent_flags true reliable false)) with (ack := []);
    try reflexivity; destruct reliable.
Qed.

Lemma answering_serving n sid id s s1 r2i peer xid ctr reliable x m1 :
  answering_on m1 x sid id s1 r2i peer xid ctr reliable → cryptoContext s1 = cryptoContext s →
  serving n sid s x (im_view (set_nd_pase (set_em m1 (nd_pase n)) n)).
Proof. intros [He Hs _ _ _] Hc. split; [|done..]. by exists (answering sid xid reliable ctr), s1. Qed.

(** What the client reads from a datagram that the exchange sends *)
Lemma answer_gets m x sid id s r2i peer xid ctr reliable opcode payload d :
  answering_on m x sid id s r2i peer xid ctr reliable → fits 1 opcode →
  encrypt (secure_message id (_messageCounter s) (sent_flags false reliable reliable) opcode xid
             IM_PROTOCOL_ID ((if reliable then le_bytes 4 ctr else []) ++ payload)) r2i
  = Ret (dg_buf d) →
  client_gets d r2i xid (_messageCounter s) reliable opcode payload.
Proof.
  intros [_ _ [] _ Hx] Ho Hd. eapply client_reads; [exact Hd|by destruct reliable|done..].
Qed.

(** A handler that answers with one message, and then has nothing to do with the messages:
    the node sends the answer to the peer. *)
Lemma request_answered_then n id sid s i2r r2i ctr xid reliable opcode payload buf peer
    opcode' payload' (l : list js_error) :
  let m := w_em (nd_pase n) in
  em_ok m → request_at m id sid s i2r r2i ctr xid reliable opcode payload buf →
  fits 1 opcode → fits 1 opcode' → one_message payload' →
  (∀ x msg w, serving n sid s x w → ProtocolOpcode msg = Ret opcode → AppPayload msg = Ret payload →
     im_onProtocolMessage x msg w
     = (in_exchanges (im_send x opcode' payload') ;; js_modify (reject_all l)) w) →
  ∃ n' d, node_receive buf peer n = (n', Ret tt) ∧
    node_sent n' = node_sent n ++ [d] ∧ goes_to d s peer ∧
    nd_process n' = nd_process n ∧ nd_discovery n' = nd_discovery n ∧
    nd_csr_jobs n' = nd_csr_jobs n ∧ nd_im_rejections n' = nd_im_rejections n ++ l ∧
    rejections (nd_pase n') = rejections (nd_pase n) ∧
    client_gets d r2i xid (_messageCounter s) reliable opcode' payload'.
Proof.
  intros m Hm Hq Ho Ho' Hl Him.
  destruct (request_received n id sid s i2r r2i ctr xid reliable opcode payload buf peer Hm Hq Ho)
    as (msg & m1 & s1 & Hr & Hop & Hpay & Han & Hcc & Hcnt & Htr & Hsame).
  destruct (answer_secure m1 _ sid id s1 r2i peer xid ctr reliable opcode' payload' Han Ho' Hl)
    as (d & m2 & Hsend & Hsent & Hto & Hd).
  rewrite Hr. eexists _, d. split.
  { unfold in_im, zoom. rewrite Him; [|by eapply answering_serving|done|done].
    unfold mbind, js_bind, in_exchanges, zoom.
    change (im_em (im_view (set_nd_pase (set_em m1 (nd_pase n)) n))) with m1. by rewrite Hsend. }
  rewrite Hsame in Hsent. rewrite <- Hcnt. unfold goes_to in *. rewrite <- Htr.
  split; [exact Hsent|]. split; [done|]. do 5 (split; [done|]). by eapply answer_gets.
Qed.

Lemma request_answered n id sid s i2r r2i ctr xid reliable opcode payload buf peer
    opcode' payload' :
  let m := w_em (nd_pase n) in
  em_ok m → request_at m id sid s i2r r2i ctr xid reliable opcode payload buf →
  fits 1 opcode → fits 1 opcode' → one_message payload' →
  (∀ x msg w, ProtocolOpcode msg = Ret opcode → AppPayload msg = Ret payload →
     im_onProtocolMessage x msg w = in_exchanges (im_send x opcode' payload') w) →
  ∃ n' d, node_receive buf peer n = (n', Ret tt) ∧
    node_sent n' = node_sent n ++ [d] ∧ goes_to d s peer ∧
    nd_process n' = nd_process n ∧ nd_discovery n' = nd_discovery n ∧
    client_gets d r2i xid (_messageCounter s) reliable opcode' payload'.
Proof.
  intros m Hm Hq Ho Ho' Hl Him.
  destruct (request_answered_then n id sid s i2r r2i ctr xid reliable opcode payload buf peer
    opcode' payload' []) as (n' & d & Hr & Hs & Hto & H1 & H2 & _ & _ & _ & Hc); try done.
  - intros x msg w _ Hop Hpay. rewrite Him by done. unfold mbind, js_bind, reject_all.
    destruct (in_exchanges _ w) as [w' [[]|e]]; [|done]. unfold js_modify. rewrite app_nil_r.
    by destruct w'.
  - by exists n', d.
Qed.

(** A read request that arrives on an open session *)
Lemma read_reply n l rs id ctr xid sid s i2r r2i buf peer reliable :
  let m := w_em (nd_pase n) in
  em_ok m → Forall attribute_request_ok l → mapM reports l = Ret rs →
  request_at m id sid s i2r r2i ctr xid reliable ReadRequest (elems_bytes (read_request l)) buf →
  one_message (elems_bytes (report_data (concat rs))) →
  ∃ n' d, node_receive buf peer n = (n', Ret tt) ∧
    node_sent n' = node_sent n ++ [d] ∧ goes_to d s peer ∧
    nd_process n' = nd_process n ∧ nd_discovery n' = nd_discovery n ∧
    client_gets d r2i xid (_messageCounter s) reliable ReportData
      (elems_bytes (report_data (concat rs))).
Proof.
  intros m Hm Hl Hrs Hq Hone.
  eapply request_answered; [done|exact Hq|done|done|done|]. intros x msg w Ho Hp.
  unfold im_onProtocolMessage. rewrite Ho, js_bind_lift.
  transitivity (onReadRequest x msg w); [done|]. by rewrite (onReadRequest_spec l), Hrs.
Qed.

(** C1: a peer with an open session that sends a read request, encrypted, on a new exchange,
    gets one datagram back, at the address the request came from: a message that only
    the holder of the session's key for that direction can read, on the exchange of the
    request, acknowledging it when it asked for that, whose payload is the ReportData
    structure with exactly the reports the request asks for, in its order, as long as
    they are within what the cipher takes in one message.  The store and discovery do not
    change. *)
Theorem read_answered (n : Node) (l : list attribute_request) (rs : list (list elem))
    (id ctr xid : Z) (sid : nat) (s : Session) (i2r r2i buf : buffer) (peer : PeerInfo)
    (reliable : bool) :
  let m := w_em (nd_pase n) in
  let reply := elems_bytes (report_data (concat rs)) in
  em_ok m → Forall attribute_request_ok l → mapM reports l = Ret rs →
  request_on m id sid s i2r r2i ctr xid reliable ReadRequest (elems_bytes (read_request l)) buf →
  one_message reply →
  (∃ n' d, node_receive buf peer n = (n', Ret tt) ∧
    node_sent n' = node_sent n ++ [d] ∧ goes_to d s peer ∧
    nd_process n' = nd_process n ∧ nd_discovery n' = nd_discovery n ∧
    client_gets d r2i xid (_messageCounter s) reliable ReportData reply) ∧
  decode_json reply = Ret (JArr (elem_json <$> report_data (concat rs))).
Proof.
  intros m reply Hm Hl Hrs Hq Hone. split; [|by eapply report_data_decodes].
  apply (read_reply n l rs id ctr xid sid s i2r r2i buf peer reliable); [done..|by apply request_on_at|done].
Qed.

(** A request with one command runs that command. *)
Lemma command_run suppress timed c x msg w :
  command_ok c → wide_data c = false →
  ProtocolOpcode msg = Ret CommandRequest →
  AppPayload msg = Ret (elems_bytes (invoke_request suppress timed [c])) →
  im_onProtocolMessage x msg w = command_effect x msg c w.
Proof.
  intros Hc Hw Ho Hp. unfold im_onProtocolMessage. rewrite Ho, js_bind_lift.
  transitivity (onInvokeCommandRequest x msg w); [done|].
  rewrite (onInvokeCommandRequest_spec suppress timed [c]) by (done || by constructor).
  cbn [existsb]. rewrite Hw. cbn [orb js_forEach]. unfold mbind, js_bind.
  by destruct (command_effect x msg c w) as [? [[]|]].
Qed.

(** Responses without data of the request's are short. *)
Lemma blen_uint t z : blen (elem_bytes (uint t z)) <= 10.
Proof.
  cbn [uint elem_bytes prim_payload]. rewrite blen_app, blen_uint_bytes.
  change (blen (header _ (TagContext t))) with 2. unfold width_of_log. repeat case_match; lia.
Qed.

Lemma invoke_response_size t c id l :
  blen (elems_bytes (invoke_response_elems t
    [command_path (cmd_endpoint c) (cmd_cluster c) id; structure 1 l])) <= 80 + blen (elems_bytes l).
Proof.
  pose proof (blen_uint 0 (cmd_endpoint c)). pose proof (blen_uint 1 (cmd_cluster c)).
  pose proof (blen_uint 2 id). unfold elems_bytes, invoke_response_elems, message, command_path, structure.
  cbn [fmap list_fmap concat elem_bytes] in *. unfold header, end_bytes. cbn [tag_bytes].
  autorewrite with js. pose proof (blen_uint 255 1). change (blen (prim_payload (PBool false))) with 0. lia.
Qed.

(** A command whose effect is an answer, with what follows the answer *)
Lemma command_answered n suppress timed c response l id sid s i2r r2i ctr xid reliable buf peer :
  let m := w_em (nd_pase n) in
  em_ok m → command_ok c → wide_data c = false →
  (∀ x msg w, serving n sid s x w →
     AppPayload msg = Ret (elems_bytes (invoke_request suppress timed [c])) →
     command_effect x msg c w = (answer x response ;; js_modify (reject_all l)) w) →
  request_at m id sid s i2r r2i ctr xid reliable CommandRequest
    (elems_bytes (invoke_request suppress timed [c])) buf →
  one_message (elems_bytes response) →
  ∃ n' d, node_receive buf peer n = (n', Ret tt) ∧
    node_sent n' = node_sent n ++ [d] ∧ goes_to d s peer ∧
    nd_process n' = nd_process n ∧ nd_discovery n' = nd_discovery n ∧
    nd_csr_jobs n' = nd_csr_jobs n ∧ nd_im_rejections n' = nd_im_rejections n ++ l ∧
    rejections (nd_pase n') = rejections (nd_pase n) ∧
    client_gets d r2i xid (_messageCounter s) reliable CommandResponse (elems_bytes response).
Proof.
  intros m Hm Hc Hw He Hq Hone.
  eapply request_answered_then; [done|exact Hq|done|done|done|]. intros x msg w Hv Ho Hp.
  rewrite (command_run suppress timed c) by done. by apply He.
Qed.

(** The cluster that serves a command of endpoint 0 *)
Lemma effect_credentials x msg c w : cmd_endpoint c = 0 → cmd_cluster c = 62 →
  command_effect x msg c w = OperationalCredentials_onCommand x msg (path_of c) w.
Proof.
  intros He H62. unfold command_effect. rewrite He, H62.
  change (cluster_class (number 0) (number 62))
    with (Ret (A := option string) (Some "ClusterOperationalCredentialsServer"%string)).
  rewrite js_bind_lift. by change (cluster_handler _) with (Some OperationalCredentialsServer).
Qed.

Lemma effect_commissioning x msg c w response :
  cmd_endpoint c = 0 → cmd_cluster c = 48 → commissioning_response c = Some response →
  command_effect x msg c w = answer x response w.
Proof.
  intros He H48 Hr. unfold command_effect. rewrite He, H48.
  change (cluster_class (number 0) (number 48))
    with (Ret (A := option string) (Some "ClusterGeneralCommissioningServer"%string)).
  rewrite js_bind_lift.
  change (cluster_handler _) with (Some GeneralCommissioningServer). cbn iota. by rewrite Hr.
Qed.

(** An effect without anything behind the answer *)
Lemma answer_only x response w :
  answer x response w = (answer x response ;; js_modify (reject_all [])) w.
Proof.
  unfold mbind, js_bind, reject_all, js_modify. destruct (answer x response w) as [w' [[]|e]]; [|done].
  rewrite app_nil_r. by destruct w'.
Qed.

Lemma commissioning_size c response :
  commissioning_response c = Some response → one_message (elems_bytes response).
Proof.
  intros H. apply one_message_short. unfold commissioning_response in H.
  set (ok := [uint 0 0; Prim (TagContext 1) (PStr [])]) in H.
  assert (blen (elems_bytes ok) = 6) by done. assert (blen (elems_bytes [uint 0 0]) = 3) by done.
  destruct (cmd_id c =? 0); [|destruct (cmd_id c =? 2); [|destruct (cmd_id c =? 4); [|done]]]; simplify_eq.
  - pose proof (invoke_response_size 0 c 1 ok). unfold data_response. lia.
  - pose proof (invoke_response_size 0 c 3 ok). unfold data_response. lia.
  - pose proof (invoke_response_size 1 c (cmd_id c) [uint 0 0]). unfold status_response. lia.
Qed.

(** C2: likewise a command of the general commissioning cluster on endpoint 0: the
    peer gets one CommandResponse, with the response that the command has in
    the cluster, whatever the other fields of the request are. *)
Theorem commissioning_answered (n : Node) (suppress timed : bool) (c : command)
    (response : list elem) (id ctr xid : Z) (sid : nat) (s : Session) (i2r r2i buf : buffer)
    (peer : PeerInfo) (reliable : bool) :
  let m := w_em (nd_pase n) in
  em_ok m → command_ok c → wide_data c = false →
  cmd_endpoint c = 0 → cmd_cluster c = 48 → commissioning_response c = Some response →
  request_on m id sid s i2r r2i ctr xid reliable CommandRequest
    (elems_bytes (invoke_request suppress timed [c])) buf →
  ∃ n' d, node_receive buf peer n = (n', Ret tt) ∧
    node_sent n' = node_sent n ++ [d] ∧ goes_to d s peer ∧
    nd_process n' = nd_process n ∧ nd_discovery n' = nd_discovery n ∧
    client_gets d r2i xid (_messageCounter s) reliable CommandResponse (elems_bytes response).
Proof.
  intros m Hm Hc Hw He H48 Hr Hq.
  destruct (command_answered n suppress timed c response [] id sid s i2r r2i ctr xid reliable buf peer)
    as (n' & d & H1 & H2 & H3 & H5 & H6 & _ & _ & _ & H7);
    [done..| |by apply request_on_at| |by exists n', d].
  - intros x msg w _ _. rewrite <- answer_only. by apply effect_commissioning.
  - by apply (commissioning_size c).
Qed.

(** C31: a peer with an open session that sends an encrypted attestation request gets one
    datagram back: the attestation response with the TLV of certification declaration,
    the nonce of the request and timestamp 0, and a signature by the device attestation key over
    that and the session's attestation challenge.  A verifier with the device's public key
    accepts the signature, provided it came out 64 octets long.  The response has to be
    within what the cipher takes in one message. *)
Theorem attestation_answered `{!EcdsaLaws HE} (n : Node) (suppress timed : bool) (c : command)
    (nonce challenge signature : buffer) (rest : list elem) (keys : SessionCryptoContext)
    (id ctr xid : Z) (sid : nat) (s : Session) (i2r r2i buf : buffer) (peer : PeerInfo)
    (reliable : bool) :
  let m := w_em (nd_pase n) in
  let elements := attestation_elements TEST_CERTIFICATION_DECLARATION nonce in
  em_ok m → command_ok c → wide_data c = false →
  cmd_endpoint c = 0 → cmd_cluster c = 62 → cmd_id c = 0 →
  cmd_data c = octets 0 nonce :: rest → blen nonce <= UINT16_MAX →
  cryptoContext s = Some keys → AttestationChallenge keys = Some challenge →
  Sign (elements ++ challenge) TEST_DAC_PRIVKEY = Ret signature →
  let reply := elems_bytes (data_response c 1 [octets 0 elements; octets 1 signature]) in
  one_message reply →
  request_on m id sid s i2r r2i ctr xid reliable CommandRequest
    (elems_bytes (invoke_request suppress timed [c])) buf →
  (∃ n' d, node_receive buf peer n = (n', Ret tt) ∧
    node_sent n' = node_sent n ++ [d] ∧ goes_to d s peer ∧
    nd_process n' = nd_process n ∧ nd_discovery n' = nd_discovery n ∧
    client_gets d r2i xid (_messageCounter s) reliable CommandResponse reply) ∧
  (blen signature = 64 →
   Verify (elements ++ challenge) signature (ec_public TEST_DAC_PRIVKEY) = true).
Proof.
  intros m elements Hm Hc Hw He H62 H0 Hd Hn Hk Hch Hs reply Hone Hq. split; [|by apply Verify_Sign].
  destruct (command_answered n suppress timed c (data_response c 1 [octets 0 elements; octets 1 signature])
    [] id sid s i2r r2i ctr xid reliable buf peer)
    as (n' & d & H1 & H2 & H3 & H5 & H6 & _ & _ & _ & H7);
    [done..| |by apply request_on_at|exact Hone|by exists n', d].
  intros x msg w [(e & s' & Hx & Hsid & Hs' & Hcc) _ _] Hp.
  rewrite <- answer_only, effect_credentials by done. unfold OperationalCredentials_onCommand.
  change (CommandId (path_of c)) with (number (cmd_id c)). rewrite is_number_number, H0.
  change (0 =? 0) with true. cbn iota.
  apply (attestation_effect suppress timed c [] nonce challenge signature rest); try done.
  - by constructor.
  - exists e, s', keys. subst sid. by rewrite Hcc.
Qed.

(** A CSR job that resumes while its exchange can answer *)
Lemma csr_resumed `{!EcdsaLaws HE} n c x i seed nonce key csr keys challenge store signature
    sid id s r2i peer xid ctr reliable :
  command_ok c → blen nonce <= UINT16_MAX →
  nd_csr_jobs n !! i = Some (CsrJob x (path_of c) (JBuf nonce) key) →
  answering_on (w_em (nd_pase n)) x sid id s r2i peer xid ctr reliable →
  cryptoContext s = Some keys → AttestationChallenge keys = Some challenge →
  device_key (nd_process n) = Some store → ec_csr key seed = Ret csr → blen csr <= UINT16_MAX →
  Sign (nocsr_elements csr nonce ++ challenge) (hex_decode store) = Ret signature →
  one_message (elems_bytes
    (data_response c 5 [octets 0 (nocsr_elements csr nonce); octets 1 signature])) →
  ∃ n' d, in_im (resume_csr i seed) n = (n', Ret tt) ∧
    node_sent n' = node_sent n ++ [d] ∧ goes_to d s peer ∧
    nd_csr_jobs n' = delete i (nd_csr_jobs n) ∧
    client_gets d r2i xid (_messageCounter s) reliable CommandResponse
      (elems_bytes (data_response c 5 [octets 0 (nocsr_elements csr nonce); octets 1 signature])).
Proof.
  intros Hc Hn Hi Han Hk Hch Hst Hcsr Hlen Hsig Hone.
  set (w := im_view n). set (w0 := set_csr_jobs (delete i (nd_csr_jobs n)) w).
  set (response := data_response _ _ _).
  destruct (answer_secure (im_em w0) x sid id s r2i peer xid ctr reliable CommandResponse
    (elems_bytes response) Han ltac:(done) Hone) as (d & m2 & Hsend & Hsent & Hto & Hd).
  assert (challenge_of (im_em w0) x challenge) as Hchal
    by (destruct Han; by exists (answering sid xid reliable ctr), s, keys).
  assert (answer x response w0 = (set_im_em m2 w0, Ret tt)) as Ha
    by (unfold answer, in_exchanges, zoom; by rewrite Hsend).
  assert (resume_csr i seed w = (set_im_em m2 w0, Ret tt)) as Hrun.
  { rewrite (resume_csr_spec c x i seed nonce key csr challenge store signature w); try done.
    change (set_csr_jobs _ _) with w0. unfold im_async. fold response. by rewrite Ha. }
  eexists _, d. split; [unfold in_im, zoom; fold w; by rewrite Hrun|].
  split; [exact Hsent|]. split; [done|]. split; [done|]. by eapply answer_gets.
Qed.

(** C32: a CSR request sends nothing at once: a peer with an open session that sends one,
    encrypted, leaves a job behind whose exchange can answer.  Whenever that job resumes,
    in any later state in which its exchange can still answer, the peer gets one
    datagram: the response with the nonce of the request and a signature by the stored key
    over the elements and the challenge the session has by then, as long as it is within
    what the cipher takes in one message. *)
Theorem csr_answered `{!EcdsaLaws HE} (n : Node) (suppress timed : bool) (c : command)
    (nonce : buffer) (rest : list elem) (id ctr xid : Z) (sid : nat) (s : Session)
    (i2r r2i buf : buffer) (peer : PeerInfo) (reliable : bool) :
  let m := w_em (nd_pase n) in
  em_ok m → command_ok c → wide_data c = false →
  cmd_endpoint c = 0 → cmd_cluster c = 62 → cmd_id c = 4 →
  cmd_data c = octets 0 nonce :: rest → blen nonce <= UINT16_MAX →
  request_on m id sid s i2r r2i ctr xid reliable CommandRequest
    (elems_bytes (invoke_request suppress timed [c])) buf →
  ∃ n1 j s1, node_receive buf peer n = (n1, Ret tt) ∧ node_sent n1 = node_sent n ∧
    nd_csr_jobs n1 = nd_csr_jobs n ++ [j] ∧
    answering_on (w_em (nd_pase n1)) (cj_exchange j) sid id s1 r2i peer xid ctr reliable ∧
    cryptoContext s1 = cryptoContext s ∧ _messageCounter s1 = _messageCounter s ∧
    _transport s1 = _transport s ∧
    ∀ n2 i seed csr s2 keys challenge store signature,
      nd_csr_jobs n2 !! i = Some j →
      answering_on (w_em (nd_pase n2)) (cj_exchange j) sid id s2 r2i peer xid ctr reliable →
      cryptoContext s2 = Some keys → AttestationChallenge keys = Some challenge →
      device_key (nd_process n2) = Some store →
      ec_csr (cj_privateKey j) seed = Ret csr → blen csr <= UINT16_MAX →
      Sign (nocsr_elements csr nonce ++ challenge) (hex_decode store) = Ret signature →
      let reply := elems_bytes (data_response c 5
                     [octets 0 (nocsr_elements csr nonce); octets 1 signature]) in
      one_message reply →
      ∃ n3 d, in_im (resume_csr i seed) n2 = (n3, Ret tt) ∧
        node_sent n3 = node_sent n2 ++ [d] ∧ goes_to d s2 peer ∧
        nd_csr_jobs n3 = delete i (nd_csr_jobs n2) ∧
        client_gets d r2i xid (_messageCounter s2) reliable CommandResponse reply.
Proof.
  intros m Hm Hc Hw He H62 H4 Hd Hn Hq.
  destruct (request_received n id sid s i2r r2i ctr xid reliable CommandRequest _ buf peer Hm
    (request_on_at _ _ _ _ _ _ _ _ _ _ _ _ Hq) ltac:(done))
    as (msg & m1 & s1 & Hr & Hop & Hpay & Han & Hcc & Hcnt & Htr & Hsame).
  set (n0 := set_nd_pase (set_em m1 (nd_pase n)) n) in Hr.
  destruct (csr_request_spec (length (exchange_heap m)) msg suppress timed c [] c nonce rest (im_view n0)
    Hpay ltac:(by constructor) Hd) as (key & w1 & Hrun & Hj & Hsent & _ & Hheap & Hsess).
  assert (im_onProtocolMessage (length (exchange_heap m)) msg (im_view n0) = (w1, Ret tt)) as Him.
  { rewrite (command_run suppress timed c) by done. rewrite effect_credentials by done.
    unfold OperationalCredentials_onCommand. change (CommandId (path_of c)) with (number (cmd_id c)).
    rewrite !is_number_number, H4. cbn [Z.eqb Pos.eqb]. exact Hrun. }
  exists (set_im_view w1 n0), (CsrJob (length (exchange_heap m)) (path_of c) (JBuf nonce) key), s1.
  split; [rewrite Hr; by apply in_im_eq|].
  split; [unfold node_sent; etransitivity; [exact Hsent|exact Hsame]|].
  split; [exact Hj|]. split; [|split_and!; [done..|]].
  - destruct Han as [Hx Hs1 Hsend Hct Hxid]. split; [|idtac|done..].
    + change (exchange_heap (im_em w1) !! length (exchange_heap m)
        = Some (answering sid xid reliable ctr)). by rewrite Hheap.
    + change (sessions (em_sessions (im_em w1)) !! sid = Some s1). by rewrite Hsess.
  - intros n2 i seed csr s2 keys challenge store signature Hi Ha2 Hk Hch Hst Hcsr Hlen Hsig reply Hone.
    by eapply csr_resumed.
Qed.
End node.

(** ** Concrete instances *)

Definition demo_em : ExchangeManager :=
  (in_sessions (newSession (number 3000) (number 3000) true)
     (ExchangeManager_new (SessionManager_new zero_runtime))).1.

Lemma demo_em_ok : em_ok demo_em.
Proof. exact (em_step_ok _ _ (em_new_ok _) (step_new_session _ _ _)). Qed.

Definition demo_open : Session := default (Sess JUndef JUndef None None 0 false 0 true 1 0 0 0 None)
  (sessions (em_sessions demo_em) !! 0%nat).

Definition demo_key (i : nat) : buffer := default [] (test_keys !! i).

Definition demo_end : Node :=
  Nd (Process_new (∅ : gmap string jsstr) []) (Discovery_new []) (PaseWorld_new demo_em) [] [].

Definition demo_peer : PeerInfo := Peer "fe80::2" 5540 Server.

Definition demo_sealed (opcode : Z) (l : list elem) : buffer :=
  match encrypt (secure_message 3000 9 (sent_flags true true false) opcode 77 IM_PROTOCOL_ID
                   (elems_bytes l)) (demo_key kI2RKey) with
  | Ret b => b
  | Throw _ => []
  end.

Lemma demo_request_on opcode l : one_message (elems_bytes l) →
  request_on demo_em 3000 0 demo_open (demo_key kI2RKey) (demo_key kR2IKey) 9 77 true opcode
    (elems_bytes l) (demo_sealed opcode l).
Proof.
  intros Hl. split.
  - by split; try (vm_compute; done); vm_compute.
  - intros y e H. by apply elem_of_nil in H.
  - done.
  - done.
  - unfold demo_sealed. destruct (encrypt_secure (HA := toy_aead) 3000 9 (sent_flags true true false) opcode 77
      IM_PROTOCOL_ID (elems_bytes l) (demo_key kI2RKey)) as (c & ->);
      [vm_compute; done|unfold one_message in Hl; lia|done].
Qed.

Lemma read_answered_witness :
  let buf := demo_sealed ReadRequest (read_request demo_reads) in
  let reply := elems_bytes (report_data (concat demo_reports)) in
  length (concat demo_reports) = 3%nat ∧
  (∃ n' d, node_receive buf demo_peer demo_end = (n', Ret tt) ∧
    node_sent n' = [] ++ [d] ∧ goes_to d demo_open demo_peer ∧
    nd_process n' = nd_process demo_end ∧ nd_discovery n' = nd_discovery demo_end ∧
    client_gets d (demo_key kR2IKey) 77 (_messageCounter demo_open) true ReportData reply) ∧
  decode_json reply = Ret (JArr (elem_json <$> report_data (concat demo_reports))).
Proof.
  split; [reflexivity|].
  apply (read_answered (HL := toy_aead_laws) demo_end demo_reads demo_reports 3000 9 77 0 demo_open
           (demo_key kI2RKey) (demo_key kR2IKey) (demo_sealed ReadRequest (read_request demo_reads))
           demo_peer true).
  - exact demo_em_ok.
  - repeat constructor; unfold id_ok, UINT32_MAX; cbn; lia.
  - vm_compute. reflexivity.
  - apply demo_request_on. vm_compute. reflexivity.
  - vm_compute. reflexivity.
Defined.

Definition demo_command : command := Cmd 0 48 0 [uint 0 60].

Lemma commissioning_answered_witness :
  let buf := demo_sealed CommandRequest (invoke_request false false [demo_command]) in
  ∃ n' d, node_receive buf demo_peer demo_end = (n', Ret tt) ∧
    node_sent n' = [] ++ [d] ∧ goes_to d demo_open demo_peer ∧
    nd_process n' = nd_process demo_end ∧ nd_discovery n' = nd_discovery demo_end ∧
    client_gets d (demo_key kR2IKey) 77 (_messageCounter demo_open) true CommandResponse
      (elems_bytes (data_response demo_command 1 [uint 0 0; Prim (TagContext 1) (PStr [])])).
Proof.
  apply (commissioning_answered (HL := toy_aead_laws) demo_end false false demo_command
           (data_response demo_command 1 [uint 0 0; Prim (TagContext 1) (PStr [])]) 3000 9 77 0
           demo_open (demo_key kI2RKey) (demo_key kR2IKey)
           (demo_sealed CommandRequest (invoke_request false false [demo_command])) demo_peer true).
  - exact demo_em_ok.
  - repeat constructor; unfold id_ok, UINT32_MAX, UINT8_MAX; cbn; lia.
  - vm_compute. reflexivity.
  - reflexivity.
  - reflexivity.
  - reflexivity.
  - apply demo_request_on. vm_compute. reflexivity.
Defined.

Lemma attestation_answered_witness :
  let buf := demo_sealed CommandRequest (invoke_request false false [demo_attestation]) in
  let elements := attestation_elements TEST_CERTIFICATION_DECLARATION demo_nonce in
  (∃ n' d, node_receive buf demo_peer demo_end = (n', Ret tt) ∧
    node_sent n' = [] ++ [d] ∧ goes_to d demo_open demo_peer ∧
    nd_process n' = nd_process demo_end ∧ nd_discovery n' = nd_discovery demo_end ∧
    client_gets d (demo_key kR2IKey) 77 (_messageCounter demo_open) true CommandResponse
      (elems_bytes (data_response demo_attestation 1 [octets 0 elements; octets 1 demo_signature]))) ∧
  (blen demo_signature = 64 →
   Verify (elements ++ demo_challenge) demo_signature (ec_public TEST_DAC_PRIVKEY) = true).
Proof.
  apply (attestation_answered (HL := toy_aead_laws) demo_end false false demo_attestation demo_nonce
           demo_challenge demo_signature [] SessionCryptoContext_new 3000 9 77 0 demo_open
           (demo_key kI2RKey) (demo_key kR2IKey)
           (demo_sealed CommandRequest (invoke_request false false [demo_attestation])) demo_peer true).
  - exact demo_em_ok.
  - repeat constructor; cbn; unfold blen, UINT32_MAX, UINT8_MAX; cbn; lia.
  - reflexivity.
  - reflexivity.
  - reflexivity.
  - reflexivity.
  - reflexivity.
  - unfold blen, UINT16_MAX. cbn. lia.
  - vm_compute. reflexivity.
  - vm_compute. reflexivity.
  - vm_compute. reflexivity.
  - vm_compute. reflexivity.
  - apply demo_request_on. vm_compute. reflexivity.
Defined.

(** A node whose store has the device attestation key *)
Definition demo_keyed : Node :=
  set_nd_process (Proc ∅ (<[F_daPrivateKey := Text (hex_encode TEST_DAC_PRIVKEY)]> PersistantStore_new)
                    [] (Num 1)) demo_end.

Definition demo_csr_elements : buffer := nocsr_elements (alloc 64) demo_nonce.
Definition demo_csr_signature : buffer :=
  match Sign (demo_csr_elements ++ demo_challenge) TEST_DAC_PRIVKEY with
  | Ret b => b
  | Throw _ => []
  end.

Lemma csr_answered_witness :
  let buf := demo_sealed CommandRequest (invoke_request false false [demo_csr]) in
  ∃ n1 n2 d, node_receive buf demo_peer demo_keyed = (n1, Ret tt) ∧ node_sent n1 = [] ∧
    in_im (resume_csr 0 (alloc 32)) n1 = (n2, Ret tt) ∧
    node_sent n2 = [] ++ [d] ∧ goes_to d demo_open demo_peer ∧
    client_gets d (demo_key kR2IKey) 77 (_messageCounter demo_open) true CommandResponse
      (elems_bytes (data_response demo_csr 5
         [octets 0 demo_csr_elements; octets 1 demo_csr_signature])).
Proof.
  intros buf.
  destruct (csr_answered (HL := toy_aead_laws) demo_keyed false false demo_csr demo_nonce [] 3000 9 77 0
              demo_open (demo_key kI2RKey) (demo_key kR2IKey) buf demo_peer true)
    as (n1 & j & s1 & H1 & H2 & H3 & H4 & H5 & H6 & H7 & Hlast).
  - exact demo_em_ok.
  - repeat constructor; cbn; unfold blen, UINT32_MAX, UINT8_MAX; cbn; lia.
  - reflexivity.
  - reflexivity.
  - reflexivity.
  - reflexivity.
  - reflexivity.
  - unfold blen, UINT16_MAX. cbn. lia.
  - apply demo_request_on. vm_compute. reflexivity.
  - assert (n1 = (node_receive buf demo_peer demo_keyed).1) as Hn by by rewrite H1.
    assert (cj_privateKey j = alloc 32) as Hj.
    { assert (cj_privateKey <$> nd_csr_jobs n1 = [alloc 32]) as E by (rewrite Hn; vm_compute; reflexivity).
      rewrite H3 in E. by injection E. }
    destruct (Hlast n1 0%nat (alloc 32) (alloc 64) s1 SessionCryptoContext_new demo_challenge
      (hex_encode TEST_DAC_PRIVKEY) demo_csr_signature) as (n3 & d & Hr & Hs & Hto & _ & Hc).
    + by rewrite H3.
    + exact H4.
    + by rewrite H5.
    + vm_compute. reflexivity.
    + rewrite Hn. vm_compute. reflexivity.
    + rewrite Hj. vm_compute. reflexivity.
    + unfold blen, UINT16_MAX. cbn. lia.
    + vm_compute. reflexivity.
    + vm_compute. reflexivity.
    + rewrite H6 in Hc. assert (node_sent demo_keyed = []) as H0 by reflexivity.
      rewrite H2, H0 in Hs. rewrite H0 in H2. unfold goes_to in Hto. rewrite H7 in Hto.
      exists n1, n3, d. exact (conj H1 (conj H2 (conj Hr (conj Hs (conj Hto Hc))))).
Defined.
