(* ===== verification/CertificateTheorems.v ===== *)
(** * What becomes of a certificate

    The abstract Matter certificate with its TLV elements, what [CertificateTlv.decode]
    makes of its octets, and reading back the text that [Certificate.DerToPem] writes. *)
From stdpp Require Import pretty.
From S2P Require Import ExampleCerts JsValue.
From S2P Require Import Prelude JsNumber JsString TlvType TlvCodec TlvWriter TlvReader TlvParser.
From S2P Require Import TlvElement TlvFacts TlvReaderFacts JsValue SessionManager ImSpec ImFacts.
From S2P Require Import Certificate.
Import Certificate.Certificate Certificate.CertificateTlv.

(** ** Names of tags *)

(** The value of the first entry with the tag. *)
Fixpoint tagged (t : Z) (es : list entry) : option json :=
  match es with
  | [] => None
  | e :: es' => if from_option (λ t', t' =? t) false (tag e) then Some (value e) else tagged t es'
  end.

(** After [mapFields], the entries with a name of the table are those with its tag. *)
Lemma get_mapped (l : list (Z * string)) (t : Z) (name : string) (es : list entry) :
  (list_to_map l : gmap Z string) !! t = Some name →
  negb (t =? 0) && forallb (λ a, negb (String.eqb a.2 name) || (a.1 =? t)) l = true →
  Forall (λ e, tagName e = None) es →
  get (JArr (JObj <$> (map_entry (list_to_map l) <$> es))) name
  = Ret (default JUndef (tagged t es)).
Proof.
  intros Ht [H0 Hl]%andb_prop Hn. cbn [get]. zbool.
  assert (∀ t', (list_to_map l : gmap Z string) !! t' = Some name → t' = t) as Hu.
  { intros t' Ht'%elem_of_list_to_map_2. rewrite forallb_forall in Hl.
    apply list_elem_of_In in Ht'. specialize (Hl _ Ht'). cbn in Hl.
    rewrite String.eqb_refl in Hl. by apply Z.eqb_eq. }
  induction Hn as [|e es He _ IH]; [done|]. cbn [fmap list_fmap find_named tagged].
  set (m := list_to_map l) in *.
  assert (bool_decide (tagName (map_entry m e) = Some name)
          = from_option (λ t', t' =? t) false (tag e)) as ->.
  { unfold map_entry. destruct (tag e) as [t'|]; cbn [from_option].
    2:{ rewrite He. by apply bool_decide_false. }
    destruct (Z.eqb_spec t' 0) as [->|Hne]; [|destruct (m !! t') as [n|] eqn:E; cbn].
    - rewrite He, bool_decide_false by done. symmetry. apply Z.eqb_neq. lia.
    - destruct (Z.eqb_spec t' t) as [->|H]; [apply bool_decide_true; congruence|].
      apply bool_decide_false. intros [= ->]. by apply H, Hu.
    - rewrite He, bool_decide_false by done. symmetry. apply Z.eqb_neq. congruence. }
  destruct (from_option _ false (tag e)); [|exact IH].
  cbn. unfold map_entry. by repeat case_match.
Qed.

(** ** Hexadecimal text of an id *)

Definition hex_upper (z : Z) : jsstr := upper_unit <$> toString_16 z.

(** Reading the text back. *)
Fixpoint read_hex (acc : Z) (s : jsstr) : option Z :=
  match s with
  | [] => Some acc
  | u :: s' => match hex_value u with Some d => read_hex (16 * acc + d) s' | None => None end
  end.

Lemma read_hex_app s1 s2 acc : read_hex acc (s1 ++ s2) = read_hex acc s1 ≫= λ a, read_hex a s2.
Proof.
  revert acc. induction s1 as [|u s1 IH]; intros acc; [done|]. cbn.
  by destruct (hex_value u) as [d|].
Qed.

Lemma hex_value_upper d : 0 <= d < 16 → hex_value (upper_unit (hex_digit d)) = Some d.
Proof. intros ?. unfold hex_value, hex_digit, upper_unit. zcases; try lia; f_equal; lia. Qed.

Lemma read_hex_digits n z :
  0 <= z < 16 ^ Z.of_nat n → read_hex 0 (upper_unit <$> hex_digits n z) = Some z.
Proof.
  revert z. induction n as [|n IH]; intros z Hz.
  - cbn in *. f_equal. lia.
  - rewrite Nat2Z.inj_succ, Z.pow_succ_r in Hz by lia. cbn [hex_digits].
    rewrite fmap_app, read_hex_app, IH.
    2:{ split; [apply Z.div_pos; lia|]. apply Z.div_lt_upper_bound; lia. }
    pose proof (Z.mod_pos_bound z 16 ltac:(lia)). cbn [mbind option_bind fmap list_fmap read_hex].
    rewrite hex_value_upper by done. f_equal. pose proof (Z.div_mod z 16). lia.
Qed.

Lemma hex_length_bound z : 0 <= z → z < 16 ^ Z.of_nat (hex_length z).
Proof.
  intros Hz. destruct (Z.eq_dec z 0) as [->|Hne]; [by vm_compute|].
  unfold hex_length. pose proof (Z.log2_nonneg z) as Hl.
  rewrite Nat2Z.inj_succ, Z2Nat.id by (apply Z.div_pos; lia).
  destruct (Z.log2_spec z ltac:(lia)) as [_ Hs]. eapply Z.lt_le_trans; [exact Hs|].
  change 16 with (2 ^ 4). rewrite <- Z.pow_mul_r by (try lia; pose proof (Z.div_pos (Z.log2 z) 4); lia).
  apply Z.pow_le_mono_r; [lia|]. pose proof (Z.div_mod (Z.log2 z) 4).
  pose proof (Z.mod_pos_bound (Z.log2 z) 4). lia.
Qed.

(** The text of an id is read back as the id, so that no two ids have the same text. *)
Lemma read_hex_upper z : 0 <= z → read_hex 0 (hex_upper z) = Some z.
Proof.
  intros Hz. unfold hex_upper, toString_16. destruct (Z.ltb_spec z 0); [lia|].
  apply read_hex_digits. split; [done|by apply hex_length_bound].
Qed.

Lemma hex_digits_ascii n z : Forall (λ u, u < 0x80) (hex_digits n z).
Proof.
  revert z. induction n as [|n IH]; intros z; [constructor|]. cbn [hex_digits].
  apply Forall_app. split; [apply IH|]. constructor; [|constructor].
  pose proof (Z.mod_pos_bound z 16 ltac:(lia)). unfold hex_digit. zcases; lia.
Qed.

Lemma upper_hex_uint z : 0 <= z < 2 ^ 64 → upper_hex (prim_json (PUint z)) = Ret (hex_upper z).
Proof.
  intros Hz. unfold upper_hex.
  assert (js_toString_16 (prim_json (PUint z)) = Ret (toString_16 z)) as ->.
  { unfold prim_json. destruct (Z.eqb_spec (uint_log z) 3) as [_|H]; [done|].
    assert (z <= 0xFFFFFFFF) as Hle.
    { revert H. unfold uint_log. repeat case_match; zbool; unfold UINT32_MAX, UINT16_MAX, UINT8_MAX in *; lia. }
    cbn. destruct (Z.ltb_spec (Z.abs z) (2 ^ 53)); [done|lia]. }
  cbn. unfold toUpperCase, hex_upper.
  assert (forallb (λ u, u <? 0x80) (toString_16 z) = true) as ->; [|done].
  unfold toString_16. destruct (Z.ltb_spec z 0); [lia|]. apply forallb_forall. intros u Hu.
  apply Z.ltb_lt. pose proof (hex_digits_ascii (hex_length z) z) as Hd.
  rewrite List.Forall_forall in Hd. by apply Hd.
Qed.

(** ** The Matter certificate *)

(** A distinguished name is a list of attributes by their tags; ids are integers. *)
Record chip_certificate : Type := ChipCertificate {
  c_serialNumber : buffer;
  c_signatureAlgorithm : Z;
  c_issuer : list (Z * prim);
  c_notBefore : Z;
  c_notAfter : Z;
  c_subject : list (Z * prim);
  c_publicKeyAlgorithm : Z;
  c_ellipticCurveId : Z;
  c_publicKey : buffer;
  c_isCa : bool;
  c_pathLength : option Z;
  c_keyUsage : Z;
  c_extendedKeyUsage : list Z;
  c_subjectKeyId : buffer;
  c_authorityKeyId : buffer;
  c_signature : buffer }.

Definition dn_elems (dn : list (Z * prim)) : list elem :=
  (λ a, Prim (TagContext a.1) a.2) <$> dn.

Definition extension_elems (c : chip_certificate) : list elem :=
  [Cont (TagContext 1) KStruct
     (Prim (TagContext 1) (PBool (c_isCa c))
        :: match c_pathLength c with Some n => [Prim (TagContext 2) (PUint n)] | None => [] end);
   Prim (TagContext 2) (PUint (c_keyUsage c));
   Cont (TagContext 3) KArray ((λ u, Prim TagAnon (PUint u)) <$> c_extendedKeyUsage c);
   Prim (TagContext 4) (PBytes (c_subjectKeyId c));
   Prim (TagContext 5) (PBytes (c_authorityKeyId c))].

Definition certificate_elem (c : chip_certificate) : elem :=
  Cont TagAnon KStruct
    [Prim (TagContext 1) (PBytes (c_serialNumber c));
     Prim (TagContext 2) (PUint (c_signatureAlgorithm c));
     Cont (TagContext 3) KList (dn_elems (c_issuer c));
     Prim (TagContext 4) (PUint (c_notBefore c));
     Prim (TagContext 5) (PUint (c_notAfter c));
     Cont (TagContext 6) KList (dn_elems (c_subject c));
     Prim (TagContext 7) (PUint (c_publicKeyAlgorithm c));
     Prim (TagContext 8) (PUint (c_ellipticCurveId c));
     Prim (TagContext 9) (PBytes (c_publicKey c));
     Cont (TagContext 10) KList (extension_elems c);
     Prim (TagContext 11) (PBytes (c_signature c))].

(** The octets. *)
Definition certificate_tlv (c : chip_certificate) : buffer := elem_bytes (certificate_elem c).

(** The first attribute with a tag, and the id it holds. *)
Fixpoint dn_first (t : Z) (dn : list (Z * prim)) : option prim :=
  match dn with
  | [] => None
  | (t', p) :: dn' => if t' =? t then Some p else dn_first t dn'
  end.

Definition dn_id (t : Z) (dn : list (Z * prim)) : option Z :=
  match dn_first t dn with Some (PUint z) => Some z | _ => None end.

(** Every field has its range, text is ASCII, and the attributes 17 to 22 are ids. *)
Definition attribute_ok (a : Z * prim) : Prop :=
  elem_ok (Prim (TagContext a.1) a.2) ∧ elem_ascii (Prim (TagContext a.1) a.2) ∧
  (17 <= a.1 <= 22 → match a.2 with PUint _ => True | _ => False end).

Record chip_ok (c : chip_certificate) : Prop := ChipOk {
  issuer_ok : Forall attribute_ok (c_issuer c);
  subject_ok : Forall attribute_ok (c_subject c);
  notBefore_ok : 0 <= c_notBefore c <= UINT32_MAX;
  notAfter_ok : 0 <= c_notAfter c <= UINT32_MAX;
  numbers_ok : Forall (λ z, 0 <= z < 2 ^ 64)
    (c_signatureAlgorithm c :: c_publicKeyAlgorithm c :: c_ellipticCurveId c :: c_keyUsage c
       :: c_extendedKeyUsage c ++ option_list (c_pathLength c));
  octets_ok : Forall (λ b, blen b <= UINT32_MAX)
    [c_serialNumber c; c_publicKey c; c_subjectKeyId c; c_authorityKeyId c; c_signature c] }.

(** What the X.509 certificate has. *)
Definition usage_oid (u : Z) : option string :=
  if (1 <=? u) && (u <=? 6) then Some ("1.3.6.1.5.5.7.3." +:+ pretty u) else None.

(** Seconds since 2000 as a date. *)
Definition chip_date (t : Z) : date := Some ((946684800 + t) * 1000).

Section spec.
Context `{X : X509}.

Definition extensions_of (c : chip_certificate) : outcome (list extension) :=
  e1 ← BasicConstraintsExtension (JBool (c_isCa c))
         (from_option (λ n, prim_json (PUint n)) JUndef (c_pathLength c)) true;
  e2 ← KeyUsagesExtension (prim_json (PUint (c_keyUsage c))) true;
  e3 ← ExtendedKeyUsageExtension (usage_oid <$> c_extendedKeyUsage c) true;
  e4 ← SubjectKeyIdentifierExtension (hex_encode (c_subjectKeyId c));
  e5 ← AuthorityKeyIdentifierExtension (hex_encode (c_authorityKeyId c));
  Ret [e1; e2; e3; e4; e5].

Definition params_of (c : chip_certificate) (node fabric icac : Z) (extensions : list extension)
    (key : public_key) : create_params public_key private_key extension :=
  CreateParams (Some Version_v3) (hex_encode (c_serialNumber c))
    (NameJson [("1.3.6.1.4.1.37244.1.1"%string, hex_upper node);
               ("1.3.6.1.4.1.37244.1.5"%string, hex_upper fabric)])
    (NameJson [("1.3.6.1.4.1.37244.1.3"%string, hex_upper icac)])
    (chip_date (c_notBefore c)) (chip_date (c_notAfter c)) (Some extensions) key None
    (JBuf (c_signature c)).

(** The certificate that is created, or the exception. *)
Definition x509_of (c : chip_certificate) : outcome certificate :=
  match dn_id 17 (c_subject c), dn_id 21 (c_subject c), dn_id 19 (c_issuer c) with
  | Some node, Some fabric, Some icac =>
      if c_signatureAlgorithm c =? 1 then
        extensions ← extensions_of c;
        key ← importKey (JBuf (c_publicKey c));
        _ ← exportKey_spki key;
        X509_create (params_of c node fabric icac extensions key) []
      else Throw (Thrown "ERROR: SignatureAlgorithm is not 1")
  | _, _, _ => Throw TypeError
  end.
End spec.

(** ** The entries a reader makes *)

Definition elem_entry (e : elem) : entry :=
  match e with
  | Prim tg p => mk_entry tg (prim_type p) (prim_json p)
  | Cont tg k l => mk_entry tg (ckind_type k) (JArr (elem_json <$> l))
  end.

Lemma elem_json_entries (l : list elem) : elem_json <$> l = JObj <$> (elem_entry <$> l).
Proof. rewrite <- list_fmap_compose. apply list_fmap_ext. by intros _ [|] _. Qed.

Lemma unnamed_entries (l : list elem) : Forall (λ e, tagName e = None) (elem_entry <$> l).
Proof. apply Forall_fmap, Forall_true. by intros [|]. Qed.

(** A field of a decoded list, by its name. *)
Lemma get_field (l : list (Z * string)) (t : Z) (name : string) (es : list elem) :
  (list_to_map l : gmap Z string) !! t = Some name →
  negb (t =? 0) && forallb (λ a, negb (String.eqb a.2 name) || (a.1 =? t)) l = true →
  get (JArr (JObj <$> (map_entry (list_to_map l) <$> (elem_entry <$> es)))) name
  = Ret (default JUndef (tagged t (elem_entry <$> es))).
Proof. intros Ht Hl. apply get_mapped; [done..|apply unnamed_entries]. Qed.

Lemma tagged_dn t dn : tagged t (elem_entry <$> dn_elems dn) = prim_json <$> dn_first t dn.
Proof.
  induction dn as [|[t' p] dn IH]; [done|]. cbn. destruct (t' =? t); [done|]. exact IH.
Qed.

Lemma attribute_id t dn p :
  Forall attribute_ok dn → dn_first t dn = Some p → 17 <= t <= 22 →
  ∃ z, p = PUint z ∧ 0 <= z < 2 ^ 64.
Proof.
  intros Hdn Hp Ht. induction Hdn as [|[t' q] dn (Hok & _ & Hid) _ IH]; [done|]. cbn in Hp.
  destruct (Z.eqb_spec t' t) as [->|]; [|by apply IH]. simplify_eq. cbn in Hid.
  destruct p; try by (specialize (Hid Ht)). destruct Hok as [_ Hok]. eauto.
Qed.

(** An id of a name as the code reads it. *)
Lemma attribute_hex_dn (name : string) (t : Z) (dn : list (Z * prim)) :
  MapTagDn !! t = Some name → 17 <= t <= 22 → Forall attribute_ok dn →
  forallb (λ a, negb (String.eqb a.2 name) || (a.1 =? t)) (map_to_list MapTagDn) = true →
  attribute_hex (JArr (JObj <$> (map_entry MapTagDn <$> (elem_entry <$> dn_elems dn)))) name
  = match dn_id t dn with Some z => Ret (hex_upper z) | None => Throw TypeError end.
Proof.
  intros Hm Ht Hdn Hu. unfold attribute_hex.
  rewrite <- (list_to_map_to_list MapTagDn). rewrite (get_field _ t).
  2:{ by rewrite list_to_map_to_list. }
  2:{ rewrite Hu. destruct (Z.eqb_spec t 0); [lia|done]. }
  rewrite tagged_dn. unfold dn_id. cbn [mbind outcome_bind].
  destruct (dn_first t dn) as [p|] eqn:Hp; [|done].
  destruct (attribute_id t dn p Hdn Hp Ht) as (z & -> & Hz). cbn [fmap option_fmap option_map default].
  by apply upper_hex_uint.
Qed.

(** ** Well-formedness *)

Lemma dn_elems_ok dn : Forall attribute_ok dn →
  Forall id (elem_ok <$> dn_elems dn) ∧ Forall id (elem_ascii <$> dn_elems dn).
Proof.
  intros H. unfold dn_elems. rewrite <- !list_fmap_compose, !Forall_fmap.
  split; (eapply Forall_impl; [exact H|]; by intros a (? & ? & _)).
Qed.

Lemma usages_ok l : Forall (λ z, 0 <= z < 2 ^ 64) l →
  Forall id (elem_ok <$> ((λ u, Prim TagAnon (PUint u)) <$> l)) ∧
  Forall id (elem_ascii <$> ((λ u, Prim TagAnon (PUint u)) <$> l)).
Proof.
  intros H. rewrite <- !list_fmap_compose, !Forall_fmap.
  split; (eapply Forall_impl; [exact H|]; by intros z Hz).
Qed.

Lemma certificate_ok c : chip_ok c →
  elems_ok [certificate_elem c] ∧ elems_ascii [certificate_elem c].
Proof.
  intros [Hi Hs Hb Ha Hn Ho]. apply dn_elems_ok in Hi as [Hi1 Hi2], Hs as [Hs1 Hs2].
  rewrite !Forall_cons, Forall_app in Hn. destruct Hn as (? & ? & ? & ? & Hu & Hp).
  rewrite !Forall_cons in Ho. destruct Ho as (? & ? & ? & ? & ? & _).
  apply usages_ok in Hu as [Hu1 Hu2]. unfold UINT32_MAX in *.
  unfold elems_ok, elems_ascii, certificate_elem, extension_elems.
  destruct (c_pathLength c) as [n|]; [apply Forall_inv in Hp|];
    split; (constructor; [|constructor]); cbn [elem_ok elem_ascii fmap list_fmap app];
    unfold id at 1; try (split; [done|]);
    repeat first [done | apply Forall_nil; done | apply Forall_cons; split | split];
    unfold UINT8_MAX, UINT32_MAX; try lia; assumption.
Qed.

Definition certificate_fields (c : chip_certificate) : list elem :=
  match certificate_elem c with Cont _ _ l => l | Prim _ _ => [] end.

Lemma decode_certificate c : chip_ok c →
  decode_json (certificate_tlv c)
  = Ret (JArr [JObj (mk_entry TagAnon TLV_TYPE_STRUCTURE
                       (JArr (JObj <$> (elem_entry <$> certificate_fields c))))]).
Proof.
  intros [Hok Ha]%certificate_ok. unfold certificate_tlv.
  replace (elem_bytes (certificate_elem c)) with (elems_bytes [certificate_elem c])
    by (unfold elems_bytes; cbn [fmap list_fmap concat]; by rewrite app_nil_r).
  rewrite decode_json_elems by done. by rewrite <- elem_json_entries.
Qed.

(** ** The extensions *)

Lemma usage_text u : 0 <= u < 2 ^ 64 →
  lookup_property MapTagExtendedKeyUsage (prim_json (PUint u)) = Ret (usage_oid u).
Proof.
  intros Hu.
  assert (lookup_property MapTagExtendedKeyUsage (prim_json (PUint u))
          = Ret (own_property MapTagExtendedKeyUsage (js_str (pretty u)))) as ->.
  { unfold prim_json. destruct (Z.eqb_spec (uint_log u) 3) as [_|H]; [done|].
    apply lookup_id. revert H. unfold uint_log, id_ok.
    repeat case_match; zbool; unfold UINT32_MAX, UINT16_MAX, UINT8_MAX in *; lia. }
  f_equal. unfold usage_oid. destruct (decide (1 <= u <= 6)) as [H|H].
  - assert (u = 1 ∨ u = 2 ∨ u = 3 ∨ u = 4 ∨ u = 5 ∨ u = 6) as [->|[->|[->|[->|[->| ->]]]]] by lia;
      reflexivity.
  - assert ((1 <=? u) && (u <=? 6) = false) as -> by (destruct (Z.leb_spec 1 u); cbn; [apply Z.leb_gt|]; lia).
    apply own_property_none.
    change (MapTagExtendedKeyUsage.*1) with (pretty <$> [1; 2; 3; 4; 5; 6]).
    intros (z & Hz%(inj pretty) & Hin)%list_elem_of_fmap. subst. set_solver by lia.
Qed.

Section x509.
Context `{X : X509}.

Lemma decodeExtensions_fields c : chip_ok c →
  decodeExtensions (JArr (JObj <$> (map_entry MapTagStructure
                            <$> (elem_entry <$> certificate_fields c))))
  = extensions_of c.
Proof.
  intros [_ _ _ _ Hn _]. unfold decodeExtensions.
  unfold MapTagStructure. rewrite (get_field _ 10 "Extensions") by reflexivity.
  cbn [mbind outcome_bind default]. change (default JUndef (tagged 10 _))
    with (JArr (elem_json <$> extension_elems c)).
  rewrite elem_json_entries, mapFields_entries. cbn [mbind outcome_bind].
  unfold MapTagExtensions. rewrite (get_field _ 1 "BasicConstraints") by reflexivity. cbn [mbind outcome_bind].
  change (default JUndef (tagged 1 _)) with (JArr (elem_json <$>
    (Prim (TagContext 1) (PBool (c_isCa c))
       :: match c_pathLength c with Some n => [Prim (TagContext 2) (PUint n)] | None => [] end))).
  rewrite elem_json_entries, mapFields_entries. cbn [mbind outcome_bind].
  unfold MapTagBasicConstraints. rewrite (get_field _ 1 "IsCa"), (get_field _ 2 "PathLength") by reflexivity.
  cbn [mbind outcome_bind].
  rewrite (get_field _ 2 "KeyUsage"), (get_field _ 3 "ExtendedKeyUsage") by reflexivity. cbn [mbind outcome_bind].
  change (default JUndef (tagged 3 _)) with (JArr (elem_json <$>
    ((λ u, Prim TagAnon (PUint u)) <$> c_extendedKeyUsage c))).
  cbn [js_elements mbind outcome_bind].
  assert (mapM (λ u, v ← js_value u; lookup_property MapTagExtendedKeyUsage v)
            (elem_json <$> ((λ u, Prim TagAnon (PUint u)) <$> c_extendedKeyUsage c))
          = Ret (usage_oid <$> c_extendedKeyUsage c)) as ->.
  { rewrite !Forall_cons, Forall_app in Hn. destruct Hn as (_ & _ & _ & _ & Hu & _).
    induction Hu as [|u l Hu _ IH]; [done|]. cbn [fmap list_fmap mapM elem_json js_value mk_entry].
    change (value _) with (prim_json (PUint u)). cbn [mbind outcome_bind].
    rewrite usage_text by done. unfold fmap in IH |- *. by rewrite IH. }
  cbn [mbind outcome_bind]. rewrite (get_field _ 4 "SubjectKeyId"), (get_field _ 5 "AuthorityKeyId") by reflexivity.
  cbn [mbind outcome_bind]. unfold extensions_of. by destruct (c_pathLength c).
Qed.

Lemma is_number_uint z k : 0 <= z < 2 ^ 64 → 0 <= k <= UINT32_MAX →
  is_number (prim_json (PUint z)) k = (z =? k).
Proof.
  intros Hz Hk. unfold prim_json. destruct (Z.eqb_spec (uint_log z) 3) as [H|H].
  - cbn. symmetry. apply Z.eqb_neq. intros ->. revert H. unfold uint_log.
    repeat case_match; zbool; lia.
  - cbn. destruct (Z.eqb_spec z k) as [->|Hne]; [by apply bool_decide_true|].
    apply bool_decide_false. congruence.
Qed.

Lemma epochSec_chip t : 0 <= t <= UINT32_MAX →
  epochSec (prim_json (PUint t)) = Ret (chip_date t).
Proof.
  intros Ht. rewrite prim_json_id by done. cbn. unfold chip_date, new_Date, epochMs.
  unfold UINT32_MAX in Ht.
  destruct (Z.leb_spec (Z.abs (946684800000 + t * 1000)) 8640000000000000); [|lia].
  do 2 f_equal. lia.
Qed.

(** A field of the certificate, by its name. *)
Lemma get_certificate_field c t name v :
  MapTagStructure !! t = Some name →
  negb (t =? 0) && forallb (λ a, negb (String.eqb a.2 name) || (a.1 =? t))
    (map_to_list MapTagStructure) = true →
  tagged t (elem_entry <$> certificate_fields c) = Some v →
  get (JArr (JObj <$> (map_entry MapTagStructure <$> (elem_entry <$> certificate_fields c)))) name
  = Ret v.
Proof.
  intros Hm Hu Hv. rewrite <- (list_to_map_to_list MapTagStructure).
  rewrite (get_field _ t); [by rewrite Hv| |done]. by rewrite list_to_map_to_list.
Qed.

Lemma certificate_of_tlv_spec c : chip_ok c →
  certificate_of_tlv (certificate_tlv c) = x509_of c.
Proof.
  intros Hok. unfold certificate_of_tlv. rewrite decode_certificate by done.
  cbn [mbind outcome_bind js_index lookup list_lookup default from_option id js_value mk_entry value].
  rewrite mapFields_entries. cbn [mbind outcome_bind].
  pose proof (decodeExtensions_fields c Hok) as Hext.
  pose proof (get_certificate_field c) as Hget.
  set (fields := JArr _) in Hext, Hget |- *.
  rewrite (Hget 1 "SerialNumber"%string (JBuf (c_serialNumber c))),
    (Hget 2 "SignatureAlgorithm"%string (prim_json (PUint (c_signatureAlgorithm c)))),
    (Hget 6 "Subject"%string (JArr (elem_json <$> dn_elems (c_subject c)))) by reflexivity.
  cbn [mbind outcome_bind]. rewrite elem_json_entries, mapFields_entries.
  cbn [mbind outcome_bind]. unfold x509_of.
  rewrite (attribute_hex_dn "NodeId" 17) by (try done; try lia; apply (subject_ok c Hok)).
  destruct (dn_id 17 (c_subject c)) as [node|]; [|done]. cbn [mbind outcome_bind].
  rewrite (attribute_hex_dn "FabricId" 21) by (try done; try lia; apply (subject_ok c Hok)).
  destruct (dn_id 21 (c_subject c)) as [fabric|]; [|done]. cbn [mbind outcome_bind].
  rewrite (Hget 3 "Issuer"%string (JArr (elem_json <$> dn_elems (c_issuer c)))) by reflexivity.
  cbn [mbind outcome_bind]. rewrite elem_json_entries, mapFields_entries.
  cbn [mbind outcome_bind].
  rewrite (attribute_hex_dn "IcacId" 19) by (try done; try lia; apply (issuer_ok c Hok)).
  destruct (dn_id 19 (c_issuer c)) as [icac|]; [|done]. cbn [mbind outcome_bind].
  rewrite (Hget 5 "NotAfter"%string (prim_json (PUint (c_notAfter c)))),
    (Hget 4 "NotBefore"%string (prim_json (PUint (c_notBefore c)))),
    (Hget 11 "Signature"%string (JBuf (c_signature c))),
    (Hget 9 "PublicKey"%string (JBuf (c_publicKey c))),
    (Hget 7 "PublicKeyAlgorithm"%string (prim_json (PUint (c_publicKeyAlgorithm c)))),
    (Hget 8 "EllipticCurveId"%string (prim_json (PUint (c_ellipticCurveId c)))),
    (Hget 10 "Extensions"%string (JArr (elem_json <$> extension_elems c))) by reflexivity.
  cbn [mbind outcome_bind].
  rewrite is_number_uint by (try done; apply (Forall_inv (numbers_ok c Hok))).
  destruct (c_signatureAlgorithm c =? 1); [|done]. cbn [negb]. rewrite Hext.
  destruct (extensions_of c) as [exts|e]; [|done]. cbn [mbind outcome_bind].
  destruct (importKey _) as [key|e]; [|done]. cbn [mbind outcome_bind].
  destruct (exportKey_spki key); [|done]. cbn [mbind outcome_bind js_toString_hex].
  rewrite (epochSec_chip _ (notBefore_ok c Hok)), (epochSec_chip _ (notAfter_ok c Hok)). done.
Qed.

(** C33: what [decode] makes of a certificate.  The octets of a well-formed Matter certificate
    give the X.509 certificate with its serial number, its validity in milliseconds, the
    hexadecimal texts of its node, fabric and issuer ids, its key, its signature and its
    extensions, the purposes as object identifiers; an exception of the package is passed
    on.  A certificate without a node id or fabric id, or whose issuer has no ICAC id, as
    when a root certificate has issued it, is a TypeError before the package is asked, and
    another signature algorithm than 1 a thrown text.  The object keeps the result. *)
Theorem certificate_decoded (c : chip_certificate) :
  chip_ok c →
  CertificateTlv_decode (CertificateTlv_new (certificate_tlv c))
  = match x509_of c with
    | Ret cert => (CertTlv (certificate_tlv c) (Some cert), Ret cert)
    | Throw e => (CertificateTlv_new (certificate_tlv c), Throw e)
    end.
Proof.
  intros Hok. unfold CertificateTlv_decode, js_get, js_lift, mbind, js_bind.
  cbn [_tlv CertificateTlv_new]. rewrite certificate_of_tlv_spec by done.
  by destruct (x509_of c).
Qed.
End x509.

(** ** PEM text *)

Definition base64_value (u : Z) : option Z :=
  if (65 <=? u) && (u <=? 90) then Some (u - 65)
  else if (97 <=? u) && (u <=? 122) then Some (u - 71)
  else if (48 <=? u) && (u <=? 57) then Some (u + 4)
  else if u =? 43 then Some 62 else if u =? 47 then Some 63 else None.

(** Reading base64: groups of four, padding in the last one only. *)
Fixpoint base64_decode (s : jsstr) : option buffer :=
  match s with
  | [] => Some []
  | ua :: ub :: uc :: ud :: s' =>
      a ← base64_value ua; b ← base64_value ub;
      if (ud =? 61) && bool_decide (s' = []) then
        if uc =? 61 then Some [Z_byte (a * 4 + b `div` 16)]
        else c ← base64_value uc;
             Some [Z_byte (a * 4 + b `div` 16); Z_byte (b * 16 + c `div` 4)]
      else c ← base64_value uc; d ← base64_value ud; l ← base64_decode s';
           Some (Z_byte (a * 4 + b `div` 16) :: Z_byte (b * 16 + c `div` 4)
                   :: Z_byte (c * 64 + d) :: l)
  | _ => None
  end.

Definition not_break (u : Z) : Prop := u ≠ 10.
#[export] Instance not_break_dec u : Decision (not_break u).
Proof. unfold not_break. apply _. Defined.

(** Reading PEM: what is between the two marks without its line breaks. *)
Definition read_pem (s : jsstr) : option buffer :=
  let body := drop (length pem_prefix) s in
  let body := take (length body - length pem_postfix) body in
  if bool_decide (s = pem_prefix ++ body ++ pem_postfix)
  then base64_decode (base.filter not_break body) else None.

Lemma base64_value_digit d : 0 <= d < 64 → base64_value (base64_digit d) = Some d.
Proof. intros ?. unfold base64_value, base64_digit. zcases; try lia; f_equal; lia. Qed.

Lemma base64_digit_range d : 0 <= d < 64 → 43 <= base64_digit d ∧ base64_digit d ≠ 61.
Proof. intros ?. unfold base64_digit. zcases; lia. Qed.

(** Induction over octets in groups of three. *)
Lemma triples_ind (P : buffer → Prop) :
  P [] → (∀ x, P [x]) → (∀ x y, P [x; y]) → (∀ x y z b, P b → P (x :: y :: z :: b)) → ∀ b, P b.
Proof.
  intros H0 H1 H2 H3. fix IH 1. intros [|x [|y [|z b]]]; [done|apply H1|apply H2|].
  apply H3, IH.
Qed.

Lemma Z_byte_mod z : Z_byte z = Z_byte (z `mod` 256).
Proof. apply byte_Z_inj. rewrite !byte_Z_Z_byte. by rewrite Z.mod_mod. Qed.

Lemma group_first x y : 0 <= x < 256 → 0 <= y < 256 →
  x `div` 4 * 4 + (x `mod` 4 * 16 + y `div` 16) `div` 16 = x.
Proof. intros. Z.to_euclidean_division_equations. lia. Qed.

Lemma group_second x y z : 0 <= y < 256 → 0 <= z < 256 →
  ((x `mod` 4 * 16 + y `div` 16) * 16 + (y `mod` 16 * 4 + z `div` 64) `div` 4) `mod` 256 = y.
Proof. intros. Z.to_euclidean_division_equations. lia. Qed.

Lemma group_third y z : 0 <= z < 256 →
  ((y `mod` 16 * 4 + z `div` 64) * 64 + z `mod` 64) `mod` 256 = z.
Proof. intros. Z.to_euclidean_division_equations. lia. Qed.

Lemma digit_range x y : 0 <= x < 256 → 0 <= y < 256 →
  0 <= x `div` 4 < 64 ∧ 0 <= x `mod` 4 * 16 + y `div` 16 < 64 ∧
  0 <= x `mod` 16 * 4 + y `div` 64 < 64 ∧ 0 <= x `mod` 64 < 64 ∧
  0 <= x `mod` 4 * 16 < 64 ∧ 0 <= x `mod` 16 * 4 < 64.
Proof. intros. Z.to_euclidean_division_equations. lia. Qed.

Lemma base64_digits b : Forall (λ u, 43 <= u) (base64_encode b).
Proof.
  induction b as [|x|x y|x y z b IH] using triples_ind; cbn [base64_encode];
    repeat constructor; try lia; try exact IH;
    try pose proof (byte_Z_range x); try pose proof (byte_Z_range y); try pose proof (byte_Z_range z).
  all: try (apply base64_digit_range; first
    [ apply (digit_range (byte_Z x) (byte_Z x)) | apply (digit_range (byte_Z x) (byte_Z y))
    | apply (digit_range (byte_Z y) (byte_Z y)) | apply (digit_range (byte_Z y) (byte_Z z))
    | apply (digit_range (byte_Z z) (byte_Z z)) ]; assumption).
Qed.

Lemma base64_roundtrip b : base64_decode (base64_encode b) = Some b.
Proof.
  assert (∀ d, 0 <= d < 64 → (base64_digit d =? 61) = false) as Hne.
  { intros d Hd%base64_digit_range. apply Z.eqb_neq. lia. }
  induction b as [|x|x y|x y z b IH] using triples_ind; [done|..];
    cbn [base64_encode base64_decode];
    pose proof (byte_Z_range x) as Hx; try pose proof (byte_Z_range y) as Hy;
    try pose proof (byte_Z_range z) as Hz.
  - destruct (digit_range _ _ Hx Hx) as (H1 & _ & _ & _ & H2 & _).
    rewrite !base64_value_digit by done. cbn [mbind option_bind]. rewrite Z.eqb_refl. cbn.
    rewrite <- (Z.add_0_r (_ `mod` 4 * 16)). change 0 with (0 `div` 16) at 1.
    by rewrite group_first, Z_byte_byte_Z by lia.
  - destruct (digit_range _ _ Hx Hy) as (H1 & H2 & _), (digit_range _ _ Hy Hy) as (_&_&_&_&_& H3).
    rewrite !base64_value_digit by done. cbn [mbind option_bind]. rewrite Z.eqb_refl.
    rewrite Hne by done. cbn. rewrite group_first by lia. do 2 f_equal; [by rewrite Z_byte_byte_Z|].
    f_equal. rewrite Z_byte_mod. rewrite <- (Z.add_0_r (_ `mod` 16 * 4)). change 0 with (0 `div` 64) at 1.
    by rewrite group_second, Z_byte_byte_Z by lia.
  - destruct (digit_range _ _ Hx Hy) as (H1 & H2 & _), (digit_range _ _ Hy Hz) as (_&_& H3 &_),
      (digit_range _ _ Hz Hz) as (_&_&_& H4 &_).
    rewrite !base64_value_digit by done. cbn [mbind option_bind]. rewrite Hne by done.
    cbn [andb]. rewrite IH. cbn. rewrite group_first by lia.
    rewrite (Z_byte_mod (_ * 16 + _)), group_second, (Z_byte_mod (_ * 64 + _)), group_third by lia.
    by rewrite !Z_byte_byte_Z.
Qed.

Lemma filter_digits s : Forall (λ u, 43 <= u) s → base.filter not_break s = s.
Proof.
  induction 1 as [|u s Hu _ IH]; [done|]. rewrite filter_cons_True by (unfold not_break; lia).
  by rewrite IH.
Qed.

Lemma match_lines_cons fuel s : ∃ l ls, match_lines fuel s = l :: ls.
Proof. destruct fuel, s; cbn; eauto. Qed.

(** The lines are the text, each of at most 64 units, and the last one is empty. *)
Lemma match_lines_text fuel s :
  (length s <= fuel)%nat → Forall (λ u, 43 <= u) s →
  base.filter not_break (join [10] (match_lines fuel s)) = s ∧
  Forall (λ l, (length l <= 64)%nat) (match_lines fuel s) ∧
  last (match_lines fuel s) = Some [].
Proof.
  revert s. induction fuel as [|fuel IH]; intros [|u s] Hlen Hs; cbn [match_lines];
    try (split_and!; [done|repeat constructor; lia|done]); [cbn in Hlen; lia|].
  destruct (IH (drop 64 (u :: s))) as (H1 & H2 & H3).
  { rewrite length_drop. cbn in *. lia. }
  { by apply Forall_drop. }
  destruct (match_lines_cons fuel (drop 64 (u :: s))) as (l & ls & E). rewrite E in *.
  split_and!.
  - change (join [10] (take 64 (u :: s) :: l :: ls)) with (take 64 (u :: s) ++ [10] ++ join [10] (l :: ls)).
    rewrite !filter_app, H1, filter_digits by by apply Forall_take.
    change (base.filter not_break [10]) with ([] : list Z). apply (take_drop 64 (u :: s)).
  - constructor; [|exact H2]. rewrite length_take. lia.
  - by rewrite last_cons, H3.
Qed.

(** The PEM text of a certificate.  Its lines between the marks have at most 64
    characters, the last of them is empty, and taking them together and reading their
    base64 gives the octets of the certificate back. *)
Theorem pem_roundtrip (der : buffer) :
  read_pem (DerToPem der) = Some der ∧
  ∃ lines, DerToPem der = pem_prefix ++ join [10] lines ++ pem_postfix ∧
    Forall (λ l, (length l <= 64)%nat) lines ∧ last lines = Some [].
Proof.
  destruct (match_lines_text (length (base64_encode der)) (base64_encode der)) as (H1 & H2 & H3);
    [done|apply base64_digits|].
  split; [|by eexists]. unfold read_pem, DerToPem.
  rewrite drop_app_length, length_app, Nat.add_sub, take_app_length.
  rewrite bool_decide_true by done. by rewrite H1, base64_roundtrip.
Qed.

(** ** The tables of ChipCert.js

    The tags the decoder names are those of the format.  The flags of a table are the
    powers of two in order.  The tag of a printable attribute should be the one of the
    attribute plus 0x80; for the last two it is one more. *)
Definition by_tag (t : table Z) : gmap Z string := list_to_map ((λ a, (a.2, a.1)) <$> t).

Lemma structure_tags : MapTagStructure = by_tag ChipCert.TlvTagStructure.
Proof. reflexivity. Qed.

Lemma extension_tags : MapTagExtensions = by_tag ChipCert.TlvTagExtensions.
Proof. reflexivity. Qed.

Definition is_flags (t : table Z) : bool :=
  bool_decide (t.*2 = Z.pow 2 ∘ Z.of_nat <$> seq 0 (length t)).

Lemma flags_are_bits : forallb is_flags
  [ChipCert.KeyPurposeFlags; ChipCert.KeyUsageFlags; ChipCert.CertFlags; ChipCert.CertDecodeFlags]
  = true.
Proof. reflexivity. Qed.

Definition printable_tag (name printable : string) : bool :=
  bool_decide (Z.add 0x80 <$> own_property ChipCert.TlvTagDn (js_str name)
               = own_property ChipCert.TlvTagDn (js_str printable)).

Lemma printable_tags :
  printable_tag "CommonName" "CommonNamePs" = true ∧
  printable_tag "GenQualifier" "GenQualifierPs" = true ∧
  printable_tag "DnQualifier" "DnQualifierPs" = false ∧
  printable_tag "Pseudonym" "PseudonymOs" = false.
Proof. by vm_compute. Qed.

(** ** A concrete certificate *)

(** The certificate of test/crypto/TestCertificateTlv.js. *)
Definition sdk_octets (s : string) : buffer := hex_decode (js_str s).
Definition sdk_key : buffer := sdk_octets
  "049a2a216fb39dd6b6fa211b835c89e3e6afb66c14f75831954f9ff4f7a3f0112c8a0d8eaf29c653294d48eee0708a032cca39393c3a7b46f181aea078fead8383".
Definition sdk_signature : buffer := sdk_octets
  "7955c202630b4ba4d5912526322fdf28f89edfe5af9c0e572bd8a14aaabb4d12b83ca17c7b05fb164b77d79c529613316bcfd17895e4b2a4f2404b9817327159".
Definition sdk_noc : chip_certificate :=
  ChipCertificate (sdk_octets "3efcff1702b9a17a") 1 [(19, PUint 0xCACACACA00000003)]
    0x271B17EF 0x4CB9B56E [(17, PUint 0xDEDEDEDE00010001); (21, PUint 0xFAB000000000001D)]
    1 1 sdk_key false None 1 [2; 1]
    (sdk_octets "9f55a26b7e4303e60883e913bf94f4fb5e2a6161")
    (sdk_octets "5352d7059e9c15a508906862864801a29f1f41d3") sdk_signature.

Lemma sdk_noc_octets : certificate_tlv sdk_noc = sdk_octets
  "153001083efcff1702b9a17a2402013703271303000000cacacaca182604ef171b2726056eb5b94c3706271101000100dededede27151d0000000000b0fa18240701240801300941049a2a216fb39dd6b6fa211b835c89e3e6afb66c14f75831954f9ff4f7a3f0112c8a0d8eaf29c653294d48eee0708a032cca39393c3a7b46f181aea078fead8383370a3501280118240201360304020401183004149f55a26b7e4303e60883e913bf94f4fb5e2a61613005145352d7059e9c15a508906862864801a29f1f41d318300b407955c202630b4ba4d5912526322fdf28f89edfe5af9c0e572bd8a14aaabb4d12b83ca17c7b05fb164b77d79c529613316bcfd17895e4b2a4f2404b981732715918".
Proof. vm_compute. reflexivity. Qed.

Lemma sdk_noc_ok : chip_ok sdk_noc.
Proof.
  split; cbn; repeat constructor; unfold UINT32_MAX; try done; try (vm_compute; done); vm_compute; discriminate.
Qed.

Definition sdk_x509 : create_params json unit toy_extension :=
  CreateParams (Some 2) (js_str "3efcff1702b9a17a")
    (NameJson [("1.3.6.1.4.1.37244.1.1"%string, js_str "DEDEDEDE00010001");
               ("1.3.6.1.4.1.37244.1.5"%string, js_str "FAB000000000001D")])
    (NameJson [("1.3.6.1.4.1.37244.1.3"%string, js_str "CACACACA00000003")])
    (Some 1602771823000) (Some 2233923822000)
    (Some [ToyBasicConstraints (JBool false) JUndef; ToyKeyUsages (number 1);
           ToyExtendedKeyUsage [Some "1.3.6.1.5.5.7.3.2"%string; Some "1.3.6.1.5.5.7.3.1"%string];
           ToySubjectKeyIdentifier (js_str "9f55a26b7e4303e60883e913bf94f4fb5e2a6161");
           ToyAuthorityKeyIdentifier (js_str "5352d7059e9c15a508906862864801a29f1f41d3")])
    (JBuf sdk_key) None (JBuf sdk_signature).

Lemma certificate_decoded_witness :
  CertificateTlv_decode (CertificateTlv_new (certificate_tlv sdk_noc))
  = (CertTlv (certificate_tlv sdk_noc) (Some (inl sdk_x509)), Ret (inl sdk_x509)).
Proof.
  rewrite (certificate_decoded sdk_noc sdk_noc_ok).
  assert (x509_of sdk_noc = Ret (inl sdk_x509)) as H by (vm_compute; reflexivity).
  rewrite H. reflexivity.
Defined.

(** ** The certification declaration

    The content of the signed declaration is TLV; its fields are those that the comment
    at the constant lists. *)
Definition declaration : buffer := subarray TEST_CERTIFICATION_DECLARATION 64 (64 + 0x15e).

Definition declared : json :=
  struct_of
    [field 0 "uint8" (number 1); field 1 "uint16" (number 0xFFF1);
     field 2 "array" (JArr ((λ i, JObj (Entry None (Some "uint16"%string) None
                                   (number (0x8000 + Z.of_nat i)) None)) <$> seq 0 100));
     field 3 "uint8" (number 0x16); field 4 "string uint8 len" (JStr (js_str "ZIG20142ZB330003-24"));
     field 5 "uint8" (number 0); field 6 "uint8" (number 0); field 7 "uint16" (number 0x2694);
     field 8 "uint8" (number 0)].

Lemma declaration_as_listed : decode_json declaration = Ret (JArr [declared]).
Proof. vm_compute. reflexivity. Qed.
