(* ===== verification/NocTheorems.v ===== *)
(** * Adding a certificate

    The AddNoc command (src/clusters/operational_credentials/) with what becomes of the
    certificate it carries (CertificateTheorems.v). *)
From S2P Require Import Prelude JsNumber JsString TlvType TlvCodec TlvReader TlvElement TlvTheorems Aead Message.
From S2P Require Import JsValue SessionManager ExchangeManager ImConst ImCommand Clusters Ecdsa.
From S2P Require Import Certificate ClusterServers InteractionModel ImSpec ImFacts CommandFacts.
From S2P Require Import ImTheorems CertificateTheorems Runtime SessionCryptoContext Session MsgCodec.
From S2P Require Import MessagingFacts SecureMessage Spake Pase Store Discovery Node EndToEnd.
Import Certificate.CertificateTlv ClusterOperationalCredentialsServer.

Section noc.
Context `{HA : Aead} `{HK : Kdf} `{HE : Ecdsa} `{HX : X509}.

Lemma noc_response_spec x c w : command_ok c →
  sendNocResponse x (path_of c) 0 1 w = answer x (data_response c 8 [uint 0 0; uint 1 1]) w.
Proof. intros Hc. by apply respond_elems; [done|unfold id_ok, UINT32_MAX; lia|..]. Qed.

(** The four parts of the command's data that are read, of which the first is used. *)
Lemma noc_arguments noc e1 e2 e3 rest :
  let data := JArr (elem_json <$> (octets 0 noc :: e1 :: e2 :: e3 :: rest)) in
  argument data 0 = Ret (JBuf noc) ∧
  ∀ i, (i < 4)%nat → ∃ v, argument data i = Ret v.
Proof.
  split; [done|]. intros [|[|[|[|i]]]] Hi; try lia; unfold argument; cbn;
    first [by destruct e1; eexists|by destruct e2; eexists|by destruct e3; eexists|by eexists].
Qed.

(** What looking at the certificate ends with *)
Definition noc_errors (noc : buffer) : list js_error :=
  match proccessNoc (JBuf noc) with Ret _ => [] | Throw e => [e] end.

Lemma noc_errors_undecodable noc e : decode_json noc = Throw e → noc_errors noc = [RangeError].
Proof.
  intros H. pose proof H as ->%decode_json_throws. unfold noc_errors, proccessNoc, certificate_of_tlv.
  by rewrite H.
Qed.

Lemma noc_errors_certificate cert : chip_ok cert →
  noc_errors (certificate_tlv cert)
  = match x509_of cert ≫= logged_fields with Ret _ => [] | Throw e => [e] end.
Proof. intros Hok. unfold noc_errors, proccessNoc. by rewrite certificate_of_tlv_spec. Qed.

(** The command in a request whose first command is [c1]: the certificate is looked at
    after the answer, and the only effect is the rejection of a promise. *)
Lemma add_noc_effect (s t : bool) (x : nat) (msg : Message) (c1 c : command)
    (l : list command) (noc : buffer) (e1 e2 e3 : elem) (rest : list elem) (w : ImWorld) :
  AppPayload msg = Ret (elems_bytes (invoke_request s t (c1 :: l))) →
  Forall command_ok (c1 :: l) → cmd_data c1 = octets 0 noc :: e1 :: e2 :: e3 :: rest →
  command_ok c → cmd_id c = 6 →
  OperationalCredentials_onCommand x msg (path_of c) w
  = (answer x (data_response c 8 [uint 0 0; uint 1 1]) ;; js_modify (reject_all (noc_errors noc))) w.
Proof.
  intros Hm Hl Hd Hc Hid. unfold OperationalCredentials_onCommand.
  change (CommandId (path_of c)) with (number (cmd_id c)).
  rewrite !is_number_number, Hid. cbn [Z.eqb Pos.eqb]. unfold onAddNoc.
  rewrite (received_request _ _ _ _ Hm Hl), js_bind_lift, command_data_first, js_bind_lift, Hd.
  destruct (noc_arguments noc e1 e2 e3 rest) as [H0 Hi].
  destruct (Hi 1%nat) as [v1 H1], (Hi 2%nat) as [v2 H2], (Hi 3%nat) as [v3 H3]; [lia..|].
  rewrite H0, H1, H2, H3, !js_bind_lift. cbn [js_toString_hex]. rewrite js_bind_lift.
  unfold mbind, js_bind. rewrite noc_response_spec by done.
  destruct (answer _ _ w) as [w' [[]|e]]; [|done]. unfold noc_errors, im_async, js_lift, js_modify, reject_all.
  destruct (proccessNoc (JBuf noc)) as [[]|]; [|done]. rewrite app_nil_r. by destruct w'.
Qed.

(** The order of the two: when the answer cannot be sent the certificate is not looked at. *)
Lemma add_noc_order (s t : bool) (x : nat) (msg : Message) (c : command) (noc : buffer)
    (e1 e2 e3 : elem) (rest : list elem) (w w' : ImWorld) (e : js_error) :
  AppPayload msg = Ret (elems_bytes (invoke_request s t [c])) → command_ok c → cmd_id c = 6 →
  cmd_data c = octets 0 noc :: e1 :: e2 :: e3 :: rest →
  sendNocResponse x (path_of c) 0 1 w = (w', Throw e) →
  OperationalCredentials_onCommand x msg (path_of c) w = (w', Throw e).
Proof.
  intros Hm Hc Hid Hd Hs. rewrite noc_response_spec in Hs by done.
  rewrite (add_noc_effect s t x msg c c [] noc e1 e2 e3 rest) by (done || by constructor).
  unfold mbind, js_bind. by rewrite Hs.
Qed.

(** The command that arrives on an open session *)
Lemma noc_reply `{HS : Spake} `{HT : LocalStorage} `{HP : Pino} {HL : AeadLaws HA}
    n suppress timed c noc e1 e2 e3 rest id ctr xid sid s i2r r2i buf peer reliable :
  let m := w_em (nd_pase n) in
  em_ok m → command_ok c → wide_data c = false →
  cmd_endpoint c = 0 → cmd_cluster c = 62 → cmd_id c = 6 →
  cmd_data c = octets 0 noc :: e1 :: e2 :: e3 :: rest →
  request_at m id sid s i2r r2i ctr xid reliable CommandRequest
    (elems_bytes (invoke_request suppress timed [c])) buf →
  ∃ n' d, node_receive buf peer n = (n', Ret tt) ∧
    node_sent n' = node_sent n ++ [d] ∧ goes_to d s peer ∧
    nd_process n' = nd_process n ∧ nd_discovery n' = nd_discovery n ∧
    nd_csr_jobs n' = nd_csr_jobs n ∧ nd_im_rejections n' = nd_im_rejections n ++ noc_errors noc ∧
    rejections (nd_pase n') = rejections (nd_pase n) ∧
    client_gets d r2i xid (_messageCounter s) reliable CommandResponse
      (elems_bytes (data_response c 8 [uint 0 0; uint 1 1])).
Proof.
  intros m Hm Hc Hw He H62 H6 Hd Hq.
  eapply command_answered; [done..| |exact Hq|].
  - intros x msg w _ Hpay. rewrite effect_credentials by done.
    by apply (add_noc_effect suppress timed x msg c c [] noc e1 e2 e3 rest); [|constructor|..].
  - apply one_message_short. pose proof (invoke_response_size 0 c 8 [uint 0 0; uint 1 1]).
    assert (blen (elems_bytes [uint 0 0; uint 1 1]) = 6) by done. unfold data_response. lia.
Qed.

End noc.

(** ** Concrete instances *)

(** A NOC command with the octets [noc] for the certificate *)
Definition demo_noc (noc : buffer) : command :=
  Cmd 0 62 6 [octets 0 noc; octets 1 []; octets 2 (alloc 16); uint 3 112233; uint 4 65521].

Lemma demo_noc_ok noc : blen noc <= UINT32_MAX → command_ok (demo_noc noc).
Proof.
  intros H. repeat constructor; cbn; try exact H; unfold id_ok, blen, UINT32_MAX, UINT8_MAX;
    cbn; lia.
Qed.

