(* ===== verification/Strangers.v ===== *)
(** * Peers with and without a handshake

    Two ways into the node that go around the handshake: a request that nobody has
    enciphered, on the session of another peer, and one under an id the node does not
    know.  And the way through it: when a session of a handshake is one that EndToEnd.v is
    about. *)
From S2P Require Import Prelude JsNumber JsString TlvType TlvElement TlvReader TlvCodec Aead MsgCodec Message.
From S2P Require Import MessageTheorems Runtime SessionCryptoContext Session SessionManager Exchange.
From S2P Require Import ExchangeManager MessagingFacts MessagingTheorems SecureMessage Spake Pase.
From S2P Require Import PaseFacts PaseInvariant PaseSessions ImConst ImCommand Ecdsa ClusterServers.
From S2P Require Import InteractionModel ImSpec ImFacts ImTheorems JsValue Store Discovery Node.
From S2P Require Import Certificate EndToEnd.

Definition test_r2i : buffer := default [] (test_keys !! kR2IKey).

Section node.
Context `{HA : Aead} `{HK : Kdf} `{HS : Spake} `{HE : Ecdsa} `{HX : X509}.
Context `{HT : LocalStorage} `{HP : Pino} {HL : AeadLaws HA}.

(** ** Messages nobody has enciphered *)

(** The handlers look at a message through its plaintext alone. *)
Lemma im_message_plain x msg msg' (w : ImWorld) :
  _buffer msg = _buffer msg' →
  im_onProtocolMessage x msg w = im_onProtocolMessage x msg' w.
Proof. destruct msg as [b e p f g], msg' as [b' e' p' f' g']. cbn. intros ->. reflexivity. Qed.

(** What a request does depends on what it arrives as. *)
Lemma request_runs n id sid s i2r r2i ctr xid reliable opcode payload buf peer :
  let m := w_em (nd_pase n) in
  let r := sm_runtime (em_sessions m) in
  let m1 := after_receive m (with_session sid (heard peer ctr (now r) s) r (em_sessions m))
              (answering sid xid reliable ctr) in
  let msg := set_buffer (Message_new None None None)
    (secure_message id ctr (sent_flags true reliable false) opcode xid IM_PROTOCOL_ID payload) in
  em_ok m → request_at m id sid s i2r r2i ctr xid reliable opcode payload buf → fits 1 opcode →
  node_receive buf peer n
  = in_im (im_onProtocolMessage (length (exchange_heap m)) msg)
      (set_nd_pase (set_em m1 (nd_pase n)) n).
Proof.
  intros m r m1 msg Hm [[Hf Hs Hid Hi Hc Hi2r Hr2i [Hk1 Hk2]] Hfresh Hctr Hx Hbuf] Ho.
  assert (fits 2 id) as Hfid by (unfold fits; change (256 ^ Z.of_nat 2) with 65536; lia).
  assert (receives_on (em_sessions m) id sid s i2r) as Hro
    by (split; try done; [lia|by rewrite Hi]).
  pose proof (receive_secure m buf i2r payload peer sid s id ctr opcode xid IM_PROTOCOL_ID reliable
    Hm Hro Hfresh Hctr Ho Hx ltac:(done) Hbuf) as Hr.
  assert (fits 1 (sent_flags true reliable false)) as Hfl by apply sent_flags_fits.
  rewrite (node_receive_im n buf peer _ _ _ opcode Hr) by (by eapply secure_ProtocolOpcode).
  unfold in_im, zoom. by erewrite im_message_plain.
Qed.

(** C21: the cipher protects nothing.  A request that nobody has enciphered, with the id of an
    open session in its header, does to the node exactly what the same request does that its
    peer has enciphered with the session's key: the same answers are sent, to
    the address the request came from, and the state is the same; all that is needed is that
    the octets do not happen to decipher. *)
Theorem bare_request_served (n : Node) (id ctr xid : Z) (sid : nat) (s : Session)
    (i2r r2i sealed : buffer) (opcode : Z) (payload : buffer) (peer : PeerInfo) (reliable : bool) :
  let m := w_em (nd_pase n) in
  let bare := secure_message id ctr (sent_flags true reliable false) opcode xid IM_PROTOCOL_ID
                payload in
  em_ok m → fits 1 opcode →
  request_on m id sid s i2r r2i ctr xid reliable opcode payload sealed →
  decrypt bare i2r = Ret None →
  node_receive bare peer n = node_receive sealed peer n.
Proof.
  intros m bare Hm Ho Hq Hd.
  pose proof Hq as [Hs Hf Hc Hx _].
  rewrite (request_runs n id sid s i2r r2i ctr xid reliable opcode payload bare peer);
    [|done|split; try done; by apply arrives_bare|done].
  symmetry. apply request_runs with (i2r := i2r) (r2i := r2i); try done. by apply request_on_at.
Qed.

(** ** Ids the node does not know *)

(** The node with a session made up for [id] *)
Definition acquainted (id : Z) (n : Node) : Node :=
  let m := w_em (nd_pase n) in
  set_nd_pase (set_em (set_em_sessions (made_up id (em_sessions m)) m) (nd_pase n)) n.

Lemma receive_unknown n id ctr c buf peer :
  let m := w_em (nd_pase n) in
  buf = secure_header id ctr ++ c → fits 2 id → id ≠ 0 → em_ok m →
  getSecureSession id (em_sessions m) = None →
  node_receive buf peer n = node_receive buf peer (acquainted id n).
Proof.
  intros m Hb Hid H0 [Hsm _] Hg.
  assert (receive buf peer m
          = receive buf peer (set_em_sessions (made_up id (em_sessions m)) m)) as Hr.
  { unfold receive, mbind, js_bind, in_sessions, zoom. cbn [em_sessions set_em_sessions].
    rewrite (onMessage_unknown id ctr buf c Hb Hid (em_sessions m) peer H0 Hsm Hg).
    by destruct (SessionManager_onMessage _ _ _) as [? [[]|]]. }
  unfold node_receive, mbind, js_bind, in_pase, in_em, zoom. fold m.
  change (w_em (nd_pase (acquainted id n))) with (set_em_sessions (made_up id (em_sessions m)) m).
  rewrite <- Hr. by destruct (receive buf peer m) as [? []].
Qed.

(** The made-up session is open to everyone who has read the source. *)
Lemma acquainted_open n id :
  let m := w_em (nd_pase n) in
  0 < id < 65536 → em_ok m → getSecureSession id (em_sessions m) = None →
  let m' := w_em (nd_pase (acquainted id n)) in
  ∃ s, em_ok m' ∧ open_session m' id (length (sessions (em_sessions m))) s test_i2r test_r2i ∧
    _transport s = Server ∧ node_sent (acquainted id n) = node_sent n ∧
    ∀ xid, fresh_exchange m' (length (sessions (em_sessions m))) xid.
Proof.
  intros m Hid (Hsm & He & Hx & Hnd) Hg m'.
  destruct (made_up_spec id (em_sessions m) Hsm Hg)
    as (s & _ & Hok & Hs & Hg' & Hsent & Hi & Ht & Hctr & Hcr).
  assert (sessions (em_sessions m') !! length (sessions (em_sessions m)) = Some s) as Hl
    by (change (em_sessions m') with (made_up id (em_sessions m)); rewrite Hs;
        by apply list_lookup_middle).
  exists s. split_and!; try done.
  - split; [done|]. split; [|done].
    change (em_sessions m') with (made_up id (em_sessions m)). rewrite Hs, length_app.
    eapply Forall_impl; [exact He|]. cbn. intros e H. lia.
  - split; try done.
    + unfold fits. change (256 ^ Z.of_nat 4) with (2 ^ 32). lia.
    + unfold session_key. by rewrite Hcr.
    + unfold session_key. by rewrite Hcr.
  - intros xid y e _ Hy _ _ Heq. cbn in Hy. rewrite Forall_lookup in He.
    specialize (He y e Hy). cbn in He. fold m in He. lia.
Qed.

(** Whatever is asked under an unknown id is served as on an open session. *)
Lemma stranger_admitted n id ctr xid reliable opcode payload buf peer :
  let m := w_em (nd_pase n) in
  em_ok m → 0 < id < 65536 → getSecureSession id (em_sessions m) = None →
  fits 4 ctr → fits 2 xid →
  encrypt (secure_message id ctr (sent_flags true reliable false) opcode xid IM_PROTOCOL_ID
             payload) test_i2r = Ret buf →
  ∃ s, node_receive buf peer n = node_receive buf peer (acquainted id n) ∧
    em_ok (w_em (nd_pase (acquainted id n))) ∧
    request_on (w_em (nd_pase (acquainted id n))) id (length (sessions (em_sessions m))) s
      test_i2r test_r2i ctr xid reliable opcode payload buf ∧
    _transport s = Server ∧ node_sent (acquainted id n) = node_sent n.
Proof.
  intros m Hm Hid Hg Hc Hx Hb.
  destruct (acquainted_open n id Hid Hm Hg) as (s & Hm' & Hopen & Ht & Hsent & Hfresh).
  destruct (arrives_sealed _ _ _ _ _ _ _ _ _ Hb ltac:(done)) as [[c Hh] _].
  exists s. split_and!; try done.
  apply (receive_unknown n id ctr c); try done; [|lia].
  unfold fits. change (256 ^ Z.of_nat 2) with 65536. lia.
Qed.

(** C22: a peer needs no handshake.  Whoever enciphers a read request with the test keys, which
    are constants of the program, under any id that no session has, gets it answered in
    every state of the node: one datagram goes back to it, from the server's socket, that
    it can read with the test keys, with all the reports it asked for, as long as they are
    within what the cipher takes in one message.  The node has made up
    the session. *)
Theorem stranger_served (n : Node) (l : list attribute_request) (rs : list (list elem))
    (id ctr xid : Z) (buf : buffer) (peer : PeerInfo) (reliable : bool) :
  let m := w_em (nd_pase n) in
  let reply := elems_bytes (report_data (concat rs)) in
  em_ok m → 0 < id < 65536 → getSecureSession id (em_sessions m) = None →
  Forall attribute_request_ok l → mapM reports l = Ret rs → fits 4 ctr → fits 2 xid →
  encrypt (secure_message id ctr (sent_flags true reliable false) ReadRequest xid IM_PROTOCOL_ID
             (elems_bytes (read_request l))) test_i2r = Ret buf →
  one_message reply →
  ∃ n' d k, node_receive buf peer n = (n', Ret tt) ∧
    node_sent n' = node_sent n ++ [d] ∧
    dg_port d = port peer ∧ dg_host d = address peer ∧ dg_transport d = Server ∧
    client_gets d test_r2i xid k reliable ReportData reply ∧
    decode_json reply = Ret (JArr (elem_json <$> report_data (concat rs))).
Proof.
  intros m reply Hm Hid Hg Hl Hrs Hc Hx Hb Hone.
  destruct (stranger_admitted n id ctr xid reliable ReadRequest (elems_bytes (read_request l)) buf
    peer Hm Hid Hg Hc Hx Hb) as (s & Hr & Hm' & Hq & Ht & Hsent).
  destruct (read_reply (acquainted id n) l rs id ctr xid (length (sessions (em_sessions m))) s
    test_i2r test_r2i buf peer reliable Hm' Hl Hrs (request_on_at _ _ _ _ _ _ _ _ _ _ _ _ Hq) Hone)
    as (n' & d & Hrun & Hsd & (Hp & Hh & Htr) & _ & _ & Hcl).
  exists n', d, (_messageCounter s). rewrite Hr, <- Hsent, <- Ht. split_and!; try done.
  by eapply report_data_decodes.
Qed.

(** The message that the session manager hands on for it *)
Lemma stranger_message n id ctr xid reliable opcode payload buf peer :
  let m := w_em (nd_pase n) in
  em_ok m → 0 < id < 65536 → getSecureSession id (em_sessions m) = None → fits 4 ctr →
  encrypt (secure_message id ctr (sent_flags true reliable false) opcode xid IM_PROTOCOL_ID
             payload) test_i2r = Ret buf →
  isUnencrypted (Message_new (Some buf) None (Some peer)) = Ret false ∧
  ∃ sm sid, SessionManager_onMessage buf peer (em_sessions m)
    = (sm, Ret (set_buffer (Message_new (Some buf) (Some buf) (Some peer))
                  (secure_message id ctr (sent_flags true reliable false) opcode xid
                     IM_PROTOCOL_ID payload), sid)).
Proof.
  intros m Hm Hid Hg Hc Hb.
  assert (fits 2 id) as Hfid by (unfold fits; change (256 ^ Z.of_nat 2) with 65536; lia).
  destruct (acquainted_open n id Hid Hm Hg) as (s & _ & [Hf Hs _ Hi _ Hk _ _] & _).
  pose proof (arrives_sealed _ _ _ _ _ _ _ _ _ Hb ltac:(done)) as Ha.
  destruct (ar_header _ _ _ _ _ _ _ _ _ Ha) as [c Hh]. split.
  - apply (wire_unencrypted id ctr buf c); try done. lia.
  - rewrite (onMessage_unknown id ctr buf c) by (done || lia || apply Hm).
    eexists _, _. eapply (onMessage_secure id ctr _ opcode xid IM_PROTOCOL_ID payload buf test_i2r);
      try done; [lia|].
    split; try done; [lia|by rewrite Hi].
Qed.

(** A read request that cannot be answered throws, and sends nothing. *)
Lemma stranger_read_throws n l req id ctr xid reliable buf peer :
  let m := w_em (nd_pase n) in
  em_ok m → 0 < id < 65536 → getSecureSession id (em_sessions m) = None → fits 4 ctr → fits 2 xid →
  Forall attribute_request_ok l → req ∈ l → unanswerable req →
  encrypt (secure_message id ctr (sent_flags true reliable false) ReadRequest xid IM_PROTOCOL_ID
             (elems_bytes (read_request l))) test_i2r = Ret buf →
  ∃ n', node_receive buf peer n = (n', Throw TypeError) ∧ node_sent n' = node_sent n.
Proof.
  intros m Hm Hid Hg Hc Hx Hl Hreq Hun Hb.
  destruct (stranger_admitted n id ctr xid reliable ReadRequest (elems_bytes (read_request l)) buf
    peer Hm Hid Hg Hc Hx Hb) as (s & Hr & Hm' & Hq & _ & Hsent).
  rewrite Hr, <- Hsent.
  destruct (request_received (acquainted id n) id (length (sessions (em_sessions m))) s test_i2r
    test_r2i ctr xid reliable ReadRequest (elems_bytes (read_request l)) buf peer Hm'
    (request_on_at _ _ _ _ _ _ _ _ _ _ _ _ Hq) ltac:(done))
    as (msg & m1 & s1 & Hrun & Hop & Hpay & _ & _ & _ & _ & Hsame).
  rewrite Hrun. set (n1 := set_nd_pase (set_em m1 (nd_pase (acquainted id n))) (acquainted id n)).
  exists (set_im_view (im_view n1) n1). split; [|exact Hsame].
  unfold in_im, zoom, im_onProtocolMessage. rewrite Hop, js_bind_lift.
  change (ReadRequest =? StatusResponse) with false. change (ReadRequest =? ReadRequest) with true.
  cbn iota. by rewrite (bad_path_loses_report l msg _ (im_view n1) req).
Qed.

(** ** The peer of a handshake *)

(** When both ends of a handshake have chosen the same id, the session of the handshake is
    open: the theorems of EndToEnd.v are about its peer. *)
Lemma handshake_open {HKL : KdfLaws HK} p w w' s id :
  0 < id < 65536 → em_ok (w_em w) → pases w !! p = Some s →
  _responderSessionId s = number id → _initiatorSessionId s = number id →
  getSecureSession id (em_sessions (w_em w)) = None →
  createSecureSession p w = (w', Ret tt) →
  ∃ x i2r r2i, em_ok (w_em w') ∧
    open_session (w_em w') id (length (node_sessions w)) x i2r r2i.
Proof.
  intros Hid Hem Hs Hr Hi Hg H.
  destruct (pase_session_found p w w' s id Hem Hs Hr Hi Hg H)
    as (x & i2r & r2i & Hem' & Hn & Hf & Hini & Hc & Hk1 & Hk2 & Hl1 & Hl2).
  exists x, i2r, r2i. split; [done|]. split; try done.
  change (node_sessions w' !! length (node_sessions w) = Some x). rewrite Hn.
  by apply list_lookup_middle.
Qed.
End node.

(** ** Concrete instances *)

Definition bare_request : buffer :=
  secure_message 3000 9 (sent_flags true true false) ReadRequest 77 IM_PROTOCOL_ID
    (elems_bytes (read_request demo_reads)).

Lemma bare_request_served_witness :
  node_receive bare_request demo_peer demo_end
  = node_receive (demo_sealed ReadRequest (read_request demo_reads)) demo_peer demo_end.
Proof.
  apply (bare_request_served (HL := toy_aead_laws) demo_end 3000 9 77 0 demo_open (demo_key kI2RKey)
           (demo_key kR2IKey) (demo_sealed ReadRequest (read_request demo_reads)) ReadRequest
           (elems_bytes (read_request demo_reads)) demo_peer true).
  - exact demo_em_ok.
  - done.
  - apply demo_request_on. vm_compute. reflexivity.
  - vm_compute. reflexivity.
Defined.

(** A stranger to a node that has just started *)
Definition demo_alone : Node :=
  Nd (Process_new (∅ : gmap string jsstr) []) (Discovery_new [])
     (PaseWorld_new (ExchangeManager_new (SessionManager_new zero_runtime))) [] [].

Lemma stranger_served_witness :
  let reply := elems_bytes (report_data (concat demo_reports)) in
  ∃ n' d k, node_receive (demo_sealed ReadRequest (read_request demo_reads)) demo_peer demo_alone
            = (n', Ret tt) ∧
    node_sent n' = [] ++ [d] ∧ dg_port d = 5540 ∧ dg_host d = "fe80::2"%string ∧
    dg_transport d = Server ∧ client_gets d test_r2i 77 k true ReportData reply ∧
    decode_json reply = Ret (JArr (elem_json <$> report_data (concat demo_reports))).
Proof.
  apply (stranger_served (HL := toy_aead_laws) demo_alone demo_reads demo_reports 3000 9 77
           (demo_sealed ReadRequest (read_request demo_reads)) demo_peer true).
  - exact (em_new_ok _).
  - lia.
  - reflexivity.
  - repeat constructor; unfold id_ok, UINT32_MAX; cbn; lia.
  - vm_compute. reflexivity.
  - done.
  - done.
  - vm_compute. reflexivity.
  - vm_compute. reflexivity.
Defined.
