(* ===== verification/App.v ===== *)
(** * The process (app.ts, src/net/UdpServer.js, src/net/UdpClient.js)

    The program from its start to its end: the two sockets and what they hand on, messages
    of a parent process, and what ends the process.  Nothing in the program catches an
    exception that leaves a callback, and nothing listens to promises that are rejected;
    both end the process, in every version of Node the package asks for. *)
From S2P Require Import Prelude JsNumber JsString Aead Message Runtime SessionManager ExchangeManager.
From S2P Require Import Spake Pase Ecdsa Certificate ClusterServers InteractionModel Store Shell.
From S2P Require Import Utilities Discovery Node Tools Cli.

(** How a process ends *)
Inductive ending : Type :=
  | Exited
  | Uncaught (e : js_error)
  | Unhandled (e : js_error).

(** The two sockets, and the transport each is for the message layer *)
Inductive socket : Type :=
  | ServerSocket
  | ClientSocket.

Definition transport_of (k : socket) : nat :=
  match k with ServerSocket => Server | ClientSocket => Client end.

(** What a socket tells its listeners *)
Inductive socket_event : Type :=
  | Listening
  | SocketError (e : js_error)
  | Received (buf : buffer) (host : string) (port : Z)
  | SendDone (err : option js_error).

Section app.
Context `{Aead} `{Kdf} `{Spake} `{Ecdsa} `{X509} `{LocalStorage} `{Pino} `{!Yargs}.

(** [ap_bound] is the port the server's socket was bound to. *)
Record App : Type := App_ {
  ap_tools : Tools;
  ap_bound : option setting;
  ap_end : option ending }.

(** The promises that were rejected, of the secure channel and of the Interaction Model *)
Definition rejected (t : Tools) : list js_error * list js_error :=
  (rejections (nd_pase (tl_node t)), nd_im_rejections (tl_node t)).

(** The first of those that [t'] has and [t] has not *)
Definition newly_rejected (t t' : Tools) : option js_error :=
  head (drop (length (rejected t).1) (rejected t').1 ++ drop (length (rejected t).2) (rejected t').2).

(** The listeners of the process's end run, the tracer's among them. *)
Definition close_trace (t : Tools) : Tools :=
  Tools_ (tl_node t) (printed t) (Tracer.writeFooter (trace t)).1 true.

(** A callback runs, and then the microtasks do. *)
Definition run (m : js Tools unit) (a : App) : App :=
  match ap_end a with
  | Some _ => a
  | None =>
      let '(t, r) := m (ap_tools a) in
      if exited t then App_ t (ap_bound a) (Some Exited)
      else match r, newly_rejected (ap_tools a) t with
           | Throw e, _ => App_ (close_trace t) (ap_bound a) (Some (Uncaught e))
           | Ret _, Some e => App_ (close_trace t) (ap_bound a) (Some (Unhandled e))
           | Ret _, None => App_ t (ap_bound a) None
           end
  end.

(** ** The sockets *)

(** The listener that [SessionManager.addSocket(udpSocket)] registers adds the socket to what
    is known of the peer. *)
Definition addSocket_listener (k : socket) (buf : buffer) (host : string) (port : Z)
    : js Tools unit :=
  react (Datagram_ buf (Peer host port (transport_of k))).

(** The callback of [send]: [if (err) throw err] *)
Definition send_callback (err : option js_error) : js Tools unit :=
  match err with Some e => js_throw e | None => mret tt end.

(** The callbacks; an error has no listener but the class's own, which emits it again. *)
Definition UdpServer_callback (e : socket_event) : js Tools unit :=
  match e with
  | Listening => mret tt
  | SocketError err => js_lift (Udp.UdpServer_onError 0 err true).2
  | Received buf host port => addSocket_listener ServerSocket buf host port
  | SendDone err => send_callback err
  end.

Definition UdpClient_callback (e : socket_event) : js Tools unit :=
  match e with
  | Listening => mret tt
  | SocketError err => js_lift (Udp.UdpClient_onError 0 err true).2
  | Received buf host port => addSocket_listener ClientSocket buf host port
  | SendDone err => send_callback err
  end.

Definition socket_callback (k : socket) : socket_event → js Tools unit :=
  match k with ServerSocket => UdpServer_callback | ClientSocket => UdpClient_callback end.

(** ** The application *)

(** [process.on("message")] *)
Definition onIpc (message : jsstr) : js Tools unit :=
  print "Message to app.js: " message ;;
  if bool_decide (message = js_str "exit") then process_exit else mret tt.

(** [main()], up to [theNode.start()] *)
Definition process_main (args : list jsstr) (fresh : buffer) : js Tools unit :=
  nodenum ← js_lift (match args with a :: _ => js_Number (Text a) | [] => Ret (Num 0) end);
  print "Started Node #" (js_String nodenum) ;;
  on_node (node_init fresh) ;;
  match args with
  | _ :: _ => on_node (in_process (set_NodeNum nodenum)) ;; print "nodenum: " (js_String nodenum)
  | [] => mret tt
  end ;;
  dump.

(** [UdpServer.start()]: the socket is bound to the port of the store; what the operating
    system makes of it is an event of the socket. *)
Definition UdpServer_start (a : App) : App :=
  match ap_end a with
  | Some _ => a
  | None => App_ (ap_tools a) (Some (store (nd_process (tl_node (ap_tools a))) F_ipPort)) None
  end.

(** [theNode.start()] *)
Definition Node_start (a : App) : App := UdpServer_start a.

(** A process that starts on the storage [st], with the interfaces and the randomness of its
    surroundings; the exception of [main()] is the rejection of its promise. *)
Definition app_start (args : list jsstr) (fresh : buffer) (n : Node) (tr : Tracer.Tracer) : App :=
  let '(t, r) := process_main args fresh (Tools_ n [] tr false) in
  match r with
  | Ret _ => Node_start (App_ t None None)
  | Throw e => App_ (close_trace t) None (Some (Unhandled e))
  end.

(** What happens to the process: something on a socket, an exception in a callback of a
    package (as [multicast-dns] has when it is to encode a record that it cannot), a message of
    the parent process, or one of the other events of the command line's process. *)
Inductive app_event : Type :=
  | OnSocket (k : socket) (e : socket_event)
  | OnPackage (e : js_error)
  | OnIpc (message : jsstr)
  | OnOther (e : cli_event).

Definition app_callback (e : app_event) : js Tools unit :=
  match e with
  | OnSocket k e => socket_callback k e
  | OnPackage e => js_throw e
  | OnIpc message => onIpc message
  | OnOther e => react e
  end.

Definition app_react (e : app_event) (a : App) : App := run (app_callback e) a.
Definition app_run (l : list app_event) (a : App) : App := foldl (λ a e, app_react e a) a l.
End app.
