(* ===== verification/AppTheorems.v ===== *)
(** * What the process does (App.v)

    Its invariant, and how little it takes to end it. *)
From S2P Require Import Prelude JsNumber JsString TlvType TlvCodec TlvElement TlvReader Aead MsgCodec.
From S2P Require Import Message MessageTheorems Runtime SessionCryptoContext Session SessionManager.
From S2P Require Import Exchange ExchangeManager MessagingFacts MessagingTheorems SecureMessage JsValue.
From S2P Require Import Spake Pase PaseInvariant PaseSessions ImConst ImCommand Clusters ExampleCerts.
From S2P Require Import Ecdsa Certificate ClusterServers InteractionModel ImSpec ImFacts ImTheorems.
From S2P Require Import Store Shell StoreTheorems Utilities Discovery Node NodeTheorems Tools Cli.
From S2P Require Import ToolsTheorems CliTheorems EndToEnd NocTheorems Strangers App.

Section app.
Context `{HA : Aead} `{HK : Kdf} `{HS : Spake} `{HE : Ecdsa} `{HX : X509}.
Context `{HT : LocalStorage} `{HP : Pino} `{HY : !Yargs}.

(** ** The end is the end *)

Lemma react_ended e a : ap_end a ≠ None → app_react e a = a.
Proof. unfold app_react, run. by destruct (ap_end a). Qed.

Lemma run_ended l a : ap_end a ≠ None → app_run l a = a.
Proof.
  intros Ha. unfold app_run. induction l as [|e l IH]; [done|]. cbn [foldl].
  by rewrite react_ended.
Qed.

Lemma app_run_snoc l e a : app_run (l ++ [e]) a = app_react e (app_run l a).
Proof. unfold app_run. by rewrite foldl_app. Qed.

(** ** The invariant *)

Section kept.
Context (Q : Node → Prop) `{HQ : !KeptByNode Q}.

Lemma keeps_callback e : keeps (λ t, Q (tl_node t)) (app_callback e).
Proof.
  destruct e as [k e|e|message|e]; cbn [app_callback].
  - destruct k, e as [|err|buf host port|[err|]];
      first [apply keeps_ret | apply keeps_lift | apply keeps_throw | by apply keeps_react].
  - apply keeps_throw.
  - unfold onIpc. apply keeps_bind; [by apply keeps_print|intros ?].
    case_bool_decide; [by apply keeps_exit|apply keeps_ret].
  - by apply keeps_react.
Qed.

Lemma keeps_app e a : Q (tl_node (ap_tools a)) → Q (tl_node (ap_tools (app_react e a))).
Proof.
  intros Ha. unfold app_react, run. destruct (ap_end a); [done|].
  pose proof (keeps_callback e (ap_tools a) Ha) as Hk.
  destruct (app_callback e (ap_tools a)) as [t r]. cbn [fst] in Hk.
  destruct (exited t); [done|]. destruct r; [|done]. by destruct (newly_rejected _ _).
Qed.

Lemma keeps_app_run l a : Q (tl_node (ap_tools a)) → Q (tl_node (ap_tools (app_run l a))).
Proof.
  induction l as [|e l IH] using rev_ind; [done|]. intros Ha. rewrite app_run_snoc.
  by apply keeps_app, IH.
Qed.
End kept.

(** The start does to the node what [node_main] does; the rest of it only prints. *)
Lemma dump_run t : ∃ l, dump t = (show l t, Ret tt).
Proof.
  unfold dump. cbn [js_forEach].
  repeat (erewrite js_bind_eq by (rewrite get_setting_bind; apply print_run)).
  eexists. rewrite !show_show. reflexivity.
Qed.

Lemma dump_node t : tl_node (dump t).1 = tl_node t.
Proof. by destruct (dump_run t) as [l ->]. Qed.

Lemma dump_exited t : exited (dump t).1 = exited t.
Proof. by destruct (dump_run t) as [l ->]. Qed.

Lemma process_main_node args fresh n tr :
  tl_node (process_main args fresh (Tools_ n [] tr false)).1 = (node_main args fresh n).1.
Proof.
  unfold process_main, node_main.
  destruct (match args with a :: _ => js_Number (Text a) | [] => Ret (Num 0) end) as [v|e]; [|done].
  rewrite !js_bind_lift, print_bind. unfold mbind, js_bind, on_node, zoom.
  cbn [tl_node show]. destruct (node_init fresh n) as [n1 [[]|e]]; [|done].
  destruct args as [|a args]; [apply dump_node|]. cbn [set_tl_node tl_node].
  destruct (in_process (set_NodeNum v) n1) as [n2 [[]|e]]; [apply dump_node|done].
Qed.

Lemma app_start_node args fresh n tr :
  tl_node (ap_tools (app_start args fresh n tr)) = (node_main args fresh n).1.
Proof.
  rewrite <- (process_main_node args fresh n tr). unfold app_start.
  by destruct (process_main args fresh (Tools_ n [] tr false)) as [t [[]|e]].
Qed.
(** A process that has not ended has not exited, and its server's socket has the port it was
    bound to at the start. *)
Definition serves (p : option setting) (a : App) : Prop :=
  ap_end a = None → exited (ap_tools a) = false ∧ ap_bound a = p.

Lemma serves_react p e a : serves p a → serves p (app_react e a).
Proof.
  intros Ha. unfold app_react, run, serves. destruct (ap_end a) eqn:E; [by rewrite E|].
  destruct (app_callback e (ap_tools a)) as [t r]. destruct (exited t) eqn:Et; [done|].
  destruct r; [|done]. destruct (newly_rejected _ _); [done|]. intros _. cbn.
  split; [done|apply Ha, E].
Qed.

Lemma serves_run p l a : serves p a → serves p (app_run l a).
Proof.
  induction l as [|e l IH] using rev_ind; [done|]. intros Ha. rewrite app_run_snoc.
  by apply serves_react, IH.
Qed.

Lemma serves_start args fresh n tr :
  serves (Some (store (nd_process (node_main args fresh n).1) F_ipPort)) (app_start args fresh n tr).
Proof.
  rewrite <- (process_main_node args fresh n tr). unfold app_start, serves.
  destruct (process_main args fresh (Tools_ n [] tr false)) as [t [[]|e]] eqn:E; [|done].
  intros _. cbn. split; [|done].
  pose proof (f_equal (exited ∘ fst) E) as Ht. cbn in Ht. rewrite <- Ht. clear E Ht.
  unfold process_main.
  destruct (match args with a :: _ => js_Number (Text a) | [] => Ret (Num 0) end) as [v|e]; [|done].
  rewrite !js_bind_lift, print_bind. unfold mbind, js_bind, on_node, zoom.
  cbn [tl_node show]. destruct (node_init fresh n) as [n1 [[]|e]]; [|done].
  destruct args as [|a args].
  - apply dump_exited.
  - cbn [set_tl_node tl_node].
    destruct (in_process (set_NodeNum v) n1) as [n2 [[]|e]]; [|done].
    apply dump_exited.
Qed.
(** ** Datagrams that end it *)

Definition app_sent (a : App) : list datagram := node_sent (tl_node (ap_tools a)).

Definition running (a : App) : Prop := ap_end a = None ∧ exited (ap_tools a) = false.

(** An exception of the node's handler, and whatever comes afterwards *)
Lemma received_throw a k buf host port n e :
  running a → node_receive buf (Peer host port (transport_of k)) (tl_node (ap_tools a)) = (n, Throw e) →
  let a' := app_react (OnSocket k (Received buf host port)) a in
  ap_end a' = Some (Uncaught e) ∧ app_sent a' = node_sent n ∧ ∀ l, app_run l a' = a'.
Proof.
  intros [He Hx] Hr a'.
  assert (a' = App_ (close_trace (set_tl_node n (ap_tools a))) (ap_bound a) (Some (Uncaught e)))
    as Ha'.
  { unfold a', app_react, run. rewrite He.
    replace (app_callback _) with (cli_receive buf (Peer host port (transport_of k)))
      by (by destruct k).
    unfold cli_receive, mbind, js_bind, on_node, zoom. rewrite Hr. cbn [set_tl_node exited].
    by rewrite Hx. }
  rewrite Ha'. split_and!; [done..|]. intros l. by apply run_ended.
Qed.

(** A callback that returns, and rejects promises *)
Lemma received_rejects a k buf host port n l e msg sm :
  let peer := Peer host port (transport_of k) in
  let n0 := tl_node (ap_tools a) in
  running a → node_receive buf peer n0 = (n, Ret tt) →
  isUnencrypted (Message_new (Some buf) None (Some peer)) = Ret false →
  SessionManager_onMessage buf peer (em_sessions (w_em (nd_pase n0))) = (sm, Ret msg) →
  _encrypted msg.1 = Some buf → _peerInfo msg.1 = Some peer →
  rejections (nd_pase n) = rejections (nd_pase n0) →
  nd_im_rejections n = nd_im_rejections n0 ++ e :: l →
  let a' := app_react (OnSocket k (Received buf host port)) a in
  ap_end a' = Some (Unhandled e) ∧ app_sent a' = node_sent n ∧ ∀ l, app_run l a' = a'.
Proof.
  intros peer n0 [He Hx] Hr Hu Hm Henc Hpeer Hp Hi a'.
  assert (∃ t, cli_receive buf peer (ap_tools a) = (t, Ret tt) ∧ tl_node t = n ∧ exited t = false)
    as (t & Ht & Hn & Hex).
  { eexists. split; [|split].
    - unfold cli_receive. unfold mbind at 1, js_bind at 1, on_node at 1, zoom at 1. fold n0.
      rewrite Hr, Hu, js_bind_lift.
      change (emitted buf peer (ap_tools a)) with
        (fst <$> (SessionManager_onMessage buf peer (em_sessions (w_em (nd_pase n0)))).2).
      rewrite Hm. cbn [snd fmap outcome_fmap]. rewrite js_bind_lift.
      unfold onMsg. rewrite Henc, js_bind_lift, Hpeer, js_bind_lift, print_bind. apply print_run.
    - done.
    - exact Hx. }
  assert (a' = App_ (close_trace t) (ap_bound a) (Some (Unhandled e))) as Ha'.
  { unfold a', app_react, run. rewrite He.
    replace (app_callback _) with (cli_receive buf peer) by (by destruct k).
    rewrite Ht, Hex. unfold newly_rejected, rejected. rewrite Hn. fold n0.
    cbn [fst snd]. by rewrite Hp, Hi, drop_all, drop_app_length. }
  rewrite Ha'. split_and!; [done|by rewrite <- Hn|]. intros l'. by apply run_ended.
Qed.
End app.

(** ** Theorems *)
Section theorems.
Context `{HA : Aead} `{HK : Kdf} `{HS : Spake} `{HE : Ecdsa} `{HX : X509} `{HY : !Yargs}.
Context `{HL : LocalStorage} `{HP : Pino}.

(** C4: anyone ends the process.  In every state of a running node, a datagram of fewer than
    four octets, from anywhere and on either socket, ends the process with an uncaught
    RangeError; a read request with one path that cannot be answered (an endpoint the node
    does not have, or any attribute of the operational credentials cluster) ends it with an
    uncaught TypeError, and to send one it is enough to know the test keys.  Nothing is
    sent, and nothing that happens afterwards has an effect. *)
Theorem anyone_ends_process {HAL : AeadLaws HA} (a : App) (k : socket) (host : string) (port : Z) :
  let m := w_em (nd_pase (tl_node (ap_tools a))) in
  let ends buf e :=
    let a' := app_react (OnSocket k (Received buf host port)) a in
    ap_end a' = Some (Uncaught e) ∧ app_sent a' = app_sent a ∧ ∀ l, app_run l a' = a' in
  running a → em_ok m →
  (∀ buf, blen buf < 4 → ends buf RangeError) ∧
  (∀ l req id ctr xid reliable buf,
     Forall attribute_request_ok l → req ∈ l → unanswerable req →
     0 < id < 65536 → getSecureSession id (em_sessions m) = None → fits 4 ctr → fits 2 xid →
     encrypt (secure_message id ctr (sent_flags true reliable false) ReadRequest xid
                IM_PROTOCOL_ID (elems_bytes (read_request l))) test_i2r = Ret buf →
     ends buf TypeError).
Proof.
  intros m ends Ha Hm. split.
  - intros buf Hb. set (n := tl_node (ap_tools a)).
    apply (received_throw a k buf host port (set_nd_pase (set_em m (nd_pase n)) n) RangeError Ha).
    unfold node_receive, mbind, js_bind, in_pase, in_em, zoom.
    by rewrite short_datagram_throws.
  - intros l req id ctr xid reliable buf Hl Hreq Hun Hid Hg Hc Hx Hb.
    destruct (stranger_read_throws (tl_node (ap_tools a)) l req id ctr xid reliable buf
      (Peer host port (transport_of k)) Hm Hid Hg Hc Hx Hl Hreq Hun Hb) as (n' & Hr & Hs).
    unfold ends, app_sent. rewrite <- Hs. by apply received_throw.
Qed.

(** C35: a certificate ends the process.  Whoever knows the test keys sends an AddNoc command whose
    certificate the node cannot decode: it gets the response with the status 0, and then
    the promise that decoded the certificate, which nothing listens to, ends the process. *)
Theorem bad_noc_ends_process {HAL : AeadLaws HA} (a : App) (k : socket) (host : string) (port : Z)
    (suppress timed : bool) (c : command) (noc : buffer) (e1 e2 e3 : elem) (rest : list elem)
    (id ctr xid : Z) (reliable : bool) (buf : buffer) (e : js_error) :
  let m := w_em (nd_pase (tl_node (ap_tools a))) in
  let a' := app_react (OnSocket k (Received buf host port)) a in
  running a → em_ok m →
  0 < id < 65536 → getSecureSession id (em_sessions m) = None → fits 4 ctr → fits 2 xid →
  command_ok c → wide_data c = false → cmd_endpoint c = 0 → cmd_cluster c = 62 → cmd_id c = 6 →
  cmd_data c = octets 0 noc :: e1 :: e2 :: e3 :: rest →
  proccessNoc (JBuf noc) = Throw e →
  encrypt (secure_message id ctr (sent_flags true reliable false) CommandRequest xid IM_PROTOCOL_ID
             (elems_bytes (invoke_request suppress timed [c]))) test_i2r = Ret buf →
  ap_end a' = Some (Unhandled e) ∧ (∀ l, app_run l a' = a') ∧
  ∃ d ctr', app_sent a' = app_sent a ++ [d] ∧ dg_port d = port ∧ dg_host d = host ∧
    client_gets d test_r2i xid ctr' reliable CommandResponse
      (elems_bytes (data_response c 8 [uint 0 0; uint 1 1])).
Proof.
  intros m a' Ha Hm Hid Hg Hc Hx Hcmd Hw He0 H62 H6 Hd Hnoc Hb.
  set (peer := Peer host port (transport_of k)). set (n0 := tl_node (ap_tools a)).
  destruct (stranger_admitted n0 id ctr xid reliable CommandRequest _ buf peer Hm Hid Hg Hc Hx Hb)
    as (s & Hr & Hm' & Hq & _ & Hsent).
  destruct (stranger_message n0 id ctr xid reliable CommandRequest _ buf peer Hm Hid Hg Hc Hb)
    as (Hu & sm & sid & Hmsg).
  destruct (noc_reply (acquainted id n0) suppress timed c noc e1 e2 e3 rest id ctr xid _ s test_i2r
    test_r2i buf peer reliable Hm' Hcmd Hw He0 H62 H6 Hd (request_on_at _ _ _ _ _ _ _ _ _ _ _ _ Hq))
    as (n' & d & Hrun & Hsd & (Hp & Hh & _) & _ & _ & _ & Hrej & Hpase & Hcl).
  rewrite <- Hr in Hrun. unfold noc_errors in Hrej. rewrite Hnoc in Hrej.
  destruct (received_rejects a k buf host port n' [] e _ sm Ha Hrun Hu Hmsg eq_refl eq_refl
    Hpase Hrej) as (Hend & Hs & Hstay).
  split; [exact Hend|]. split; [exact Hstay|]. exists d, (_messageCounter s).
  split; [|by split_and!].
  etransitivity; [exact Hs|]. by rewrite Hsd, Hsent.
Qed.

(** C3: in every state the process reaches, from a start on an empty storage or on the one
    of an earlier run, whatever happens to it (datagrams and errors on its sockets,
    exceptions in packages, timers, jobs that resume, DNS-SD queries, messages of a parent process and lines typed into the
    shell, in any order, with the exceptions they throw): the tables of sessions and
    exchanges are consistent, every PASE session that waits has exactly its timer, the store
    agrees with the storage, and every waiting CSR job belongs to an exchange that exists.
    The target that discovery advertises is the one of the start, also after a command
    changed the node id or the fabric id, and while the process runs the server's socket is
    bound to the port that the store had at the start. *)
Theorem app_invariant {HLL : LocalStorageLaws HL} {HPL : PinoLaws HP} (st : storage)
    (level : jsstr) (interfaces : list (jsstr * option jsstr)) (r : runtime) (args : list jsstr)
    (fresh : buffer) (tr : Tracer.Tracer) (l : list app_event) :
  ec_valid TEST_DAC_PRIVKEY = true →
  storage_ok st → known_level level = true → args_ok args →
  let n0 := Node_new st level interfaces r in
  let a := app_run l (app_start args fresh n0 tr) in
  let n := tl_node (ap_tools a) in
  (em_ok (w_em (nd_pase n)) ∧ timers_ok (nd_pase n) ∧ persisted (nd_process n) ∧
   jobs_ok (w_em (nd_pase n)) (nd_csr_jobs n)) ∧
  mdnsTarget (nd_discovery n) =
    store_mdnsTarget (store (store_init fresh (Process_new st level)).1) ∧
  (ap_end a = None → exited (ap_tools a) = false ∧
   ap_bound a = Some (store (nd_process (node_main args fresh n0).1) F_ipPort)).
Proof.
  intros Hk Hst Hl Ha n0 a n.
  destruct (node_start Hk st level interfaces r args fresh Hst Hl Ha) as [Hn Ht].
  fold n0 in Hn, Ht. rewrite <- (app_start_node args fresh n0 tr) in Hn, Ht.
  split; [|split].
  - assert (node_ok n) as ([? ?] & ? & ?); [|by split_and!].
    by apply (keeps_app_run node_ok (HQ := node_ok_kept)).
  - by apply (keeps_app_run (λ n, targets _ (nd_discovery n)) (HQ := targets_kept _)).
  - exact (serves_run _ l _ (serves_start args fresh n0 tr)).
Qed.
End theorems.

(** ** Concrete instances *)

(** A process that has started on an empty storage, and one whose node has been set up *)
Definition demo_app (l : list app_event) : App :=
  app_run l (app_start [js_str "1"] [Byte.x0a]
    (Node_new (∅ : gmap string jsstr) (js_str "info") [(js_str "en0", Some (js_str "fe80::1"))]
       demo_runtime) (Tracer.Tracer_new 7 3)).

Definition demo_happenings : list app_event :=
  [OnSocket ServerSocket Listening; OnOther (Line_ 4 (js_str " nodeid 7")); OnIpc (js_str "hello");
   OnSocket ClientSocket (Received [Byte.x01; Byte.x02] "fe80::2" 5540);
   OnOther (Line_ 4 (js_str "nodeid 8"))].

Lemma app_invariant_witness :
  let n := tl_node (ap_tools (demo_app demo_happenings)) in
  ap_end (demo_app (take 3 demo_happenings)) = None ∧
  ap_end (demo_app demo_happenings) = Some (Uncaught RangeError) ∧
  (em_ok (w_em (nd_pase n)) ∧ timers_ok (nd_pase n) ∧ persisted (nd_process n) ∧
   jobs_ok (w_em (nd_pase n)) (nd_csr_jobs n)) ∧
  mdnsTarget (nd_discovery n) =
    store_mdnsTarget (store (store_init [Byte.x0a]
      (Process_new (∅ : gmap string jsstr) (js_str "info"))).1).
Proof.
  intros n. split; [vm_compute; reflexivity|]. split; [vm_compute; reflexivity|].
  assert (ec_valid TEST_DAC_PRIVKEY = true) as Hk by (vm_compute; reflexivity).
  destruct (app_invariant (HL := toy_storage) (HP := toy_pino) ∅ (js_str "info")
           [(js_str "en0", Some (js_str "fe80::1"))] demo_runtime [js_str "1"] [Byte.x0a]
           (Tracer.Tracer_new 7 3) demo_happenings Hk) as (H1 & H2 & _).
  - left. intros k. exact (lookup_empty (M := gmap string) k).
  - vm_compute. reflexivity.
  - vm_compute. reflexivity.
  - split; [exact H1|exact H2].
Defined.

Definition demo_running : App :=
  App_ (Tools_ demo_alone [] (Tracer.Tracer_new 7 3) false) (Some (Num 5540)) None.

Definition demo_bad_reads : list attribute_request := [Req (Some 0) 40 4; Req (Some 9) 40 4].

Definition demo_deadly : buffer := demo_sealed ReadRequest (read_request demo_bad_reads).

Lemma anyone_ends_process_witness :
  let ends buf e :=
    let a := app_react (OnSocket ServerSocket (Received buf "fe80::2" 5540)) demo_running in
    ap_end a = Some (Uncaught e) ∧ app_sent a = [] ∧ ∀ l, app_run l a = a in
  ends [Byte.x00; Byte.x01; Byte.x02] RangeError ∧ ends demo_deadly TypeError.
Proof.
  assert (em_ok (w_em (nd_pase (tl_node (ap_tools demo_running))))) as Hm by exact (em_new_ok _).
  assert (running demo_running) as Hr by done.
  destruct (anyone_ends_process (HAL := toy_aead_laws) demo_running ServerSocket "fe80::2"%string 5540 Hr Hm)
    as [Hshort Hread].
  split.
  - apply Hshort. unfold blen. cbn. lia.
  - apply (Hread demo_bad_reads (Req (Some 9) 40 4) 3000 9 77 true demo_deadly).
    + repeat constructor; unfold id_ok, UINT32_MAX; cbn; lia.
    + right. left.
    + left. exists 9. split; [done|]. apply (bool_decide_unpack _). vm_compute. exact I.
    + lia.
    + reflexivity.
    + done.
    + done.
    + vm_compute. reflexivity.
Defined.

Definition demo_bad_noc : command := demo_noc [].

Lemma bad_noc_ends_process_witness :
  let a := app_react (OnSocket ServerSocket (Received
             (demo_sealed CommandRequest (invoke_request false false [demo_bad_noc]))
             "fe80::2" 5540)) demo_running in
  ap_end a = Some (Unhandled TypeError) ∧ (∀ l, app_run l a = a) ∧
  ∃ d ctr', app_sent a = [] ++ [d] ∧ dg_port d = 5540 ∧ dg_host d = "fe80::2"%string ∧
    client_gets d test_r2i 77 ctr' true CommandResponse
      (elems_bytes (data_response demo_bad_noc 8 [uint 0 0; uint 1 1])).
Proof.
  apply (bad_noc_ends_process (HAL := toy_aead_laws) demo_running ServerSocket "fe80::2"%string 5540
           false false demo_bad_noc [] (octets 1 []) (octets 2 (alloc 16)) (uint 3 112233)
           [uint 4 65521] 3000 9 77 true
           (demo_sealed CommandRequest (invoke_request false false [demo_bad_noc])) TypeError).
  - done.
  - exact (em_new_ok _).
  - lia.
  - reflexivity.
  - done.
  - done.
  - apply demo_noc_ok. vm_compute. discriminate.
  - vm_compute. reflexivity.
  - reflexivity.
  - reflexivity.
  - reflexivity.
  - reflexivity.
  - vm_compute. reflexivity.
  - vm_compute. reflexivity.
Defined.
